(** * YACK: the CW keyer library of the ATTiny85 keyer (yack.c)

    A shallow embedding of yack.c: the Morse code table with its encoder
    ([yackchar]) and decoder ([morsechar]), the playback routines, the speed
    and Farnsworth settings, the command-key scanner, message recording and
    the iambic keyer state machine ([yackiambic]).

    Conventions.
    - [byte] and [word] variables are [Z] values; the wrap-around of the
      8 and 16 bit registers is written out with [u8] and [u16].
    - The constants of yack.h are the fields of the record [header]; the
      functions are defined inside a Section over an arbitrary header.
    - The pins are inputs of the functions that read them; the calls of
      [key], [yackbeat] and [_delay_ms] are recorded, in order, in the
      [hw] log of the state. *)

From Stdlib Require Import ZArith List Bool Lia Ascii String.
Import ListNotations.
Open Scope Z_scope.

(** ** Machine integers *)

Definition u8 (x : Z) : Z := x mod 256.
Definition u16 (x : Z) : Z := x mod 65536.

(** [if (x) x--;] *)
Definition dec (x : Z) : Z := if x =? 0 then 0 else x - 1.

(** A character constant of the C source. *)
Definition chr (a : ascii) : Z := Z.of_nat (nat_of_ascii a).

(** A binary constant [0b...] of the C source. *)
Fixpoint bin_from (acc : Z) (s : string) : Z :=
  match s with
  | EmptyString => acc
  | String d rest => bin_from (2 * acc + (if Ascii.eqb d "1" then 1 else 0)) rest
  end.

Definition bin (s : string) : Z := bin_from 0 s.

(** ** Enumerations *)

Inductive iambicState_t :=
| STATE_IDLE
| STATE_DAHDIT_INIT
| STATE_DAHDIT
| STATE_IEG
| STATE_ICG
| STATE_IWG.

Inductive symbol_t :=
| SYMBOL_NONE
| SYMBOL_DIT
| SYMBOL_DAH
| SYMBOL_OPPOSITE.

Inductive pressedKeys_t :=
| PRESSED_NONE
| PRESSED_ONE
| PRESSED_BOTH
| PRESSED_DONT_CARE.

Definition iambicState_eqb (a b : iambicState_t) : bool :=
  match a, b with
  | STATE_IDLE, STATE_IDLE
  | STATE_DAHDIT_INIT, STATE_DAHDIT_INIT
  | STATE_DAHDIT, STATE_DAHDIT
  | STATE_IEG, STATE_IEG
  | STATE_ICG, STATE_ICG
  | STATE_IWG, STATE_IWG => true
  | _, _ => false
  end.

Definition symbol_eqb (a b : symbol_t) : bool :=
  match a, b with
  | SYMBOL_NONE, SYMBOL_NONE
  | SYMBOL_DIT, SYMBOL_DIT
  | SYMBOL_DAH, SYMBOL_DAH
  | SYMBOL_OPPOSITE, SYMBOL_OPPOSITE => true
  | _, _ => false
  end.

(** ** The constants of yack.h *)

Record header := {
  YACKBEAT : Z;      (* heartbeat period in ms *)
  YACKSECS : Z -> Z; (* seconds to heartbeats *)
  DEFWPM : Z;
  MINWPM : Z;
  MAXWPM : Z;
  MAXFARN : Z;
  DEFCTC : Z;
  FLAGDEFAULT : Z;
  MAGPAT : Z;
  DITLEN : Z;
  DAHLEN : Z;
  IEGLEN : Z;
  ICGLEN : Z;
  IWGLEN : Z;
  KEYDEBOUNCE : Z;
  RBSIZE : Z;
  DEFTIMEOUT : Z;
  UP : Z;
  DOWN : Z;
  ON : Z;
  OFF : Z;
  TRUE : Z;
  FALSE : Z;
  DIT : Z;
  DAH : Z;
  FARNSWORTH : Z;
  WPMSPEED : Z;
  RECORD : Z;
  PLAY : Z;
  (* bits of yackflags *)
  MODE : Z;
  IAMBICB : Z;
  SIDETONE : Z;
  TXKEY : Z;
  PDLSWAP : Z;
  (* bits of volflags *)
  DITLATCH : Z;
  DAHLATCH : Z;
  SQUEEZED : Z;
  DIRTYFLAG : Z;
  CKLATCH : Z
}.

(** ** Flash data *)

(** The Morse code table.  Each byte is read from the left, 0 is a dot and
    1 is a dash; the last 1 followed by zeros only is the stop marker. *)
Definition morse : list Z :=
  [ bin "11111100" (* 0 *); bin "01111100" (* 1 *); bin "00111100" (* 2 *);
    bin "00011100" (* 3 *); bin "00001100" (* 4 *); bin "00000100" (* 5 *);
    bin "10000100" (* 6 *); bin "11000100" (* 7 *); bin "11100100" (* 8 *);
    bin "11110100" (* 9 *);
    bin "01100000" (* A *); bin "10001000" (* B *); bin "10101000" (* C *);
    bin "10010000" (* D *); bin "01000000" (* E *); bin "00101000" (* F *);
    bin "11010000" (* G *); bin "00001000" (* H *); bin "00100000" (* I *);
    bin "01111000" (* J *); bin "10110000" (* K *); bin "01001000" (* L *);
    bin "11100000" (* M *); bin "10100000" (* N *); bin "11110000" (* O *);
    bin "01101000" (* P *); bin "11011000" (* Q *); bin "01010000" (* R *);
    bin "00010000" (* S *); bin "11000000" (* T *); bin "00110000" (* U *);
    bin "00011000" (* V *); bin "01110000" (* W *); bin "10011000" (* X *);
    bin "10111000" (* Y *); bin "11001000" (* Z *);
    bin "00110010" (* ? *); bin "01010110" (* . *); bin "10010100" (* / *);
    bin "11101000" (* ! *); bin "11001110" (* , *); bin "11100010" (* : *);
    bin "10101010" (* ; *); bin "01001010" (* quote *); bin "00010011" (* $ *);
    bin "01111010" (* apostrophe *); bin "10110100" (* ( and KN *);
    bin "10110110" (* ) *); bin "10000110" (* - *); bin "01101010" (* @ *);
    bin "00110110" (* _ *); bin "01010010" (* paragraph *);
    bin "10001100" (* = and BT *);
    bin "00010110" (* SK *); bin "01010100" (* + and AR *); bin "10001011" (* BK *);
    bin "01000100" (* AS *); bin "10101100" (* KA *); bin "00010100" (* VE *);
    bin "01011000" (* AA *) ].

(** The characters of the entries 36.. of [morse]. *)
Definition spechar : list Z :=
  map chr (list_ascii_of_string "?./!,:;~$^()-@_|=#+*%&<>").

(** [pgm_read_byte(&morse[i])] and [pgm_read_byte(&spechar[i])] *)
Definition morse_at (i : Z) : Z := nth (Z.to_nat i) morse 0.
Definition spechar_at (i : Z) : Z := nth (Z.to_nat i) spechar 0.

(** [sizeof(morse)] and [sizeof(spechar)] *)
Definition sizeof_morse : nat := List.length morse.
Definition sizeof_spechar : nat := List.length spechar.

(** ** The code of a character: the look-up at the head of [yackchar] *)

Definition yackchar_code (c : Z) : Z :=
  let code := 0x80 in
  let code := if (chr "0" <=? c) && (c <=? chr "9")
              then morse_at (c - chr "0") else code in
  let code := if (chr "a" <=? c) && (c <=? chr "z")
              then morse_at (c - chr "a" + 10) else code in
  let code := if (chr "A" <=? c) && (c <=? chr "Z")
              then morse_at (c - chr "A" + 10) else code in
  fold_left
    (fun code i =>
       if c =? spechar_at (Z.of_nat i) then morse_at (Z.of_nat i + 36) else code)
    (seq 0 sizeof_spechar) code.

(** ** [morsechar]: from a code back to its character *)

Fixpoint morsechar_from (i : Z) (table : list Z) (buffer : Z) : Z :=
  match table with
  | [] => 0
  | m :: rest =>
      if m =? buffer then
        if i <? 10 then chr "0" + i
        else if i <? 36 then chr "A" + i - 10
        else spechar_at (i - 36)
      else morsechar_from (i + 1) rest buffer
  end.

Definition morsechar (buffer : Z) : Z := morsechar_from 0 morse buffer.

(** The element sequence of a code, as the loop of [yackchar] walks it:
    [true] is a dash, [false] a dot; [None] when the stop marker is not
    reached within [fuel] shifts. *)
Fixpoint code_elements (fuel : nat) (code : Z) : option (list bool) :=
  if code =? 0x80 then Some []
  else
    match fuel with
    | O => None
    | S k =>
        match code_elements k (u8 (Z.shiftl code 1)) with
        | Some l => Some (negb (Z.land code 0x80 =? 0) :: l)
        | None => None
        end
    end.

(** ** The state of the module *)

(** What the routines do to the hardware, in the order they do it. *)
Inductive event :=
| EvKeyDown            (* key(DOWN) *)
| EvKeyUp              (* key(UP) *)
| EvBeat               (* yackbeat() *)
| EvDelayMs (ms : Z).  (* _delay_ms(ms) *)

(** EEPROM data *)
Record eeprom := {
  magic : Z;
  flagstor : Z;
  ctcstor : Z;
  wpmstor : Z;
  fwstor : Z;
  eebuffer1 : list Z;
  eebuffer2 : list Z
}.

(** The static variables of [yackiambic]. *)
Record iambic := {
  iambicState : iambicState_t;
  timer : Z;
  debounceTimer : Z;
  currentSymbol : symbol_t;
  nextSymbol : symbol_t;
  pressedKeys : pressedKeys_t;
  keystate : Z;
  buffer : Z;
  bufctr : Z
}.

Record yack := {
  yackflags : Z;
  volflags : Z;
  ctcvalue : Z;
  wpmcnt : Z;
  wpm : Z;
  farnsworth : Z;
  ee : eeprom;
  fsm : iambic;
  hw : list event
}.

Definition set_iambicState v (f : iambic) : iambic :=
  {| iambicState := v; timer := timer f; debounceTimer := debounceTimer f;
     currentSymbol := currentSymbol f; nextSymbol := nextSymbol f;
     pressedKeys := pressedKeys f; keystate := keystate f;
     buffer := buffer f; bufctr := bufctr f |}.
Definition set_timer v (f : iambic) : iambic :=
  {| iambicState := iambicState f; timer := v; debounceTimer := debounceTimer f;
     currentSymbol := currentSymbol f; nextSymbol := nextSymbol f;
     pressedKeys := pressedKeys f; keystate := keystate f;
     buffer := buffer f; bufctr := bufctr f |}.
Definition set_debounceTimer v (f : iambic) : iambic :=
  {| iambicState := iambicState f; timer := timer f; debounceTimer := v;
     currentSymbol := currentSymbol f; nextSymbol := nextSymbol f;
     pressedKeys := pressedKeys f; keystate := keystate f;
     buffer := buffer f; bufctr := bufctr f |}.
Definition set_currentSymbol v (f : iambic) : iambic :=
  {| iambicState := iambicState f; timer := timer f; debounceTimer := debounceTimer f;
     currentSymbol := v; nextSymbol := nextSymbol f;
     pressedKeys := pressedKeys f; keystate := keystate f;
     buffer := buffer f; bufctr := bufctr f |}.
Definition set_nextSymbol v (f : iambic) : iambic :=
  {| iambicState := iambicState f; timer := timer f; debounceTimer := debounceTimer f;
     currentSymbol := currentSymbol f; nextSymbol := v;
     pressedKeys := pressedKeys f; keystate := keystate f;
     buffer := buffer f; bufctr := bufctr f |}.
Definition set_pressedKeys v (f : iambic) : iambic :=
  {| iambicState := iambicState f; timer := timer f; debounceTimer := debounceTimer f;
     currentSymbol := currentSymbol f; nextSymbol := nextSymbol f;
     pressedKeys := v; keystate := keystate f;
     buffer := buffer f; bufctr := bufctr f |}.
Definition set_keystate v (f : iambic) : iambic :=
  {| iambicState := iambicState f; timer := timer f; debounceTimer := debounceTimer f;
     currentSymbol := currentSymbol f; nextSymbol := nextSymbol f;
     pressedKeys := pressedKeys f; keystate := v;
     buffer := buffer f; bufctr := bufctr f |}.
Definition set_buffer v (f : iambic) : iambic :=
  {| iambicState := iambicState f; timer := timer f; debounceTimer := debounceTimer f;
     currentSymbol := currentSymbol f; nextSymbol := nextSymbol f;
     pressedKeys := pressedKeys f; keystate := keystate f;
     buffer := v; bufctr := bufctr f |}.
Definition set_bufctr v (f : iambic) : iambic :=
  {| iambicState := iambicState f; timer := timer f; debounceTimer := debounceTimer f;
     currentSymbol := currentSymbol f; nextSymbol := nextSymbol f;
     pressedKeys := pressedKeys f; keystate := keystate f;
     buffer := buffer f; bufctr := v |}.

Definition set_yackflags v (s : yack) : yack :=
  {| yackflags := v; volflags := volflags s; ctcvalue := ctcvalue s;
     wpmcnt := wpmcnt s; wpm := wpm s; farnsworth := farnsworth s;
     ee := ee s; fsm := fsm s; hw := hw s |}.
Definition set_volflags v (s : yack) : yack :=
  {| yackflags := yackflags s; volflags := v; ctcvalue := ctcvalue s;
     wpmcnt := wpmcnt s; wpm := wpm s; farnsworth := farnsworth s;
     ee := ee s; fsm := fsm s; hw := hw s |}.
Definition set_ctcvalue v (s : yack) : yack :=
  {| yackflags := yackflags s; volflags := volflags s; ctcvalue := v;
     wpmcnt := wpmcnt s; wpm := wpm s; farnsworth := farnsworth s;
     ee := ee s; fsm := fsm s; hw := hw s |}.
Definition set_wpmcnt v (s : yack) : yack :=
  {| yackflags := yackflags s; volflags := volflags s; ctcvalue := ctcvalue s;
     wpmcnt := v; wpm := wpm s; farnsworth := farnsworth s;
     ee := ee s; fsm := fsm s; hw := hw s |}.
Definition set_wpm v (s : yack) : yack :=
  {| yackflags := yackflags s; volflags := volflags s; ctcvalue := ctcvalue s;
     wpmcnt := wpmcnt s; wpm := v; farnsworth := farnsworth s;
     ee := ee s; fsm := fsm s; hw := hw s |}.
Definition set_farnsworth v (s : yack) : yack :=
  {| yackflags := yackflags s; volflags := volflags s; ctcvalue := ctcvalue s;
     wpmcnt := wpmcnt s; wpm := wpm s; farnsworth := v;
     ee := ee s; fsm := fsm s; hw := hw s |}.
Definition set_ee v (s : yack) : yack :=
  {| yackflags := yackflags s; volflags := volflags s; ctcvalue := ctcvalue s;
     wpmcnt := wpmcnt s; wpm := wpm s; farnsworth := farnsworth s;
     ee := v; fsm := fsm s; hw := hw s |}.
Definition set_fsm v (s : yack) : yack :=
  {| yackflags := yackflags s; volflags := volflags s; ctcvalue := ctcvalue s;
     wpmcnt := wpmcnt s; wpm := wpm s; farnsworth := farnsworth s;
     ee := ee s; fsm := v; hw := hw s |}.
Definition set_hw v (s : yack) : yack :=
  {| yackflags := yackflags s; volflags := volflags s; ctcvalue := ctcvalue s;
     wpmcnt := wpmcnt s; wpm := wpm s; farnsworth := farnsworth s;
     ee := ee s; fsm := fsm s; hw := v |}.

(** Update of one static variable of [yackiambic]. *)
Definition upd_fsm (g : iambic -> iambic) (s : yack) : yack :=
  set_fsm (g (fsm s)) s.

Definition emit (e : event) (s : yack) : yack := set_hw (hw s ++ [e]) s.

(** The command button as one call of [yackctrlkey] finds it: open, or
    closed; when closed, the busy wait for its release runs once per entry
    of [paddles], an entry telling whether the DIT and the DAH contact are
    closed in that round. *)
Inductive button :=
| Released
| Pressed (paddles : list (bool * bool)).

(** The option monad of the routines that can fail to return normally. *)
Definition bind {A B} (m : option A) (k : A -> option B) : option B :=
  match m with
  | Some a => k a
  | None => None
  end.

Notation "x <- m ;; k" := (bind m (fun x => k))
  (at level 61, m at next level, right associativity).
Notation "' p <- m ;; k" := (bind m (fun x => let 'p := x in k))
  (at level 61, p pattern, m at next level, right associativity).

(** [flags & mask] as a condition *)
Definition has (flags mask : Z) : bool := negb (Z.land flags mask =? 0).

(** [flags |= mask] and [flags &= ~mask] on a byte *)
Definition set_bits (flags mask : Z) : Z := u8 (Z.lor flags mask).
Definition clear_bits (flags mask : Z) : Z := u8 (Z.land flags (Z.lnot mask)).

(** [a / b] at run time: undefined when [b] is zero. *)
Definition cdiv (a b : Z) : option Z :=
  if b =? 0 then None else Some (Z.quot a b).

(** [buffer[i] = v] *)
Fixpoint list_set (l : list Z) (i : nat) (v : Z) : list Z :=
  match l, i with
  | [], _ => []
  | _ :: t, O => v :: t
  | x :: t, S k => x :: list_set t k v
  end.

Section Yack.

Variable h : header.

(** ** Control functions *)

Definition key (mode : Z) (s : yack) : yack :=
  let s := if mode =? DOWN h then emit EvKeyDown s else s in
  if mode =? UP h then emit EvKeyUp s else s.

Definition yackbeat (s : yack) : yack := emit EvBeat s.

Definition yacksave (s : yack) : yack :=
  if has (volflags s) (DIRTYFLAG h) then
    let s := set_ee {| magic := MAGPAT h;
                       ctcstor := ctcvalue s;
                       wpmstor := wpm s;
                       flagstor := yackflags s;
                       fwstor := farnsworth s;
                       eebuffer1 := eebuffer1 (ee s);
                       eebuffer2 := eebuffer2 (ee s) |} s in
    set_volflags (clear_bits (volflags s) (DIRTYFLAG h)) s
  else s.

Definition yackinhibit (mode : Z) (s : yack) : yack :=
  if negb (mode =? 0) then
    let s := set_volflags (clear_bits (volflags s) (Z.lor (TXKEY h) (SIDETONE h))) s in
    set_volflags (set_bits (volflags s) (SIDETONE h)) s
  else
    let s := set_volflags (clear_bits (volflags s) (Z.lor (TXKEY h) (SIDETONE h))) s in
    let s := set_volflags
               (set_bits (volflags s)
                  (Z.land (yackflags s) (Z.lor (TXKEY h) (SIDETONE h)))) s in
    key (UP h) s.

Definition yackreset (s : yack) : yack :=
  let s := set_ctcvalue (DEFCTC h) s in
  let s := set_wpm (DEFWPM h) s in
  let s := set_wpmcnt (u16 (Z.quot (Z.quot 1200 (YACKBEAT h)) (DEFWPM h))) s in
  let s := set_farnsworth 0 s in
  let s := set_yackflags (FLAGDEFAULT h) s in
  let s := set_volflags (set_bits (volflags s) (DIRTYFLAG h)) s in
  yacksave s.

(** The part of [yackinit] that sets the variables of the module; the
    configuration of the ports and of the heartbeat timer is left out. *)
Definition yackinit (s : yack) : option yack :=
  let magval := magic (ee s) in
  s <- (if magval =? MAGPAT h then
          let s := set_ctcvalue (ctcstor (ee s)) s in
          let s := set_wpm (wpmstor (ee s)) s in
          cnt <- cdiv (Z.quot 1200 (YACKBEAT h)) (wpm s) ;;
          let s := set_wpmcnt (u16 cnt) s in
          let s := set_farnsworth (fwstor (ee s)) s in
          Some (set_yackflags (flagstor (ee s)) s)
        else Some (yackreset s)) ;;
  Some (yackinhibit (OFF h) s).

(** ** Playback *)

(** [byte i = n; while (i--) { x = wpmcnt; while (x--) yackbeat(); }] *)
Definition yackdelay (n : Z) (s : yack) : yack :=
  Nat.iter (Z.to_nat (u8 n))
    (fun s => Nat.iter (Z.to_nat (u8 (wpmcnt s))) yackbeat s) s.

Definition yackfarns (s : yack) : yack :=
  Nat.iter (Z.to_nat (farnsworth s)) (yackdelay 1) s.

Definition yackplay (i : Z) (s : yack) : yack :=
  let s := key (DOWN h) s in
  let s := if i =? DAH h then yackdelay (DAHLEN h) s
           else if i =? DIT h then yackdelay (DITLEN h) s
           else s in
  key (UP h) s.

Definition yackerror (s : yack) : yack :=
  let s := Nat.iter 8 (fun s => yackdelay (DITLEN h) (yackplay (DIT h) s)) s in
  yackdelay (DAHLEN h) s.

Definition yackspeed (dir mode : Z) (s : yack) : option yack :=
  s <- (if mode =? FARNSWORTH h then
          let s := if (dir =? UP h) && (farnsworth s >? 0)
                   then set_farnsworth (u8 (farnsworth s - 1)) s else s in
          let s := if (dir =? DOWN h) && (farnsworth s <? MAXFARN h)
                   then set_farnsworth (u8 (farnsworth s + 1)) s else s in
          Some s
        else
          let s := if (dir =? UP h) && (wpm s <? MAXWPM h)
                   then set_wpm (u8 (wpm s + 1)) s else s in
          let s := if (dir =? DOWN h) && (wpm s >? MINWPM h)
                   then set_wpm (u8 (wpm s - 1)) s else s in
          cnt <- cdiv (Z.quot 1200 (YACKBEAT h)) (wpm s) ;;
          Some (set_wpmcnt (u16 cnt) s)) ;;
  let s := set_volflags (set_bits (volflags s) (DIRTYFLAG h)) s in
  let s := yackplay (DIT h) s in
  let s := yackdelay (IEGLEN h) s in
  let s := yackplay (DAH h) s in
  let s := yackdelay (ICGLEN h) s in
  Some (yackfarns s).

(** ** The command key *)

(** The busy wait of [yackctrlkey] for the release of the button: a closed
    paddle changes the speed and withdraws the request. *)
Fixpoint ctrl_wait (paddles : list (bool * bool)) (volbfr : Z) (s : yack)
  : option (Z * yack) :=
  match paddles with
  | [] => Some (volbfr, s)
  | (dit, dah) :: rest =>
      '(volbfr, s) <- (if dit : bool then
                         s <- yackspeed (DOWN h) (WPMSPEED h) s ;;
                         Some (clear_bits volbfr (CKLATCH h), s)
                       else Some (volbfr, s)) ;;
      '(volbfr, s) <- (if dah : bool then
                         s <- yackspeed (UP h) (WPMSPEED h) s ;;
                         Some (clear_bits volbfr (CKLATCH h), s)
                       else Some (volbfr, s)) ;;
      ctrl_wait rest volbfr s
  end.

Definition yackctrlkey (mode : Z) (btn : button) (s : yack)
  : option (bool * yack) :=
  let volbfr := volflags s in
  '(volbfr, s) <- match btn with
                  | Released => Some (volbfr, s)
                  | Pressed paddles =>
                      let volbfr := set_bits volbfr (CKLATCH h) in
                      let s := yackinhibit (ON h) s in
                      let s := emit (EvDelayMs 50) s in
                      '(volbfr, s) <- ctrl_wait paddles volbfr s ;;
                      let s := emit (EvDelayMs 50) s in
                      Some (volbfr, yacksave s)
                  end ;;
  let s := set_volflags volbfr s in
  let s := if mode =? TRUE h
           then set_volflags (clear_bits (volflags s) (CKLATCH h)) s else s in
  Some (has volbfr (CKLATCH h), s).

(** ** Sending characters and strings

    [polls] is what the successive calls of [yackctrlkey] find; once it is
    used up the button stays open. *)

Definition next_poll (polls : list button) : button := hd Released polls.

(** The [while (code != 0x80)] loop of [yackchar]; the flag of the result
    tells whether the loop was left by [return]. *)
Fixpoint yackchar_loop (fuel : nat) (code : Z) (polls : list button) (s : yack)
  : option (bool * list button * yack) :=
  if code =? 0x80 then Some (false, polls, s)
  else
    match fuel with
    | O => None
    | S k =>
        '(stop, s) <- yackctrlkey (FALSE h) (next_poll polls) s ;;
        if stop : bool then Some (true, tl polls, s)
        else
          let s := if has code 0x80 then yackplay (DAH h) s
                   else yackplay (DIT h) s in
          let s := yackdelay (IEGLEN h) s in
          yackchar_loop k (u8 (Z.shiftl code 1)) (tl polls) s
    end.

Definition yackchar (c : Z) (polls : list button) (s : yack)
  : option (list button * yack) :=
  let code := yackchar_code c in
  if c =? chr " " then
    Some (polls, yackdelay (IWGLEN h - ICGLEN h) s)
  else
    '(returned, polls, s) <- yackchar_loop 8 code polls s ;;
    if returned : bool then Some (polls, s)
    else
      let s := yackdelay (ICGLEN h - IEGLEN h) s in
      Some (polls, yackfarns s).

(** [p] is the string in flash up to its terminating zero. *)
Fixpoint yackstring (p : list Z) (polls : list button) (s : yack)
  : option (list button * yack) :=
  match p with
  | [] => Some (polls, s)
  | c :: p' =>
      if c =? 0 then Some (polls, s)
      else
        '(stop, s) <- yackctrlkey (TRUE h) (next_poll polls) s ;;
        if stop : bool then Some (tl polls, s)
        else
          '(polls, s) <- yackchar c (tl polls) s ;;
          yackstring p' polls s
  end.

(** ** Keying *)

(** [dit] and [dah] tell whether the contact at DITPIN, at DAHPIN is
    closed (the pin reads low). *)
Definition keylatch (dit dah : bool) (s : yack) : yack :=
  let swap := Z.land (yackflags s) (PDLSWAP h) in
  let s := if dit then
             set_volflags
               (set_bits (volflags s)
                  (if negb (swap =? 0) then DAHLATCH h else DITLATCH h)) s
           else s in
  if dah then
    set_volflags
      (set_bits (volflags s)
         (if negb (swap =? 0) then DITLATCH h else DAHLATCH h)) s
  else s.

(** The head of [yackiambic]: the timers and the debounced key state. *)
Definition iambic_sample (dit dah : bool) (s : yack) : yack :=
  let s := upd_fsm (fun f => set_timer (dec (timer f)) f) s in
  let s := upd_fsm (fun f => set_debounceTimer (dec (debounceTimer f)) f) s in
  if debounceTimer (fsm s) =? 0 then
    let s := keylatch dit dah s in
    let s := if negb (keystate (fsm s) =? Z.land (volflags s) (SQUEEZED h)) then
               let s := upd_fsm (set_debounceTimer
                                   (u16 (Z.quot (KEYDEBOUNCE h) (YACKBEAT h)))) s in
               upd_fsm (set_keystate (Z.land (volflags s) (SQUEEZED h))) s
             else s in
    set_volflags (clear_bits (volflags s) (Z.lor (DITLATCH h) (DAHLATCH h))) s
  else s.

(** The cases of the [switch (iambicState)] are cut into the blocks of the
    source, one definition for each.  The calls of [yackpower] under
    [#ifdef POWERSAVE] (lines 1135-1137 and 1171-1173) only count the idle
    heartbeats towards the sleep of the chip and touch none of the variables
    below; they are left out. *)

(** [case STATE_IDLE: case STATE_ICG: case STATE_IWG:], first block
    (lines 1138-1146): a pressed key starts an element.  The flag is
    [repeatCycle]. *)
Definition waiting_keys (s : yack) : yack * bool :=
  if negb (keystate (fsm s) =? 0) then
    let s := if keystate (fsm s) =? DITLATCH h
             then upd_fsm (set_nextSymbol SYMBOL_DIT) s
             else if keystate (fsm s) =? DAHLATCH h
             then upd_fsm (set_nextSymbol SYMBOL_DAH) s
             else s in
    (upd_fsm (set_iambicState STATE_DAHDIT_INIT) s, true)
  else (s, false).

(** The end of a character (lines 1150-1158): the buffer is closed with
    the stop bit, shifted to the left and decoded. *)
Definition character_done (s : yack) : option (yack * Z) :=
  let s := upd_fsm (fun f => set_buffer (u8 (Z.shiftl (buffer f) 1)) f) s in
  let s := upd_fsm (fun f => set_buffer (u8 (Z.lor (buffer f) 1)) f) s in
  (* a shift by a negative count is undefined *)
  if 7 - bufctr (fsm s) <? 0 then None
  else
    let s := upd_fsm (fun f => set_buffer
                                 (u8 (Z.shiftl (buffer f) (7 - bufctr f))) f) s in
    let retchar := morsechar (buffer (fsm s)) in
    let s := upd_fsm (fun f => set_buffer 0 (set_bufctr 0 f)) s in
    let s := upd_fsm (set_timer (u16 ((IWGLEN h - ICGLEN h) * wpmcnt s))) s in
    Some (upd_fsm (set_iambicState STATE_IWG) s, retchar).

(** Second block of the waiting states (lines 1148-1166): a gap has run
    down. *)
Definition waiting_timeout (ctrl retchar : Z) (s : yack) : option (yack * Z) :=
  if negb (iambicState_eqb (iambicState (fsm s)) STATE_IDLE)
     && (timer (fsm s) =? 0) then
    match iambicState (fsm s) with
    | STATE_ICG => character_done s
    | STATE_IWG =>
        let retchar := if ctrl =? ON h then chr " " else retchar in
        Some (upd_fsm (set_iambicState STATE_IDLE) s, retchar)
    | _ => Some (s, retchar)
    end
  else Some (s, retchar).

Definition iambic_waiting (ctrl retchar : Z) (s : yack)
  : option (yack * Z * bool) :=
  let '(s, repeatCycle) := waiting_keys s in
  '(s, retchar) <- waiting_timeout ctrl retchar s ;;
  Some (s, retchar, repeatCycle).

(** [case STATE_DAHDIT_INIT:], lines 1174-1178: the next symbol becomes
    the current one and the buffer makes room for it. *)
Definition init_symbol (s : yack) : yack :=
  let s := upd_fsm (fun f => set_currentSymbol (nextSymbol f) f) s in
  let s := upd_fsm (set_nextSymbol SYMBOL_NONE) s in
  let s := upd_fsm (fun f => set_buffer (u8 (Z.shiftl (buffer f) 1)) f) s in
  upd_fsm (fun f => set_bufctr (u8 (bufctr f + 1)) f) s.

(** [switch (currentSymbol)], lines 1180-1192: the length of the element;
    no result in the [default] case. *)
Definition init_timer (s : yack) : option yack :=
  match currentSymbol (fsm s) with
  | SYMBOL_DIT => Some (upd_fsm (set_timer (u16 (DITLEN h * wpmcnt s))) s)
  | SYMBOL_DAH =>
      let s := upd_fsm (set_timer (u16 (DAHLEN h * wpmcnt s))) s in
      Some (upd_fsm (fun f => set_buffer (u8 (Z.lor (buffer f) 1)) f) s)
  | _ => None
  end.

(** Lines 1194-1213: the keys that are down when the element starts. *)
Definition init_pressed (s : yack) : yack :=
  if keystate (fsm s) =? SQUEEZED h then
    let s := upd_fsm (set_pressedKeys PRESSED_BOTH) s in
    if Z.land (yackflags s) (MODE h) =? IAMBICB h
    then upd_fsm (set_nextSymbol SYMBOL_OPPOSITE) s else s
  else if keystate (fsm s) =? DITLATCH h then
    let s := upd_fsm (set_pressedKeys PRESSED_ONE) s in
    if negb (symbol_eqb (currentSymbol (fsm s)) SYMBOL_DIT) then
      let s := upd_fsm (set_nextSymbol SYMBOL_DIT) s in
      upd_fsm (set_pressedKeys PRESSED_DONT_CARE) s
    else s
  else if keystate (fsm s) =? DAHLATCH h then
    let s := upd_fsm (set_pressedKeys PRESSED_ONE) s in
    if negb (symbol_eqb (currentSymbol (fsm s)) SYMBOL_DAH) then
      let s := upd_fsm (set_nextSymbol SYMBOL_DAH) s in
      upd_fsm (set_pressedKeys PRESSED_DONT_CARE) s
    else s
  else upd_fsm (set_pressedKeys PRESSED_NONE) s.

Definition iambic_init (retchar : Z) (s : yack) : yack * Z * bool :=
  let s := init_symbol s in
  match init_timer s with
  | None =>
      (* this shouldn't happen; [continue] ends the loop *)
      (upd_fsm (set_iambicState STATE_IDLE) s, retchar, false)
  | Some s =>
      let s := init_pressed s in
      let s := key (DOWN h) s in
      (upd_fsm (set_iambicState STATE_DAHDIT) s, retchar, false)
  end.

(** [case STATE_DAHDIT: case STATE_IEG:], lines 1222-1252: the keys seen
    while the element and its gap run. *)
Definition track_pressed (s : yack) : yack :=
  match pressedKeys (fsm s) with
  | PRESSED_BOTH =>
      if keystate (fsm s) =? 0
      then upd_fsm (set_pressedKeys PRESSED_NONE) s
      else if negb (keystate (fsm s) =? SQUEEZED h)
      then upd_fsm (set_pressedKeys PRESSED_ONE) s
      else s
  | PRESSED_ONE =>
      if keystate (fsm s) =? SQUEEZED h then
        let s := upd_fsm (set_nextSymbol SYMBOL_OPPOSITE) s in
        upd_fsm (set_pressedKeys PRESSED_DONT_CARE) s
      else if keystate (fsm s) =? 0
      then upd_fsm (set_pressedKeys PRESSED_NONE) s
      else s
  | PRESSED_NONE =>
      if keystate (fsm s) =? SQUEEZED h then
        let s := upd_fsm (set_nextSymbol SYMBOL_OPPOSITE) s in
        upd_fsm (set_pressedKeys PRESSED_DONT_CARE) s
      else if keystate (fsm s) =? DITLATCH h then
        let s := upd_fsm (set_nextSymbol SYMBOL_DIT) s in
        upd_fsm (set_pressedKeys PRESSED_DONT_CARE) s
      else if keystate (fsm s) =? DAHLATCH h then
        let s := upd_fsm (set_nextSymbol SYMBOL_DAH) s in
        upd_fsm (set_pressedKeys PRESSED_DONT_CARE) s
      else s
  | PRESSED_DONT_CARE => s
  end.

(** Lines 1255-1262: the element is over, the key goes up. *)
Definition element_expired (s : yack) : yack :=
  let s := match pressedKeys (fsm s) with
           | PRESSED_BOTH =>
               let s := upd_fsm (set_nextSymbol SYMBOL_OPPOSITE) s in
               upd_fsm (set_pressedKeys PRESSED_DONT_CARE) s
           | _ => s
           end in
  let s := key (UP h) s in
  let s := upd_fsm (set_timer (u16 (IEGLEN h * wpmcnt s))) s in
  upd_fsm (set_iambicState STATE_IEG) s.

(** Lines 1264-1279: at the end of the gap the next symbol is settled. *)
Definition resolve_next (s : yack) : yack :=
  let s := match pressedKeys (fsm s) with
           | PRESSED_ONE =>
               if keystate (fsm s) =? DITLATCH h
               then upd_fsm (set_nextSymbol SYMBOL_DIT) s
               else if keystate (fsm s) =? DAHLATCH h
               then upd_fsm (set_nextSymbol SYMBOL_DAH) s
               else upd_fsm (set_nextSymbol SYMBOL_NONE) s
           | _ => s
           end in
  match nextSymbol (fsm s) with
  | SYMBOL_OPPOSITE =>
      match currentSymbol (fsm s) with
      | SYMBOL_DIT => upd_fsm (set_nextSymbol SYMBOL_DAH) s
      | _ => upd_fsm (set_nextSymbol SYMBOL_DIT) s
      end
  | _ => s
  end.

(** Lines 1263-1288: the gap is over.  The flag is [repeatCycle]. *)
Definition gap_expired (s : yack) : yack * bool :=
  let s := resolve_next s in
  match nextSymbol (fsm s) with
  | SYMBOL_NONE =>
      let s := upd_fsm (set_iambicState STATE_ICG) s in
      (upd_fsm (set_timer (u16 ((ICGLEN h - IEGLEN h - 1) * wpmcnt s))) s,
       false)
  | _ => (upd_fsm (set_iambicState STATE_DAHDIT_INIT) s, true)
  end.

Definition iambic_element (retchar : Z) (s : yack) : yack * Z * bool :=
  let s := track_pressed s in
  if timer (fsm s) =? 0 then
    match iambicState (fsm s) with
    | STATE_DAHDIT => (element_expired s, retchar, false)
    | _ => (* STATE_IEG *)
        let '(s, repeatCycle) := gap_expired s in
        (s, retchar, repeatCycle)
    end
  else (s, retchar, false).

(** The body of the [do ... while (repeatCycle)] loop. *)
Definition iambic_body (ctrl retchar : Z) (s : yack) : option (yack * Z * bool) :=
  match iambicState (fsm s) with
  | STATE_IDLE | STATE_ICG | STATE_IWG => iambic_waiting ctrl retchar s
  | STATE_DAHDIT_INIT => Some (iambic_init retchar s)
  | STATE_DAHDIT | STATE_IEG => Some (iambic_element retchar s)
  end.

Fixpoint iambic_loop (fuel : nat) (ctrl retchar : Z) (s : yack)
  : option (Z * yack) :=
  match fuel with
  | O => None
  | S k =>
      '(s, retchar, repeatCycle) <- iambic_body ctrl retchar s ;;
      if repeatCycle : bool then iambic_loop k ctrl retchar s
      else Some (retchar, s)
  end.

(** One call of [yackiambic], that is one heartbeat of the keyer.  No
    cycle of the loop that was entered by [repeatCycle] sets it again, so
    the loop runs its body at most twice. *)
Definition yackiambic (ctrl : Z) (dit dah : bool) (s : yack) : option (Z * yack) :=
  iambic_loop 2 ctrl 0 (iambic_sample dit dah s).

(** ** Messages in EEPROM *)

(** How the recording loop of [yackmessage] can end. *)
Inductive record_exit :=
| Returned (s : yack)
    (* [return] from within the loop *)
| TimedOut (i : Z) (rambuffer : list Z) (s : yack)
    (* the time-out has run down *)
| Running (extimer i : Z) (rambuffer : list Z) (s : yack).
    (* still recording when the given heartbeats are used up *)

(** The recording loop of [yackmessage].  Every cycle takes what it finds
    at the pins: the command button for [yackctrlkey] and the paddles for
    [yackiambic]. *)
Fixpoint record_loop (pins : list (button * (bool * bool)))
    (extimer i : Z) (rambuffer : list Z) (s : yack) : option record_exit :=
  if extimer =? 0 then Some (TimedOut i rambuffer s)
  else
    match pins with
    | [] => Some (Running extimer i rambuffer s)
    | (btn, (dit, dah)) :: rest =>
        let extimer := u16 (extimer - 1) in
        '(stop, s) <- yackctrlkey (TRUE h) btn s ;;
        if stop : bool then Some (Returned s)
        else
          '(c, s) <- yackiambic (ON h) dit dah s ;;
          let c := u8 c in
          let '(i, rambuffer, extimer) :=
            if negb (c =? 0)
            then (u8 (i + 1), list_set rambuffer (Z.to_nat i) c,
                  u16 (YACKSECS h (DEFTIMEOUT h)))
            else (i, rambuffer, extimer) in
          let '(i, s) := if i >=? RBSIZE h then (0, yackerror s) else (i, s) in
          let s := yackbeat s in
          record_loop rest extimer i rambuffer s
    end.

(** The replay loop of [yackmessage]: [n] counts up from 0 until a zero is
    read; reading behind the buffer is undefined. *)
Fixpoint play_loop (fuel : nat) (n : Z) (rambuffer : list Z)
    (polls : list button) (s : yack) : option (list button * yack) :=
  match fuel with
  | O => None
  | S k =>
      match nth_error rambuffer (Z.to_nat n) with
      | None => None
      | Some c =>
          if c =? 0 then Some (polls, s)
          else
            '(stop, s) <- yackctrlkey (FALSE h) (next_poll polls) s ;;
            if stop : bool then Some (tl polls, s)
            else
              '(polls, s) <- yackchar c (tl polls) s ;;
              play_loop k (u8 (n + 1)) rambuffer polls s
      end
  end.

(** [rambuffer] is the content of the local buffer on entry; [pins] feeds
    the recording and [polls] the replay.  The flag of the result tells
    whether the function was left through the [return] of the recording
    loop; there is no result when the recording outlasts [pins]. *)
Definition yackmessage (function msgnr : Z) (rambuffer : list Z)
    (pins : list (button * (bool * bool))) (polls : list button) (s : yack)
  : option (bool * yack) :=
  '(returned, rambuffer, s) <-
    (if function =? RECORD h then
       r <- record_loop pins (u16 (YACKSECS h (DEFTIMEOUT h))) 0 rambuffer s ;;
       match r with
       | Running _ _ _ _ => None
       | Returned s => Some (true, rambuffer, s)
       | TimedOut i rambuffer s =>
           if negb (i =? 0) then
             let i := u8 (i - 1) in
             let rambuffer := list_set rambuffer (Z.to_nat i) 0 in
             let block := firstn (Z.to_nat (RBSIZE h)) rambuffer in
             let s := if msgnr =? 1 then
                        set_ee {| magic := magic (ee s);
                                  flagstor := flagstor (ee s);
                                  ctcstor := ctcstor (ee s);
                                  wpmstor := wpmstor (ee s);
                                  fwstor := fwstor (ee s);
                                  eebuffer1 := block;
                                  eebuffer2 := eebuffer2 (ee s) |} s
                      else s in
             let s := if msgnr =? 2 then
                        set_ee {| magic := magic (ee s);
                                  flagstor := flagstor (ee s);
                                  ctcstor := ctcstor (ee s);
                                  wpmstor := wpmstor (ee s);
                                  fwstor := fwstor (ee s);
                                  eebuffer1 := eebuffer1 (ee s);
                                  eebuffer2 := block |} s
                      else s in
             Some (false, rambuffer, s)
           else Some (false, rambuffer, yackerror s)
       end
     else Some (false, rambuffer, s)) ;;
  if returned : bool then Some (true, s)
  else if function =? PLAY h then
    let rambuffer := if msgnr =? 1 then firstn (Z.to_nat (RBSIZE h)) (eebuffer1 (ee s))
                     else rambuffer in
    let rambuffer := if msgnr =? 2 then firstn (Z.to_nat (RBSIZE h)) (eebuffer2 (ee s))
                     else rambuffer in
    '(_, s) <- play_loop (Z.to_nat (RBSIZE h) + 1) 0 rambuffer polls s ;;
    Some (false, s)
  else Some (false, s).

End Yack.

(** ** The header of the keyer

    Modelled from the spec: yack.h is not part of the sources.  The element
    and gap lengths are the ratios of the timing base (dit 1, dah 3,
    inter-element gap 1, inter-character gap 3, inter-word gap 7) and the
    heartbeat is the 5 ms of the timer set up in [yackinit]; the speed
    range, the debounce time and the bit masks are those of a usual
    configuration of the keyer.  The general theorems below hold for every
    header that satisfies the stated conditions, and this one serves to
    run the code on concrete inputs. *)
Definition yack_h : header := {|
  YACKBEAT := 5;
  YACKSECS := fun n => n * (1000 / 5);
  DEFWPM := 15;
  MINWPM := 5;
  MAXWPM := 50;
  MAXFARN := 255;
  DEFCTC := 78;
  FLAGDEFAULT := 0x34;
  MAGPAT := 0xa5;
  DITLEN := 1;
  DAHLEN := 3;
  IEGLEN := 1;
  ICGLEN := 3;
  IWGLEN := 7;
  KEYDEBOUNCE := 10;
  RBSIZE := 100;
  DEFTIMEOUT := 5;
  UP := 1;
  DOWN := 2;
  ON := 1;
  OFF := 0;
  TRUE := 1;
  FALSE := 0;
  DIT := 1;
  DAH := 2;
  FARNSWORTH := 1;
  WPMSPEED := 0;
  RECORD := 1;
  PLAY := 2;
  MODE := 0x0c;
  IAMBICB := 0x04;
  SIDETONE := 0x10;
  TXKEY := 0x20;
  PDLSWAP := 0x80;
  DITLATCH := 0x01;
  DAHLATCH := 0x02;
  SQUEEZED := 0x03;
  DIRTYFLAG := 0x04;
  CKLATCH := 0x08
|}.

(** The variables of the module when the program starts: the statics are
    zero, the EEPROM is as programmed. *)
Definition power_on (e : eeprom) : yack := {|
  yackflags := 0;
  volflags := 0;
  ctcvalue := 0;
  wpmcnt := 0;
  wpm := 0;
  farnsworth := 0;
  ee := e;
  fsm := {| iambicState := STATE_IDLE; timer := 0; debounceTimer := 0;
            currentSymbol := SYMBOL_NONE; nextSymbol := SYMBOL_NONE;
            pressedKeys := PRESSED_NONE; keystate := 0;
            buffer := 0; bufctr := 0 |};
  hw := []
|}.

(** ** The host loop: one call of [yackiambic] per heartbeat *)

(** Whether the last call of [key] in a log was [key(DOWN)]. *)
Definition key_level (log : list event) : bool :=
  fold_left (fun lvl e => match e with
                          | EvKeyDown => true
                          | EvKeyUp => false
                          | _ => lvl
                          end) log false.

(** [run] feeds the paddle levels of successive heartbeats to the keyer
    and collects what each call returns together with the level of the key
    after the call. *)
Fixpoint run (h : header) (ctrl : Z) (paddles : list (bool * bool)) (s : yack)
  : option (list (Z * bool) * yack) :=
  match paddles with
  | [] => Some ([], s)
  | (dit, dah) :: rest =>
      '(c, s) <- yackiambic h ctrl dit dah s ;;
      let lvl := key_level (hw s) in
      '(out, s) <- run h ctrl rest s ;;
      Some ((c, lvl) :: out, s)
  end.

(** ** What a routine does to the hardware

    The events of one call of [key], of [yackdelay(n)] at [cnt] beats per
    dot, of [yackplay(i)] and of [yackfarns] for a pause of [f] dots. *)

Definition key_events (h : header) (mode : Z) : list event :=
  (if mode =? DOWN h then [EvKeyDown] else [])
  ++ (if mode =? UP h then [EvKeyUp] else []).

Definition delay_events (n cnt : Z) : list event :=
  repeat EvBeat (Z.to_nat (u8 n) * Z.to_nat (u8 cnt)).

Definition play_events (h : header) (i cnt : Z) : list event :=
  key_events h (DOWN h)
  ++ (if i =? DAH h then delay_events (DAHLEN h) cnt
      else if i =? DIT h then delay_events (DITLEN h) cnt
      else [])
  ++ key_events h (UP h).

Definition farns_events (f cnt : Z) : list event :=
  List.concat (repeat (delay_events 1 cnt) (Z.to_nat f)).

(** ** Notions used to state the properties *)

(** The characters that have an entry in the code table: the digits, the
    letters in either case and the characters of [spechar]. *)
Definition in_codebook (c : Z) : bool :=
  ((chr "0" <=? c) && (c <=? chr "9"))
  || ((chr "a" <=? c) && (c <=? chr "z"))
  || ((chr "A" <=? c) && (c <=? chr "Z"))
  || existsb (Z.eqb c) spechar.

(** Lower case letters become upper case. *)
Definition normalize (c : Z) : Z :=
  if (chr "a" <=? c) && (c <=? chr "z") then c - chr "a" + chr "A" else c.

(** The speed and the Farnsworth pause are within their bounds. *)
Definition speed_in_range (h : header) (s : yack) : Prop :=
  (MINWPM h <= wpm s <= MAXWPM h) /\ (0 <= farnsworth s <= MAXFARN h).

(** A sequence of calls [yackspeed(dir, mode)]. *)
Fixpoint speed_calls (h : header) (calls : list (Z * Z)) (s : yack)
  : option yack :=
  match calls with
  | [] => Some s
  | (dir, mode) :: rest =>
      s <- yackspeed h dir mode s ;;
      speed_calls h rest s
  end.

(** The specification's rounding: the integer nearest to [a / b], halves
    going up ([a] and [b] positive). *)
Definition spec_round_div (a b : Z) : Z := (2 * a + b) / (2 * b).

(** ** The keyer after start-up *)

(** The EEPROM as the program image initialises it. *)
Definition eeprom_image (h : header) : eeprom := {|
  magic := MAGPAT h;
  flagstor := FLAGDEFAULT h;
  ctcstor := DEFCTC h;
  wpmstor := DEFWPM h;
  fwstor := 0;
  eebuffer1 := map chr (list_ascii_of_string "message 1") ++ repeat 0 91%nat;
  eebuffer2 := map chr (list_ascii_of_string "message 2") ++ repeat 0 91%nat
|}.

(** The state of the keyer with the header [yack_h] after [yackinit]. *)
Definition started : yack :=
  match yackinit yack_h (power_on (eeprom_image yack_h)) with
  | Some s => s
  | None => power_on (eeprom_image yack_h)
  end.

(** ** The transmission of a string, cut at the polls of the command key

    [yackstring] asks for the command key before every character and
    [yackchar] before every element.  The script of a string lists what is
    sent between one poll and the next. *)

(** One element with the gap behind it. *)
Definition element_events (h : header) (cnt : Z) (dash : bool) : list event :=
  play_events h (if dash then DAH h else DIT h) cnt
  ++ delay_events (IEGLEN h) cnt.

(** The rest of the gap between characters and the Farnsworth pause. *)
Definition char_tail (h : header) (cnt farns : Z) : list event :=
  delay_events (ICGLEN h - IEGLEN h) cnt ++ farns_events farns cnt.

(** The elements of a character, one per poll; the last one carries the
    end of the character. *)
Fixpoint elements_script (h : header) (cnt farns : Z) (l : list bool)
  : list (list event) :=
  match l with
  | [] => []
  | e :: rest =>
      match rest with
      | [] => [element_events h cnt e ++ char_tail h cnt farns]
      | _ => element_events h cnt e :: elements_script h cnt farns rest
      end
  end.

(** A character: what follows the poll of [yackstring], then the
    elements. *)
Definition char_script (h : header) (cnt farns : Z) (c : Z)
  : list (list event) :=
  if c =? chr " " then [delay_events (IWGLEN h - ICGLEN h) cnt]
  else
    match code_elements 8 (yackchar_code c) with
    | Some (e :: rest) => [] :: elements_script h cnt farns (e :: rest)
    | _ => [char_tail h cnt farns]
    end.

Fixpoint string_script (h : header) (cnt farns : Z) (p : list Z)
  : list (list event) :=
  match p with
  | [] => []
  | c :: p' =>
      if c =? 0 then []
      else char_script h cnt farns c ++ string_script h cnt farns p'
  end.

(** The command key is found open at the first [n] polls and closed, with
    the paddles open, at the next one. *)
Definition cancel_at (n : nat) : list button :=
  repeat Released n ++ [Pressed []].

(** What [yackctrlkey] itself does when it finds the key closed. *)
Definition ctrl_events : list event := [EvDelayMs 50; EvDelayMs 50].

(** The lengths of the key-down periods of a log, in heartbeats. *)
Fixpoint keyed_elements_from (down : option nat) (log : list event)
  : list nat :=
  match log with
  | [] => match down with Some k => [k] | None => [] end
  | EvKeyDown :: rest => keyed_elements_from (Some O) rest
  | EvKeyUp :: rest =>
      match down with
      | Some k => k :: keyed_elements_from None rest
      | None => keyed_elements_from None rest
      end
  | EvBeat :: rest =>
      keyed_elements_from (option_map S down) rest
  | EvDelayMs _ :: rest => keyed_elements_from down rest
  end.

Definition keyed_elements (log : list event) : list nat :=
  keyed_elements_from None log.

(** [sends s s' evs]: from [s] to [s'] the hardware saw the events [evs]
    and the speed settings did not change. *)
Definition sends (s s' : yack) (evs : list event) : Prop :=
  hw s' = hw s ++ evs
  /\ wpmcnt s' = wpmcnt s
  /\ farnsworth s' = farnsworth s.

(** The two message memories in EEPROM. *)
Definition slots (s : yack) : list Z * list Z :=
  (eebuffer1 (ee s), eebuffer2 (ee s)).

(** [keeps_settings s s']: the flags, the speed settings and the EEPROM
    are the same in [s'] as in [s]. *)
Definition keeps_settings (s s' : yack) : Prop :=
  yackflags s' = yackflags s
  /\ ctcvalue s' = ctcvalue s
  /\ wpmcnt s' = wpmcnt s
  /\ wpm s' = wpm s
  /\ farnsworth s' = farnsworth s
  /\ ee s' = ee s.

(** The state in which the recording loop ended. *)
Definition exit_state (r : record_exit) : yack :=
  match r with
  | Returned s => s
  | TimedOut _ _ s => s
  | Running _ _ _ s => s
  end.

(** ** Notions for the keyer *)

(** What yack.h has to provide for the latch bits: two different bits of
    a byte, and [SQUEEZED] for both of them. *)
Definition latches_ok (h : header) : Prop :=
  0 < DITLATCH h /\ 0 < DAHLATCH h
  /\ Z.land (DITLATCH h) (DAHLATCH h) = 0
  /\ SQUEEZED h = Z.lor (DITLATCH h) (DAHLATCH h)
  /\ SQUEEZED h < 256.

(** The latch bits of the paddles that are closed, the DIT contact being
    [dit] and the DAH contact [dah], with the paddles swapped or not. *)
Definition paddle_state (h : header) (swap dit dah : bool) : Z :=
  Z.lor (if dit then (if swap then DAHLATCH h else DITLATCH h) else 0)
        (if dah then (if swap then DITLATCH h else DAHLATCH h) else 0).

(** The paddles are swapped. *)
Definition swapped (h : header) (s : yack) : bool :=
  negb (Z.land (yackflags s) (PDLSWAP h) =? 0).

(** No latch bit is set in [volflags] (as between two calls of
    [yackiambic]). *)
Definition latches_clear (h : header) (s : yack) : Prop :=
  Z.land (volflags s) (SQUEEZED h) = 0.

(** The buffer of [bufctr] elements closed with the stop bit and shifted
    to the left, as it is handed to [morsechar]. *)
Definition closed_pattern (buffer bufctr : Z) : Z :=
  u8 (Z.shiftl (u8 (Z.lor (u8 (Z.shiftl buffer 1)) 1)) (7 - bufctr)).

(** The static variables after the head of [yackiambic] when the paddles
    show the key state [k]. *)
Definition debounce (h : header) (k : Z) (f : iambic) : iambic :=
  let f := set_timer (dec (timer f)) f in
  let f := set_debounceTimer (dec (debounceTimer f)) f in
  if debounceTimer f =? 0 then
    if negb (keystate f =? k)
    then set_keystate k
           (set_debounceTimer (u16 (Z.quot (KEYDEBOUNCE h) (YACKBEAT h))) f)
    else f
  else f.

(** [quiet h st T b n s0 evs s]: no key is down and no symbol is chosen;
    the keyer is in state [st] with [T] heartbeats to go and the buffer [b]
    of [n] elements; since [s0] the hardware has seen [evs] and the settings
    are unchanged. *)
Definition quiet (h : header) (st : iambicState_t) (T b n : Z)
    (s0 : yack) (evs : list event) (s : yack) : Prop :=
  iambicState (fsm s) = st
  /\ timer (fsm s) = T
  /\ nextSymbol (fsm s) = SYMBOL_NONE
  /\ keystate (fsm s) = 0
  /\ buffer (fsm s) = b
  /\ bufctr (fsm s) = n
  /\ latches_clear h s
  /\ hw s = hw s0 ++ evs
  /\ keeps_settings s0 s.

(** What [track_pressed] keeps of the pressed keys once no key is down. *)
Definition relax (pk : pressedKeys_t) : pressedKeys_t :=
  match pk with
  | PRESSED_BOTH | PRESSED_ONE => PRESSED_NONE
  | _ => pk
  end.

(** The state of the keyer with the header [yack_h] after the given
    heartbeats from start-up. *)
Definition after (paddles : list (bool * bool)) : yack :=
  match run yack_h (ON yack_h) paddles started with
  | Some (_, s) => s
  | None => started
  end.

(** [keeps_keys s s']: the debounced key state, the hold-off timer and
    [volflags] are the same in [s'] as in [s]. *)
Definition keeps_keys (s s' : yack) : Prop :=
  keystate (fsm s') = keystate (fsm s)
  /\ debounceTimer (fsm s') = debounceTimer (fsm s)
  /\ volflags s' = volflags s.

(** [idle_squeezed h s0 s]: the keyer is idle with no symbol chosen, the
    debounced key state is none or both paddles, and since [s0] the
    hardware has seen nothing and the settings are unchanged. *)
Definition idle_squeezed (h : header) (s0 s : yack) : Prop :=
  iambicState (fsm s) = STATE_IDLE
  /\ nextSymbol (fsm s) = SYMBOL_NONE
  /\ (keystate (fsm s) = 0 \/ keystate (fsm s) = SQUEEZED h)
  /\ latches_clear h s
  /\ hw s = hw s0
  /\ keeps_settings s0 s.

(** ** The pattern buffer *)

(** The symbol of an element: a dash or a dot. *)
Definition keyed_symbol (dash : bool) : symbol_t :=
  if dash then SYMBOL_DAH else SYMBOL_DIT.

(** The buffer after the starts of the elements [l], one after the other,
    from the buffer [b]. *)
Fixpoint buffer_after (l : list bool) (b : Z) : Z :=
  match l with
  | [] => b
  | dash :: rest =>
      buffer_after rest (if dash then u8 (Z.lor (u8 (Z.shiftl b 1)) 1)
                         else u8 (Z.shiftl b 1))
  end.

(** The counter after [k] elements. *)
Fixpoint bufctr_after (k : nat) (n : Z) : Z :=
  match k with
  | O => n
  | S k' => bufctr_after k' (u8 (n + 1))
  end.

(** All the sequences of [n] elements. *)
Fixpoint all_patterns (n : nat) : list (list bool) :=
  match n with
  | O => [[]]
  | S k => map (cons false) (all_patterns k) ++ map (cons true) (all_patterns k)
  end.

(** A buffer of [List.length l] elements, closed and handed to the
    decoder, spells [l]. *)
Definition spells (l : list bool) : bool :=
  match code_elements 8 (closed_pattern (buffer_after l 0)
                           (Z.of_nat (List.length l))) with
  | Some l' => if list_eq_dec Bool.bool_dec l' l then true else false
  | None => false
  end.

(** ** Notions for squeeze keying *)

(** The symbol unlike [c], as the end of the gap settles it. *)
Definition opposite (c : symbol_t) : symbol_t :=
  match c with
  | SYMBOL_DIT => SYMBOL_DAH
  | _ => SYMBOL_DIT
  end.

(** The heartbeats of an element and of the gap behind it at [w] beats
    per dot. *)
Definition element_ticks (h : header) (c : symbol_t) (w : Z) : Z :=
  match c with
  | SYMBOL_DIT => u16 (DITLEN h * w)
  | _ => u16 (DAHLEN h * w)
  end.

Definition gap_ticks (h : header) (w : Z) : Z := u16 (IEGLEN h * w).

(** What [init_pressed] chooses next on a squeeze: the opposite symbol in
    mode B, nothing in mode A. *)
Definition prearmed (h : header) (s : yack) : symbol_t :=
  if Z.land (yackflags s) (MODE h) =? IAMBICB h
  then SYMBOL_OPPOSITE else SYMBOL_NONE.

(** [squeezed h st c T nx pk s0 evs s]: both paddles are down in the
    debounced key state; the keyer is in state [st] with [T] heartbeats to
    go, the current symbol [c], the next symbol [nx] and the pressed keys
    [pk]; since [s0] the hardware has seen [evs] and the settings are
    unchanged. *)
Definition squeezed (h : header) (st : iambicState_t) (c : symbol_t) (T : Z)
    (nx : symbol_t) (pk : pressedKeys_t)
    (s0 : yack) (evs : list event) (s : yack) : Prop :=
  iambicState (fsm s) = st
  /\ currentSymbol (fsm s) = c
  /\ timer (fsm s) = T
  /\ nextSymbol (fsm s) = nx
  /\ pressedKeys (fsm s) = pk
  /\ keystate (fsm s) = SQUEEZED h
  /\ latches_clear h s
  /\ hw s = hw s0 ++ evs
  /\ keeps_settings s0 s.

(** What the calls return, and the level of the key after each, while
    both paddles are held for [n] elements from the start of an element
    [c]: the rest of the element, the gap, and the heartbeat that starts the
    opposite element. *)
Fixpoint alternation (h : header) (w : Z) (c : symbol_t) (n : nat)
  : list (Z * bool) :=
  match n with
  | O => []
  | S k =>
      repeat (0, true) (Z.to_nat (element_ticks h c w) - 1)
      ++ repeat (0, false) (Z.to_nat (gap_ticks h w))
      ++ [(0, true)]
      ++ alternation h w (opposite c) k
  end.

(** ** The other control functions

    The constants of yack.h and of the AVR headers that these functions
    use and that [header] does not hold are variables of the section. *)

(** The two words of user storage in EEPROM. *)
Record user_eeprom := {
  user1 : Z;
  user2 : Z
}.

(** What [key] drives: the keying line (bit [OUTPIN] of [OUTPORT]) and the
    registers of timer 0, which makes the sidetone. *)
Record port := {
  outpin : bool;
  ocr0a : Z;
  ocr0b : Z;
  tccr0a : Z;
  tccr0b : Z
}.

Definition set_outpin v (p : port) : port :=
  {| outpin := v; ocr0a := ocr0a p; ocr0b := ocr0b p;
     tccr0a := tccr0a p; tccr0b := tccr0b p |}.

(** What one test of the loop of [yacktune] finds: whether the DIT and the
    DAH contact are closed, and the command button. *)
Definition tune_pins : Type := bool * bool * button.

Definition u32 (x : Z) : Z := x mod 4294967296.

Section Control.

Variable h : header.

Variables READ WRITE : Z.
Variables MAXCTC MINCTC : Z.
Variable TUNEDURATION : Z.
Variable PSTIME : Z.
Variable TXINV : Z.
Variables COM0B0 WGM01 CS01 : Z.

(** [yackuser]: the result and the user storage after the call. *)
Definition yackuser (func nr content : Z) (u : user_eeprom)
  : Z * user_eeprom :=
  let read := if func =? READ then
                if nr =? 1 then Some (user1 u)
                else if nr =? 2 then Some (user2 u)
                else None
              else None in
  match read with
  | Some v => (v, u)
  | None =>
      let u := if func =? WRITE then
                 if nr =? 1
                 then {| user1 := u16 content; user2 := user2 u |}
                 else if nr =? 2
                 then {| user1 := user1 u; user2 := u16 content |}
                 else u
               else u in
      (FALSE h, u)
  end.

Definition yackwpm (s : yack) : Z := wpm s.

(** [yackpitch]; the comparisons are those of C for bounds within the
    range of a word. *)
Definition yackpitch (dir : Z) (s : yack) : yack :=
  let s := if dir =? UP h then set_ctcvalue (u16 (ctcvalue s - 1)) s else s in
  let s := if dir =? DOWN h then set_ctcvalue (u16 (ctcvalue s + 1)) s else s in
  let s := if ctcvalue s <? MAXCTC then set_ctcvalue MAXCTC s else s in
  let s := if ctcvalue s >? MINCTC then set_ctcvalue MINCTC s else s in
  set_volflags (set_bits (volflags s) (DIRTYFLAG h)) s.

Definition yackmode (mode : Z) (s : yack) : yack :=
  let s := set_yackflags (clear_bits (yackflags s) (MODE h)) s in
  let s := set_yackflags (set_bits (yackflags s) mode) s in
  set_volflags (set_bits (volflags s) (DIRTYFLAG h)) s.

Definition yackflag (flag : Z) (s : yack) : Z := Z.land (yackflags s) flag.

Definition yacktoggle (flag : Z) (s : yack) : yack :=
  let s := set_yackflags (u8 (Z.lxor (yackflags s) flag)) s in
  set_volflags (set_bits (volflags s) (DIRTYFLAG h)) s.

(** [yackpower]: [shdntimer] is the static counter; the flag of the result
    tells whether the call put the chip to sleep. *)
Definition yackpower (n : Z) (shdntimer : Z) : bool * Z :=
  if negb (n =? 0) then
    if shdntimer =? YACKSECS h PSTIME
    then (true, 0)
    else (false, u32 (shdntimer + 1))
  else (false, 0).

(** What [key] does to the port (the branch of [TINY85]); the calls are
    logged by [key] above. *)
Definition key_port (mode : Z) (s : yack) (p : port) : port :=
  let p :=
    if mode =? DOWN h then
      let p := if has (volflags s) (SIDETONE h) then
                 {| outpin := outpin p;
                    ocr0a := u8 (ctcvalue s);
                    ocr0b := u8 (ctcvalue s);
                    tccr0a := u8 (Z.lor (tccr0a p)
                                    (Z.lor (Z.shiftl 1 COM0B0)
                                       (Z.shiftl 1 WGM01)));
                    tccr0b := u8 (Z.shiftl 1 CS01) |}
               else p in
      if has (volflags s) (TXKEY h) then
        if has (yackflags s) TXINV
        then set_outpin false p   (* CLEARBIT(OUTPORT, OUTPIN) *)
        else set_outpin true p    (* SETBIT(OUTPORT, OUTPIN) *)
      else p
    else p in
  if mode =? UP h then
    let p := if has (volflags s) (SIDETONE h) then
               {| outpin := outpin p; ocr0a := ocr0a p; ocr0b := ocr0b p;
                  tccr0a := 0; tccr0b := 0 |}
             else p in
    if has (volflags s) (TXKEY h) then
      if has (yackflags s) TXINV
      then set_outpin true p
      else set_outpin false p
    else p
  else p.

(** The loop of [yacktune]: it ends when the timer has run down, at a
    closed paddle, or when [yackctrlkey] reports the command key.  Once
    [pins] is used up the contacts stay open. *)
Fixpoint tune_loop (fuel : nat) (timer : Z) (pins : list tune_pins) (s : yack)
  : option yack :=
  if timer =? 0 then Some s
  else
    match fuel with
    | O => None
    | S k =>
        let '(dit, dah, btn) := hd (false, false, Released) pins in
        if dit : bool then Some s
        else if dah : bool then Some s
        else
          '(stop, s) <- yackctrlkey h (TRUE h) btn s ;;
          if stop : bool then Some s
          else tune_loop k (u16 (timer - 1)) (tl pins) (yackbeat s)
    end.

Definition yacktune (pins : list tune_pins) (s : yack) : option yack :=
  let timer := u16 (YACKSECS h TUNEDURATION) in
  let s := key h (DOWN h) s in
  s <- tune_loop (Z.to_nat timer) timer pins s ;;
  Some (key h (UP h) s).

(** The first loop of [yacknumber]: the digits of [n], the last one
    first, into [buffer].  [n] has at most five digits, which is what
    [buffer] holds. *)
Fixpoint number_digits (fuel : nat) (n : Z) (buffer : list Z) (i : Z)
  : option (list Z * Z) :=
  if n =? 0 then Some (buffer, i)
  else
    match fuel with
    | O => None
    | S k =>
        number_digits k (n / 10)
          (list_set buffer (Z.to_nat i) (u8 (n mod 10 + chr "0")))
          (u8 (i + 1))
    end.

(** The second loop of [yacknumber]: the digits are sent from the top of
    [buffer] down, until the command key is reported. *)
Fixpoint number_send (fuel : nat) (buffer : list Z) (i : Z)
    (polls : list button) (s : yack) : option (list button * yack) :=
  if i =? 0 then Some (polls, s)
  else
    match fuel with
    | O => None
    | S k =>
        '(stop, s) <- yackctrlkey h (TRUE h) (next_poll polls) s ;;
        if stop : bool then Some (tl polls, s)
        else
          let i := u8 (i - 1) in
          c <- nth_error buffer (Z.to_nat i) ;;
          '(polls, s) <- yackchar h c (tl polls) s ;;
          number_send k buffer i polls s
    end.

(** [buffer] is the content of the local array of five characters on
    entry. *)
Definition yacknumber (n : Z) (buffer : list Z) (polls : list button)
    (s : yack) : option (list button * yack) :=
  '(buffer, i) <- number_digits 5 (u16 n) buffer 0 ;;
  '(polls, s) <- number_send (Z.to_nat i) buffer i polls s ;;
  yackchar h (chr " ") polls s.

End Control.

(** ** Notions for the other functions *)

(** Successive calls [yackpower(n)]: whether each put the chip to sleep,
    and the counter after the last. *)
Fixpoint power_calls (h : header) (PSTIME : Z) (calls : list Z) (shdntimer : Z)
  : list bool * Z :=
  match calls with
  | [] => ([], shdntimer)
  | n :: rest =>
      let '(slept, t) := yackpower h PSTIME n shdntimer in
      let '(out, t) := power_calls h PSTIME rest t in
      (slept :: out, t)
  end.

(** The paddles open and the command button open at a test of
    [yacktune]. *)
Definition untouched : tune_pins := (false, false, Released).

(** The number that a sequence of digit characters denotes, the first
    character being the most significant digit. *)
Definition digits_value (cs : list Z) : Z :=
  fold_left (fun acc c => 10 * acc + (c - chr "0")) cs 0.

(** ** Notions for one paddle held *)

(** The debounced key state [k] of a single paddle and the symbol [c] of
    that paddle. *)
Definition latch_symbol (h : header) (k : Z) (c : symbol_t) : Prop :=
  (k = DITLATCH h /\ c = SYMBOL_DIT) \/ (k = DAHLATCH h /\ c = SYMBOL_DAH).

(** [held h k st c T s0 evs s]: one paddle is down, with the debounced key
    state [k]; the keyer is in state [st] with [T] heartbeats to go and the
    current symbol [c], no next symbol is chosen and one key is remembered
    as pressed; since [s0] the hardware has seen [evs] and the settings are
    unchanged. *)
Definition held (h : header) (k : Z) (st : iambicState_t) (c : symbol_t)
    (T : Z) (s0 : yack) (evs : list event) (s : yack) : Prop :=
  iambicState (fsm s) = st
  /\ currentSymbol (fsm s) = c
  /\ timer (fsm s) = T
  /\ nextSymbol (fsm s) = SYMBOL_NONE
  /\ pressedKeys (fsm s) = PRESSED_ONE
  /\ keystate (fsm s) = k
  /\ latches_clear h s
  /\ hw s = hw s0 ++ evs
  /\ keeps_settings s0 s.

(** What the calls return, and the level of the key after each, while one
    paddle is held for [n] elements from the start of an element [c]: the
    rest of the element, the gap, and the heartbeat that starts the next
    element. *)
Fixpoint repetition (h : header) (w : Z) (c : symbol_t) (n : nat)
  : list (Z * bool) :=
  match n with
  | O => []
  | S k =>
      repeat (0, true) (Z.to_nat (element_ticks h c w) - 1)
      ++ repeat (0, false) (Z.to_nat (gap_ticks h w))
      ++ [(0, true)]
      ++ repetition h w c k
  end.

(** ** Notions for the keying line *)

(** The level of the key after the events [log], from the level [lvl]. *)
Definition level_after (lvl : bool) (log : list event) : bool :=
  fold_left (fun lvl e => match e with
                          | EvKeyDown => true
                          | EvKeyUp => false
                          | _ => lvl
                          end) log lvl.

(** From the level [lvl] on, every [key(DOWN)] of [log] finds the key up
    and every [key(UP)] finds it down. *)
Fixpoint key_alternates (lvl : bool) (log : list event) : bool :=
  match log with
  | [] => true
  | EvKeyDown :: rest => negb lvl && key_alternates true rest
  | EvKeyUp :: rest => lvl && key_alternates false rest
  | _ :: rest => key_alternates lvl rest
  end.

(** The key is down exactly when the keyer is in [STATE_DAHDIT]. *)
Definition key_follows (s : yack) : Prop :=
  key_level (hw s) = iambicState_eqb (iambicState (fsm s)) STATE_DAHDIT.

(** [keyed s t]: from [s] to [t] the hardware has seen more events, and
    among them the calls of [key] alternate from the level of the key in
    [s]. *)
Definition keyed (s t : yack) : Prop :=
  exists evs,
    hw t = hw s ++ evs
    /\ key_alternates (key_level (hw s)) evs = true.

(** ** Notions for the cancellation of a string *)

(** No paddle is closed at any test of the busy wait of [yackctrlkey]. *)
Definition paddles_open (w : list (bool * bool)) : bool :=
  forallb (fun p => negb (fst p) && negb (snd p)) w.

(** The command key is found open at the first [n] polls and closed at the
    next one, where the busy wait for its release reads the paddles [w];
    [rest] is what the polls after that find. *)
Definition pressed_at (n : nat) (w : list (bool * bool)) (rest : list button)
  : list button :=
  repeat Released n ++ Pressed w :: rest.

(** ** Notions for the gaps

    [timing h st T b n s0 evs s]: the keyer is in state [st] with [T]
    heartbeats to go and the buffer [b] of [n] elements, whatever the keys
    are; since [s0] the hardware has seen [evs] and the settings are
    unchanged. *)
Definition timing (h : header) (st : iambicState_t) (T b n : Z)
    (s0 : yack) (evs : list event) (s : yack) : Prop :=
  iambicState (fsm s) = st
  /\ timer (fsm s) = T
  /\ buffer (fsm s) = b
  /\ bufctr (fsm s) = n
  /\ latches_clear h s
  /\ hw s = hw s0 ++ evs
  /\ keeps_settings s0 s.

(** [same_clock t t']: the two states differ at most in the symbols and in
    the keys that the state machine remembers. *)
Definition same_clock (t t' : yack) : Prop :=
  iambicState (fsm t') = iambicState (fsm t)
  /\ timer (fsm t') = timer (fsm t)
  /\ buffer (fsm t') = buffer (fsm t)
  /\ bufctr (fsm t') = bufctr (fsm t)
  /\ keystate (fsm t') = keystate (fsm t)
  /\ debounceTimer (fsm t') = debounceTimer (fsm t)
  /\ currentSymbol (fsm t') = currentSymbol (fsm t)
  /\ volflags t' = volflags t
  /\ hw t' = hw t
  /\ keeps_settings t t'.

(** ** Notions for a character keyed one paddle at a time *)

(** The hold-off of the debounce, in heartbeats. *)
Definition holdoff (h : header) : Z :=
  u16 (Z.quot (KEYDEBOUNCE h) (YACKBEAT h)).

(** The key state of the paddle of an element, and the contacts that give
    it, with the paddles swapped or not. *)
Definition latch_of (h : header) (dash : bool) : Z :=
  if dash then DAHLATCH h else DITLATCH h.

Definition paddle_of (swap dash : bool) : bool * bool :=
  if xorb swap dash then (false, true) else (true, false).

(** The buffer after the start of one more element. *)
Definition shifted (b : Z) (dash : bool) : Z :=
  if dash then u8 (Z.lor (u8 (Z.shiftl b 1)) 1) else u8 (Z.shiftl b 1).

(** [sending h e st T b n s0 evs s]: the paddle of the element [e] is down
    and this element is the current one, in state [st] with [T] heartbeats
    to go; the buffer is [b] with [n] elements, and the hold-off of the
    debounce ends before the gap behind the element does. *)
Definition sending (h : header) (e : bool) (st : iambicState_t) (T b n : Z)
    (s0 : yack) (evs : list event) (s : yack) : Prop :=
  held h (latch_of h e) st (keyed_symbol e) T s0 evs s
  /\ buffer (fsm s) = b
  /\ bufctr (fsm s) = n
  /\ 0 <= debounceTimer (fsm s)
  /\ debounceTimer (fsm s)
     <= T + match st with
            | STATE_DAHDIT => gap_ticks h (wpmcnt s0)
            | _ => 0
            end.

(** The paddles, heartbeat by heartbeat, that key the elements [l] one
    paddle at a time, at [w] heartbeats to the dot: the paddle of the first
    element closes, and the paddle of every element stays closed through
    the element and the gap behind it up to the last heartbeat of that gap,
    at which the paddle of the next element is closed instead or, after the
    last element, both paddles are open.  [keying_rest] is what follows the
    heartbeat that starts the element [e]. *)
Fixpoint keying_rest (h : header) (swap : bool) (w : Z) (e : bool)
    (rest : list bool) : list (bool * bool) :=
  repeat (paddle_of swap e)
    (Z.to_nat (element_ticks h (keyed_symbol e) w) - 1
     + Z.to_nat (gap_ticks h w))
  ++ match rest with
     | [] => [(false, false)]
     | e' :: rest' => paddle_of swap e' :: keying_rest h swap w e' rest'
     end.

Definition keying (h : header) (swap : bool) (w : Z) (l : list bool)
  : list (bool * bool) :=
  match l with
  | [] => []
  | e :: rest => paddle_of swap e :: keying_rest h swap w e rest
  end.

(** What the calls return, and the level of the key after each, when the
    elements [l] are keyed: every element at its full length with the gap
    behind it, and nothing returned. *)
Fixpoint keyed_rest_out (h : header) (w : Z) (e : bool) (rest : list bool)
  : list (Z * bool) :=
  repeat (0, true) (Z.to_nat (element_ticks h (keyed_symbol e) w) - 1)
  ++ repeat (0, false) (Z.to_nat (gap_ticks h w))
  ++ match rest with
     | [] => [(0, false)]
     | e' :: rest' => (0, true) :: keyed_rest_out h w e' rest'
     end.

Definition keyed_out (h : header) (w : Z) (l : list bool)
  : list (Z * bool) :=
  match l with
  | [] => []
  | e :: rest => (0, true) :: keyed_rest_out h w e rest
  end.

(** The calls of [key] for the elements behind the first: the key goes up
    at the end of an element and down at the start of the next one. *)
Definition key_cycles (rest : list bool) : list event :=
  List.concat (map (fun _ : bool => [EvKeyUp; EvKeyDown]) rest).

(** * Properties *)

(** ** Machine integers and flag bytes *)

Lemma u8_small (x : Z) : 0 <= x < 256 -> u8 x = x.
Proof. intros Hx. unfold u8. apply Z.mod_small. exact Hx. Qed.

Lemma u16_small (x : Z) : 0 <= x < 65536 -> u16 x = x.
Proof. intros Hx. unfold u16. apply Z.mod_small. exact Hx. Qed.

Lemma u8_range (x : Z) : 0 <= u8 x < 256.
Proof. unfold u8. apply Z.mod_pos_bound. lia. Qed.

Lemma u16_range (x : Z) : 0 <= u16 x < 65536.
Proof. unfold u16. apply Z.mod_pos_bound. lia. Qed.

Lemma dec_pos (x : Z) : 0 < x -> dec x = x - 1.
Proof. intros Hx. unfold dec. destruct (Z.eqb_spec x 0); lia. Qed.

Lemma dec_zero : dec 0 = 0.
Proof. reflexivity. Qed.

Lemma u8_testbit (x : Z) (n : Z) :
  Z.testbit (u8 x) n = (n <? 8) && Z.testbit x n.
Proof.
  unfold u8. change 256 with (2 ^ 8).
  destruct (Z.ltb_spec n 8) as [Hlt | Hge].
  - destruct (Z.ltb_spec n 0) as [Hneg | Hnn].
    + rewrite !Z.testbit_neg_r by lia. reflexivity.
    + rewrite Z.mod_pow2_bits_low by lia. reflexivity.
  - rewrite Z.mod_pow2_bits_high by lia. reflexivity.
Qed.

(** Clearing the bits of a mask leaves none of them. *)
Lemma clear_bits_land (v m : Z) : Z.land (clear_bits v m) m = 0.
Proof.
  apply Z.bits_inj'. intros n Hn.
  unfold clear_bits.
  rewrite Z.land_spec, u8_testbit, Z.land_spec, Z.lnot_spec, Z.bits_0 by lia.
  destruct (n <? 8), (Z.testbit v n), (Z.testbit m n); reflexivity.
Qed.

(** Clearing bits that are not set changes nothing in a byte. *)
Lemma clear_bits_absent (v m : Z) :
  0 <= v < 256 -> Z.land v m = 0 -> clear_bits v m = v.
Proof.
  intros Hv Hm. unfold clear_bits.
  apply Z.bits_inj'. intros n Hn.
  rewrite u8_testbit, Z.land_spec, Z.lnot_spec by lia.
  assert (Hb : Z.testbit (Z.land v m) n = false) by (rewrite Hm; apply Z.bits_0).
  rewrite Z.land_spec in Hb.
  assert (Hhi : Z.testbit v n = (n <? 8) && Z.testbit v n).
  { rewrite <- u8_testbit, u8_small by exact Hv. reflexivity. }
  destruct (n <? 8), (Z.testbit v n), (Z.testbit m n); simpl in *; congruence.
Qed.

(** ** Records: reading a field that was just written *)

Lemma set_hw_hw (s : yack) : set_hw (hw s) s = s.
Proof. destruct s; reflexivity. Qed.

Lemma set_hw_twice (a b : list event) (s : yack) :
  set_hw a (set_hw b s) = set_hw a s.
Proof. reflexivity. Qed.

(** ** What the playback routines do: nothing but calls of the hardware *)

Section Playback.

Variable h : header.

Lemma key_log (mode : Z) (s : yack) :
  key h mode s = set_hw (hw s ++ key_events h mode) s.
Proof.
  unfold key, key_events, emit.
  destruct (mode =? DOWN h), (mode =? UP h); simpl;
    rewrite ?app_nil_r, ?set_hw_hw, <- ?app_assoc; reflexivity.
Qed.

Lemma beats_log (k : nat) (s : yack) :
  Nat.iter k yackbeat s = set_hw (hw s ++ repeat EvBeat k) s.
Proof.
  induction k as [| k IH]; simpl.
  - rewrite app_nil_r, set_hw_hw. reflexivity.
  - rewrite IH. unfold yackbeat, emit. simpl.
    rewrite <- app_assoc.
    replace (repeat EvBeat k ++ [EvBeat]) with (EvBeat :: repeat EvBeat k).
    + reflexivity.
    + change (EvBeat :: repeat EvBeat k) with (repeat EvBeat (S k)).
      rewrite <- repeat_cons. reflexivity.
Qed.

Lemma yackdelay_log (n : Z) (s : yack) :
  yackdelay n s = set_hw (hw s ++ delay_events n (wpmcnt s)) s.
Proof.
  unfold yackdelay, delay_events.
  induction (Z.to_nat (u8 n)) as [| k IH]; simpl.
  - rewrite app_nil_r, set_hw_hw. reflexivity.
  - rewrite IH, beats_log. simpl.
    rewrite repeat_app, <- app_assoc, set_hw_twice.
    f_equal. f_equal.
    rewrite <- !repeat_app. f_equal. lia.
Qed.

Lemma yackplay_log (i : Z) (s : yack) :
  yackplay h i s = set_hw (hw s ++ play_events h i (wpmcnt s)) s.
Proof.
  unfold yackplay, play_events.
  rewrite !key_log.
  destruct (i =? DAH h); [| destruct (i =? DIT h)];
    rewrite ?yackdelay_log; simpl; rewrite <- ?app_assoc; reflexivity.
Qed.

Lemma yackfarns_log (s : yack) :
  yackfarns s = set_hw (hw s ++ farns_events (farnsworth s) (wpmcnt s)) s.
Proof.
  unfold yackfarns, farns_events.
  induction (Z.to_nat (farnsworth s)) as [| k IH]; simpl.
  - rewrite app_nil_r, set_hw_hw. reflexivity.
  - rewrite IH, yackdelay_log. simpl.
    rewrite <- app_assoc, set_hw_twice. f_equal. f_equal.
    clear IH. induction k as [| k IHk]; simpl.
    + rewrite app_nil_r. reflexivity.
    + rewrite <- app_assoc, IHk. reflexivity.
Qed.

End Playback.

(** ** The code table *)

(** Checking a property of every value of a range by computation. *)
Lemma forallb_range (f : Z -> bool) (lo : Z) (n : nat) :
  forallb f (map (fun k => lo + Z.of_nat k) (seq 0 n)) = true ->
  forall c, lo <= c < lo + Z.of_nat n -> f c = true.
Proof.
  intros Hall c Hc.
  rewrite forallb_forall in Hall.
  apply Hall.
  apply in_map_iff. exists (Z.to_nat (c - lo)). split.
  - lia.
  - apply in_seq. lia.
Qed.

Lemma in_codebook_byte (c : Z) : in_codebook c = true -> 0 <= c < 256.
Proof.
  unfold in_codebook. intros H.
  apply orb_true_iff in H. destruct H as [H | H].
  1: apply orb_true_iff in H; destruct H as [H | H].
  1: apply orb_true_iff in H; destruct H as [H | H].
  - apply andb_true_iff in H. unfold chr in H. simpl in H. lia.
  - apply andb_true_iff in H. unfold chr in H. simpl in H. lia.
  - apply andb_true_iff in H. unfold chr in H. simpl in H. lia.
  - apply existsb_exists in H. destruct H as [x [Hin Heq]].
    apply Z.eqb_eq in Heq. subst x.
    assert (Hall : Forall (fun x => 0 <= x < 256) spechar).
    { unfold spechar, chr. simpl. repeat constructor; lia. }
    rewrite Forall_forall in Hall. apply Hall. exact Hin.
Qed.

(** C5. For every character that has an entry in the Morse code table (a
    digit, a letter of either case, a character of [spechar]), decoding its
    code with [morsechar] gives the character back, a lower case letter as
    its upper case: decode (encode c) = normalize c. *)
Theorem decode_encode_normalize :
  forall c, in_codebook c = true ->
            morsechar (yackchar_code c) = normalize c.
Proof.
  intros c Hin.
  pose proof (in_codebook_byte c Hin) as Hc.
  pose (f := fun c => implb (in_codebook c)
                        (morsechar (yackchar_code c) =? normalize c)).
  assert (Hf : f c = true).
  { apply (forallb_range f 0 256).
    - vm_compute. reflexivity.
    - lia. }
  unfold f in Hf. rewrite Hin in Hf. simpl in Hf.
  apply Z.eqb_eq. exact Hf.
Qed.

Lemma decode_encode_normalize_witness :
  in_codebook (chr "k") = true
  /\ morsechar (yackchar_code (chr "k")) = normalize (chr "k").
Proof.
  split.
  - reflexivity.
  - apply (decode_encode_normalize (chr "k")). reflexivity.
Defined.

(** ** Speed and Farnsworth pause *)

Section Speed.

Variable h : header.

(** The variables after [yackspeed] in Farnsworth mode. *)
Lemma yackspeed_farnsworth (dir mode : Z) (s : yack) :
  mode = FARNSWORTH h ->
  exists s',
    yackspeed h dir mode s = Some s'
    /\ wpm s' = wpm s /\ wpmcnt s' = wpmcnt s
    /\ ee s' = ee s /\ fsm s' = fsm s
    /\ farnsworth s' =
         (let f := if (dir =? UP h) && (farnsworth s >? 0)
                   then u8 (farnsworth s - 1) else farnsworth s in
          if (dir =? DOWN h) && (f <? MAXFARN h) then u8 (f + 1) else f).
Proof.
  intros ->. unfold yackspeed. rewrite Z.eqb_refl. simpl bind.
  rewrite yackfarns_log, yackdelay_log, yackplay_log, yackdelay_log, yackplay_log.
  eexists. split; [reflexivity |].
  destruct ((dir =? UP h) && (farnsworth s >? 0));
    cbn [wpm wpmcnt ee fsm farnsworth set_hw set_volflags set_farnsworth];
    destruct ((dir =? DOWN h) && (_ <? MAXFARN h));
    cbn [wpm wpmcnt ee fsm farnsworth set_hw set_volflags set_farnsworth];
    repeat split; reflexivity.
Qed.

(** The variables after [yackspeed] in speed mode; the call is defined
    when the new speed is not zero. *)
Lemma yackspeed_wpm (dir mode : Z) (s : yack) :
  mode <> FARNSWORTH h ->
  let w := if (dir =? UP h) && (wpm s <? MAXWPM h)
           then u8 (wpm s + 1) else wpm s in
  let w' := if (dir =? DOWN h) && (w >? MINWPM h) then u8 (w - 1) else w in
  w' <> 0 ->
  exists s',
    yackspeed h dir mode s = Some s'
    /\ wpm s' = w'
    /\ wpmcnt s' = u16 (Z.quot (Z.quot 1200 (YACKBEAT h)) w')
    /\ farnsworth s' = farnsworth s
    /\ ee s' = ee s /\ fsm s' = fsm s.
Proof.
  intros Hmode w w' Hw'. unfold yackspeed.
  apply Z.eqb_neq in Hmode. rewrite Hmode.
  subst w' w.
  destruct ((dir =? UP h) && (wpm s <? MAXWPM h)); cbn [wpm set_wpm] in *;
    destruct ((dir =? DOWN h) && (_ >? MINWPM h)); cbn [wpm set_wpm] in *;
    unfold cdiv; apply Z.eqb_neq in Hw'; rewrite Hw'; simpl bind;
    rewrite yackfarns_log, yackdelay_log, yackplay_log, yackdelay_log, yackplay_log;
    (eexists; split; [reflexivity |]); cbn; repeat split; reflexivity.
Qed.

(** The beats of a dot as the code computes them: the quotient, cut off. *)
Lemma wpmcnt_floor (w : Z) :
  0 < YACKBEAT h -> 0 < w ->
  u16 (Z.quot (Z.quot 1200 (YACKBEAT h)) w) = 1200 / (YACKBEAT h * w).
Proof.
  intros Hy Hw.
  rewrite (Z.quot_div_nonneg 1200) by lia.
  assert (Hq : 0 <= 1200 / YACKBEAT h <= 1200).
  { split.
    - apply Z.div_pos; lia.
    - apply Z.div_le_upper_bound; nia. }
  rewrite Z.quot_div_nonneg by lia.
  rewrite Z.div_div by lia.
  apply u16_small.
  split.
  - apply Z.div_pos; nia.
  - assert (1200 / (YACKBEAT h * w) <= 1200); [| lia].
    apply Z.div_le_upper_bound; nia.
Qed.

(** One call of [yackspeed] from a state within the bounds. *)
Lemma yackspeed_step (dir mode : Z) (s : yack) :
  0 < MINWPM h -> MAXWPM h <= 255 -> MAXFARN h <= 255 ->
  speed_in_range h s ->
  exists s',
    yackspeed h dir mode s = Some s'
    /\ speed_in_range h s'
    /\ Z.abs (wpm s' - wpm s) <= 1
    /\ Z.abs (farnsworth s' - farnsworth s) <= 1.
Proof.
  intros Hmin Hmax Hfarn [Hw Hf].
  destruct (Z.eq_dec mode (FARNSWORTH h)) as [Hm | Hm].
  - destruct (yackspeed_farnsworth dir mode s Hm)
      as [s' [Hs' [Ew [_ [_ [_ Ef]]]]]].
    exists s'. split; [exact Hs' |].
    unfold speed_in_range. rewrite Ew, Ef. cbv zeta.
    destruct (dir =? UP h); destruct (Z.gtb_spec (farnsworth s) 0); simpl andb;
      cbv iota; rewrite ?u8_small by lia;
      destruct (dir =? DOWN h);
      match goal with
      | |- context [?a <? MAXFARN h] => destruct (Z.ltb_spec a (MAXFARN h))
      end; simpl andb; cbv iota; rewrite ?u8_small by lia; lia.
  - pose proof (yackspeed_wpm dir mode s Hm) as Hstep. cbv zeta in Hstep.
    assert (Hcases :
      let w := if (dir =? UP h) && (wpm s <? MAXWPM h)
               then u8 (wpm s + 1) else wpm s in
      let w' := if (dir =? DOWN h) && (w >? MINWPM h) then u8 (w - 1) else w in
      MINWPM h <= w' <= MAXWPM h /\ Z.abs (w' - wpm s) <= 1).
    { cbv zeta.
      destruct (dir =? UP h); destruct (Z.ltb_spec (wpm s) (MAXWPM h));
        simpl andb; cbv iota; rewrite ?u8_small by lia;
        destruct (dir =? DOWN h);
        match goal with
        | |- context [?a >? MINWPM h] => destruct (Z.gtb_spec a (MINWPM h))
        end; simpl andb; cbv iota; rewrite ?u8_small by lia; lia. }
    cbv zeta in Hcases. destruct Hcases as [Hr Hd].
    destruct Hstep as [s' [Hs' [Ew [_ [Ef _]]]]]; [lia |].
    exists s'. split; [exact Hs' |].
    unfold speed_in_range. rewrite Ew, Ef.
    replace (farnsworth s - farnsworth s) with 0 by lia.
    simpl Z.abs. repeat split; lia.
Qed.

End Speed.

(** C8. Under any sequence of calls of [yackspeed], in either direction
    and either mode, from a state whose speed is within [MINWPM, MAXWPM]
    and whose Farnsworth pause is within [0, MAXFARN], every call returns,
    the values stay within these bounds, and a further single call changes
    each of them by at most 1. *)
Theorem yackspeed_bounds :
  forall (h : header) (calls : list (Z * Z)) (s : yack),
    0 < MINWPM h -> MAXWPM h <= 255 -> MAXFARN h <= 255 ->
    speed_in_range h s ->
    exists s',
      speed_calls h calls s = Some s'
      /\ speed_in_range h s'
      /\ forall dir mode,
           exists s'',
             yackspeed h dir mode s' = Some s''
             /\ speed_in_range h s''
             /\ Z.abs (wpm s'' - wpm s') <= 1
             /\ Z.abs (farnsworth s'' - farnsworth s') <= 1.
Proof.
  intros h calls.
  induction calls as [| [dir mode] rest IH]; intros s Hmin Hmax Hfarn Hs.
  - exists s. split; [reflexivity |]. split; [exact Hs |].
    intros dir mode. apply yackspeed_step; assumption.
  - destruct (yackspeed_step h dir mode s Hmin Hmax Hfarn Hs)
      as [s1 [Hs1 [Hr1 _]]].
    destruct (IH s1 Hmin Hmax Hfarn Hr1) as [s' [Hs' Hrest]].
    exists s'. split; [| exact Hrest].
    simpl. rewrite Hs1. simpl. exact Hs'.
Qed.

Lemma yackspeed_bounds_witness :
  (0 < MINWPM yack_h /\ MAXWPM yack_h <= 255 /\ MAXFARN yack_h <= 255
   /\ speed_in_range yack_h started)
  /\ exists s',
       speed_calls yack_h [(UP yack_h, WPMSPEED yack_h);
                           (DOWN yack_h, FARNSWORTH yack_h)] started = Some s'
       /\ speed_in_range yack_h s'
       /\ forall dir mode,
            exists s'',
              yackspeed yack_h dir mode s' = Some s''
              /\ speed_in_range yack_h s''
              /\ Z.abs (wpm s'' - wpm s') <= 1
              /\ Z.abs (farnsworth s'' - farnsworth s') <= 1.
Proof.
  assert (H1 : 0 < MINWPM yack_h) by (simpl; lia).
  assert (H2 : MAXWPM yack_h <= 255) by (simpl; lia).
  assert (H3 : MAXFARN yack_h <= 255) by (simpl; lia).
  assert (H4 : speed_in_range yack_h started)
    by (unfold speed_in_range; simpl; lia).
  split.
  - repeat split; assumption || (simpl; lia).
  - exact (yackspeed_bounds yack_h
             [(UP yack_h, WPMSPEED yack_h); (DOWN yack_h, FARNSWORTH yack_h)]
             started H1 H2 H3 H4).
Defined.

(** C10. In Farnsworth mode the directions of [yackspeed] are the reverse
    of those of the speed mode: UP takes 1 off the Farnsworth pause, down
    to 0, and DOWN adds 1 to it, up to MAXFARN, the speed staying as it is;
    in speed mode UP adds 1 to the speed, up to MAXWPM, and DOWN takes 1
    off, down to MINWPM. *)
Theorem farnsworth_direction_inverted :
  forall (h : header) (s : yack),
    UP h <> DOWN h ->
    0 < MINWPM h -> MAXWPM h <= 255 -> MAXFARN h <= 255 ->
    speed_in_range h s ->
    (exists s',
        yackspeed h (UP h) (FARNSWORTH h) s = Some s'
        /\ farnsworth s' = Z.max 0 (farnsworth s - 1)
        /\ wpm s' = wpm s)
    /\ (exists s',
           yackspeed h (DOWN h) (FARNSWORTH h) s = Some s'
           /\ farnsworth s' = Z.min (MAXFARN h) (farnsworth s + 1)
           /\ wpm s' = wpm s)
    /\ (forall mode, mode <> FARNSWORTH h ->
          (exists s',
              yackspeed h (UP h) mode s = Some s'
              /\ wpm s' = Z.min (MAXWPM h) (wpm s + 1)
              /\ farnsworth s' = farnsworth s)
          /\ (exists s',
                 yackspeed h (DOWN h) mode s = Some s'
                 /\ wpm s' = Z.max (MINWPM h) (wpm s - 1)
                 /\ farnsworth s' = farnsworth s)).
Proof.
  intros h s Hdir Hmin Hmax Hfarn [Hw Hf].
  assert (Hud : (UP h =? DOWN h) = false) by (apply Z.eqb_neq; exact Hdir).
  assert (Hdu : (DOWN h =? UP h) = false)
    by (apply Z.eqb_neq; intros E; apply Hdir; symmetry; exact E).
  split; [| split].
  - destruct (yackspeed_farnsworth h (UP h) (FARNSWORTH h) s eq_refl)
      as [s' [Hs' [Ew [_ [_ [_ Ef]]]]]].
    exists s'. split; [exact Hs' |]. split; [| exact Ew].
    rewrite Ef. cbv zeta. rewrite Z.eqb_refl, Hud. simpl andb.
    destruct (Z.gtb_spec (farnsworth s) 0); cbv iota;
      rewrite ?u8_small by lia; lia.
  - destruct (yackspeed_farnsworth h (DOWN h) (FARNSWORTH h) s eq_refl)
      as [s' [Hs' [Ew [_ [_ [_ Ef]]]]]].
    exists s'. split; [exact Hs' |]. split; [| exact Ew].
    rewrite Ef. cbv zeta. rewrite Z.eqb_refl, Hdu. simpl andb. cbv iota.
    destruct (Z.ltb_spec (farnsworth s) (MAXFARN h));
      rewrite ?u8_small by lia; lia.
  - intros mode Hmode. split.
    + pose proof (yackspeed_wpm h (UP h) mode s Hmode) as Hstep.
      cbv zeta in Hstep. rewrite Z.eqb_refl, Hud in Hstep.
      simpl andb in Hstep. cbv iota in Hstep.
      destruct (Z.ltb_spec (wpm s) (MAXWPM h));
        rewrite ?u8_small in Hstep by lia;
        (destruct Hstep as [s' [Hs' [Ew [_ [Ef _]]]]]; [lia |]);
        exists s'; (split; [exact Hs' |]); (split; [| exact Ef]); lia.
    + pose proof (yackspeed_wpm h (DOWN h) mode s Hmode) as Hstep.
      cbv zeta in Hstep. rewrite Z.eqb_refl, Hdu in Hstep.
      simpl andb in Hstep. cbv iota in Hstep.
      destruct (Z.gtb_spec (wpm s) (MINWPM h));
        rewrite ?u8_small in Hstep by lia;
        (destruct Hstep as [s' [Hs' [Ew [_ [Ef _]]]]]; [lia |]);
        exists s'; (split; [exact Hs' |]); (split; [| exact Ef]); lia.
Qed.

Lemma farnsworth_direction_inverted_witness :
  (UP yack_h <> DOWN yack_h /\ 0 < MINWPM yack_h /\ MAXWPM yack_h <= 255
   /\ MAXFARN yack_h <= 255 /\ speed_in_range yack_h started)
  /\ (exists s',
         yackspeed yack_h (UP yack_h) (FARNSWORTH yack_h) started = Some s'
         /\ farnsworth s' = Z.max 0 (farnsworth started - 1)
         /\ wpm s' = wpm started)
  /\ (exists s',
         yackspeed yack_h (DOWN yack_h) (FARNSWORTH yack_h) started = Some s'
         /\ farnsworth s' = Z.min (MAXFARN yack_h) (farnsworth started + 1)
         /\ wpm s' = wpm started).
Proof.
  assert (H0 : UP yack_h <> DOWN yack_h) by (simpl; lia).
  assert (H1 : 0 < MINWPM yack_h) by (simpl; lia).
  assert (H2 : MAXWPM yack_h <= 255) by (simpl; lia).
  assert (H3 : MAXFARN yack_h <= 255) by (simpl; lia).
  assert (H4 : speed_in_range yack_h started)
    by (unfold speed_in_range; simpl; lia).
  pose proof (farnsworth_direction_inverted yack_h started H0 H1 H2 H3 H4)
    as [Hup [Hdown _]].
  split.
  - repeat split; assumption || (simpl; lia).
  - split; assumption.
Defined.

(** The variables that [yacksave] and [yackinhibit] leave alone. *)
Lemma yacksave_speed (h : header) (s : yack) :
  wpm (yacksave h s) = wpm s /\ wpmcnt (yacksave h s) = wpmcnt s.
Proof. unfold yacksave. destruct (has _ _); split; reflexivity. Qed.

Lemma yackinhibit_speed (h : header) (mode : Z) (s : yack) :
  wpm (yackinhibit h mode s) = wpm s
  /\ wpmcnt (yackinhibit h mode s) = wpmcnt s.
Proof.
  unfold yackinhibit. destruct (negb _).
  - split; reflexivity.
  - rewrite key_log. split; reflexivity.
Qed.

Lemma yackreset_speed (h : header) (s : yack) :
  wpm (yackreset h s) = DEFWPM h
  /\ wpmcnt (yackreset h s)
     = u16 (Z.quot (Z.quot 1200 (YACKBEAT h)) (DEFWPM h)).
Proof.
  unfold yackreset.
  match goal with
  | |- context [yacksave h ?t] =>
      destruct (yacksave_speed h t) as [-> ->]
  end.
  split; reflexivity.
Qed.

(** C7 as stated does not hold: at the usual heartbeat of 5 ms, raising
    the speed from 24 to 25 WPM sets 9 beats per dot, while 1200 / 5 / 25 is
    9.6, of which the nearest integer is 10. *)
Lemma wpmcnt_not_rounded :
  exists s',
    yackspeed yack_h (UP yack_h) (WPMSPEED yack_h) (set_wpm 24 started)
    = Some s'
    /\ MINWPM yack_h <= wpm s' <= MAXWPM yack_h
    /\ wpm s' = 25
    /\ wpmcnt s' = 9
    /\ spec_round_div 1200 (YACKBEAT yack_h * wpm s') = 10
    /\ wpmcnt s' <> spec_round_div 1200 (YACKBEAT yack_h * wpm s').
Proof.
  destruct (yackspeed_wpm yack_h (UP yack_h) (WPMSPEED yack_h)
              (set_wpm 24 started))
    as [s' [Hs' [Ew [Ec _]]]].
  - simpl. lia.
  - vm_compute. discriminate.
  - exists s'. split; [exact Hs' |].
    rewrite Ec, Ew. vm_compute.
    repeat split; discriminate.
Qed.

(** C7, amended. For every speed within [MINWPM, MAXWPM], the length of a
    dot in heartbeats that [yackspeed] computes on a change of the speed,
    and that [yackinit] and [yackreset] compute on initialisation, is the
    quotient 1200 / (heartbeat_ms * wpm) cut off to an integer (rounded
    down, not to the nearest integer). *)
Theorem wpmcnt_truncated :
  forall (h : header) (s : yack),
    0 < YACKBEAT h -> 0 < MINWPM h -> MAXWPM h <= 255 ->
    MINWPM h <= wpm s <= MAXWPM h ->
    MINWPM h <= DEFWPM h <= MAXWPM h ->
    MINWPM h <= wpmstor (ee s) <= MAXWPM h ->
    (forall dir mode, mode <> FARNSWORTH h ->
       exists s',
         yackspeed h dir mode s = Some s'
         /\ MINWPM h <= wpm s' <= MAXWPM h
         /\ wpmcnt s' = 1200 / (YACKBEAT h * wpm s')
         /\ wpmcnt s' * (YACKBEAT h * wpm s') <= 1200
            < (wpmcnt s' + 1) * (YACKBEAT h * wpm s'))
    /\ (exists s',
          yackinit h s = Some s'
          /\ MINWPM h <= wpm s' <= MAXWPM h
          /\ wpmcnt s' = 1200 / (YACKBEAT h * wpm s')
          /\ wpmcnt s' * (YACKBEAT h * wpm s') <= 1200
             < (wpmcnt s' + 1) * (YACKBEAT h * wpm s'))
    /\ (wpm (yackreset h s) = DEFWPM h
        /\ wpmcnt (yackreset h s) = 1200 / (YACKBEAT h * DEFWPM h)
        /\ wpmcnt (yackreset h s) * (YACKBEAT h * DEFWPM h) <= 1200
           < (wpmcnt (yackreset h s) + 1) * (YACKBEAT h * DEFWPM h)).
Proof.
  intros h s Hy Hmin Hmax Hw Hdef Hstor.
  assert (Hfloor : forall w, 0 < w ->
            (1200 / (YACKBEAT h * w)) * (YACKBEAT h * w) <= 1200
            < (1200 / (YACKBEAT h * w) + 1) * (YACKBEAT h * w)).
  { intros w Hw0.
    assert (Hp : 0 < YACKBEAT h * w) by nia.
    pose proof (Z.mul_div_le 1200 _ Hp).
    pose proof (Z.mul_succ_div_gt 1200 _ Hp).
    nia. }
  split; [| split].
  - intros dir mode Hmode.
    pose proof (yackspeed_step h dir mode s Hmin Hmax) as Hstep.
    pose proof (yackspeed_wpm h dir mode s Hmode) as Hval. cbv zeta in Hval.
    assert (Hcases :
      let w := if (dir =? UP h) && (wpm s <? MAXWPM h)
               then u8 (wpm s + 1) else wpm s in
      let w' := if (dir =? DOWN h) && (w >? MINWPM h) then u8 (w - 1) else w in
      MINWPM h <= w' <= MAXWPM h).
    { cbv zeta.
      destruct (dir =? UP h); destruct (Z.ltb_spec (wpm s) (MAXWPM h));
        simpl andb; cbv iota; rewrite ?u8_small by lia;
        destruct (dir =? DOWN h);
        match goal with
        | |- context [?a >? MINWPM h] => destruct (Z.gtb_spec a (MINWPM h))
        end; simpl andb; cbv iota; rewrite ?u8_small by lia; lia. }
    cbv zeta in Hcases.
    destruct Hval as [s' [Hs' [Ew [Ec _]]]]; [lia |].
    exists s'. split; [exact Hs' |].
    rewrite Ec, Ew, wpmcnt_floor by lia.
    split; [exact Hcases |]. split; [reflexivity |].
    apply Hfloor. lia.
  - unfold yackinit.
    destruct (magic (ee s) =? MAGPAT h).
    + cbn [wpm set_wpm set_ctcvalue ee]. unfold cdiv.
      assert (Hnz : (wpmstor (ee s) =? 0) = false) by (apply Z.eqb_neq; lia).
      rewrite Hnz. simpl bind.
      eexists. split; [reflexivity |].
      match goal with
      | |- context [yackinhibit h ?m ?t] =>
          destruct (yackinhibit_speed h m t) as [-> ->]
      end.
      cbn [wpm wpmcnt set_yackflags set_farnsworth set_wpmcnt set_wpm
           set_ctcvalue].
      rewrite wpmcnt_floor by lia.
      split; [exact Hstor |]. split; [reflexivity |].
      apply Hfloor. lia.
    + simpl bind.
      eexists. split; [reflexivity |].
      destruct (yackinhibit_speed h (OFF h) (yackreset h s)) as [-> ->].
      destruct (yackreset_speed h s) as [-> ->].
      rewrite wpmcnt_floor by lia.
      split; [exact Hdef |]. split; [reflexivity |].
      apply Hfloor. lia.
  - destruct (yackreset_speed h s) as [-> ->].
    rewrite wpmcnt_floor by lia.
    split; [reflexivity |]. split; [reflexivity |].
    apply Hfloor. lia.
Qed.

(** ** Sending strings *)

Lemma sends_refl (s : yack) : sends s s [].
Proof. unfold sends. rewrite app_nil_r. repeat split; reflexivity. Qed.

Lemma sends_trans (s1 s2 s3 : yack) (a b : list event) :
  sends s1 s2 a -> sends s2 s3 b -> sends s1 s3 (a ++ b).
Proof.
  unfold sends. intros [Ha [Hc1 Hf1]] [Hb [Hc2 Hf2]].
  rewrite Hb, Ha, Hc2, Hc1, Hf2, Hf1, app_assoc. repeat split; reflexivity.
Qed.

Lemma has_set_bits (v m : Z) : 0 < m < 256 -> has (set_bits v m) m = true.
Proof.
  intros Hm. unfold has, set_bits.
  apply negb_true_iff. apply Z.eqb_neq. intros Hz.
  assert (Hbit : Z.testbit m (Z.log2 m) = true) by (apply Z.bit_log2; lia).
  assert (Hlog : Z.log2 m < 8).
  { apply Z.log2_lt_pow2; [lia |]. change (2 ^ 8) with 256. lia. }
  assert (Hlog0 : 0 <= Z.log2 m) by apply Z.log2_nonneg.
  assert (Hc : Z.testbit (Z.land (u8 (Z.lor v m)) m) (Z.log2 m) = false).
  { rewrite Hz. apply Z.bits_0. }
  rewrite Z.land_spec, u8_testbit, Z.lor_spec, Hbit in Hc.
  destruct (Z.ltb_spec (Z.log2 m) 8); [| lia].
  rewrite orb_true_r in Hc. discriminate.
Qed.

Lemma has_clear_bits (v m : Z) : has (clear_bits v m) m = false.
Proof. unfold has. rewrite clear_bits_land. reflexivity. Qed.

Section Sending.

Variable h : header.
Hypothesis Hck : 0 < CKLATCH h < 256.
Hypothesis Hon : ON h <> 0.
Hypothesis Htf : FALSE h <> TRUE h.

(** [yackctrlkey] with the button open and no request pending. *)
Lemma ctrl_open (mode : Z) (s : yack) :
  has (volflags s) (CKLATCH h) = false ->
  exists s',
    yackctrlkey h mode Released s = Some (false, s')
    /\ sends s s' []
    /\ has (volflags s') (CKLATCH h) = false.
Proof.
  intros Hclear. unfold yackctrlkey. simpl bind. rewrite Hclear.
  eexists. split; [reflexivity |].
  destruct (mode =? TRUE h); cbn [volflags set_volflags].
  - split; [| apply has_clear_bits].
    unfold sends. cbn. rewrite app_nil_r. repeat split; reflexivity.
  - split; [| exact Hclear].
    unfold sends. cbn. rewrite app_nil_r. repeat split; reflexivity.
Qed.

(** [yackctrlkey] with the button open while a request is pending. *)
Lemma ctrl_pending (mode : Z) (s : yack) :
  has (volflags s) (CKLATCH h) = true ->
  exists s',
    yackctrlkey h mode Released s = Some (true, s') /\ sends s s' [].
Proof.
  intros Hset. unfold yackctrlkey. simpl bind. rewrite Hset.
  eexists. split; [reflexivity |].
  destruct (mode =? TRUE h); unfold sends; cbn; rewrite app_nil_r;
    repeat split; reflexivity.
Qed.

(** [yackctrlkey] with the button closed and the paddles open: the
    request is reported, and it stays pending unless the caller takes it. *)
Lemma ctrl_closed (mode : Z) (s : yack) :
  exists s',
    yackctrlkey h mode (Pressed []) s = Some (true, s')
    /\ sends s s' ctrl_events
    /\ ((mode =? TRUE h) = false -> has (volflags s') (CKLATCH h) = true).
Proof.
  unfold yackctrlkey. cbn [ctrl_wait]. simpl bind.
  rewrite has_set_bits by exact Hck.
  eexists. split; [reflexivity |].
  assert (Hinh : exists v, yackinhibit h (ON h) s = set_volflags v s).
  { unfold yackinhibit.
    apply Z.eqb_neq in Hon. rewrite Hon. simpl negb. cbv iota.
    eexists. reflexivity. }
  destruct Hinh as [v ->].
  assert (Hsave : forall t, hw (yacksave h t) = hw t
                            /\ wpmcnt (yacksave h t) = wpmcnt t
                            /\ farnsworth (yacksave h t) = farnsworth t).
  { intros t. unfold yacksave. destruct (has _ _); repeat split; reflexivity. }
  split.
  - unfold sends.
    destruct (mode =? TRUE h); cbn [hw wpmcnt farnsworth set_volflags];
      match goal with
      | |- context [yacksave h ?t] =>
          destruct (Hsave t) as [-> [-> ->]]
      end; cbn; rewrite <- app_assoc; repeat split; reflexivity.
  - intros ->.
    cbn [volflags set_volflags].
    apply has_set_bits. exact Hck.
Qed.

Lemma element_sent (code : Z) (s : yack) :
  let s' := yackdelay (IEGLEN h)
              (if has code 0x80 then yackplay h (DAH h) s
               else yackplay h (DIT h) s) in
  sends s s' (element_events h (wpmcnt s) (negb (Z.land code 0x80 =? 0)))
  /\ volflags s' = volflags s.
Proof.
  unfold has, element_events, sends.
  destruct (negb (Z.land code 128 =? 0)); cbv zeta;
    rewrite yackdelay_log, yackplay_log; cbn;
    rewrite <- app_assoc; repeat split; reflexivity.
Qed.

(** While the button is held with the paddles open the busy wait does
    nothing. *)
Lemma ctrl_wait_open (w : list (bool * bool)) (volbfr : Z) (s : yack) :
  paddles_open w = true -> ctrl_wait h w volbfr s = Some (volbfr, s).
Proof.
  induction w as [| [dit dah] w IH]; intros Hw; [reflexivity |].
  cbn [paddles_open forallb fst snd] in Hw.
  apply andb_true_iff in Hw. destruct Hw as [Hp Hw].
  apply andb_true_iff in Hp. destruct Hp as [Hd Ha].
  destruct dit; [discriminate |]. destruct dah; [discriminate |].
  cbn [ctrl_wait bind]. apply IH. exact Hw.
Qed.

Lemma ctrl_closed_held (w : list (bool * bool)) (mode : Z) (s : yack) :
  paddles_open w = true ->
  yackctrlkey h mode (Pressed w) s = yackctrlkey h mode (Pressed []) s.
Proof.
  intros Hw. unfold yackctrlkey.
  rewrite ctrl_wait_open by exact Hw. reflexivity.
Qed.

Variable wait : list (bool * bool).
Variable later : list button.
Hypothesis Hwait : paddles_open wait = true.
Hypothesis Hlater : next_poll later = Released.

Lemma pressed_at_0 : pressed_at 0 wait later = Pressed wait :: later.
Proof. reflexivity. Qed.

Lemma pressed_at_S (n : nat) :
  pressed_at (S n) wait later = Released :: pressed_at n wait later.
Proof. reflexivity. Qed.

Lemma code_elements_stop (fuel : nat) :
  code_elements fuel 0x80 = Some [].
Proof. destruct fuel; reflexivity. Qed.

Lemma code_elements_0 (code : Z) :
  code <> 0x80 -> code_elements 0 code = None.
Proof.
  intros Hc. apply Z.eqb_neq in Hc. unfold code_elements. rewrite Hc.
  reflexivity.
Qed.

Lemma code_elements_S (k : nat) (code : Z) :
  code <> 0x80 ->
  code_elements (S k) code =
  match code_elements k (u8 (Z.shiftl code 1)) with
  | Some l => Some (negb (Z.land code 0x80 =? 0) :: l)
  | None => None
  end.
Proof.
  intros Hc. apply Z.eqb_neq in Hc.
  change (code_elements (S k) code)
    with (if code =? 0x80 then Some []
          else match code_elements k (u8 (Z.shiftl code 1)) with
               | Some l => Some (negb (Z.land code 0x80 =? 0) :: l)
               | None => None
               end).
  rewrite Hc. reflexivity.
Qed.

Lemma yackchar_loop_stop (fuel : nat) (polls : list button) (s : yack) :
  yackchar_loop h fuel 0x80 polls s = Some (false, polls, s).
Proof. destruct fuel; reflexivity. Qed.

Lemma yackchar_loop_S (k : nat) (code : Z) (polls : list button) (s : yack) :
  code <> 0x80 ->
  yackchar_loop h (S k) code polls s =
  ('(stop, s) <- yackctrlkey h (FALSE h) (next_poll polls) s ;;
   if stop : bool then Some (true, tl polls, s)
   else
     let s := if has code 0x80 then yackplay h (DAH h) s
              else yackplay h (DIT h) s in
     let s := yackdelay (IEGLEN h) s in
     yackchar_loop h k (u8 (Z.shiftl code 1)) (tl polls) s).
Proof.
  intros Hc. apply Z.eqb_neq in Hc.
  change (yackchar_loop h (S k) code polls s)
    with (if code =? 0x80 then Some (false, polls, s)
          else
            '(stop, s) <- yackctrlkey h (FALSE h) (next_poll polls) s ;;
            if stop : bool then Some (true, tl polls, s)
            else
              let s := if has code 0x80 then yackplay h (DAH h) s
                       else yackplay h (DIT h) s in
              let s := yackdelay (IEGLEN h) s in
              yackchar_loop h k (u8 (Z.shiftl code 1)) (tl polls) s).
  rewrite Hc. reflexivity.
Qed.

Lemma yackchar_loop_cut (fuel : nat) :
  forall (code : Z) (l : list bool),
    code_elements fuel code = Some l ->
    forall (n : nat) (s : yack),
      has (volflags s) (CKLATCH h) = false ->
      exists r polls' s',
        yackchar_loop h fuel code (pressed_at n wait later) s = Some (r, polls', s')
        /\ if (n <? List.length l)%nat then
             r = true /\ polls' = later
             /\ sends s s' (List.concat (map (element_events h (wpmcnt s))
                                           (firstn n l)) ++ ctrl_events)
             /\ has (volflags s') (CKLATCH h) = true
           else
             r = false /\ polls' = pressed_at (n - List.length l) wait later
             /\ sends s s' (List.concat (map (element_events h (wpmcnt s)) l))
             /\ has (volflags s') (CKLATCH h) = false.
Proof.
  induction fuel as [| k IH]; intros code l Hl n s Hclear.
  - destruct (Z.eq_dec code 0x80) as [-> | Hne].
    + rewrite code_elements_stop in Hl. injection Hl as <-.
      rewrite yackchar_loop_stop.
      exists false, (pressed_at n wait later), s. simpl.
      rewrite Nat.sub_0_r. repeat split; try reflexivity; try assumption.
      apply sends_refl.
    + rewrite code_elements_0 in Hl by exact Hne. discriminate.
  - destruct (Z.eq_dec code 0x80) as [-> | Hne].
    + rewrite code_elements_stop in Hl. injection Hl as <-.
      rewrite yackchar_loop_stop.
      exists false, (pressed_at n wait later), s. simpl.
      rewrite Nat.sub_0_r. repeat split; try reflexivity; try assumption.
      apply sends_refl.
    + rewrite code_elements_S in Hl by exact Hne.
      rewrite yackchar_loop_S by exact Hne.
      destruct (code_elements k (u8 (Z.shiftl code 1))) as [l' |] eqn:El';
        [| discriminate].
      injection Hl as <-.
      destruct n as [| m].
      * rewrite pressed_at_0. unfold next_poll. simpl hd.
        rewrite (ctrl_closed_held wait) by exact Hwait.
        destruct (ctrl_closed (FALSE h) s) as [s1 [E1 [S1 L1]]].
        rewrite E1. simpl bind.
        exists true, later, s1. split; [reflexivity |].
        simpl. repeat split; try reflexivity; try apply S1.
        apply L1. apply Z.eqb_neq. exact Htf.
      * rewrite pressed_at_S. unfold next_poll. simpl hd. simpl tl.
        destruct (ctrl_open (FALSE h) s Hclear) as [s1 [E1 [S1 L1]]].
        rewrite E1. simpl bind. cbv zeta.
        destruct (element_sent code s1) as [S2 V2]. cbv zeta in S2, V2.
        set (s2 := yackdelay (IEGLEN h) _) in *.
        destruct (IH _ _ El' m s2) as [r [polls' [s' [E3 C3]]]].
        { rewrite V2. exact L1. }
        exists r, polls', s'. split; [exact E3 |].
        assert (Hc1 : wpmcnt s1 = wpmcnt s) by apply S1.
        assert (Hc2 : wpmcnt s2 = wpmcnt s).
        { destruct S2 as [_ [-> _]]. exact Hc1. }
        rewrite Hc2 in C3. rewrite Hc1 in S2.
        pose proof (sends_trans _ _ _ _ _ S1 S2) as S12. simpl app in S12.
        simpl List.length. simpl firstn. simpl map. simpl List.concat.
        change (S m <? S (List.length l'))%nat with (m <? List.length l')%nat.
        change (S m - S (List.length l'))%nat with (m - List.length l')%nat.
        assert (Sall : forall s3 b,
                   sends s2 s3 b ->
                   sends s s3 (element_events h (wpmcnt s)
                                 (negb (Z.land code 128 =? 0)) ++ b))
          by (intros s3 b; apply sends_trans; exact S12).
        destruct (m <? List.length l')%nat;
          destruct C3 as [-> [-> [S3 L3]]];
          (split; [reflexivity |]); (split; [reflexivity |]);
          (split; [| exact L3]);
          rewrite <- ?app_assoc; apply Sall; exact S3.
Qed.

(** Every byte has a code whose stop marker is reached. *)
Lemma code_elements_total (c : Z) :
  0 <= c < 256 -> exists l, code_elements 8 (yackchar_code c) = Some l.
Proof.
  intros Hc.
  pose (f := fun c => match code_elements 8 (yackchar_code c) with
                      | Some _ => true
                      | None => false
                      end).
  assert (Hf : f c = true).
  { apply (forallb_range f 0 256).
    - vm_compute. reflexivity.
    - lia. }
  unfold f in Hf.
  destruct (code_elements 8 (yackchar_code c)) as [l |]; [| discriminate].
  exists l. reflexivity.
Qed.

Lemma elements_script_length (cnt farns : Z) (l : list bool) :
  List.length (elements_script h cnt farns l) = List.length l.
Proof.
  induction l as [| e [| e' rest] IH]; simpl in *; try reflexivity.
  rewrite IH. reflexivity.
Qed.

Lemma elements_script_cons (cnt farns : Z) (e e' : bool) (rest : list bool) :
  elements_script h cnt farns (e :: e' :: rest)
  = element_events h cnt e :: elements_script h cnt farns (e' :: rest).
Proof. reflexivity. Qed.

Lemma elements_script_concat (cnt farns : Z) (l : list bool) :
  l <> [] ->
  List.concat (elements_script h cnt farns l)
  = List.concat (map (element_events h cnt) l) ++ char_tail h cnt farns.
Proof.
  induction l as [| e [| e' rest] IH]; intros Hne.
  - contradiction.
  - simpl. rewrite !app_nil_r. reflexivity.
  - rewrite elements_script_cons.
    rewrite concat_cons, IH by discriminate.
    rewrite (map_cons _ e), concat_cons, <- app_assoc. reflexivity.
Qed.

Lemma elements_script_firstn (cnt farns : Z) (l : list bool) (n : nat) :
  (n < List.length l)%nat ->
  List.concat (firstn n (elements_script h cnt farns l))
  = List.concat (map (element_events h cnt) (firstn n l)).
Proof.
  revert n. induction l as [| e [| e' rest] IH]; intros n Hn.
  - simpl in Hn. lia.
  - simpl in Hn. assert (n = 0)%nat as -> by lia. reflexivity.
  - rewrite elements_script_cons.
    destruct n as [| m]; [reflexivity |].
    rewrite !firstn_cons, map_cons, !concat_cons.
    f_equal. apply IH. simpl in Hn. simpl. lia.
Qed.

(** [yackchar] under a cancellation at the poll [n]. *)
Lemma yackchar_cut (c : Z) (n : nat) (s : yack) :
  0 <= c < 256 ->
  has (volflags s) (CKLATCH h) = false ->
  exists polls' s',
    yackchar h c (pressed_at n wait later) s = Some (polls', s')
    /\ let sc := char_script h (wpmcnt s) (farnsworth s) c in
       if (n <? List.length (tl sc))%nat then
         polls' = later
         /\ sends s s' (List.concat (firstn (S n) sc) ++ ctrl_events)
         /\ has (volflags s') (CKLATCH h) = true
       else
         polls' = pressed_at (n - List.length (tl sc)) wait later
         /\ sends s s' (List.concat sc)
         /\ has (volflags s') (CKLATCH h) = false.
Proof.
  intros Hc Hclear. unfold yackchar, char_script.
  destruct (c =? chr " ").
  - eexists. eexists. split; [reflexivity |].
    cbv zeta. simpl tl. simpl List.length. simpl Nat.ltb. cbv iota.
    rewrite Nat.sub_0_r. split; [reflexivity |].
    rewrite yackdelay_log. split; [| exact Hclear].
    unfold sends. cbn. rewrite app_nil_r. repeat split; reflexivity.
  - destruct (code_elements_total c Hc) as [l El]. rewrite El.
    destruct (yackchar_loop_cut 8 _ _ El n s Hclear)
      as [r [polls' [s1 [E1 C1]]]].
    rewrite E1. simpl bind.
    assert (Htail : forall t, sends t (yackfarns (yackdelay (ICGLEN h - IEGLEN h) t))
                                (char_tail h (wpmcnt t) (farnsworth t))
                              /\ volflags (yackfarns
                                             (yackdelay (ICGLEN h - IEGLEN h) t))
                                 = volflags t).
    { intros t. rewrite yackfarns_log, yackdelay_log. unfold sends, char_tail.
      cbn. rewrite <- app_assoc. repeat split; reflexivity. }
    destruct l as [| e rest].
    + simpl in C1. destruct C1 as [-> [-> [S1 L1]]].
      eexists. eexists. split; [reflexivity |].
      cbv zeta. simpl tl. simpl List.length. simpl Nat.ltb. cbv iota.
      split; [reflexivity |].
      destruct (Htail s1) as [S2 V2].
      split; [| rewrite V2; exact L1].
      destruct S1 as [H1 [H2 H3]]. rewrite H2, H3 in S2.
      assert (S1' : sends s s1 []) by (repeat split; assumption).
      pose proof (sends_trans _ _ _ _ _ S1' S2) as S12.
      simpl. rewrite app_nil_r. exact S12.
    + cbv zeta. cbn [tl]. rewrite elements_script_length.
      destruct (n <? List.length (e :: rest))%nat eqn:En.
      * destruct C1 as [-> [-> [S1 L1]]].
        eexists. eexists. split; [reflexivity |].
        split; [reflexivity |]. split; [| exact L1].
        rewrite firstn_cons, concat_cons, app_nil_l.
        rewrite elements_script_firstn by (apply Nat.ltb_lt; exact En).
        exact S1.
      * destruct C1 as [-> [-> [S1 L1]]].
        eexists. eexists. split; [reflexivity |].
        split; [reflexivity |].
        destruct (Htail s1) as [S2 V2].
        split; [| rewrite V2; exact L1].
        destruct S1 as [H1 [H2 H3]]. rewrite H2, H3 in S2.
        assert (S1' : sends s s1 (List.concat (map (element_events h (wpmcnt s))
                                                  (e :: rest))))
          by (repeat split; assumption).
        pose proof (sends_trans _ _ _ _ _ S1' S2) as S12.
        rewrite concat_cons, app_nil_l.
        rewrite elements_script_concat by discriminate.
        exact S12.
Qed.

Lemma yackstring_end (c : Z) (p' : list Z) (polls : list button) (s : yack) :
  c = 0 -> yackstring h (c :: p') polls s = Some (polls, s).
Proof. intros ->. reflexivity. Qed.

Lemma yackstring_cons (c : Z) (p' : list Z) (polls : list button) (s : yack) :
  c <> 0 ->
  yackstring h (c :: p') polls s =
  ('(stop, s) <- yackctrlkey h (TRUE h) (next_poll polls) s ;;
   if stop : bool then Some (tl polls, s)
   else
     '(polls, s) <- yackchar h c (tl polls) s ;;
     yackstring h p' polls s).
Proof.
  intros Hc. apply Z.eqb_neq in Hc.
  change (yackstring h (c :: p') polls s)
    with (if c =? 0 then Some (polls, s)
          else
            '(stop, s) <- yackctrlkey h (TRUE h) (next_poll polls) s ;;
            if stop : bool then Some (tl polls, s)
            else
              '(polls, s) <- yackchar h c (tl polls) s ;;
              yackstring h p' polls s).
  rewrite Hc. reflexivity.
Qed.

(** Once a request is pending, [yackstring] sends nothing more. *)
Lemma yackstring_pending (p : list Z) (s : yack) :
  has (volflags s) (CKLATCH h) = true ->
  exists polls' s',
    yackstring h p later s = Some (polls', s') /\ sends s s' [].
Proof.
  intros Hset. destruct p as [| c p'].
  - exists later, s. split; [reflexivity | apply sends_refl].
  - destruct (Z.eq_dec c 0) as [Hz | Hnz].
    + rewrite yackstring_end by exact Hz.
      exists later, s. split; [reflexivity | apply sends_refl].
    + rewrite yackstring_cons by exact Hnz.
      rewrite Hlater.
      destruct (ctrl_pending (TRUE h) s Hset) as [s1 [E1 S1]].
      rewrite E1. simpl bind.
      exists (tl later), s1. split; [reflexivity | exact S1].
Qed.

Lemma char_script_cons (cnt farns c : Z) :
  char_script h cnt farns c
  = hd [] (char_script h cnt farns c) :: tl (char_script h cnt farns c).
Proof.
  unfold char_script.
  destruct (c =? chr " "); [reflexivity |].
  destruct (code_elements 8 (yackchar_code c)) as [[| e rest] |]; reflexivity.
Qed.

(** [yackstring] under a cancellation at the poll [n]. *)
Lemma yackstring_cut_at (p : list Z) :
  Forall (fun c => 0 <= c < 256) p ->
  forall (n : nat) (s : yack),
    has (volflags s) (CKLATCH h) = false ->
    exists polls' s',
      yackstring h p (pressed_at n wait later) s = Some (polls', s')
      /\ let script := string_script h (wpmcnt s) (farnsworth s) p in
         sends s s' (List.concat (firstn n script)
                     ++ if (n <? List.length script)%nat
                        then ctrl_events else []).
Proof.
  induction 1 as [| c p' Hc Hp' IH]; intros n s Hclear.
  - simpl. exists (pressed_at n wait later), s. split; [reflexivity |].
    rewrite firstn_nil. apply sends_refl.
  - simpl string_script.
    destruct (Z.eqb_spec c 0) as [Hz | Hnz].
    + rewrite yackstring_end by exact Hz.
      exists (pressed_at n wait later), s. split; [reflexivity |].
      cbv zeta. rewrite firstn_nil. apply sends_refl.
    + rewrite yackstring_cons by exact Hnz. cbv zeta.
      set (sc := char_script h (wpmcnt s) (farnsworth s) c).
      set (rest := string_script h (wpmcnt s) (farnsworth s) p').
      assert (Hsc : List.length sc = S (List.length (tl sc))).
      { unfold sc. rewrite char_script_cons at 1. reflexivity. }
      destruct n as [| m].
      * rewrite pressed_at_0.
        change (next_poll (Pressed wait :: later)) with (Pressed wait).
        rewrite (ctrl_closed_held wait) by exact Hwait.
        destruct (ctrl_closed (TRUE h) s) as [s1 [E1 [S1 _]]].
        rewrite E1. simpl bind.
        exists later, s1. split; [reflexivity |].
        rewrite firstn_O. simpl List.concat. simpl app.
        rewrite length_app, Hsc. exact S1.
      * rewrite pressed_at_S.
        change (next_poll (Released :: pressed_at m wait later)) with Released.
        cbn [tl].
        destruct (ctrl_open (TRUE h) s Hclear) as [s1 [E1 [S1 L1]]].
        rewrite E1. simpl bind.
        destruct (yackchar_cut c m s1 Hc L1) as [polls' [s2 [E2 C2]]].
        rewrite E2. simpl bind.
        cbv zeta in C2.
        assert (Hc1 : wpmcnt s1 = wpmcnt s) by apply S1.
        assert (Hf1 : farnsworth s1 = farnsworth s) by apply S1.
        rewrite Hc1, Hf1 in C2. fold sc in C2.
        rewrite firstn_app, concat_app, length_app, Hsc.
        destruct (Nat.ltb_spec m (List.length (tl sc))) as [Hlt | Hge].
        -- destruct C2 as [-> [S2 L2]].
           destruct (yackstring_pending p' s2 L2) as [polls3 [s3 [E3 S3]]].
           rewrite E3. exists polls3, s3. split; [reflexivity |].
           replace (S m - S (List.length (tl sc)))%nat with 0%nat by lia.
           rewrite firstn_O. simpl List.concat at 2. rewrite app_nil_r.
           destruct (Nat.ltb_spec (S m) (S (List.length (tl sc))
                                        + List.length rest)); [| lia].
           pose proof (sends_trans _ _ _ _ _ S1
                         (sends_trans _ _ _ _ _ S2 S3)) as Sall.
           simpl app in Sall. rewrite app_nil_r in Sall. exact Sall.
        -- destruct C2 as [-> [S2 L2]].
           destruct (IH (m - List.length (tl sc))%nat s2 L2)
             as [polls3 [s3 [E3 S3]]].
           rewrite E3. exists polls3, s3. split; [reflexivity |].
           cbv zeta in S3.
           assert (Hc2 : wpmcnt s2 = wpmcnt s).
           { destruct S2 as [_ [-> _]]. exact Hc1. }
           assert (Hf2 : farnsworth s2 = farnsworth s).
           { destruct S2 as [_ [_ ->]]. exact Hf1. }
           rewrite Hc2, Hf2 in S3. fold rest in S3.
           rewrite firstn_all2 by lia.
           replace (S m - S (List.length (tl sc)))%nat
             with (m - List.length (tl sc))%nat by lia.
           pose proof (sends_trans _ _ _ _ _ S1
                         (sends_trans _ _ _ _ _ S2 S3)) as Sall.
           simpl app in Sall.
           destruct (Nat.ltb_spec (m - List.length (tl sc)) (List.length rest));
             destruct (Nat.ltb_spec (S m) (S (List.length (tl sc))
                                          + List.length rest));
             try lia; rewrite <- app_assoc; exact Sall.
Qed.

End Sending.




(** A press of the button with a paddle closed is no cancellation: it
    changes the speed and withdraws a request that is still pending.  With
    the button pressed after the dah of B, and pressed again together with
    the DAH paddle at the next poll, the sender goes on with E and T (at
    the new speed) after the two elements that [yackspeed] sounds; with no
    second press it stops after the dah. *)
Lemma press_with_paddle_resumes :
  exists polls1 s1 polls2 s2,
    yackstring yack_h [chr "B"; chr "E"; chr "T"]
      [Released; Released; Pressed []; Pressed [(false, true)]] started
    = Some (polls1, s1)
    /\ keyed_elements (hw s1) = [48; 15; 45; 15; 45]%nat
    /\ wpm s1 = wpm started + 1
    /\ yackstring yack_h [chr "B"; chr "E"; chr "T"]
         [Released; Released; Pressed []] started
       = Some (polls2, s2)
    /\ keyed_elements (hw s2) = [48]%nat.
Proof.
  do 4 eexists.
  split; [vm_compute; reflexivity |].
  split; [vm_compute; reflexivity |].
  split; [vm_compute; reflexivity |].
  split; vm_compute; reflexivity.
Qed.

Lemma wpmcnt_truncated_witness :
  (0 < YACKBEAT yack_h /\ 0 < MINWPM yack_h /\ MAXWPM yack_h <= 255
   /\ MINWPM yack_h <= wpm started <= MAXWPM yack_h
   /\ MINWPM yack_h <= DEFWPM yack_h <= MAXWPM yack_h
   /\ MINWPM yack_h <= wpmstor (ee started) <= MAXWPM yack_h)
  /\ (wpm (yackreset yack_h started) = DEFWPM yack_h
      /\ wpmcnt (yackreset yack_h started)
         = 1200 / (YACKBEAT yack_h * DEFWPM yack_h)
      /\ wpmcnt (yackreset yack_h started)
         * (YACKBEAT yack_h * DEFWPM yack_h) <= 1200
         < (wpmcnt (yackreset yack_h started) + 1)
           * (YACKBEAT yack_h * DEFWPM yack_h)).
Proof.
  assert (H1 : 0 < YACKBEAT yack_h) by (simpl; lia).
  assert (H2 : 0 < MINWPM yack_h) by (simpl; lia).
  assert (H3 : MAXWPM yack_h <= 255) by (simpl; lia).
  assert (H4 : MINWPM yack_h <= wpm started <= MAXWPM yack_h) by (simpl; lia).
  assert (H5 : MINWPM yack_h <= DEFWPM yack_h <= MAXWPM yack_h)
    by (simpl; lia).
  assert (H6 : MINWPM yack_h <= wpmstor (ee started) <= MAXWPM yack_h)
    by (simpl; lia).
  pose proof (wpmcnt_truncated yack_h started H1 H2 H3 H4 H5 H6)
    as [_ [_ Hreset]].
  split.
  - repeat split; assumption || (simpl; lia).
  - exact Hreset.
Defined.

(** ** Recording a message *)

(** Case analysis on the conditions of a routine that only assigns
    variables and calls the hardware. *)
Ltac frame_cases :=
  repeat match goal with
         | |- context [if ?b then _ else _] => destruct b
         | |- context [match ?x with _ => _ end] => destruct x
         end.

Ltac keeps_by_cases :=
  unfold upd_fsm; rewrite ?key_log; frame_cases; repeat split; reflexivity.

Section Recording.

Variable h : header.

Lemma yacksave_slots (s : yack) : slots (yacksave h s) = slots s.
Proof. unfold yacksave. destruct (has _ _); reflexivity. Qed.

Lemma yackinhibit_slots (mode : Z) (s : yack) :
  slots (yackinhibit h mode s) = slots s.
Proof.
  unfold yackinhibit. destruct (negb _); rewrite ?key_log; reflexivity.
Qed.

Lemma yackerror_log (s : yack) :
  exists evs, yackerror h s = set_hw (hw s ++ evs) s.
Proof.
  unfold yackerror.
  assert (Hiter : forall k t, exists evs,
             Nat.iter k (fun s => yackdelay (DITLEN h) (yackplay h (DIT h) s)) t
             = set_hw (hw t ++ evs) t).
  { induction k as [| k IH]; intros t.
    - exists []. simpl. rewrite app_nil_r, set_hw_hw. reflexivity.
    - destruct (IH t) as [evs E]. simpl. rewrite E.
      rewrite yackdelay_log, yackplay_log. cbn.
      eexists. rewrite <- !app_assoc. reflexivity. }
  destruct (Hiter 8%nat s) as [evs ->].
  rewrite yackdelay_log. cbn. eexists. rewrite <- app_assoc. reflexivity.
Qed.

Lemma yackspeed_slots (dir mode : Z) (s s' : yack) :
  yackspeed h dir mode s = Some s' -> slots s' = slots s.
Proof.
  unfold yackspeed, cdiv.
  destruct (mode =? FARNSWORTH h).
  - simpl bind. intros E. injection E as <-.
    rewrite yackfarns_log, yackdelay_log, yackplay_log, yackdelay_log,
      yackplay_log.
    frame_cases; reflexivity.
  - match goal with
    | |- context [if ?b =? 0 then None else _] => destruct (b =? 0)
    end; [discriminate |].
    simpl bind. intros E. injection E as <-.
    rewrite yackfarns_log, yackdelay_log, yackplay_log, yackdelay_log,
      yackplay_log.
    frame_cases; reflexivity.
Qed.

Lemma ctrl_wait_slots (paddles : list (bool * bool)) :
  forall (volbfr : Z) (s : yack) (v' : Z) (s' : yack),
    ctrl_wait h paddles volbfr s = Some (v', s') -> slots s' = slots s.
Proof.
  induction paddles as [| [dit dah] rest IH]; intros volbfr s v' s' E.
  - simpl in E. injection E as _ <-. reflexivity.
  - simpl in E.
    destruct dit.
    + destruct (yackspeed h (DOWN h) (WPMSPEED h) s) as [s1 |] eqn:E1;
        [| discriminate].
      simpl in E. apply yackspeed_slots in E1.
      destruct dah.
      * destruct (yackspeed h (UP h) (WPMSPEED h) s1) as [s2 |] eqn:E2;
          [| discriminate].
        simpl in E. apply yackspeed_slots in E2. apply IH in E. congruence.
      * simpl in E. apply IH in E. congruence.
    + simpl in E.
      destruct dah.
      * destruct (yackspeed h (UP h) (WPMSPEED h) s) as [s2 |] eqn:E2;
          [| discriminate].
        simpl in E. apply yackspeed_slots in E2. apply IH in E. congruence.
      * simpl in E. apply IH in E. congruence.
Qed.

Lemma yackctrlkey_slots (mode : Z) (btn : button) (s s' : yack) (r : bool) :
  yackctrlkey h mode btn s = Some (r, s') -> slots s' = slots s.
Proof.
  unfold yackctrlkey. destruct btn as [| paddles].
  - simpl bind. intros E. injection E as _ <-.
    destruct (mode =? TRUE h); reflexivity.
  - destruct (ctrl_wait h paddles _ _) as [[v1 s1] |] eqn:E1; [| discriminate].
    simpl bind. intros E. injection E as _ <-.
    apply ctrl_wait_slots in E1.
    assert (E2 : slots (yacksave h (emit (EvDelayMs 50) s1)) = slots s).
    { rewrite yacksave_slots. unfold emit.
      change (slots (set_hw _ s1)) with (slots s1). rewrite E1.
      change (slots (emit _ ?t)) with (slots t).
      apply yackinhibit_slots. }
    destruct (mode =? TRUE h); exact E2.
Qed.

(** [yackiambic] changes its static variables, the latches and the key,
    and nothing else. *)
Lemma keeps_refl (s : yack) : keeps_settings s s.
Proof. repeat split. Qed.

Lemma keeps_trans (s1 s2 s3 : yack) :
  keeps_settings s1 s2 -> keeps_settings s2 s3 -> keeps_settings s1 s3.
Proof.
  unfold keeps_settings.
  intros [A1 [A2 [A3 [A4 [A5 A6]]]]] [B1 [B2 [B3 [B4 [B5 B6]]]]].
  repeat split; congruence.
Qed.

Lemma iambic_sample_keeps (dit dah : bool) (s : yack) :
  keeps_settings s (iambic_sample h dit dah s).
Proof. unfold iambic_sample, keylatch. keeps_by_cases. Qed.

Lemma waiting_keys_keeps (s : yack) :
  keeps_settings s (fst (waiting_keys h s)).
Proof. unfold waiting_keys. keeps_by_cases. Qed.

Lemma character_done_keeps (s s' : yack) (c : Z) :
  character_done h s = Some (s', c) -> keeps_settings s s'.
Proof.
  unfold character_done. cbv zeta.
  destruct (7 - _ <? 0); [discriminate |].
  intros E. injection E as <- _. repeat split; reflexivity.
Qed.

Lemma waiting_timeout_keeps (ctrl retchar : Z) (s s' : yack) (c : Z) :
  waiting_timeout h ctrl retchar s = Some (s', c) -> keeps_settings s s'.
Proof.
  unfold waiting_timeout.
  destruct (_ && _).
  - destruct (iambicState (fsm s));
      try (intros E; injection E as <- _; apply keeps_refl).
    + apply character_done_keeps.
    + intros E; injection E as <- _. repeat split; reflexivity.
  - intros E; injection E as <- _; apply keeps_refl.
Qed.

Lemma init_symbol_keeps (s : yack) : keeps_settings s (init_symbol s).
Proof. unfold init_symbol. keeps_by_cases. Qed.

Lemma init_timer_keeps (s s' : yack) :
  init_timer h s = Some s' -> keeps_settings s s'.
Proof.
  unfold init_timer.
  destruct (currentSymbol (fsm s)); try discriminate;
    intros E; injection E as <-; repeat split; reflexivity.
Qed.

Lemma init_pressed_keeps (s : yack) : keeps_settings s (init_pressed h s).
Proof. unfold init_pressed. keeps_by_cases. Qed.

Lemma track_pressed_keeps (s : yack) : keeps_settings s (track_pressed h s).
Proof. unfold track_pressed. keeps_by_cases. Qed.

Lemma element_expired_keeps (s : yack) :
  keeps_settings s (element_expired h s).
Proof. unfold element_expired. keeps_by_cases. Qed.

Lemma resolve_next_keeps (s : yack) : keeps_settings s (resolve_next h s).
Proof.
  unfold resolve_next. cbv zeta.
  match goal with
  | |- keeps_settings s (match nextSymbol (fsm ?t) with _ => _ end) =>
      assert (Ht : keeps_settings s t) by keeps_by_cases;
      revert Ht; generalize t
  end.
  intros t Ht.
  eapply keeps_trans; [exact Ht |]. keeps_by_cases.
Qed.

Lemma gap_expired_keeps (s : yack) :
  keeps_settings s (fst (gap_expired h s)).
Proof.
  unfold gap_expired. cbv zeta.
  pose proof (resolve_next_keeps s) as Ht. revert Ht.
  generalize (resolve_next h s). intros t Ht.
  eapply keeps_trans; [exact Ht |]. keeps_by_cases.
Qed.

Lemma iambic_body_keeps (ctrl retchar : Z) (s s' : yack) (c : Z) (b : bool) :
  iambic_body h ctrl retchar s = Some (s', c, b) -> keeps_settings s s'.
Proof.
  unfold iambic_body.
  assert (Hwait : iambic_waiting h ctrl retchar s = Some (s', c, b) ->
                  keeps_settings s s').
  { unfold iambic_waiting.
    pose proof (waiting_keys_keeps s) as H1.
    destruct (waiting_keys h s) as [s1 rep]. simpl fst in H1.
    destruct (waiting_timeout h ctrl retchar s1) as [[s2 c2] |] eqn:E2;
      [| discriminate].
    simpl bind. intros E. injection E as <- _ _.
    eapply keeps_trans; [exact H1 |].
    eapply waiting_timeout_keeps. exact E2. }
  assert (Hinit : Some (iambic_init h retchar s) = Some (s', c, b) ->
                  keeps_settings s s').
  { unfold iambic_init. cbv zeta.
    pose proof (init_symbol_keeps s) as H1. revert H1.
    generalize (init_symbol s). intros s1 H1.
    destruct (init_timer h s1) as [s2 |] eqn:E2.
    - intros E. injection E as <- _ _.
      eapply keeps_trans; [exact H1 |].
      eapply keeps_trans; [eapply init_timer_keeps; exact E2 |].
      pose proof (init_pressed_keeps s2) as H3. revert H3.
      generalize (init_pressed h s2). intros s3 H3.
      eapply keeps_trans; [exact H3 |]. keeps_by_cases.
    - intros E. injection E as <- _ _.
      eapply keeps_trans; [exact H1 |]. keeps_by_cases. }
  assert (Helem : Some (iambic_element h retchar s) = Some (s', c, b) ->
                  keeps_settings s s').
  { unfold iambic_element. cbv zeta.
    pose proof (track_pressed_keeps s) as H1. revert H1.
    generalize (track_pressed h s). intros s1 H1.
    destruct (timer (fsm s1) =? 0).
    - destruct (iambicState (fsm s1));
        try (pose proof (gap_expired_keeps s1) as H2;
             destruct (gap_expired h s1) as [s2 rep]; simpl fst in H2;
             intros E; injection E as <- _ _;
             eapply keeps_trans; [exact H1 | exact H2]).
      intros E; injection E as <- _ _.
      eapply keeps_trans; [exact H1 | apply element_expired_keeps].
    - intros E; injection E as <- _ _. exact H1. }
  destruct (iambicState (fsm s)); assumption.
Qed.

Lemma iambic_loop_keeps (fuel : nat) :
  forall (ctrl retchar : Z) (s s' : yack) (c : Z),
    iambic_loop h fuel ctrl retchar s = Some (c, s') -> keeps_settings s s'.
Proof.
  induction fuel as [| k IH]; intros ctrl retchar s s' c E.
  - discriminate.
  - simpl in E.
    destruct (iambic_body h ctrl retchar s) as [[[s1 c1] b1] |] eqn:E1;
      [| discriminate].
    simpl in E. apply iambic_body_keeps in E1.
    destruct b1.
    + apply IH in E. eapply keeps_trans; eassumption.
    + injection E as _ <-. exact E1.
Qed.

Lemma yackiambic_keeps (ctrl : Z) (dit dah : bool) (s s' : yack) (c : Z) :
  yackiambic h ctrl dit dah s = Some (c, s') -> keeps_settings s s'.
Proof.
  unfold yackiambic. intros E. apply iambic_loop_keeps in E.
  eapply keeps_trans; [apply iambic_sample_keeps | exact E].
Qed.

Lemma keeps_slots (s s' : yack) : keeps_settings s s' -> slots s' = slots s.
Proof.
  intros [_ [_ [_ [_ [_ E]]]]]. unfold slots. rewrite E. reflexivity.
Qed.

Lemma yackerror_slots (s : yack) : slots (yackerror h s) = slots s.
Proof. destruct (yackerror_log s) as [evs ->]. reflexivity. Qed.

Lemma record_loop_nil (extimer i : Z) (rambuffer : list Z) (s : yack) :
  extimer <> 0 ->
  record_loop h [] extimer i rambuffer s
  = Some (Running extimer i rambuffer s).
Proof.
  intros He. apply Z.eqb_neq in He. unfold record_loop. rewrite He.
  reflexivity.
Qed.

Lemma record_loop_timeout (pins : list (button * (bool * bool)))
    (i : Z) (rambuffer : list Z) (s : yack) :
  record_loop h pins 0 i rambuffer s = Some (TimedOut i rambuffer s).
Proof. destruct pins; reflexivity. Qed.

(** One cycle of the recording loop. *)
Lemma record_loop_cons (btn : button) (dit dah : bool)
    (rest : list (button * (bool * bool)))
    (extimer i : Z) (rambuffer : list Z) (s : yack) :
  extimer <> 0 ->
  record_loop h ((btn, (dit, dah)) :: rest) extimer i rambuffer s =
  (let extimer := u16 (extimer - 1) in
   '(stop, s) <- yackctrlkey h (TRUE h) btn s ;;
   if stop : bool then Some (Returned s)
   else
     '(c, s) <- yackiambic h (ON h) dit dah s ;;
     let c := u8 c in
     let '(i, rambuffer, extimer) :=
       if negb (c =? 0)
       then (u8 (i + 1), list_set rambuffer (Z.to_nat i) c,
             u16 (YACKSECS h (DEFTIMEOUT h)))
       else (i, rambuffer, extimer) in
     let '(i, s) := if i >=? RBSIZE h then (0, yackerror h s) else (i, s) in
     let s := yackbeat s in
     record_loop h rest extimer i rambuffer s).
Proof.
  intros He. apply Z.eqb_neq in He.
  change (record_loop h ((btn, (dit, dah)) :: rest) extimer i rambuffer s)
    with (if extimer =? 0 then Some (TimedOut i rambuffer s)
          else
            let extimer := u16 (extimer - 1) in
            '(stop, s) <- yackctrlkey h (TRUE h) btn s ;;
            if stop : bool then Some (Returned s)
            else
              '(c, s) <- yackiambic h (ON h) dit dah s ;;
              let c := u8 c in
              let '(i, rambuffer, extimer) :=
                if negb (c =? 0)
                then (u8 (i + 1), list_set rambuffer (Z.to_nat i) c,
                      u16 (YACKSECS h (DEFTIMEOUT h)))
                else (i, rambuffer, extimer) in
              let '(i, s) := if i >=? RBSIZE h then (0, yackerror h s)
                             else (i, s) in
              let s := yackbeat s in
              record_loop h rest extimer i rambuffer s).
  rewrite He. reflexivity.
Qed.

(** However the recording loop ends, it has not written a message. *)
Lemma record_loop_slots (pins : list (button * (bool * bool))) :
  forall (extimer i : Z) (rambuffer : list Z) (s : yack) (r : record_exit),
    record_loop h pins extimer i rambuffer s = Some r ->
    slots (exit_state r) = slots s.
Proof.
  induction pins as [| [btn [dit dah]] rest IH];
    intros extimer i rambuffer s r E.
  - destruct (Z.eq_dec extimer 0) as [-> | He].
    + rewrite record_loop_timeout in E. injection E as <-. reflexivity.
    + rewrite record_loop_nil in E by exact He. injection E as <-. reflexivity.
  - destruct (Z.eq_dec extimer 0) as [-> | He].
    + rewrite record_loop_timeout in E. injection E as <-. reflexivity.
    + rewrite record_loop_cons in E by exact He. cbv zeta in E.
      destruct (yackctrlkey h (TRUE h) btn s) as [[stop s1] |] eqn:E1;
        [| discriminate].
      apply yackctrlkey_slots in E1. simpl bind in E.
      destruct stop.
      * injection E as <-. exact E1.
      * destruct (yackiambic h (ON h) dit dah s1) as [[c s2] |] eqn:E2;
          [| discriminate].
        apply yackiambic_keeps, keeps_slots in E2. simpl bind in E.
        destruct (negb (u8 c =? 0));
          match type of E with
          | context [if ?i >=? RBSIZE h then _ else _] =>
              destruct (i >=? RBSIZE h)
          end;
          apply IH in E; rewrite E;
          change (slots (yackbeat ?t)) with (slots t);
          rewrite ?yackerror_slots; congruence.
Qed.

(** A run that is still recording goes on with the next heartbeats. *)
Lemma record_loop_app (pre more : list (button * (bool * bool))) :
  forall (extimer i : Z) (rambuffer : list Z) (s : yack)
         (e' i' : Z) (ram' : list Z) (s' : yack),
    record_loop h pre extimer i rambuffer s = Some (Running e' i' ram' s') ->
    e' <> 0
    /\ record_loop h (pre ++ more) extimer i rambuffer s
       = record_loop h more e' i' ram' s'.
Proof.
  induction pre as [| [btn [dit dah]] rest IH];
    intros extimer i rambuffer s e' i' ram' s' E.
  - destruct (Z.eq_dec extimer 0) as [-> | He].
    + rewrite record_loop_timeout in E. discriminate.
    + rewrite record_loop_nil in E by exact He.
      injection E as <- <- <- <-. split; [exact He | reflexivity].
  - destruct (Z.eq_dec extimer 0) as [-> | He].
    + rewrite record_loop_timeout in E. discriminate.
    + rewrite <- app_comm_cons.
      rewrite record_loop_cons in E |- * by exact He. cbv zeta in E |- *.
      destruct (yackctrlkey h (TRUE h) btn s) as [[stop s1] |];
        [| discriminate].
      simpl bind in E |- *.
      destruct stop; [discriminate |].
      destruct (yackiambic h (ON h) dit dah s1) as [[c s2] |];
        [| discriminate].
      simpl bind in E |- *.
      destruct (negb (u8 c =? 0));
        match type of E with
        | context [if ?i >=? RBSIZE h then _ else _] =>
            destruct (i >=? RBSIZE h)
        end;
        apply IH; exact E.
Qed.

End Recording.




(** ** The debounced key state *)

Section Latches.

Variable h : header.
Hypothesis Hlatch : latches_ok h.

Lemma squeezed_bit (n : Z) :
  Z.testbit (SQUEEZED h) n
  = Z.testbit (DITLATCH h) n || Z.testbit (DAHLATCH h) n.
Proof.
  destruct Hlatch as [_ [_ [_ [-> _]]]]. apply Z.lor_spec.
Qed.

Lemma squeezed_high (n : Z) : 8 <= n -> Z.testbit (SQUEEZED h) n = false.
Proof.
  intros Hn.
  destruct Hlatch as [Hd [Ha [_ [Hsq Hlt]]]].
  assert (Hnn : 0 <= SQUEEZED h).
  { rewrite Hsq. apply Z.lor_nonneg. lia. }
  rewrite <- (u8_small (SQUEEZED h)) by lia.
  rewrite u8_testbit.
  destruct (Z.ltb_spec n 8); [lia | reflexivity].
Qed.

Lemma latch_bits_disjoint (n : Z) :
  Z.testbit (DITLATCH h) n && Z.testbit (DAHLATCH h) n = false.
Proof.
  destruct Hlatch as [_ [_ [Hdis _]]].
  rewrite <- Z.land_spec, Hdis. apply Z.bits_0.
Qed.

(** The four key states are different from one another. *)
Lemma ditlatch_not_0 : (DITLATCH h =? 0) = false.
Proof. apply Z.eqb_neq. destruct Hlatch. lia. Qed.

Lemma dahlatch_not_0 : (DAHLATCH h =? 0) = false.
Proof. apply Z.eqb_neq. destruct Hlatch as [_ [? _]]. lia. Qed.

Lemma some_bit (a : Z) : 0 < a -> exists n, 0 <= n /\ Z.testbit a n = true.
Proof.
  intros Ha. exists (Z.log2 a). split.
  - apply Z.log2_nonneg.
  - apply Z.bit_log2. exact Ha.
Qed.

Lemma ditlatch_not_dahlatch : (DITLATCH h =? DAHLATCH h) = false.
Proof.
  apply Z.eqb_neq. intros E.
  destruct Hlatch as [Hd _].
  destruct (some_bit _ Hd) as [n [_ Hn]].
  pose proof (latch_bits_disjoint n) as Hdis.
  rewrite <- E, Hn in Hdis. discriminate.
Qed.

Lemma dahlatch_not_ditlatch : (DAHLATCH h =? DITLATCH h) = false.
Proof. rewrite Z.eqb_sym. apply ditlatch_not_dahlatch. Qed.

Lemma squeezed_not_0 : (SQUEEZED h =? 0) = false.
Proof.
  apply Z.eqb_neq. intros E.
  destruct Hlatch as [Hd _].
  destruct (some_bit _ Hd) as [n [_ Hn]].
  pose proof (squeezed_bit n) as Hsq.
  rewrite E, Z.bits_0, Hn in Hsq. discriminate.
Qed.

Lemma squeezed_not_ditlatch : (SQUEEZED h =? DITLATCH h) = false.
Proof.
  apply Z.eqb_neq. intros E.
  destruct Hlatch as [_ [Ha _]].
  destruct (some_bit _ Ha) as [n [_ Hn]].
  pose proof (squeezed_bit n) as Hsq.
  pose proof (latch_bits_disjoint n) as Hdis.
  rewrite E, Hn in Hsq. rewrite Hn in Hdis.
  destruct (Z.testbit (DITLATCH h) n); discriminate.
Qed.

Lemma squeezed_not_dahlatch : (SQUEEZED h =? DAHLATCH h) = false.
Proof.
  apply Z.eqb_neq. intros E.
  destruct Hlatch as [Hd _].
  destruct (some_bit _ Hd) as [n [_ Hn]].
  pose proof (squeezed_bit n) as Hsq.
  pose proof (latch_bits_disjoint n) as Hdis.
  rewrite E, Hn in Hsq. rewrite Hn in Hdis.
  destruct (Z.testbit (DAHLATCH h) n); discriminate.
Qed.

Lemma ditlatch_not_squeezed : (DITLATCH h =? SQUEEZED h) = false.
Proof. rewrite Z.eqb_sym. apply squeezed_not_ditlatch. Qed.

Lemma dahlatch_not_squeezed : (DAHLATCH h =? SQUEEZED h) = false.
Proof. rewrite Z.eqb_sym. apply squeezed_not_dahlatch. Qed.

(** The key states of the four positions of the paddles. *)
Lemma paddle_state_none (swap : bool) : paddle_state h swap false false = 0.
Proof. reflexivity. Qed.

Lemma paddle_state_both (swap : bool) :
  paddle_state h swap true true = SQUEEZED h.
Proof.
  unfold paddle_state. destruct Hlatch as [_ [_ [_ [-> _]]]].
  destruct swap; [apply Z.lor_comm | reflexivity].
Qed.

Lemma paddle_state_dit : paddle_state h false true false = DITLATCH h.
Proof. unfold paddle_state. apply Z.lor_0_r. Qed.

Lemma paddle_state_dah : paddle_state h false false true = DAHLATCH h.
Proof. unfold paddle_state. apply Z.lor_0_l. Qed.

(** What [keylatch] latches, seen through the mask [SQUEEZED]. *)
Lemma keylatch_keys (dit dah : bool) (s : yack) :
  latches_clear h s ->
  Z.land (volflags (keylatch h dit dah s)) (SQUEEZED h)
  = paddle_state h (swapped h s) dit dah.
Proof.
  unfold latches_clear. intros Hclear.
  assert (Hv : forall n, Z.testbit (volflags s) n && Z.testbit (SQUEEZED h) n
                         = false).
  { intros n. rewrite <- Z.land_spec, Hclear. apply Z.bits_0. }
  unfold keylatch, paddle_state, swapped, set_bits.
  apply Z.bits_inj'. intros n Hn.
  specialize (Hv n).
  pose proof (squeezed_bit n) as Hsq.
  pose proof (latch_bits_disjoint n) as Hdis.
  assert (Hhigh : (n <? 8) = false -> Z.testbit (SQUEEZED h) n = false).
  { intros Hf. apply squeezed_high. apply Z.ltb_ge. exact Hf. }
  destruct (negb (Z.land (yackflags s) (PDLSWAP h) =? 0)), dit, dah;
    cbn [volflags set_volflags];
    rewrite ?Z.land_spec, ?u8_testbit, ?Z.lor_spec, ?u8_testbit, ?Z.lor_spec,
      ?Z.bits_0;
    destruct (n <? 8); try specialize (Hhigh eq_refl);
    destruct (Z.testbit (volflags s) n), (Z.testbit (DITLATCH h) n),
      (Z.testbit (DAHLATCH h) n), (Z.testbit (SQUEEZED h) n);
    simpl in *; congruence.
Qed.

Lemma swapped_keeps (s s' : yack) :
  keeps_settings s s' -> swapped h s' = swapped h s.
Proof. intros [E _]. unfold swapped. rewrite E. reflexivity. Qed.

(** The head of [yackiambic]: the static variables are debounced, the
    latches are clear again, nothing else has changed. *)
Lemma iambic_sample_debounce (dit dah : bool) (s : yack) :
  latches_clear h s ->
  fsm (iambic_sample h dit dah s)
  = debounce h (paddle_state h (swapped h s) dit dah) (fsm s)
  /\ latches_clear h (iambic_sample h dit dah s)
  /\ hw (iambic_sample h dit dah s) = hw s
  /\ keeps_settings s (iambic_sample h dit dah s).
Proof.
  intros Hclear.
  split; [| split; [| split]].
  - unfold iambic_sample, debounce. cbv zeta.
    cbn [fsm upd_fsm set_fsm debounceTimer set_debounceTimer set_timer].
    destruct (dec (debounceTimer (fsm s)) =? 0); [| reflexivity].
    match goal with
    | |- context [keylatch h dit dah ?t] =>
        assert (Hk : Z.land (volflags (keylatch h dit dah t)) (SQUEEZED h)
                     = paddle_state h (swapped h s) dit dah)
          by (apply (keylatch_keys dit dah t); exact Hclear);
        assert (Hf : fsm (keylatch h dit dah t) = fsm t)
          by (unfold keylatch; frame_cases; reflexivity)
    end.
    rewrite Hk, Hf.
    cbn [fsm upd_fsm set_fsm keystate set_debounceTimer set_timer].
    destruct (negb (keystate (fsm s) =? _)).
    + cbn [fsm volflags set_volflags upd_fsm set_fsm].
      rewrite Hk, Hf. reflexivity.
    + cbn [fsm set_volflags]. rewrite Hf. reflexivity.
  - unfold latches_clear, iambic_sample. cbv zeta.
    destruct (debounceTimer _ =? 0).
    + cbn [volflags set_volflags].
      destruct Hlatch as [_ [_ [_ [-> _]]]]. apply clear_bits_land.
    + exact Hclear.
  - unfold iambic_sample, keylatch, upd_fsm. frame_cases; reflexivity.
  - apply iambic_sample_keeps.
Qed.

End Latches.

(** ** One heartbeat of the keyer *)

(** Reading the variables of a state that was written field by field. *)
Ltac fsm_simpl :=
  cbn [fsm set_fsm upd_fsm hw set_hw volflags set_volflags yackflags wpmcnt
       iambicState timer debounceTimer currentSymbol nextSymbol pressedKeys
       keystate buffer bufctr
       set_iambicState set_timer set_debounceTimer set_currentSymbol
       set_nextSymbol set_pressedKeys set_keystate set_buffer set_bufctr
       iambicState_eqb symbol_eqb negb andb orb fst snd bind].

Lemma set_fsm_same (f : iambic) (t : yack) : fsm t = f -> set_fsm f t = t.
Proof. intros <-. destruct t; reflexivity. Qed.

Lemma set_pressedKeys_same (t : yack) :
  upd_fsm (set_pressedKeys (pressedKeys (fsm t))) t = t.
Proof.
  unfold upd_fsm. apply set_fsm_same. destruct (fsm t); reflexivity.
Qed.

Section Heartbeat.

Variable h : header.
Hypothesis Hlatch : latches_ok h.

(** The head of [yackiambic] when the paddles show the debounced state. *)
Lemma debounce_same (k : Z) (f : iambic) :
  keystate f = k ->
  debounce h k f
  = set_debounceTimer (dec (debounceTimer f)) (set_timer (dec (timer f)) f).
Proof.
  intros Hk. unfold debounce. cbv zeta.
  cbn [debounceTimer keystate set_debounceTimer set_timer].
  rewrite Hk, Z.eqb_refl. simpl negb.
  destruct (dec (debounceTimer f) =? 0); reflexivity.
Qed.

(** *** The blocks of the state machine with no key down *)

Lemma waiting_keys_open (t : yack) :
  keystate (fsm t) = 0 -> waiting_keys h t = (t, false).
Proof. intros Hk. unfold waiting_keys. rewrite Hk. reflexivity. Qed.

Lemma waiting_timeout_running (ctrl retchar : Z) (t : yack) :
  timer (fsm t) <> 0 -> waiting_timeout h ctrl retchar t = Some (t, retchar).
Proof.
  intros HT. apply Z.eqb_neq in HT. unfold waiting_timeout.
  rewrite HT, andb_false_r. reflexivity.
Qed.

Lemma waiting_timeout_idle (ctrl retchar : Z) (t : yack) :
  iambicState (fsm t) = STATE_IDLE ->
  waiting_timeout h ctrl retchar t = Some (t, retchar).
Proof. intros Hst. unfold waiting_timeout. rewrite Hst. reflexivity. Qed.

Lemma waiting_timeout_init (ctrl retchar : Z) (t : yack) :
  iambicState (fsm t) = STATE_DAHDIT_INIT ->
  waiting_timeout h ctrl retchar t = Some (t, retchar).
Proof.
  intros Hst. unfold waiting_timeout. rewrite Hst.
  destruct (_ && _); reflexivity.
Qed.

Lemma track_pressed_open (t : yack) :
  keystate (fsm t) = 0 ->
  track_pressed h t = upd_fsm (set_pressedKeys (relax (pressedKeys (fsm t)))) t.
Proof.
  intros Hk. unfold track_pressed. rewrite Hk.
  rewrite (Z.eqb_sym 0 (SQUEEZED h)), (Z.eqb_sym 0 (DITLATCH h)),
    (Z.eqb_sym 0 (DAHLATCH h)), (squeezed_not_0 h Hlatch),
    (ditlatch_not_0 h Hlatch), (dahlatch_not_0 h Hlatch), Z.eqb_refl.
  destruct (pressedKeys (fsm t)) eqn:Hpk; simpl relax; try reflexivity;
    rewrite <- Hpk, set_pressedKeys_same; reflexivity.
Qed.

(** With no key down and no symbol chosen the next symbol stays open. *)
Lemma resolve_next_open (t : yack) :
  keystate (fsm t) = 0 -> nextSymbol (fsm t) = SYMBOL_NONE ->
  resolve_next h t = t.
Proof.
  intros Hk Hn. unfold resolve_next. cbv zeta.
  rewrite Hk.
  rewrite (Z.eqb_sym 0 (DITLATCH h)), (Z.eqb_sym 0 (DAHLATCH h)),
    (ditlatch_not_0 h Hlatch), (dahlatch_not_0 h Hlatch).
  assert (Hsame : upd_fsm (set_nextSymbol SYMBOL_NONE) t = t).
  { unfold upd_fsm. apply set_fsm_same. rewrite <- Hn.
    destruct (fsm t); reflexivity. }
  destruct (pressedKeys (fsm t)); rewrite ?Hsame; rewrite Hn; reflexivity.
Qed.

(** A heartbeat of the loop with no key down, no symbol chosen and the
    timer not at zero. *)
Lemma quiet_loop (ctrl : Z) (t : yack) :
  keystate (fsm t) = 0 ->
  iambicState (fsm t) <> STATE_DAHDIT_INIT ->
  timer (fsm t) <> 0 ->
  exists pk,
    iambic_loop h 2 ctrl 0 t = Some (0, upd_fsm (set_pressedKeys pk) t).
Proof.
  intros Hk Hinit HT.
  assert (Hwait : iambic_waiting h ctrl 0 t = Some (t, 0, false)).
  { unfold iambic_waiting.
    rewrite waiting_keys_open, waiting_timeout_running by assumption.
    reflexivity. }
  assert (Helem : iambic_element h 0 t
                  = (upd_fsm (set_pressedKeys (relax (pressedKeys (fsm t)))) t,
                     0, false)).
  { unfold iambic_element. cbv zeta.
    rewrite track_pressed_open by exact Hk. fsm_simpl.
    apply Z.eqb_neq in HT. rewrite HT. reflexivity. }
  unfold iambic_loop, iambic_body.
  destruct (iambicState (fsm t)); try contradiction;
    rewrite ?Hwait, ?Helem; fsm_simpl;
    try (exists (pressedKeys (fsm t)); rewrite set_pressedKeys_same;
         reflexivity);
    eexists; reflexivity.
Qed.

(** The variables of the keyer after the head of [yackiambic] when the
    paddles are open and were so before. *)
Lemma quiet_sample (st : iambicState_t) (T b n : Z)
    (s0 : yack) (evs : list event) (s : yack) :
  quiet h st T b n s0 evs s ->
  quiet h st (dec T) b n s0 evs (iambic_sample h false false s).
Proof.
  intros [Hst [HT [Hnext [Hkey [Hb [Hn [Hclear [Hhw Hkeep]]]]]]]].
  destruct (iambic_sample_debounce h Hlatch false false s Hclear)
    as [Hf [Hclear' [Hhw' Hkeep']]].
  rewrite paddle_state_none, debounce_same in Hf by exact Hkey.
  pose proof (keeps_trans _ _ _ Hkeep Hkeep') as Hkeep''.
  unfold quiet. rewrite Hf. fsm_simpl. rewrite HT, Hhw'.
  repeat (split; [assumption || reflexivity |]). exact Hkeep''.
Qed.

(** What the keyer remembers of the keys does not matter to [quiet]. *)
Lemma quiet_pressed (st : iambicState_t) (T b n : Z)
    (s0 : yack) (evs : list event) (pk : pressedKeys_t) (t : yack) :
  quiet h st T b n s0 evs t ->
  quiet h st T b n s0 evs (upd_fsm (set_pressedKeys pk) t).
Proof. unfold quiet. fsm_simpl. intros Hq. exact Hq. Qed.

(** A heartbeat with the paddles open while a timer runs: nothing but the
    timers changes. *)
Lemma quiet_tick (ctrl : Z) (st : iambicState_t) (T b n : Z)
    (s0 : yack) (evs : list event) (s : yack) :
  quiet h st T b n s0 evs s ->
  st <> STATE_DAHDIT_INIT ->
  dec T <> 0 ->
  exists s',
    yackiambic h ctrl false false s = Some (0, s')
    /\ quiet h st (dec T) b n s0 evs s'.
Proof.
  intros Hq Hinit Hdec.
  apply quiet_sample in Hq.
  pose proof Hq as [Hst [HT [_ [Hkey _]]]].
  destruct (quiet_loop ctrl (iambic_sample h false false s)) as [pk Hloop].
  - exact Hkey.
  - rewrite Hst. exact Hinit.
  - rewrite HT. exact Hdec.
  - unfold yackiambic. rewrite Hloop.
    eexists. split; [reflexivity |].
    apply quiet_pressed. exact Hq.
Qed.

(** *** The ends of the element and of the gaps with no key down *)

Lemma key_up_events : UP h <> DOWN h -> key_events h (UP h) = [EvKeyUp].
Proof.
  intros Hud. unfold key_events. apply Z.eqb_neq in Hud.
  rewrite Hud, Z.eqb_refl. reflexivity.
Qed.

Lemma quiet_wpmcnt (st : iambicState_t) (T b n : Z)
    (s0 : yack) (evs : list event) (s : yack) :
  quiet h st T b n s0 evs s -> wpmcnt s = wpmcnt s0.
Proof. intros [_ [_ [_ [_ [_ [_ [_ [_ Hkeep]]]]]]]]. apply Hkeep. Qed.

Lemma relax_not_both (pk : pressedKeys_t) :
  match relax pk with
  | PRESSED_BOTH => False
  | PRESSED_ONE => False
  | _ => True
  end.
Proof. destruct pk; exact I. Qed.

(** The element is over: the key goes up and the gap starts. *)
Lemma quiet_element_end (ctrl : Z) (T b n : Z)
    (s0 : yack) (evs : list event) (s : yack) :
  quiet h STATE_DAHDIT T b n s0 evs s ->
  dec T = 0 ->
  exists s',
    yackiambic h ctrl false false s = Some (0, s')
    /\ quiet h STATE_IEG (u16 (IEGLEN h * wpmcnt s0)) b n s0
         (evs ++ key_events h (UP h)) s'.
Proof.
  intros Hq Hdec.
  apply quiet_sample in Hq. rewrite Hdec in Hq.
  set (t := iambic_sample h false false s) in *.
  pose proof (quiet_wpmcnt _ _ _ _ _ _ _ Hq) as Hw.
  destruct Hq as [Hst [HT [Hnext [Hkey [Hb [Hn [Hclear [Hhw Hkeep]]]]]]]].
  unfold yackiambic, iambic_loop, iambic_body. fold t. rewrite Hst.
  unfold iambic_element. cbv zeta.
  rewrite track_pressed_open by exact Hkey. fsm_simpl.
  rewrite HT, Hst. simpl Z.eqb. cbv iota.
  unfold element_expired. cbv zeta. fsm_simpl.
  pose proof (relax_not_both (pressedKeys (fsm t))) as Hrel.
  rewrite key_log.
  destruct (relax (pressedKeys (fsm t))); try contradiction;
    (eexists; split; [reflexivity |]);
    unfold quiet; fsm_simpl; rewrite Hw, Hhw, <- app_assoc;
    repeat (split; [assumption || reflexivity |]); exact Hkeep.
Qed.

(** The gap after the element is over with no symbol chosen: the gap
    between characters starts, with its timer at
    [(ICGLEN - IEGLEN - 1) * wpmcnt]. *)
Lemma quiet_gap_end (ctrl : Z) (T b n : Z)
    (s0 : yack) (evs : list event) (s : yack) :
  quiet h STATE_IEG T b n s0 evs s ->
  dec T = 0 ->
  exists s',
    yackiambic h ctrl false false s = Some (0, s')
    /\ quiet h STATE_ICG (u16 ((ICGLEN h - IEGLEN h - 1) * wpmcnt s0)) b n
         s0 evs s'.
Proof.
  intros Hq Hdec.
  apply quiet_sample in Hq. rewrite Hdec in Hq.
  set (t := iambic_sample h false false s) in *.
  pose proof (quiet_wpmcnt _ _ _ _ _ _ _ Hq) as Hw.
  destruct Hq as [Hst [HT [Hnext [Hkey [Hb [Hn [Hclear [Hhw Hkeep]]]]]]]].
  unfold yackiambic, iambic_loop, iambic_body. fold t. rewrite Hst.
  unfold iambic_element. cbv zeta.
  rewrite track_pressed_open by exact Hkey. fsm_simpl.
  rewrite HT, Hst. simpl Z.eqb. cbv iota.
  unfold gap_expired. cbv zeta.
  rewrite resolve_next_open by (fsm_simpl; assumption).
  fsm_simpl. rewrite Hnext. fsm_simpl.
  eexists. split; [reflexivity |].
  unfold quiet; fsm_simpl; rewrite Hw, Hhw.
  repeat (split; [assumption || reflexivity |]); exact Hkeep.
Qed.

(** The buffer is decoded when the gap between characters is over. *)
Lemma character_done_decodes (t : yack) :
  0 <= 7 - bufctr (fsm t) ->
  character_done h t
  = Some (upd_fsm (set_iambicState STATE_IWG)
            (upd_fsm (set_timer (u16 ((IWGLEN h - ICGLEN h) * wpmcnt t)))
               (upd_fsm (fun f => set_buffer 0 (set_bufctr 0 f)) t)),
          morsechar (closed_pattern (buffer (fsm t)) (bufctr (fsm t)))).
Proof.
  intros Hn. unfold character_done. cbv zeta. fsm_simpl.
  destruct (Z.ltb_spec (7 - bufctr (fsm t)) 0); [lia |].
  reflexivity.
Qed.

Lemma quiet_character_end (ctrl : Z) (T b n : Z)
    (s0 : yack) (evs : list event) (s : yack) :
  quiet h STATE_ICG T b n s0 evs s ->
  dec T = 0 ->
  n <= 7 ->
  exists s',
    yackiambic h ctrl false false s
    = Some (morsechar (closed_pattern b n), s')
    /\ quiet h STATE_IWG (u16 ((IWGLEN h - ICGLEN h) * wpmcnt s0)) 0 0
         s0 evs s'.
Proof.
  intros Hq Hdec Hn7.
  apply quiet_sample in Hq. rewrite Hdec in Hq.
  set (t := iambic_sample h false false s) in *.
  pose proof (quiet_wpmcnt _ _ _ _ _ _ _ Hq) as Hw.
  destruct Hq as [Hst [HT [Hnext [Hkey [Hb [Hn [Hclear [Hhw Hkeep]]]]]]]].
  unfold yackiambic, iambic_loop, iambic_body. fold t. rewrite Hst.
  unfold iambic_waiting.
  rewrite waiting_keys_open by exact Hkey.
  unfold waiting_timeout. rewrite Hst, HT. fsm_simpl. simpl Z.eqb. cbv iota.
  rewrite character_done_decodes by lia.
  fsm_simpl. rewrite Hb, Hn.
  eexists. split; [reflexivity |].
  unfold quiet; fsm_simpl; rewrite Hw, Hhw.
  repeat (split; [assumption || reflexivity |]); exact Hkeep.
Qed.

(** *** Several heartbeats *)

Lemma run_cons (ctrl : Z) (dit dah : bool) (rest : list (bool * bool))
    (s s1 : yack) (c : Z) :
  yackiambic h ctrl dit dah s = Some (c, s1) ->
  run h ctrl ((dit, dah) :: rest) s
  = match run h ctrl rest s1 with
    | Some (out, s') => Some ((c, key_level (hw s1)) :: out, s')
    | None => None
    end.
Proof.
  intros E. simpl. rewrite E. simpl.
  destruct (run h ctrl rest s1) as [[out s'] |]; reflexivity.
Qed.

Lemma run_app (ctrl : Z) (a b : list (bool * bool)) :
  forall (s s1 : yack) (out1 : list (Z * bool)),
    run h ctrl a s = Some (out1, s1) ->
    run h ctrl (a ++ b) s
    = match run h ctrl b s1 with
      | Some (out2, s2) => Some (out1 ++ out2, s2)
      | None => None
      end.
Proof.
  induction a as [| [dit dah] rest IH]; intros s s1 out1 E.
  - simpl in E. injection E as <- <-. simpl.
    destruct (run h ctrl b s) as [[out2 s2] |]; reflexivity.
  - simpl in E.
    destruct (yackiambic h ctrl dit dah s) as [[c s'] |] eqn:E1;
      [| discriminate].
    simpl in E.
    destruct (run h ctrl rest s') as [[out s''] |] eqn:E2; [| discriminate].
    simpl in E. injection E as <- <-.
    rewrite <- app_comm_cons, (run_cons _ _ _ _ _ _ _ E1).
    rewrite (IH _ _ _ E2).
    destruct (run h ctrl b s'') as [[out2 s2] |]; reflexivity.
Qed.

(** The timer runs down while the paddles stay open. *)
Lemma quiet_run (ctrl : Z) (st : iambicState_t) (b n : Z)
    (s0 : yack) (evs : list event) (k : nat) :
  st <> STATE_DAHDIT_INIT ->
  forall (T : Z) (s : yack),
    quiet h st T b n s0 evs s ->
    Z.of_nat k < T ->
    exists s',
      run h ctrl (repeat (false, false) k) s
      = Some (repeat (0, key_level (hw s0 ++ evs)) k, s')
      /\ quiet h st (T - Z.of_nat k) b n s0 evs s'.
Proof.
  intros Hinit. induction k as [| k IH]; intros T s Hq HT.
  - exists s. split; [reflexivity |].
    replace (T - Z.of_nat 0) with T by lia. exact Hq.
  - assert (Hdec : dec T = T - 1) by (apply dec_pos; lia).
    destruct (quiet_tick ctrl _ _ _ _ _ _ _ Hq Hinit) as [s1 [E1 Hq1]];
      [lia |].
    rewrite Hdec in Hq1.
    destruct (IH _ _ Hq1) as [s' [E' Hq']]; [lia |].
    exists s'. split.
    + simpl repeat. rewrite (run_cons _ _ _ _ _ _ _ E1), E'.
      destruct Hq1 as [_ [_ [_ [_ [_ [_ [_ [-> _]]]]]]]]. reflexivity.
    + replace (T - Z.of_nat (S k)) with (T - 1 - Z.of_nat k) by lia.
      exact Hq'.
Qed.

End Heartbeat.


(** ** The debounce hold-off *)

Lemma keys_refl (s : yack) : keeps_keys s s.
Proof. repeat split. Qed.

Lemma keys_trans (s1 s2 s3 : yack) :
  keeps_keys s1 s2 -> keeps_keys s2 s3 -> keeps_keys s1 s3.
Proof.
  unfold keeps_keys. intros [A1 [A2 A3]] [B1 [B2 B3]].
  repeat split; congruence.
Qed.

Section HoldOff.

Variable h : header.

(** The loop of [yackiambic] reads the key state and never writes it. *)
Lemma waiting_keys_keys (s : yack) : keeps_keys s (fst (waiting_keys h s)).
Proof. unfold waiting_keys. keeps_by_cases. Qed.

Lemma waiting_timeout_keys (ctrl retchar : Z) (s s' : yack) (c : Z) :
  waiting_timeout h ctrl retchar s = Some (s', c) -> keeps_keys s s'.
Proof.
  unfold waiting_timeout, character_done. cbv zeta.
  destruct (_ && _).
  - destruct (iambicState (fsm s));
      try (intros E; injection E as <- _; apply keys_refl).
    + destruct (7 - _ <? 0); [discriminate |].
      intros E. injection E as <- _. repeat split; reflexivity.
    + intros E; injection E as <- _. repeat split; reflexivity.
  - intros E; injection E as <- _; apply keys_refl.
Qed.

Lemma init_symbol_keys (s : yack) : keeps_keys s (init_symbol s).
Proof. unfold init_symbol. keeps_by_cases. Qed.

Lemma init_timer_keys (s s' : yack) :
  init_timer h s = Some s' -> keeps_keys s s'.
Proof.
  unfold init_timer.
  destruct (currentSymbol (fsm s)); try discriminate;
    intros E; injection E as <-; repeat split; reflexivity.
Qed.

Lemma init_pressed_keys (s : yack) : keeps_keys s (init_pressed h s).
Proof. unfold init_pressed. keeps_by_cases. Qed.

Lemma track_pressed_keys (s : yack) : keeps_keys s (track_pressed h s).
Proof. unfold track_pressed. keeps_by_cases. Qed.

Lemma element_expired_keys (s : yack) : keeps_keys s (element_expired h s).
Proof. unfold element_expired. keeps_by_cases. Qed.

Lemma resolve_next_keys (s : yack) : keeps_keys s (resolve_next h s).
Proof.
  unfold resolve_next. cbv zeta.
  match goal with
  | |- keeps_keys s (match nextSymbol (fsm ?t) with _ => _ end) =>
      assert (Ht : keeps_keys s t) by keeps_by_cases;
      revert Ht; generalize t
  end.
  intros t Ht.
  eapply keys_trans; [exact Ht |]. keeps_by_cases.
Qed.

Lemma gap_expired_keys (s : yack) : keeps_keys s (fst (gap_expired h s)).
Proof.
  unfold gap_expired. cbv zeta.
  pose proof (resolve_next_keys s) as Ht. revert Ht.
  generalize (resolve_next h s). intros t Ht.
  eapply keys_trans; [exact Ht |]. keeps_by_cases.
Qed.

Lemma iambic_body_keys (ctrl retchar : Z) (s s' : yack) (c : Z) (b : bool) :
  iambic_body h ctrl retchar s = Some (s', c, b) -> keeps_keys s s'.
Proof.
  unfold iambic_body.
  assert (Hwait : iambic_waiting h ctrl retchar s = Some (s', c, b) ->
                  keeps_keys s s').
  { unfold iambic_waiting.
    pose proof (waiting_keys_keys s) as H1.
    destruct (waiting_keys h s) as [s1 rep]. simpl fst in H1.
    destruct (waiting_timeout h ctrl retchar s1) as [[s2 c2] |] eqn:E2;
      [| discriminate].
    simpl bind. intros E. injection E as <- _ _.
    eapply keys_trans; [exact H1 |].
    eapply waiting_timeout_keys. exact E2. }
  assert (Hinit : Some (iambic_init h retchar s) = Some (s', c, b) ->
                  keeps_keys s s').
  { unfold iambic_init. cbv zeta.
    pose proof (init_symbol_keys s) as H1. revert H1.
    generalize (init_symbol s). intros s1 H1.
    destruct (init_timer h s1) as [s2 |] eqn:E2.
    - intros E. injection E as <- _ _.
      eapply keys_trans; [exact H1 |].
      eapply keys_trans; [eapply init_timer_keys; exact E2 |].
      pose proof (init_pressed_keys s2) as H3. revert H3.
      generalize (init_pressed h s2). intros s3 H3.
      eapply keys_trans; [exact H3 |]. keeps_by_cases.
    - intros E. injection E as <- _ _.
      eapply keys_trans; [exact H1 |]. keeps_by_cases. }
  assert (Helem : Some (iambic_element h retchar s) = Some (s', c, b) ->
                  keeps_keys s s').
  { unfold iambic_element. cbv zeta.
    pose proof (track_pressed_keys s) as H1. revert H1.
    generalize (track_pressed h s). intros s1 H1.
    destruct (timer (fsm s1) =? 0).
    - destruct (iambicState (fsm s1));
        try (pose proof (gap_expired_keys s1) as H2;
             destruct (gap_expired h s1) as [s2 rep]; simpl fst in H2;
             intros E; injection E as <- _ _;
             eapply keys_trans; [exact H1 | exact H2]).
      intros E; injection E as <- _ _.
      eapply keys_trans; [exact H1 | apply element_expired_keys].
    - intros E; injection E as <- _ _. exact H1. }
  destruct (iambicState (fsm s)); assumption.
Qed.

Lemma iambic_loop_keys (fuel : nat) :
  forall (ctrl retchar : Z) (s s' : yack) (c : Z),
    iambic_loop h fuel ctrl retchar s = Some (c, s') -> keeps_keys s s'.
Proof.
  induction fuel as [| k IH]; intros ctrl retchar s s' c E.
  - discriminate.
  - simpl in E.
    destruct (iambic_body h ctrl retchar s) as [[[s1 c1] b1] |] eqn:E1;
      [| discriminate].
    simpl in E. apply iambic_body_keys in E1.
    destruct b1.
    + apply IH in E. eapply keys_trans; eassumption.
    + injection E as _ <-. exact E1.
Qed.

Hypothesis Hlatch : latches_ok h.

(** One heartbeat: the key state that the state machine uses and leaves
    behind is the debounced one. *)
Lemma yackiambic_debounce (ctrl : Z) (dit dah : bool) (s s' : yack) (c : Z) :
  latches_clear h s ->
  yackiambic h ctrl dit dah s = Some (c, s') ->
  keystate (fsm s')
  = keystate (debounce h (paddle_state h (swapped h s) dit dah) (fsm s))
  /\ debounceTimer (fsm s')
     = debounceTimer (debounce h (paddle_state h (swapped h s) dit dah) (fsm s))
  /\ latches_clear h s'
  /\ swapped h s' = swapped h s.
Proof.
  intros Hclear E. unfold yackiambic in E.
  destruct (iambic_sample_debounce h Hlatch dit dah s Hclear)
    as [Hf [Hclear' [_ Hkeep]]].
  pose proof (iambic_loop_keys _ _ _ _ _ _ E) as [Hk [Hd Hv]].
  pose proof (iambic_loop_keeps _ _ _ _ _ _ _ E) as Hkeep'.
  rewrite Hk, Hd, Hf.
  split; [reflexivity |]. split; [reflexivity |].
  split.
  - unfold latches_clear in *. rewrite Hv. exact Hclear'.
  - apply swapped_keeps. eapply keeps_trans; eassumption.
Qed.

(** While the hold-off runs the key state does not follow the paddles. *)
Lemma debounce_holding (k : Z) (f : iambic) :
  1 < debounceTimer f ->
  keystate (debounce h k f) = keystate f
  /\ debounceTimer (debounce h k f) = debounceTimer f - 1.
Proof.
  intros Hd. unfold debounce. cbv zeta.
  cbn [debounceTimer keystate set_debounceTimer set_timer].
  rewrite dec_pos by lia.
  destruct (Z.eqb_spec (debounceTimer f - 1) 0); [lia |].
  split; reflexivity.
Qed.

(** With the hold-off over the key state follows the paddles at once. *)
Lemma debounce_sampling (k : Z) (f : iambic) :
  dec (debounceTimer f) = 0 ->
  keystate (debounce h k f) = k
  /\ debounceTimer (debounce h k f)
     = if keystate f =? k then 0
       else u16 (Z.quot (KEYDEBOUNCE h) (YACKBEAT h)).
Proof.
  intros Hd. unfold debounce. cbv zeta.
  cbn [debounceTimer keystate set_debounceTimer set_timer].
  rewrite Hd. simpl Z.eqb. cbv iota.
  destruct (Z.eqb_spec (keystate f) k) as [E | E]; simpl negb; cbv iota.
  - split; [exact E | reflexivity].
  - split; reflexivity.
Qed.

End HoldOff.

(** C2 as stated does not hold: with a hold-off of two heartbeats, the
    DIT paddle closed for one heartbeat only is latched in that heartbeat
    and a whole dit of 16 heartbeats is keyed. *)
Lemma short_press_latches :
  u16 (Z.quot (KEYDEBOUNCE yack_h) (YACKBEAT yack_h)) = 2
  /\ keystate (fsm started) = 0
  /\ keystate (fsm (after [(true, false)])) = DITLATCH yack_h
  /\ exists s',
       run yack_h (ON yack_h) ((true, false) :: repeat (false, false) 20)
         started
       = Some (repeat (0, true) 16 ++ repeat (0, false) 5, s').
Proof.
  split; [reflexivity |]. split; [reflexivity |]. split; [reflexivity |].
  eexists. vm_compute. reflexivity.
Qed.

(** C2, amended. While the hold-off timer is above 1 at the start of a
    heartbeat (nonzero after its decrement), the paddles are not read and
    the debounced key state stays what it was when the hold-off started:
    for every sequence of heartbeats shorter than the hold-off timer,
    whatever the paddles do, the key state at the end is the one at the
    start.  With the hold-off over, the key state takes the state of the
    paddles in that very heartbeat, and a change starts a new hold-off. *)
Theorem debounce_hold_off :
  forall (h : header) (ctrl : Z),
    latches_ok h ->
    (forall (paddles : list (bool * bool)) (s s' : yack)
            (out : list (Z * bool)),
        latches_clear h s ->
        run h ctrl paddles s = Some (out, s') ->
        Z.of_nat (List.length paddles) < debounceTimer (fsm s) ->
        keystate (fsm s') = keystate (fsm s)
        /\ debounceTimer (fsm s')
           = debounceTimer (fsm s) - Z.of_nat (List.length paddles))
    /\ (forall (dit dah : bool) (s s' : yack) (c : Z),
           latches_clear h s ->
           yackiambic h ctrl dit dah s = Some (c, s') ->
           dec (debounceTimer (fsm s)) = 0 ->
           keystate (fsm s') = paddle_state h (swapped h s) dit dah
           /\ debounceTimer (fsm s')
              = if keystate (fsm s) =? paddle_state h (swapped h s) dit dah
                then 0
                else u16 (Z.quot (KEYDEBOUNCE h) (YACKBEAT h))).
Proof.
  intros h ctrl Hlatch. split.
  - induction paddles as [| [dit dah] rest IH]; intros s s' out Hclear E Hlen.
    + simpl in E. injection E as _ <-. simpl. split; [reflexivity | lia].
    + simpl in E.
      destruct (yackiambic h ctrl dit dah s) as [[c s1] |] eqn:E1;
        [| discriminate].
      simpl in E.
      destruct (run h ctrl rest s1) as [[out1 s2] |] eqn:E2; [| discriminate].
      simpl in E. injection E as _ <-.
      simpl List.length in Hlen.
      destruct (yackiambic_debounce h Hlatch _ _ _ _ _ _ Hclear E1)
        as [Hk [Hd [Hclear1 _]]].
      destruct (debounce_holding h (paddle_state h (swapped h s) dit dah)
                  (fsm s)) as [Hk' Hd']; [lia |].
      rewrite Hk' in Hk. rewrite Hd' in Hd.
      destruct (IH s1 s2 out1 Hclear1 E2) as [Hk2 Hd2]; [lia |].
      rewrite Hk2, Hd2, Hk, Hd. simpl List.length. split; [reflexivity | lia].
  - intros dit dah s s' c Hclear E Hd0.
    destruct (yackiambic_debounce h Hlatch _ _ _ _ _ _ Hclear E)
      as [Hk [Hd _]].
    destruct (debounce_sampling h (paddle_state h (swapped h s) dit dah)
                (fsm s) Hd0) as [Hk' Hd'].
    rewrite Hk, Hd, Hk', Hd'. split; reflexivity.
Qed.

Lemma debounce_hold_off_witness :
  let s := after [(true, false)] in
  (latches_ok yack_h
   /\ latches_clear yack_h s
   /\ Z.of_nat (List.length [(true, true)]) < debounceTimer (fsm s)
   /\ latches_clear yack_h started
   /\ dec (debounceTimer (fsm started)) = 0)
  /\ (forall s' out,
         run yack_h (ON yack_h) [(true, true)] s = Some (out, s') ->
         keystate (fsm s') = keystate (fsm s)
         /\ debounceTimer (fsm s')
            = debounceTimer (fsm s) - Z.of_nat (List.length [(true, true)]))
  /\ (forall s' c,
         yackiambic yack_h (ON yack_h) true false started = Some (c, s') ->
         keystate (fsm s') = paddle_state yack_h (swapped yack_h started)
                               true false
         /\ debounceTimer (fsm s')
            = if keystate (fsm started)
                 =? paddle_state yack_h (swapped yack_h started) true false
              then 0
              else u16 (Z.quot (KEYDEBOUNCE yack_h) (YACKBEAT yack_h))).
Proof.
  intros s.
  assert (H1 : latches_ok yack_h)
    by (unfold latches_ok; simpl; repeat split; reflexivity || lia).
  assert (H2 : latches_clear yack_h s) by (vm_compute; reflexivity).
  assert (H3 : Z.of_nat (List.length [(true, true)]) < debounceTimer (fsm s))
    by (vm_compute; reflexivity).
  assert (H4 : latches_clear yack_h started) by (vm_compute; reflexivity).
  assert (H5 : dec (debounceTimer (fsm started)) = 0)
    by (vm_compute; reflexivity).
  destruct (debounce_hold_off yack_h (ON yack_h) H1) as [Hhold Hsample].
  split; [repeat (split; [assumption |]); assumption |].
  split.
  - intros s' out E. exact (Hhold [(true, true)] s s' out H2 E H3).
  - intros s' c E. exact (Hsample true false started s' c H4 E H5).
Defined.

(** ** Both paddles closed in the same heartbeat while the keyer is idle *)

Section IdleSqueeze.

Variable h : header.
Hypothesis Hlatch : latches_ok h.

(** The head of [yackiambic] leaves the state machine where it is. *)
Lemma debounce_fields (k : Z) (f : iambic) :
  iambicState (debounce h k f) = iambicState f
  /\ currentSymbol (debounce h k f) = currentSymbol f
  /\ nextSymbol (debounce h k f) = nextSymbol f
  /\ pressedKeys (debounce h k f) = pressedKeys f
  /\ buffer (debounce h k f) = buffer f
  /\ bufctr (debounce h k f) = bufctr f
  /\ timer (debounce h k f) = dec (timer f)
  /\ (keystate (debounce h k f) = keystate f
      \/ keystate (debounce h k f) = k).
Proof.
  unfold debounce. cbv zeta.
  cbn [debounceTimer keystate set_debounceTimer set_timer].
  destruct (dec (debounceTimer f) =? 0);
    [destruct (negb (keystate f =? k)) |];
    cbn; repeat split; auto.
Qed.

(** The loop with both paddles closed, no symbol chosen and the keyer
    idle: [STATE_DAHDIT_INIT] is entered with no symbol, its [default] case
    sends the keyer back to idle, and no element is keyed. *)
Lemma idle_squeeze_loop (ctrl : Z) (t : yack) :
  iambicState (fsm t) = STATE_IDLE ->
  nextSymbol (fsm t) = SYMBOL_NONE ->
  keystate (fsm t) = SQUEEZED h ->
  iambic_loop h 2 ctrl 0 t
  = Some (0, upd_fsm (set_iambicState STATE_IDLE)
               (init_symbol (upd_fsm (set_iambicState STATE_DAHDIT_INIT) t))).
Proof.
  intros Hst Hnext Hkey.
  unfold iambic_loop, iambic_body. rewrite Hst.
  unfold iambic_waiting, waiting_keys.
  rewrite Hkey, (squeezed_not_0 h Hlatch), (squeezed_not_ditlatch h Hlatch),
    (squeezed_not_dahlatch h Hlatch).
  simpl negb. cbv iota.
  rewrite waiting_timeout_init by reflexivity.
  fsm_simpl.
  unfold iambic_init. cbv zeta.
  unfold init_timer at 1. unfold init_symbol at 1. fsm_simpl.
  rewrite Hnext. reflexivity.
Qed.

Lemma idle_squeeze_tick (ctrl : Z) (s0 s : yack) :
  idle_squeezed h s0 s ->
  exists s',
    yackiambic h ctrl true true s = Some (0, s')
    /\ idle_squeezed h s0 s'.
Proof.
  intros [Hst [Hnext [Hkey [Hclear [Hhw Hkeep]]]]].
  destruct (iambic_sample_debounce h Hlatch true true s Hclear)
    as [Hf [Hclear' [Hhw' Hkeep']]].
  rewrite (paddle_state_both h Hlatch) in Hf.
  destruct (debounce_fields (SQUEEZED h) (fsm s))
    as [Dst [_ [Dnext [_ [_ [_ [_ Dkey]]]]]]].
  rewrite <- Hf in Dst, Dnext, Dkey.
  set (t := iambic_sample h true true s) in *.
  pose proof (keeps_trans _ _ _ Hkeep Hkeep') as Hkeep''.
  assert (Hkey' : keystate (fsm t) = 0 \/ keystate (fsm t) = SQUEEZED h).
  { destruct Dkey as [-> | ->]; [exact Hkey | right; reflexivity]. }
  unfold yackiambic. fold t.
  destruct Hkey' as [Hk0 | Hksq].
  - (* the hold-off still runs on open paddles *)
    exists t. split.
    + unfold iambic_loop, iambic_body. rewrite Dst, Hst.
      unfold iambic_waiting.
      rewrite waiting_keys_open by exact Hk0.
      rewrite waiting_timeout_idle by (rewrite Dst; exact Hst).
      reflexivity.
    + unfold idle_squeezed. rewrite Dst, Dnext, Hhw'.
      repeat (split; [assumption || (left; assumption) |]). exact Hkeep''.
  - rewrite (idle_squeeze_loop ctrl t) by congruence.
    eexists. split; [reflexivity |].
    unfold idle_squeezed, init_symbol, latches_clear. fsm_simpl.
    split; [reflexivity |]. split; [reflexivity |].
    split; [right; exact Hksq |].
    split; [exact Hclear' |].
    split; [rewrite Hhw'; exact Hhw |].
    exact Hkeep''.
Qed.

Lemma idle_squeeze_run (ctrl : Z) (s0 : yack) (n : nat) :
  forall s,
    idle_squeezed h s0 s ->
    exists s',
      run h ctrl (repeat (true, true) n) s
      = Some (repeat (0, key_level (hw s0)) n, s')
      /\ idle_squeezed h s0 s'.
Proof.
  induction n as [| n IH]; intros s Hs.
  - exists s. split; [reflexivity | exact Hs].
  - destruct (idle_squeeze_tick ctrl s0 s Hs) as [s1 [E1 Hs1]].
    destruct (IH s1 Hs1) as [s' [E' Hs']].
    exists s'. split; [| exact Hs'].
    simpl repeat. rewrite (run_cons h ctrl _ _ _ _ _ _ E1), E'.
    destruct Hs1 as [_ [_ [_ [_ [-> _]]]]]. reflexivity.
Qed.

End IdleSqueeze.

(** C1, the failing input.  From start-up, in mode A as in mode B
    (whatever the flags), with both paddles closed in the same heartbeat
    and held for any number of heartbeats, every call of the keyer returns
    no character, the key never goes down and the keyer is idle at the
    end: no element is keyed at all, where the claim has the keyer start
    an element and alternate. *)
Theorem squeeze_from_idle_keys_nothing :
  forall (flags : Z) (n : nat),
  exists s',
    run yack_h (ON yack_h) (repeat (true, true) n)
      (set_yackflags flags started)
    = Some (repeat (0, false) n, s')
    /\ iambicState (fsm s') = STATE_IDLE
    /\ hw s' = hw started.
Proof.
  intros flags n.
  assert (Hlatch : latches_ok yack_h)
    by (unfold latches_ok; simpl; repeat split; reflexivity || lia).
  assert (Hidle : idle_squeezed yack_h (set_yackflags flags started)
                    (set_yackflags flags started)).
  { unfold idle_squeezed. split; [reflexivity |]. split; [reflexivity |].
    split; [left; reflexivity |]. split; [reflexivity |].
    split; [reflexivity | apply keeps_refl]. }
  destruct (idle_squeeze_run yack_h Hlatch (ON yack_h) _ n _ Hidle)
    as [s' [E [Hst [_ [_ [_ [Hhw _]]]]]]].
  exists s'. split; [exact E |]. split; [exact Hst | exact Hhw].
Qed.

(** The same paddles with the second one closed one heartbeat after the
    first: the keyer alternates dit and dah for as long as both are held,
    in mode B (the default flags) and in mode A alike. *)
Lemma squeeze_one_heartbeat_late_alternates :
  forall flags, flags = FLAGDEFAULT yack_h \/ flags = 0x30 ->
  exists s',
    run yack_h (ON yack_h) ((true, false) :: repeat (true, true) 191)
      (set_yackflags flags started)
    = Some (repeat (0, true) 16 ++ repeat (0, false) 16
            ++ repeat (0, true) 48 ++ repeat (0, false) 16
            ++ repeat (0, true) 16 ++ repeat (0, false) 16
            ++ repeat (0, true) 48 ++ repeat (0, false) 16, s').
Proof.
  intros flags [-> | ->]; eexists; vm_compute; reflexivity.
Qed.

(** ** The pattern buffer of a keyed character *)

Lemma all_patterns_complete (l : list bool) :
  In l (all_patterns (List.length l)).
Proof.
  induction l as [| e rest IH]; simpl.
  - left. reflexivity.
  - apply in_or_app. destruct e.
    + right. apply in_map. exact IH.
    + left. apply in_map. exact IH.
Qed.

(** Up to seven elements the closed buffer spells what was keyed. *)
Lemma short_patterns_spell (l : list bool) :
  (List.length l <= 7)%nat -> spells l = true.
Proof.
  intros Hlen.
  assert (Hall : forall n, (n <= 7)%nat ->
                   forallb spells (all_patterns n) = true).
  { intros n Hn.
    do 8 (destruct n as [| n]; [vm_compute; reflexivity |]). lia. }
  specialize (Hall _ Hlen). rewrite forallb_forall in Hall.
  apply Hall. apply all_patterns_complete.
Qed.

Lemma bufctr_after_small (k : nat) (n : Z) :
  0 <= n -> n + Z.of_nat k < 256 -> bufctr_after k n = n + Z.of_nat k.
Proof.
  revert n. induction k as [| k IH]; intros n Hn Hk.
  - simpl. lia.
  - simpl bufctr_after. rewrite u8_small by lia. rewrite IH by lia. lia.
Qed.


(** ** The loop of [yackiambic] runs its body at most twice *)

Section Repeat.

Variable h : header.

(** A cycle that asks for another one has just entered
    [STATE_DAHDIT_INIT]. *)
Lemma repeat_enters_init (ctrl retchar : Z) (s s' : yack) (c : Z) :
  iambic_body h ctrl retchar s = Some (s', c, true) ->
  iambicState (fsm s') = STATE_DAHDIT_INIT.
Proof.
  unfold iambic_body.
  assert (Hwait : iambic_waiting h ctrl retchar s = Some (s', c, true) ->
                  iambicState (fsm s') = STATE_DAHDIT_INIT).
  { unfold iambic_waiting, waiting_keys.
    destruct (negb (keystate (fsm s) =? 0)).
    - match goal with
      | |- context [waiting_timeout h ctrl retchar ?t] =>
          rewrite (waiting_timeout_init h ctrl retchar t) by reflexivity
      end.
      simpl bind. intros E. injection E as <- _. reflexivity.
    - destruct (waiting_timeout h ctrl retchar s) as [[s1 c1] |];
        simpl bind; intros E; discriminate. }
  assert (Hinit : Some (iambic_init h retchar s) = Some (s', c, true) ->
                  iambicState (fsm s') = STATE_DAHDIT_INIT).
  { unfold iambic_init. cbv zeta.
    destruct (init_timer h (init_symbol s)); intros E; discriminate. }
  assert (Helem : Some (iambic_element h retchar s) = Some (s', c, true) ->
                  iambicState (fsm s') = STATE_DAHDIT_INIT).
  { unfold iambic_element. cbv zeta.
    destruct (timer (fsm (track_pressed h s)) =? 0); [| discriminate].
    assert (Hgap : forall t r,
               (let '(s, repeatCycle) := gap_expired h t in
                (s, r, repeatCycle)) = (s', c, true) ->
               iambicState (fsm s') = STATE_DAHDIT_INIT).
    { intros t r. unfold gap_expired. cbv zeta.
      destruct (nextSymbol (fsm (resolve_next h t)));
        intros E; try discriminate; injection E as <- _; reflexivity. }
    destruct (iambicState (fsm (track_pressed h s)));
      intros E; injection E as E; try discriminate; eapply Hgap; exact E. }
  destruct (iambicState (fsm s)); assumption.
Qed.

(** More cycles than two change nothing. *)
Lemma iambic_loop_fuel (k : nat) (ctrl retchar : Z) (s : yack) :
  iambic_loop h (2 + k) ctrl retchar s = iambic_loop h 2 ctrl retchar s.
Proof.
  change (iambic_loop h (2 + k) ctrl retchar s)
    with ('(s, retchar, repeatCycle) <- iambic_body h ctrl retchar s ;;
          if repeatCycle : bool then iambic_loop h (S k) ctrl retchar s
          else Some (retchar, s)).
  change (iambic_loop h 2 ctrl retchar s)
    with ('(s, retchar, repeatCycle) <- iambic_body h ctrl retchar s ;;
          if repeatCycle : bool then iambic_loop h 1 ctrl retchar s
          else Some (retchar, s)).
  destruct (iambic_body h ctrl retchar s) as [[[s1 c1] [|]] |] eqn:E;
    try reflexivity.
  apply repeat_enters_init in E.
  simpl bind. cbv iota.
  change (iambic_loop h (S k) ctrl c1 s1)
    with ('(s, retchar, repeatCycle) <- iambic_body h ctrl c1 s1 ;;
          if repeatCycle : bool then iambic_loop h k ctrl retchar s
          else Some (retchar, s)).
  change (iambic_loop h 1 ctrl c1 s1)
    with ('(s, retchar, repeatCycle) <- iambic_body h ctrl c1 s1 ;;
          if repeatCycle : bool then iambic_loop h 0 ctrl retchar s
          else Some (retchar, s)).
  unfold iambic_body. rewrite E.
  unfold iambic_init. cbv zeta.
  destruct (init_timer h (init_symbol s1)); reflexivity.
Qed.

End Repeat.

(** ** Both paddles held from the start of an element *)

Lemma key_level_down (l : list event) : key_level (l ++ [EvKeyDown]) = true.
Proof. unfold key_level. rewrite fold_left_app. reflexivity. Qed.

Lemma key_level_up (l : list event) : key_level (l ++ [EvKeyUp]) = false.
Proof. unfold key_level. rewrite fold_left_app. reflexivity. Qed.

Section Squeeze.

Variable h : header.
Hypothesis Hlatch : latches_ok h.
Hypothesis Hud : UP h <> DOWN h.

Lemma key_down_events : key_events h (DOWN h) = [EvKeyDown].
Proof.
  unfold key_events. rewrite Z.eqb_refl.
  assert (E : (DOWN h =? UP h) = false)
    by (apply Z.eqb_neq; intros E; apply Hud; symmetry; exact E).
  rewrite E. reflexivity.
Qed.

Lemma squeezed_sample (st : iambicState_t) (c : symbol_t) (T : Z)
    (nx : symbol_t) (pk : pressedKeys_t)
    (s0 : yack) (evs : list event) (s : yack) :
  squeezed h st c T nx pk s0 evs s ->
  squeezed h st c (dec T) nx pk s0 evs (iambic_sample h true true s).
Proof.
  intros [Hst [Hc [HT [Hnx [Hpk [Hkey [Hclear [Hhw Hkeep]]]]]]]].
  destruct (iambic_sample_debounce h Hlatch true true s Hclear)
    as [Hf [Hclear' [Hhw' Hkeep']]].
  rewrite (paddle_state_both h Hlatch), (debounce_same h) in Hf by exact Hkey.
  pose proof (keeps_trans _ _ _ Hkeep Hkeep') as Hkeep''.
  unfold squeezed. rewrite Hf. fsm_simpl. rewrite HT, Hhw'.
  repeat (split; [assumption || reflexivity |]). exact Hkeep''.
Qed.

Lemma squeezed_wpmcnt (st : iambicState_t) (c : symbol_t) (T : Z)
    (nx : symbol_t) (pk : pressedKeys_t)
    (s0 : yack) (evs : list event) (s : yack) :
  squeezed h st c T nx pk s0 evs s ->
  wpmcnt s = wpmcnt s0 /\ yackflags s = yackflags s0.
Proof.
  intros [_ [_ [_ [_ [_ [_ [_ [_ Hkeep]]]]]]]].
  split; apply Hkeep.
Qed.

(** The keys seen while both stay down: both at the start of the element,
    and nothing to add once the opposite symbol is chosen. *)
Lemma track_pressed_held (t : yack) :
  keystate (fsm t) = SQUEEZED h ->
  pressedKeys (fsm t) = PRESSED_BOTH \/ pressedKeys (fsm t) = PRESSED_DONT_CARE ->
  track_pressed h t = t.
Proof.
  intros Hk Hpk. unfold track_pressed.
  rewrite Hk, (squeezed_not_0 h Hlatch), Z.eqb_refl.
  destruct Hpk as [-> | ->]; reflexivity.
Qed.

(** A heartbeat of the element or of the gap, not the last one. *)
Lemma squeezed_tick (ctrl : Z) (st : iambicState_t) (c : symbol_t) (T : Z)
    (nx : symbol_t) (pk : pressedKeys_t)
    (s0 : yack) (evs : list event) (s : yack) :
  squeezed h st c T nx pk s0 evs s ->
  st = STATE_DAHDIT \/ st = STATE_IEG ->
  pk = PRESSED_BOTH \/ pk = PRESSED_DONT_CARE ->
  dec T <> 0 ->
  exists s',
    yackiambic h ctrl true true s = Some (0, s')
    /\ squeezed h st c (dec T) nx pk s0 evs s'.
Proof.
  intros Hq Hst Hpk Hdec.
  apply squeezed_sample in Hq.
  exists (iambic_sample h true true s). split; [| exact Hq].
  destruct Hq as [Est [_ [ET [_ [Epk [Ekey _]]]]]].
  unfold yackiambic, iambic_loop, iambic_body.
  assert (Helem : iambic_element h 0 (iambic_sample h true true s)
                  = (iambic_sample h true true s, 0, false)).
  { unfold iambic_element. cbv zeta.
    rewrite track_pressed_held by (rewrite ?Epk; assumption).
    rewrite ET. apply Z.eqb_neq in Hdec. rewrite Hdec. reflexivity. }
  rewrite Est. destruct Hst as [-> | ->]; rewrite Helem; reflexivity.
Qed.

(** The element ends with both paddles down: the opposite symbol is
    chosen, in mode A as in mode B. *)
Lemma squeezed_element_end (ctrl : Z) (c : symbol_t) (T : Z) (nx : symbol_t)
    (s0 : yack) (evs : list event) (s : yack) :
  squeezed h STATE_DAHDIT c T nx PRESSED_BOTH s0 evs s ->
  dec T = 0 ->
  exists s',
    yackiambic h ctrl true true s = Some (0, s')
    /\ squeezed h STATE_IEG c (gap_ticks h (wpmcnt s0)) SYMBOL_OPPOSITE
         PRESSED_DONT_CARE s0 (evs ++ [EvKeyUp]) s'.
Proof.
  intros Hq Hdec.
  apply squeezed_sample in Hq. rewrite Hdec in Hq.
  set (t := iambic_sample h true true s) in *.
  destruct (squeezed_wpmcnt _ _ _ _ _ _ _ _ Hq) as [Hw _].
  destruct Hq as [Est [Ec [ET [Enx [Epk [Ekey [Hclear [Hhw Hkeep]]]]]]]].
  unfold yackiambic, iambic_loop, iambic_body. fold t. rewrite Est.
  unfold iambic_element. cbv zeta.
  rewrite track_pressed_held by (rewrite ?Epk; auto).
  rewrite ET, Est. simpl Z.eqb. cbv iota.
  unfold element_expired. cbv zeta. rewrite Epk. fsm_simpl.
  rewrite key_log, (key_up_events h Hud).
  eexists. split; [reflexivity |].
  unfold squeezed, gap_ticks. fsm_simpl. rewrite Hw, Hhw, <- app_assoc.
  repeat (split; [assumption || reflexivity |]). exact Hkeep.
Qed.

(** The blocks of [STATE_DAHDIT_INIT] on a squeeze. *)
Lemma init_timer_dit (t : yack) :
  currentSymbol (fsm t) = SYMBOL_DIT ->
  init_timer h t = Some (upd_fsm (set_timer (u16 (DITLEN h * wpmcnt t))) t).
Proof. intros Hc. unfold init_timer. rewrite Hc. reflexivity. Qed.

Lemma init_timer_dah (t : yack) :
  currentSymbol (fsm t) = SYMBOL_DAH ->
  init_timer h t
  = Some (upd_fsm (fun f => set_buffer (u8 (Z.lor (buffer f) 1)) f)
            (upd_fsm (set_timer (u16 (DAHLEN h * wpmcnt t))) t)).
Proof. intros Hc. unfold init_timer. rewrite Hc. reflexivity. Qed.

Lemma init_pressed_squeezed (t : yack) :
  keystate (fsm t) = SQUEEZED h ->
  init_pressed h t
  = if Z.land (yackflags t) (MODE h) =? IAMBICB h
    then upd_fsm (set_nextSymbol SYMBOL_OPPOSITE)
           (upd_fsm (set_pressedKeys PRESSED_BOTH) t)
    else upd_fsm (set_pressedKeys PRESSED_BOTH) t.
Proof.
  intros Hk. unfold init_pressed. rewrite Hk, Z.eqb_refl. reflexivity.
Qed.

(** An element that starts with both paddles down. *)
Lemma squeezed_init (retchar : Z) (c c0 : symbol_t) (T : Z)
    (st : iambicState_t) (pk : pressedKeys_t)
    (s0 : yack) (evs : list event) (t : yack) :
  squeezed h st c0 T (opposite c) pk s0 evs t ->
  exists s',
    iambic_init h retchar t = (s', retchar, false)
    /\ squeezed h STATE_DAHDIT (opposite c)
         (element_ticks h (opposite c) (wpmcnt s0)) (prearmed h s0)
         PRESSED_BOTH s0 (evs ++ [EvKeyDown]) s'.
Proof.
  intros Hq.
  destruct (squeezed_wpmcnt _ _ _ _ _ _ _ _ Hq) as [Hw Hflags].
  destruct Hq as [_ [_ [_ [Enx [_ [Ekey [Hclear [Hhw Hkeep]]]]]]]].
  unfold iambic_init. cbv zeta.
  assert (Ec1 : currentSymbol (fsm (init_symbol t)) = opposite c)
    by exact Enx.
  assert (En1 : nextSymbol (fsm (init_symbol t)) = SYMBOL_NONE)
    by reflexivity.
  assert (Ek1 : keystate (fsm (init_symbol t)) = SQUEEZED h) by exact Ekey.
  assert (Hv1 : volflags (init_symbol t) = volflags t) by reflexivity.
  assert (Hh1 : hw (init_symbol t) = hw t) by reflexivity.
  assert (Hw1 : wpmcnt (init_symbol t) = wpmcnt t) by reflexivity.
  assert (Hf1 : yackflags (init_symbol t) = yackflags t) by reflexivity.
  assert (Hk1 : keeps_settings t (init_symbol t))
    by (repeat split; reflexivity).
  pose proof (keeps_trans _ _ _ Hkeep Hk1) as Hkeep1.
  generalize dependent (init_symbol t). intros t1 Ec1 En1 Ek1 Hv1 Hh1 Hw1 Hf1 _ Hkeep1.
  assert (Hp : prearmed h t1 = prearmed h s0)
    by (unfold prearmed; rewrite Hf1, Hflags; reflexivity).
  assert (Hc1 : latches_clear h t1)
    by (unfold latches_clear in *; rewrite Hv1; exact Hclear).
  destruct c; simpl opposite in *.
  all: rewrite ?(init_timer_dit t1 Ec1), ?(init_timer_dah t1 Ec1).
  all: rewrite init_pressed_squeezed by exact Ek1.
  all: fsm_simpl; rewrite Hf1, Hflags.
  all: unfold squeezed, element_ticks, prearmed.
  all: destruct (Z.land (yackflags s0) (MODE h) =? IAMBICB h).
  all: rewrite key_log, key_down_events.
  all: eexists; (split; [reflexivity |]).
  all: fsm_simpl; rewrite ?En1, Hw1, Hw, Hh1, Hhw, <- app_assoc.
  all: repeat (split; [assumption || reflexivity |]); exact Hkeep1.
Qed.

(** The gap ends with the opposite symbol chosen: the opposite element
    starts in the same heartbeat, with both paddles seen at its start. *)
Lemma squeezed_gap_end (ctrl : Z) (c : symbol_t) (T : Z)
    (s0 : yack) (evs : list event) (s : yack) :
  squeezed h STATE_IEG c T SYMBOL_OPPOSITE PRESSED_DONT_CARE s0 evs s ->
  dec T = 0 ->
  exists s',
    yackiambic h ctrl true true s = Some (0, s')
    /\ squeezed h STATE_DAHDIT (opposite c)
         (element_ticks h (opposite c) (wpmcnt s0)) (prearmed h s0)
         PRESSED_BOTH s0 (evs ++ [EvKeyDown]) s'.
Proof.
  intros Hq Hdec.
  apply squeezed_sample in Hq. rewrite Hdec in Hq.
  set (t := iambic_sample h true true s) in *.
  assert (Hgap : exists t1,
             iambic_body h ctrl 0 t = Some (t1, 0, true)
             /\ squeezed h STATE_DAHDIT_INIT c 0 (opposite c)
                  PRESSED_DONT_CARE s0 evs t1).
  { clearbody t.
    destruct Hq as [Est [Ec [ET [Enx [Epk [Ekey [Hclear [Hhw Hkeep]]]]]]]].
    unfold iambic_body. rewrite Est.
    unfold iambic_element. cbv zeta.
    rewrite track_pressed_held by (rewrite ?Epk; auto).
    rewrite ET, Est. simpl Z.eqb. cbv iota.
    unfold gap_expired, resolve_next. cbv zeta. rewrite Epk, Enx, Ec.
    unfold squeezed.
    destruct c; fsm_simpl; (eexists; split; [reflexivity |]); fsm_simpl;
      repeat (split; [assumption || reflexivity |]); exact Hkeep. }
  destruct Hgap as [t1 [E1 Hq1]].
  destruct (squeezed_init 0 _ _ _ _ _ _ _ _ Hq1) as [s' [E' Hq']].
  exists s'. split; [| exact Hq'].
  unfold yackiambic. fold t.
  change (iambic_loop h 2 ctrl 0 t)
    with ('(s, retchar, repeatCycle) <- iambic_body h ctrl 0 t ;;
          if repeatCycle : bool then iambic_loop h 1 ctrl retchar s
          else Some (retchar, s)).
  rewrite E1. simpl bind. cbv iota.
  destruct Hq1 as [Est1 _].
  unfold iambic_loop, iambic_body. rewrite Est1, E'. reflexivity.
Qed.

(** The timer runs down while both paddles stay down. *)
Lemma squeezed_run (ctrl : Z) (st : iambicState_t) (c : symbol_t)
    (nx : symbol_t) (pk : pressedKeys_t)
    (s0 : yack) (evs : list event) (k : nat) :
  st = STATE_DAHDIT \/ st = STATE_IEG ->
  pk = PRESSED_BOTH \/ pk = PRESSED_DONT_CARE ->
  forall (T : Z) (s : yack),
    squeezed h st c T nx pk s0 evs s ->
    Z.of_nat k < T ->
    exists s',
      run h ctrl (repeat (true, true) k) s
      = Some (repeat (0, key_level (hw s0 ++ evs)) k, s')
      /\ squeezed h st c (T - Z.of_nat k) nx pk s0 evs s'.
Proof.
  intros Hst Hpk. induction k as [| k IH]; intros T s Hq HT.
  - exists s. split; [reflexivity |].
    replace (T - Z.of_nat 0) with T by lia. exact Hq.
  - assert (Hdec : dec T = T - 1) by (apply dec_pos; lia).
    destruct (squeezed_tick ctrl _ _ _ _ _ _ _ _ Hq Hst Hpk) as [s1 [E1 Hq1]];
      [lia |].
    rewrite Hdec in Hq1.
    destruct (IH _ _ Hq1) as [s' [E' Hq']]; [lia |].
    exists s'. split.
    + simpl repeat. rewrite (run_cons h ctrl _ _ _ _ _ _ E1), E'.
      destruct Hq1 as [_ [_ [_ [_ [_ [_ [_ [-> _]]]]]]]]. reflexivity.
    + replace (T - Z.of_nat (S k)) with (T - 1 - Z.of_nat k) by lia.
      exact Hq'.
Qed.

(** One element with both paddles held, its gap, and the heartbeat that
    starts the opposite element. *)
Lemma squeezed_element (ctrl : Z) (c nx : symbol_t) (T : Z)
    (s0 : yack) (evs : list event) (s : yack) :
  squeezed h STATE_DAHDIT c T nx PRESSED_BOTH s0 evs s ->
  key_level (hw s0 ++ evs) = true ->
  0 < T ->
  0 < gap_ticks h (wpmcnt s0) ->
  exists s',
    run h ctrl
      (repeat (true, true)
         (Z.to_nat T - 1 + (Z.to_nat (gap_ticks h (wpmcnt s0)) + 1))) s
    = Some (repeat (0, true) (Z.to_nat T - 1)
            ++ repeat (0, false) (Z.to_nat (gap_ticks h (wpmcnt s0)))
            ++ [(0, true)], s')
    /\ squeezed h STATE_DAHDIT (opposite c)
         (element_ticks h (opposite c) (wpmcnt s0)) (prearmed h s0)
         PRESSED_BOTH s0 (evs ++ [EvKeyUp; EvKeyDown]) s'.
Proof.
  intros Hq Hlvl HT HG.
  set (G := gap_ticks h (wpmcnt s0)) in *.
  set (k1 := (Z.to_nat T - 1)%nat).
  set (k2 := (Z.to_nat G - 1)%nat).
  assert (EG : Z.to_nat G = S k2) by (unfold k2; lia).
  destruct (squeezed_run ctrl STATE_DAHDIT c nx PRESSED_BOTH s0 evs k1
              (or_introl eq_refl) (or_introl eq_refl) T s Hq)
    as [s1 [E1 Hq1]]; [unfold k1; lia |].
  replace (T - Z.of_nat k1) with 1 in Hq1 by (unfold k1; lia).
  destruct (squeezed_element_end ctrl _ _ _ _ _ _ Hq1 eq_refl)
    as [s2 [E2 Hq2]].
  fold G in Hq2.
  destruct (squeezed_run ctrl STATE_IEG c SYMBOL_OPPOSITE PRESSED_DONT_CARE
              s0 (evs ++ [EvKeyUp]) k2
              (or_intror eq_refl) (or_intror eq_refl) G s2 Hq2)
    as [s3 [E3 Hq3]]; [unfold k2; lia |].
  replace (G - Z.of_nat k2) with 1 in Hq3 by (unfold k2; lia).
  destruct (squeezed_gap_end ctrl _ _ _ _ _ Hq3 eq_refl) as [s4 [E4 Hq4]].
  rewrite <- app_assoc in Hq4.
  exists s4. split; [| exact Hq4].
  assert (Eh2 : key_level (hw s2) = false).
  { destruct Hq2 as [_ [_ [_ [_ [_ [_ [_ [-> _]]]]]]]].
    rewrite app_assoc. apply key_level_up. }
  assert (Eh4 : key_level (hw s4) = true).
  { destruct Hq4 as [_ [_ [_ [_ [_ [_ [_ [-> _]]]]]]]].
    change [EvKeyUp; EvKeyDown] with ([EvKeyUp] ++ [EvKeyDown]).
    rewrite !app_assoc. apply key_level_down. }
  rewrite EG.
  replace (k1 + (S k2 + 1))%nat with (k1 + (1 + (k2 + 1)))%nat by lia.
  rewrite !repeat_app.
  rewrite (run_app h ctrl _ _ _ _ _ E1).
  change (repeat (true, true) 1 ++ repeat (true, true) k2
          ++ repeat (true, true) 1)
    with ((true, true) :: repeat (true, true) k2 ++ [(true, true)]).
  rewrite (run_cons h ctrl _ _ _ _ _ _ E2).
  rewrite (run_app h ctrl _ _ _ _ _ E3).
  rewrite (run_cons h ctrl _ _ _ _ _ _ E4).
  simpl run. rewrite Hlvl, Eh2, Eh4.
  rewrite (app_assoc (hw s0)), key_level_up. reflexivity.
Qed.

(** While both paddles stay down the elements alternate, in mode A as in
    mode B: [n] elements and gaps are keyed one after the other, each the
    opposite of the one before. *)
Lemma squeeze_alternates (ctrl : Z) (s0 : yack) (n : nat) :
  0 < element_ticks h SYMBOL_DIT (wpmcnt s0) ->
  0 < element_ticks h SYMBOL_DAH (wpmcnt s0) ->
  0 < gap_ticks h (wpmcnt s0) ->
  forall (c nx : symbol_t) (evs : list event) (s : yack),
    squeezed h STATE_DAHDIT c (element_ticks h c (wpmcnt s0)) nx
      PRESSED_BOTH s0 evs s ->
    key_level (hw s0 ++ evs) = true ->
    exists evs' s',
      run h ctrl
        (repeat (true, true)
           (List.length (alternation h (wpmcnt s0) c n))) s
      = Some (alternation h (wpmcnt s0) c n, s')
      /\ squeezed h STATE_DAHDIT (Nat.iter n opposite c)
           (element_ticks h (Nat.iter n opposite c) (wpmcnt s0))
           (match n with O => nx | S _ => prearmed h s0 end)
           PRESSED_BOTH s0 (evs ++ evs') s'
      /\ key_level (hw s0 ++ evs ++ evs') = true.
Proof.
  intros Hdit Hdah HG.
  assert (HT : forall c, 0 < element_ticks h c (wpmcnt s0))
    by (intros c; destruct c; assumption).
  induction n as [| n IH]; intros c nx evs s Hq Hlvl.
  - exists [], s. rewrite app_nil_r. simpl. auto.
  - destruct (squeezed_element ctrl _ _ _ _ _ _ Hq Hlvl (HT c) HG)
      as [s1 [E1 Hq1]].
    assert (Hlvl1 : key_level (hw s0 ++ evs ++ [EvKeyUp; EvKeyDown]) = true).
    { change [EvKeyUp; EvKeyDown] with ([EvKeyUp] ++ [EvKeyDown]).
      rewrite !app_assoc. apply key_level_down. }
    destruct (IH _ _ _ _ Hq1 Hlvl1) as [evs' [s' [E' [Hq' Hlvl']]]].
    exists ([EvKeyUp; EvKeyDown] ++ evs'), s'.
    rewrite <- !app_assoc in Hq', Hlvl'.
    split; [| split].
    + cbn [alternation].
      rewrite !app_assoc, length_app, repeat_app, <- !app_assoc.
      rewrite !length_app, !repeat_length. cbn [List.length].
      rewrite (run_app h ctrl _ _ _ _ _ E1), E'.
      rewrite <- !app_assoc. reflexivity.
    + rewrite Nat.iter_succ_r.
      destruct n; exact Hq'.
    + exact Hlvl'.
Qed.

End Squeeze.

(** With the header values of [yack_h]: the dit paddle closes one
    heartbeat before the dah paddle and both are held.  The dit is keyed,
    the dah starts with both paddles seen at its start, and from there the
    elements alternate for as long as the paddles are held, in mode B
    (default flags) and in mode A. *)
Lemma squeeze_after_dit_alternates (flags : Z) (n : nat) :
  flags = FLAGDEFAULT yack_h \/ flags = 0x30 ->
  exists s',
    run yack_h (ON yack_h)
      (((true, false) :: repeat (true, true) 32)
       ++ repeat (true, true)
            (List.length (alternation yack_h 16 SYMBOL_DAH n)))
      (set_yackflags flags started)
    = Some ((repeat (0, true) 16 ++ repeat (0, false) 16 ++ [(0, true)])
            ++ alternation yack_h 16 SYMBOL_DAH n, s').
Proof.
  intros Hflags.
  assert (Hlatch : latches_ok yack_h)
    by (unfold latches_ok; simpl; repeat split; reflexivity || lia).
  assert (Hud : UP yack_h <> DOWN yack_h) by discriminate.
  set (s0 := set_yackflags flags started).
  assert (Hpre : exists nx s,
             run yack_h (ON yack_h) ((true, false) :: repeat (true, true) 32)
               s0
             = Some (repeat (0, true) 16 ++ repeat (0, false) 16
                     ++ [(0, true)], s)
             /\ squeezed yack_h STATE_DAHDIT SYMBOL_DAH
                  (element_ticks yack_h SYMBOL_DAH (wpmcnt s0)) nx
                  PRESSED_BOTH s0 [EvKeyDown; EvKeyUp; EvKeyDown] s).
  { unfold s0.
    destruct Hflags as [-> | ->]; eexists; eexists;
      (split; [vm_compute; reflexivity |]);
      repeat split; vm_compute; reflexivity. }
  destruct Hpre as [nx [s [Epre Hq]]].
  destruct (squeeze_alternates yack_h Hlatch Hud (ON yack_h) s0 n) with (4 := Hq)
    as [evs' [s' [E' _]]]; try reflexivity.
  exists s'.
  rewrite (run_app yack_h (ON yack_h) _ _ _ _ _ Epre).
  change (wpmcnt s0) with 16 in E'. rewrite E'. reflexivity.
Qed.

(** Both paddles are let go during the dah that started with both down:
    mode B adds one dit, mode A adds nothing. *)
Lemma squeeze_released_mode_b :
  exists out s',
    run yack_h (ON yack_h)
      ((true, false) :: repeat (true, true) 39 ++ repeat (false, false) 200)
      (set_yackflags (FLAGDEFAULT yack_h) started)
    = Some (out, s')
    /\ map snd out
       = repeat true 16 ++ repeat false 16 ++ repeat true 48
         ++ repeat false 16 ++ repeat true 16 ++ repeat false 128.
Proof. eexists. eexists. split; vm_compute; reflexivity. Qed.

Lemma squeeze_released_mode_a :
  exists out s',
    run yack_h (ON yack_h)
      ((true, false) :: repeat (true, true) 39 ++ repeat (false, false) 200)
      (set_yackflags 0x30 started)
    = Some (out, s')
    /\ map snd out
       = repeat true 16 ++ repeat false 16 ++ repeat true 48
         ++ repeat false 160.
Proof. eexists. eexists. split; vm_compute; reflexivity. Qed.

(** * Further properties of the library *)

(** ** Bits of a flag byte *)

Lemma set_bits_testbit (v m n : Z) :
  0 <= n ->
  Z.testbit (set_bits v m) n = (n <? 8) && (Z.testbit v n || Z.testbit m n).
Proof.
  intros Hn. unfold set_bits. rewrite u8_testbit, Z.lor_spec. reflexivity.
Qed.

Lemma clear_bits_testbit (v m n : Z) :
  0 <= n ->
  Z.testbit (clear_bits v m) n
  = (n <? 8) && (Z.testbit v n && negb (Z.testbit m n)).
Proof.
  intros Hn. unfold clear_bits.
  rewrite u8_testbit, Z.land_spec, Z.lnot_spec by exact Hn. reflexivity.
Qed.

Lemma byte_testbit_high (v n : Z) :
  0 <= v < 256 -> 8 <= n -> Z.testbit v n = false.
Proof.
  intros Hv Hn. rewrite <- (u8_small v Hv), u8_testbit.
  destruct (Z.ltb_spec n 8); [lia | reflexivity].
Qed.

Lemma byte_testbit (v n : Z) :
  0 <= v < 256 -> Z.testbit v n = (n <? 8) && Z.testbit v n.
Proof.
  intros Hv. rewrite <- u8_testbit, u8_small by exact Hv. reflexivity.
Qed.

(** ** User storage *)

(** X1. [yackuser]: a word written to user storage 1 or 2 is what a later
    read of that storage returns (as a 16 bit value), the other storage
    keeps its content and the write itself returns [FALSE]; with any other
    storage number no call reads or writes anything and [FALSE] is
    returned. *)
Theorem yackuser_storage :
  forall (h : header) (READ WRITE : Z) (nr content any : Z) (u : user_eeprom),
    READ <> WRITE ->
    let w := yackuser h READ WRITE WRITE nr content u in
    (nr = 1 \/ nr = 2 ->
     fst w = FALSE h
     /\ fst (yackuser h READ WRITE READ nr any (snd w)) = u16 content
     /\ fst (yackuser h READ WRITE READ (3 - nr) any (snd w))
        = fst (yackuser h READ WRITE READ (3 - nr) any u))
    /\ (nr <> 1 -> nr <> 2 ->
        forall func, yackuser h READ WRITE func nr content u = (FALSE h, u)).
Proof.
  intros h READ WRITE nr content any u Hrw w. subst w.
  assert (Hwr : (WRITE =? READ) = false)
    by (apply Z.eqb_neq; intros E; apply Hrw; symmetry; exact E).
  split.
  - intros [-> | ->]; unfold yackuser; rewrite Hwr, !Z.eqb_refl; simpl;
      rewrite ?Z.eqb_refl; simpl; repeat split; reflexivity.
  - intros H1 H2 func. unfold yackuser.
    apply Z.eqb_neq in H1. apply Z.eqb_neq in H2. rewrite H1, H2.
    destruct (func =? READ), (func =? WRITE); reflexivity.
Qed.

Lemma yackuser_storage_witness :
  let u := {| user1 := 7; user2 := 9 |} in
  let w := yackuser yack_h 1 2 2 2 600 u in
  1 <> 2
  /\ ((2 = 1 \/ 2 = 2 ->
       fst w = FALSE yack_h
       /\ fst (yackuser yack_h 1 2 1 2 0 (snd w)) = u16 600
       /\ fst (yackuser yack_h 1 2 1 (3 - 2) 0 (snd w))
          = fst (yackuser yack_h 1 2 1 (3 - 2) 0 u))
      /\ (2 <> 1 -> 2 <> 2 ->
          forall func, yackuser yack_h 1 2 func 2 600 u = (FALSE yack_h, u))).
Proof.
  intros u w.
  assert (H : 1 <> 2) by lia.
  split; [exact H |].
  exact (yackuser_storage yack_h 1 2 2 600 0 u H).
Defined.

(** ** The sidetone pitch *)

(** X2. [yackpitch] keeps the pitch value within [MAXCTC, MINCTC]
    whatever it was before and whatever [dir] is, and sets the dirty flag.
    From a value within the bounds, UP lowers it by one and DOWN raises it
    by one, and the value stays where it is at the bound. *)
Theorem yackpitch_clamped :
  forall (h : header) (MAXCTC MINCTC : Z) (dir : Z) (s : yack),
    0 < MAXCTC -> MAXCTC <= MINCTC -> MINCTC < 65535 ->
    UP h <> DOWN h -> 0 < DIRTYFLAG h < 256 ->
    let s' := yackpitch h MAXCTC MINCTC dir s in
    MAXCTC <= ctcvalue s' <= MINCTC
    /\ has (volflags s') (DIRTYFLAG h) = true
    /\ (MAXCTC <= ctcvalue s <= MINCTC ->
        ctcvalue s'
        = if dir =? UP h then Z.max MAXCTC (ctcvalue s - 1)
          else if dir =? DOWN h then Z.min MINCTC (ctcvalue s + 1)
          else ctcvalue s).
Proof.
  intros h MAXCTC MINCTC dir s Hmax Hle Hmin Hud Hdirty s'. subst s'.
  unfold yackpitch. cbv zeta.
  split; [| split].
  - cbn [ctcvalue set_volflags].
    match goal with
    | |- context [if ctcvalue ?t <? MAXCTC then _ else _] => set (t1 := t)
    end.
    destruct (Z.ltb_spec (ctcvalue t1) MAXCTC);
      cbn [ctcvalue set_ctcvalue];
      match goal with
      | |- context [if ?a >? ?b then _ else _] =>
          destruct (Z.gtb_spec a b)
      end; cbn [ctcvalue set_ctcvalue]; lia.
  - cbn [volflags set_volflags]. apply has_set_bits. exact Hdirty.
  - intros Hin. cbn [ctcvalue set_volflags].
    destruct (Z.eqb_spec dir (UP h)) as [Eu | Nu].
    + assert (Hd : (dir =? DOWN h) = false)
        by (apply Z.eqb_neq; rewrite Eu; exact Hud).
      rewrite Hd. cbn [ctcvalue set_ctcvalue].
      rewrite u16_small by lia.
      destruct (Z.ltb_spec (ctcvalue s - 1) MAXCTC);
        cbn [ctcvalue set_ctcvalue];
        match goal with
        | |- context [if ?a >? ?b then _ else _] =>
            destruct (Z.gtb_spec a b)
        end; cbn [ctcvalue set_ctcvalue]; lia.
    + destruct (Z.eqb_spec dir (DOWN h)) as [Ed | Nd].
      * cbn [ctcvalue set_ctcvalue]. rewrite u16_small by lia.
        destruct (Z.ltb_spec (ctcvalue s + 1) MAXCTC);
          cbn [ctcvalue set_ctcvalue];
          match goal with
          | |- context [if ?a >? ?b then _ else _] =>
              destruct (Z.gtb_spec a b)
          end; cbn [ctcvalue set_ctcvalue]; lia.
      * destruct (Z.ltb_spec (ctcvalue s) MAXCTC);
          cbn [ctcvalue set_ctcvalue];
          match goal with
          | |- context [if ?a >? ?b then _ else _] =>
              destruct (Z.gtb_spec a b)
          end; cbn [ctcvalue set_ctcvalue]; lia.
Qed.

Lemma yackpitch_clamped_witness :
  let s' := yackpitch yack_h 20 200 (UP yack_h) started in
  (0 < 20 /\ 20 <= 200 /\ 200 < 65535 /\ UP yack_h <> DOWN yack_h
   /\ 0 < DIRTYFLAG yack_h < 256)
  /\ (20 <= ctcvalue s' <= 200
      /\ has (volflags s') (DIRTYFLAG yack_h) = true
      /\ (20 <= ctcvalue started <= 200 ->
          ctcvalue s'
          = if UP yack_h =? UP yack_h then Z.max 20 (ctcvalue started - 1)
            else if UP yack_h =? DOWN yack_h
                 then Z.min 200 (ctcvalue started + 1)
                 else ctcvalue started)).
Proof.
  intros s'.
  assert (H1 : 0 < 20) by lia.
  assert (H2 : 20 <= 200) by lia.
  assert (H3 : 200 < 65535) by lia.
  assert (H4 : UP yack_h <> DOWN yack_h) by (simpl; lia).
  assert (H5 : 0 < DIRTYFLAG yack_h < 256) by (simpl; lia).
  split; [repeat split; assumption || (simpl; lia) |].
  exact (yackpitch_clamped yack_h 20 200 (UP yack_h) started H1 H2 H3 H4 H5).
Defined.

(** ** The feature flags *)

(** X3. [yackmode] with a mode within the mask [MODE] makes the mode bits
    of [yackflags] equal to that mode, so that the keyer pre-arms the
    opposite element on a squeeze exactly when the mode is [IAMBICB]; the
    other flags are left as they were, and the dirty flag is set, so that
    the next [yacksave] stores the new flags. *)
Theorem yackmode_selects :
  forall (h : header) (mode : Z) (s : yack),
    0 <= mode < 256 -> Z.land mode (MODE h) = mode ->
    0 < DIRTYFLAG h < 256 ->
    let s' := yackmode h mode s in
    yackflag (MODE h) s' = mode
    /\ prearmed h s'
       = (if mode =? IAMBICB h then SYMBOL_OPPOSITE else SYMBOL_NONE)
    /\ clear_bits (yackflags s') (MODE h) = clear_bits (yackflags s) (MODE h)
    /\ flagstor (ee (yacksave h s')) = yackflags s'.
Proof.
  intros h mode s Hmode Hmask Hdirty s'. subst s'.
  assert (Hflag : Z.land (yackflags (yackmode h mode s)) (MODE h) = mode).
  { unfold yackmode. cbn [yackflags set_yackflags set_volflags].
    apply Z.bits_inj'. intros n Hn.
    rewrite Z.land_spec, set_bits_testbit, clear_bits_testbit by exact Hn.
    assert (Hm : Z.testbit mode n
                 = Z.testbit mode n && Z.testbit (MODE h) n)
      by (rewrite <- Z.land_spec, Hmask; reflexivity).
    rewrite (byte_testbit mode n Hmode) in Hm |- *.
    destruct (n <? 8), (Z.testbit (yackflags s) n), (Z.testbit mode n),
      (Z.testbit (MODE h) n); simpl in *; congruence. }
  split; [exact Hflag |].
  split; [unfold prearmed; rewrite Hflag; reflexivity |].
  split.
  - unfold yackmode. cbn [yackflags set_yackflags set_volflags].
    apply Z.bits_inj'. intros n Hn.
    rewrite !clear_bits_testbit, set_bits_testbit, clear_bits_testbit
      by exact Hn.
    assert (Hm : Z.testbit mode n
                 = Z.testbit mode n && Z.testbit (MODE h) n)
      by (rewrite <- Z.land_spec, Hmask; reflexivity).
    destruct (n <? 8), (Z.testbit (yackflags s) n), (Z.testbit mode n),
      (Z.testbit (MODE h) n); simpl in *; congruence.
  - unfold yacksave.
    assert (Hd : has (volflags (yackmode h mode s)) (DIRTYFLAG h) = true).
    { unfold yackmode. cbn [volflags set_volflags].
      apply has_set_bits. exact Hdirty. }
    rewrite Hd. reflexivity.
Qed.

Lemma yackmode_selects_witness :
  let s' := yackmode yack_h 0 started in
  (0 <= 0 < 256 /\ Z.land 0 (MODE yack_h) = 0
   /\ 0 < DIRTYFLAG yack_h < 256)
  /\ (yackflag (MODE yack_h) s' = 0
      /\ prearmed yack_h s'
         = (if 0 =? IAMBICB yack_h then SYMBOL_OPPOSITE else SYMBOL_NONE)
      /\ clear_bits (yackflags s') (MODE yack_h)
         = clear_bits (yackflags started) (MODE yack_h)
      /\ flagstor (ee (yacksave yack_h s')) = yackflags s').
Proof.
  intros s'.
  assert (H1 : 0 <= 0 < 256) by lia.
  assert (H2 : Z.land 0 (MODE yack_h) = 0) by reflexivity.
  assert (H3 : 0 < DIRTYFLAG yack_h < 256) by (simpl; lia).
  split; [repeat split; assumption || (simpl; lia) |].
  exact (yackmode_selects yack_h 0 started H1 H2 H3).
Defined.

(** X4. [yacktoggle] flips the flags it is given and no other: a query of
    these flags with [yackflag] then returns the ones that were clear
    before, the flags outside are as before, and a second [yacktoggle] of
    the same flags restores [yackflags].  The call sets the dirty flag in
    [volflags] and leaves the other bits of [volflags] alone, so that the
    next [yacksave] stores the new flags; nothing else changes. *)
Theorem yacktoggle_flips :
  forall (h : header) (flag : Z) (s : yack),
    0 <= flag < 256 -> 0 <= yackflags s < 256 ->
    0 < DIRTYFLAG h < 256 ->
    let s' := yacktoggle h flag s in
    yackflag flag s' = Z.land flag (Z.lnot (yackflags s))
    /\ clear_bits (yackflags s') flag = clear_bits (yackflags s) flag
    /\ yackflags (yacktoggle h flag s') = yackflags s
    /\ has (volflags s') (DIRTYFLAG h) = true
    /\ volflags s' = set_bits (volflags s) (DIRTYFLAG h)
    /\ flagstor (ee (yacksave h s')) = yackflags s'
    /\ s' = set_volflags (volflags s') (set_yackflags (yackflags s') s).
Proof.
  intros h flag s Hflag Hflags Hdirty s'. subst s'.
  assert (Hset : has (volflags (yacktoggle h flag s)) (DIRTYFLAG h) = true).
  { unfold yacktoggle. cbn [volflags set_volflags set_yackflags].
    apply has_set_bits. exact Hdirty. }
  split; [| split; [| split; [| split; [exact Hset | split; [| split]]]]].
  4: { reflexivity. }
  4: { unfold yacksave. rewrite Hset. reflexivity. }
  4: { reflexivity. }
  all: unfold yacktoggle, yackflag;
    cbn [yackflags set_yackflags set_volflags].
  - apply Z.bits_inj'. intros n Hn.
    rewrite !Z.land_spec, u8_testbit, Z.lxor_spec, Z.lnot_spec by exact Hn.
    rewrite (byte_testbit flag n Hflag).
    destruct (n <? 8), (Z.testbit (yackflags s) n), (Z.testbit flag n);
      reflexivity.
  - apply Z.bits_inj'. intros n Hn.
    rewrite !clear_bits_testbit, u8_testbit, Z.lxor_spec by exact Hn.
    destruct (n <? 8), (Z.testbit (yackflags s) n), (Z.testbit flag n);
      reflexivity.
  - apply Z.bits_inj'. intros n Hn.
    rewrite !u8_testbit, !Z.lxor_spec, u8_testbit, Z.lxor_spec.
    rewrite (byte_testbit (yackflags s) n Hflags).
    destruct (n <? 8), (Z.testbit (yackflags s) n), (Z.testbit flag n);
      reflexivity.
Qed.

Lemma yacktoggle_flips_witness :
  let s' := yacktoggle yack_h (SIDETONE yack_h) started in
  (0 <= SIDETONE yack_h < 256 /\ 0 <= yackflags started < 256
   /\ 0 < DIRTYFLAG yack_h < 256)
  /\ (yackflag (SIDETONE yack_h) s'
      = Z.land (SIDETONE yack_h) (Z.lnot (yackflags started))
      /\ clear_bits (yackflags s') (SIDETONE yack_h)
         = clear_bits (yackflags started) (SIDETONE yack_h)
      /\ yackflags (yacktoggle yack_h (SIDETONE yack_h) s')
         = yackflags started
      /\ has (volflags s') (DIRTYFLAG yack_h) = true
      /\ volflags s' = set_bits (volflags started) (DIRTYFLAG yack_h)
      /\ flagstor (ee (yacksave yack_h s')) = yackflags s'
      /\ s' = set_volflags (volflags s')
                (set_yackflags (yackflags s') started)).
Proof.
  intros s'.
  assert (H1 : 0 <= SIDETONE yack_h < 256) by (simpl; lia).
  assert (H2 : 0 <= yackflags started < 256) by (vm_compute; split; [discriminate | reflexivity]).
  assert (H3 : 0 < DIRTYFLAG yack_h < 256) by (simpl; lia).
  split; [split; [exact H1 | split; [exact H2 | exact H3]] |].
  exact (yacktoggle_flips yack_h (SIDETONE yack_h) started H1 H2 H3).
Defined.

(** ** Settings in EEPROM *)

(** X5. [yacksave] writes the settings only when the dirty flag is set:
    then the magic pattern and the pitch, speed, flags and Farnsworth pause
    of the moment are in EEPROM afterwards; otherwise nothing at all
    changes.  In both cases the dirty flag is clear afterwards, the two
    message memories are untouched, and a second [yacksave] changes
    nothing. *)
Theorem yacksave_only_when_dirty :
  forall (h : header) (s : yack),
    let s' := yacksave h s in
    (if has (volflags s) (DIRTYFLAG h)
     then magic (ee s') = MAGPAT h
          /\ ctcstor (ee s') = ctcvalue s
          /\ wpmstor (ee s') = wpm s
          /\ flagstor (ee s') = yackflags s
          /\ fwstor (ee s') = farnsworth s
     else s' = s)
    /\ has (volflags s') (DIRTYFLAG h) = false
    /\ slots s' = slots s
    /\ yacksave h s' = s'.
Proof.
  intros h s s'. subst s'.
  assert (Hclean : has (volflags (yacksave h s)) (DIRTYFLAG h) = false).
  { unfold yacksave. destruct (has (volflags s) (DIRTYFLAG h)) eqn:Hd.
    - cbn [volflags set_volflags set_ee]. apply has_clear_bits.
    - exact Hd. }
  split; [| split; [exact Hclean | split]].
  - unfold yacksave. destruct (has (volflags s) (DIRTYFLAG h)).
    + repeat split; reflexivity.
    + reflexivity.
  - unfold yacksave. destruct (has (volflags s) (DIRTYFLAG h)); reflexivity.
  - unfold yacksave at 1. rewrite Hclean. reflexivity.
Qed.

(** X6. The settings survive a restart: after a [yacksave] with the dirty
    flag set, [yackinit] on the variables as they are at power-on finds the
    pitch, the speed, the Farnsworth pause and the flags that were saved,
    computes the beats per dot from the saved speed, and finds the message
    memories as they were.  The saved speed must not be zero. *)
Theorem settings_survive_restart :
  forall (h : header) (s : yack),
    has (volflags s) (DIRTYFLAG h) = true ->
    wpm s <> 0 ->
    exists s',
      yackinit h (power_on (ee (yacksave h s))) = Some s'
      /\ ctcvalue s' = ctcvalue s
      /\ wpm s' = wpm s
      /\ farnsworth s' = farnsworth s
      /\ yackflags s' = yackflags s
      /\ wpmcnt s' = u16 (Z.quot (Z.quot 1200 (YACKBEAT h)) (wpm s))
      /\ slots s' = slots s.
Proof.
  intros h s Hd Hw.
  unfold yacksave. rewrite Hd. unfold yackinit, cdiv.
  cbn [magic ee power_on set_ee set_volflags set_ctcvalue set_wpm wpm
       wpmstor ctcstor fwstor flagstor].
  rewrite Z.eqb_refl.
  apply Z.eqb_neq in Hw. rewrite Hw. simpl bind.
  eexists. split; [reflexivity |].
  unfold yackinhibit. destruct (negb (OFF h =? 0));
    rewrite ?key_log; repeat split; reflexivity.
Qed.

Lemma settings_survive_restart_witness :
  let s := yacktoggle yack_h (SIDETONE yack_h) started in
  (has (volflags s) (DIRTYFLAG yack_h) = true /\ wpm s <> 0)
  /\ exists s',
       yackinit yack_h (power_on (ee (yacksave yack_h s))) = Some s'
       /\ ctcvalue s' = ctcvalue s
       /\ wpm s' = wpm s
       /\ farnsworth s' = farnsworth s
       /\ yackflags s' = yackflags s
       /\ wpmcnt s' = u16 (Z.quot (Z.quot 1200 (YACKBEAT yack_h)) (wpm s))
       /\ slots s' = slots s.
Proof.
  intros s.
  assert (H1 : has (volflags s) (DIRTYFLAG yack_h) = true)
    by (vm_compute; reflexivity).
  assert (H2 : wpm s <> 0) by (vm_compute; discriminate).
  split; [split; assumption |].
  exact (settings_survive_restart yack_h s H1 H2).
Defined.

(** X7. The first start: when the EEPROM does not hold the magic pattern,
    [yackinit] sets the pitch, the speed, the beats per dot and the flags
    to the defaults of yack.h and the Farnsworth pause to zero, and stores
    them with the magic pattern, so that the EEPROM is valid from then on;
    the message memories are not touched. *)
Theorem yackinit_blank_eeprom :
  forall (h : header) (s : yack),
    magic (ee s) <> MAGPAT h ->
    0 < DIRTYFLAG h < 256 ->
    exists s',
      yackinit h s = Some s'
      /\ (ctcvalue s' = DEFCTC h /\ wpm s' = DEFWPM h /\ farnsworth s' = 0
          /\ yackflags s' = FLAGDEFAULT h
          /\ wpmcnt s' = u16 (Z.quot (Z.quot 1200 (YACKBEAT h)) (DEFWPM h)))
      /\ (magic (ee s') = MAGPAT h /\ ctcstor (ee s') = DEFCTC h
          /\ wpmstor (ee s') = DEFWPM h /\ fwstor (ee s') = 0
          /\ flagstor (ee s') = FLAGDEFAULT h)
      /\ slots s' = slots s.
Proof.
  intros h s Hm Hdirty.
  unfold yackinit. apply Z.eqb_neq in Hm. rewrite Hm. simpl bind.
  eexists. split; [reflexivity |].
  unfold yackreset, yacksave. cbv zeta.
  cbn [volflags set_volflags set_yackflags set_farnsworth set_wpmcnt
       set_wpm set_ctcvalue].
  rewrite has_set_bits by exact Hdirty.
  unfold yackinhibit. destruct (negb (OFF h =? 0));
    rewrite ?key_log; repeat split; reflexivity.
Qed.

Lemma yackinit_blank_eeprom_witness :
  let s := power_on {| magic := 255; flagstor := 255; ctcstor := 65535;
                       wpmstor := 255; fwstor := 255;
                       eebuffer1 := repeat 255 100;
                       eebuffer2 := repeat 255 100 |} in
  (magic (ee s) <> MAGPAT yack_h /\ 0 < DIRTYFLAG yack_h < 256)
  /\ exists s',
       yackinit yack_h s = Some s'
       /\ (ctcvalue s' = DEFCTC yack_h /\ wpm s' = DEFWPM yack_h
           /\ farnsworth s' = 0
           /\ yackflags s' = FLAGDEFAULT yack_h
           /\ wpmcnt s'
              = u16 (Z.quot (Z.quot 1200 (YACKBEAT yack_h)) (DEFWPM yack_h)))
       /\ (magic (ee s') = MAGPAT yack_h /\ ctcstor (ee s') = DEFCTC yack_h
           /\ wpmstor (ee s') = DEFWPM yack_h /\ fwstor (ee s') = 0
           /\ flagstor (ee s') = FLAGDEFAULT yack_h)
       /\ slots s' = slots s.
Proof.
  intros s.
  assert (H1 : magic (ee s) <> MAGPAT yack_h) by (simpl; lia).
  assert (H2 : 0 < DIRTYFLAG yack_h < 256) by (simpl; lia).
  split; [split; assumption |].
  exact (yackinit_blank_eeprom yack_h s H1 H2).
Defined.

(** X8. [yackinit] divides by the speed read from EEPROM without a check:
    it has no defined result exactly when the EEPROM holds the magic
    pattern together with a stored speed of zero, and returns in every
    other case. *)
Theorem yackinit_undefined_iff :
  forall (h : header) (s : yack),
    yackinit h s = None
    <-> (magic (ee s) = MAGPAT h /\ wpmstor (ee s) = 0).
Proof.
  intros h s. unfold yackinit, cdiv.
  cbn [wpm ee set_wpm set_ctcvalue].
  destruct (Z.eqb_spec (magic (ee s)) (MAGPAT h)) as [Em | Nm].
  - destruct (Z.eqb_spec (wpmstor (ee s)) 0) as [Ew | Nw]; simpl bind.
    + split; [intros _; split; assumption | reflexivity].
    + split; [discriminate | intros [_ E]; contradiction].
  - simpl bind. split; [discriminate | intros [E _]; contradiction].
Qed.

(** ** Keying line and sidetone *)

(** The bits [TXKEY] and [SIDETONE] of [volflags] after [yackinhibit]. *)
Lemma yackinhibit_on_flags (h : header) (s : yack) :
  ON h <> 0 ->
  Z.land (TXKEY h) (SIDETONE h) = 0 ->
  0 < SIDETONE h < 256 ->
  has (volflags (yackinhibit h (ON h) s)) (TXKEY h) = false
  /\ has (volflags (yackinhibit h (ON h) s)) (SIDETONE h) = true
  /\ ctcvalue (yackinhibit h (ON h) s) = ctcvalue s
  /\ hw (yackinhibit h (ON h) s) = hw s.
Proof.
  intros Hon Hdis Hst. unfold yackinhibit.
  apply Z.eqb_neq in Hon. rewrite Hon. simpl negb. cbv iota zeta.
  cbn [volflags set_volflags ctcvalue hw].
  split; [| split; [apply has_set_bits; exact Hst | split; reflexivity]].
  unfold has. apply negb_false_iff. apply Z.eqb_eq.
  apply Z.bits_inj'. intros n Hn.
  rewrite Z.land_spec, set_bits_testbit, clear_bits_testbit, Z.lor_spec,
    Z.bits_0 by exact Hn.
  assert (Hb : Z.testbit (TXKEY h) n && Z.testbit (SIDETONE h) n = false)
    by (rewrite <- Z.land_spec, Hdis; apply Z.bits_0).
  destruct (n <? 8), (Z.testbit (volflags s) n), (Z.testbit (TXKEY h) n),
    (Z.testbit (SIDETONE h) n); simpl in *; congruence.
Qed.

Lemma has_land_byte (f m : Z) (v : Z) :
  0 <= m < 256 ->
  (forall n, 0 <= n ->
             Z.testbit v n && Z.testbit m n
             = (n <? 8) && (Z.testbit f n && Z.testbit m n)) ->
  has v m = has f m.
Proof.
  intros Hm Hbits. unfold has. f_equal.
  assert (E : Z.land v m = Z.land f m).
  { apply Z.bits_inj'. intros n Hn.
    rewrite !Z.land_spec, Hbits by exact Hn.
    rewrite (byte_testbit m n Hm).
    destruct (n <? 8), (Z.testbit f n), (Z.testbit m n); reflexivity. }
  rewrite E. reflexivity.
Qed.

Lemma yackinhibit_off_flags (h : header) (s : yack) :
  OFF h = 0 ->
  0 <= TXKEY h < 256 -> 0 <= SIDETONE h < 256 ->
  has (volflags (yackinhibit h (OFF h) s)) (TXKEY h)
  = has (yackflags s) (TXKEY h)
  /\ has (volflags (yackinhibit h (OFF h) s)) (SIDETONE h)
     = has (yackflags s) (SIDETONE h)
  /\ yackflags (yackinhibit h (OFF h) s) = yackflags s
  /\ hw (yackinhibit h (OFF h) s) = hw s ++ key_events h (UP h).
Proof.
  intros Hoff Htx Hst. unfold yackinhibit.
  rewrite Hoff. simpl negb. cbv iota zeta.
  rewrite key_log. cbn [volflags yackflags set_volflags set_hw hw].
  split; [| split; [| split; reflexivity]].
  - apply has_land_byte; [exact Htx |]. intros n Hn.
    rewrite set_bits_testbit, clear_bits_testbit, Z.land_spec, !Z.lor_spec
      by exact Hn.
    destruct (n <? 8), (Z.testbit (volflags s) n),
      (Z.testbit (yackflags s) n), (Z.testbit (TXKEY h) n),
      (Z.testbit (SIDETONE h) n); reflexivity.
  - apply has_land_byte; [exact Hst |]. intros n Hn.
    rewrite set_bits_testbit, clear_bits_testbit, Z.land_spec, !Z.lor_spec
      by exact Hn.
    destruct (n <? 8), (Z.testbit (volflags s) n),
      (Z.testbit (yackflags s) n), (Z.testbit (TXKEY h) n),
      (Z.testbit (SIDETONE h) n); reflexivity.
Qed.

(** X9. While keying is inhibited the transmitter is never keyed: after
    [yackinhibit(ON)] no call of [key], with whatever argument, changes the
    keying line, and [key(DOWN)] starts the sidetone at the pitch of the
    moment whether or not the sidetone is enabled in [yackflags]. *)
Theorem inhibit_blocks_keying :
  forall (h : header) (TXINV COM0B0 WGM01 CS01 : Z)
         (mode : Z) (s : yack) (p : port),
    ON h <> 0 ->
    Z.land (TXKEY h) (SIDETONE h) = 0 ->
    0 < SIDETONE h < 256 ->
    let s' := yackinhibit h (ON h) s in
    outpin (key_port h TXINV COM0B0 WGM01 CS01 mode s' p) = outpin p
    /\ ocr0a (key_port h TXINV COM0B0 WGM01 CS01 (DOWN h) s' p)
       = u8 (ctcvalue s)
    /\ (UP h <> DOWN h ->
        tccr0b (key_port h TXINV COM0B0 WGM01 CS01 (DOWN h) s' p)
        = u8 (Z.shiftl 1 CS01)).
Proof.
  intros h TXINV COM0B0 WGM01 CS01 mode s p Hon Hdis Hst s'. subst s'.
  destruct (yackinhibit_on_flags h s Hon Hdis Hst) as [Htx [Hside [Hctc _]]].
  unfold key_port. rewrite Htx, Hside, Hctc, Z.eqb_refl.
  split; [| split].
  - destruct (mode =? DOWN h), (mode =? UP h); reflexivity.
  - destruct (DOWN h =? UP h); reflexivity.
  - intros Hud.
    assert (E : (DOWN h =? UP h) = false)
      by (apply Z.eqb_neq; intros E; apply Hud; symmetry; exact E).
    rewrite E. reflexivity.
Qed.

Lemma inhibit_blocks_keying_witness :
  let p := {| outpin := false; ocr0a := 0; ocr0b := 0;
              tccr0a := 0; tccr0b := 0 |} in
  let s' := yackinhibit yack_h (ON yack_h) started in
  (ON yack_h <> 0 /\ Z.land (TXKEY yack_h) (SIDETONE yack_h) = 0
   /\ 0 < SIDETONE yack_h < 256)
  /\ (outpin (key_port yack_h 64 4 1 1 (DOWN yack_h) s' p) = outpin p
      /\ ocr0a (key_port yack_h 64 4 1 1 (DOWN yack_h) s' p)
         = u8 (ctcvalue started)
      /\ (UP yack_h <> DOWN yack_h ->
          tccr0b (key_port yack_h 64 4 1 1 (DOWN yack_h) s' p)
          = u8 (Z.shiftl 1 1))).
Proof.
  intros p s'.
  assert (H1 : ON yack_h <> 0) by (simpl; lia).
  assert (H2 : Z.land (TXKEY yack_h) (SIDETONE yack_h) = 0) by reflexivity.
  assert (H3 : 0 < SIDETONE yack_h < 256) by (simpl; lia).
  split; [repeat split; assumption || (simpl; lia) |].
  exact (inhibit_blocks_keying yack_h 64 4 1 1 (DOWN yack_h) started p
           H1 H2 H3).
Defined.

(** X10. After [yackinhibit(OFF)] the keying line follows the flags in
    [yackflags]: with [TXKEY] set, [key(DOWN)] drives the line high and
    [key(UP)] drives it low, and the other way round when [TXINV] is set;
    with [TXKEY] clear no call of [key] changes the line.  [yackinhibit(OFF)]
    itself calls [key(UP)]. *)
Theorem keying_line_follows_flags :
  forall (h : header) (TXINV COM0B0 WGM01 CS01 : Z) (s : yack) (p : port),
    OFF h = 0 -> UP h <> DOWN h ->
    0 <= TXKEY h < 256 -> 0 <= SIDETONE h < 256 ->
    let s' := yackinhibit h (OFF h) s in
    let key_port := key_port h TXINV COM0B0 WGM01 CS01 in
    hw s' = hw s ++ [EvKeyUp]
    /\ (if has (yackflags s) (TXKEY h)
        then outpin (key_port (DOWN h) s' p) = negb (has (yackflags s) TXINV)
             /\ outpin (key_port (UP h) s' p) = has (yackflags s) TXINV
        else forall mode, outpin (key_port mode s' p) = outpin p).
Proof.
  intros h TXINV COM0B0 WGM01 CS01 s p Hoff Hud Htx Hst s' kp.
  subst s' kp.
  destruct (yackinhibit_off_flags h s Hoff Htx Hst) as [Et [Es [Ef Ehw]]].
  assert (Edu : (DOWN h =? UP h) = false)
    by (apply Z.eqb_neq; intros E; apply Hud; symmetry; exact E).
  assert (Eud : (UP h =? DOWN h) = false) by (apply Z.eqb_neq; exact Hud).
  split.
  - rewrite Ehw. unfold key_events. rewrite Eud, Z.eqb_refl. reflexivity.
  - unfold key_port. rewrite Et, Ef.
    destruct (has (yackflags s) (TXKEY h)).
    + rewrite !Z.eqb_refl, Edu, Eud.
      destruct (has (yackflags s) TXINV),
        (has (volflags (yackinhibit h (OFF h) s)) (SIDETONE h));
        split; reflexivity.
    + intros mode.
      destruct (mode =? DOWN h), (mode =? UP h),
        (has (volflags (yackinhibit h (OFF h) s)) (SIDETONE h));
        reflexivity.
Qed.

Lemma keying_line_follows_flags_witness :
  let p := {| outpin := false; ocr0a := 0; ocr0b := 0;
              tccr0a := 0; tccr0b := 0 |} in
  let s' := yackinhibit yack_h (OFF yack_h) started in
  let key_port := key_port yack_h 64 4 1 1 in
  (OFF yack_h = 0 /\ UP yack_h <> DOWN yack_h
   /\ 0 <= TXKEY yack_h < 256 /\ 0 <= SIDETONE yack_h < 256)
  /\ (hw s' = hw started ++ [EvKeyUp]
      /\ (if has (yackflags started) (TXKEY yack_h)
          then outpin (key_port (DOWN yack_h) s' p)
               = negb (has (yackflags started) 64)
               /\ outpin (key_port (UP yack_h) s' p)
                  = has (yackflags started) 64
          else forall mode, outpin (key_port mode s' p) = outpin p)).
Proof.
  intros p s' kp.
  assert (H1 : OFF yack_h = 0) by reflexivity.
  assert (H2 : UP yack_h <> DOWN yack_h) by (simpl; lia).
  assert (H3 : 0 <= TXKEY yack_h < 256) by (simpl; lia).
  assert (H4 : 0 <= SIDETONE yack_h < 256) by (simpl; lia).
  split; [repeat split; assumption || (simpl; lia) |].
  exact (keying_line_follows_flags yack_h 64 4 1 1 started p H1 H2 H3 H4).
Defined.

(** ** Playing elements *)

(** The key-down periods of a log that ends with the key up. *)
Lemma keyed_elements_from_beats (k : nat) (d : option nat) (rest : list event) :
  keyed_elements_from d (repeat EvBeat k ++ rest)
  = keyed_elements_from (option_map (fun n => (k + n)%nat) d) rest.
Proof.
  revert d. induction k as [| k IH]; intros d.
  - destruct d; reflexivity.
  - simpl repeat. simpl app. simpl keyed_elements_from. rewrite IH.
    destruct d; simpl; f_equal; f_equal; lia.
Qed.

(** X11. [yackplay] keys one element: the key goes down, stays down for
    the length of the element in dots (modulo 256) times the beats per dot
    (modulo 256, the counters of [yackdelay] being bytes), and goes up; the
    length is [DAHLEN] for [DAH], [DITLEN] for [DIT] and nothing for any
    other argument.  No variable of the module changes. *)
Theorem yackplay_element :
  forall (h : header) (i : Z) (s : yack),
    UP h <> DOWN h ->
    let len := if i =? DAH h then DAHLEN h mod 256
               else if i =? DIT h then DITLEN h mod 256
               else 0 in
    let beats := (Z.to_nat len * Z.to_nat (wpmcnt s mod 256))%nat in
    yackplay h i s
    = set_hw (hw s ++ [EvKeyDown] ++ repeat EvBeat beats ++ [EvKeyUp]) s
    /\ keyed_elements ([EvKeyDown] ++ repeat EvBeat beats ++ [EvKeyUp])
       = [beats].
Proof.
  intros h i s Hud len beats. subst len beats.
  assert (Edu : (DOWN h =? UP h) = false)
    by (apply Z.eqb_neq; intros E; apply Hud; symmetry; exact E).
  assert (Eud : (UP h =? DOWN h) = false) by (apply Z.eqb_neq; exact Hud).
  split.
  - rewrite yackplay_log. unfold play_events, key_events, delay_events, u8.
    rewrite !Z.eqb_refl, Edu, Eud.
    destruct (i =? DAH h); [| destruct (i =? DIT h)]; reflexivity.
  - unfold keyed_elements. simpl app. simpl keyed_elements_from.
    rewrite keyed_elements_from_beats. simpl. rewrite Nat.add_0_r.
    reflexivity.
Qed.

Lemma yackplay_element_witness :
  let beats := (Z.to_nat (DAHLEN yack_h mod 256)
                * Z.to_nat (wpmcnt started mod 256))%nat in
  UP yack_h <> DOWN yack_h
  /\ yackplay yack_h (DAH yack_h) started
     = set_hw (hw started ++ [EvKeyDown] ++ repeat EvBeat beats ++ [EvKeyUp])
         started
  /\ keyed_elements ([EvKeyDown] ++ repeat EvBeat beats ++ [EvKeyUp])
     = [beats].
Proof.
  intros beats.
  assert (H : UP yack_h <> DOWN yack_h) by (simpl; lia).
  split; [exact H |].
  exact (yackplay_element yack_h (DAH yack_h) started H).
Defined.

(** One element with the pause behind it, in a log. *)
Lemma keyed_elements_block (k g : nat) (rest : list event) :
  keyed_elements_from None
    (([EvKeyDown] ++ repeat EvBeat k ++ [EvKeyUp] ++ repeat EvBeat g) ++ rest)
  = k :: keyed_elements_from None rest.
Proof.
  rewrite <- !app_assoc. simpl app. simpl keyed_elements_from.
  rewrite keyed_elements_from_beats. simpl option_map.
  simpl keyed_elements_from. rewrite keyed_elements_from_beats.
  rewrite Nat.add_0_r. reflexivity.
Qed.

Lemma keyed_elements_blocks (k g n : nat) (rest : list event) :
  keyed_elements_from None
    (List.concat
       (repeat ([EvKeyDown] ++ repeat EvBeat k ++ [EvKeyUp] ++ repeat EvBeat g)
          n) ++ rest)
  = repeat k n ++ keyed_elements_from None rest.
Proof.
  induction n as [| n IH].
  - reflexivity.
  - change (repeat ?b (S n)) with (b :: repeat b n).
    rewrite concat_cons.
    rewrite <- (app_assoc _ (List.concat _) rest).
    rewrite keyed_elements_block, IH. reflexivity.
Qed.

(** X12. [yackerror] sounds the error prosign: eight dits, each followed
    by a pause of one dit, and a closing pause of one dah; nothing else is
    keyed and no variable of the module changes. *)
Theorem yackerror_eight_dits :
  forall (h : header) (s : yack),
    UP h <> DOWN h -> DIT h <> DAH h ->
    let dit := (Z.to_nat (DITLEN h mod 256)
                * Z.to_nat (wpmcnt s mod 256))%nat in
    let dah := (Z.to_nat (DAHLEN h mod 256)
                * Z.to_nat (wpmcnt s mod 256))%nat in
    let evs := List.concat
                 (repeat ([EvKeyDown] ++ repeat EvBeat dit ++ [EvKeyUp]
                          ++ repeat EvBeat dit) 8)
               ++ repeat EvBeat dah in
    yackerror h s = set_hw (hw s ++ evs) s
    /\ keyed_elements evs = repeat dit 8.
Proof.
  intros h s Hud Hdd dit dah evs.
  assert (Edu : (DOWN h =? UP h) = false)
    by (apply Z.eqb_neq; intros E; apply Hud; symmetry; exact E).
  assert (Eud : (UP h =? DOWN h) = false) by (apply Z.eqb_neq; exact Hud).
  assert (Edd : (DIT h =? DAH h) = false) by (apply Z.eqb_neq; exact Hdd).
  set (block := [EvKeyDown] ++ repeat EvBeat dit ++ [EvKeyUp]
                ++ repeat EvBeat dit) in *.
  assert (Hstep : forall t,
             wpmcnt t = wpmcnt s ->
             yackdelay (DITLEN h) (yackplay h (DIT h) t)
             = set_hw (hw t ++ block) t).
  { intros t Hw. rewrite yackdelay_log, yackplay_log.
    cbn [hw wpmcnt set_hw]. rewrite set_hw_twice, Hw.
    unfold play_events, key_events, delay_events, u8.
    rewrite !Z.eqb_refl, Edu, Eud, Edd. unfold block, dit.
    rewrite <- !app_assoc. reflexivity. }
  assert (Hiter : forall k,
             Nat.iter k (fun t => yackdelay (DITLEN h) (yackplay h (DIT h) t)) s
             = set_hw (hw s ++ List.concat (repeat block k)) s).
  { induction k as [| k IH].
    - simpl. rewrite app_nil_r, set_hw_hw. reflexivity.
    - simpl Nat.iter. rewrite IH, Hstep by reflexivity.
      cbn [hw set_hw]. rewrite set_hw_twice, <- app_assoc.
      f_equal. f_equal.
      change (repeat block (S k)) with (block :: repeat block k).
      rewrite repeat_cons, concat_app. simpl. rewrite app_nil_r.
      reflexivity. }
  split.
  - unfold yackerror. rewrite Hiter, yackdelay_log.
    cbn [hw wpmcnt set_hw]. rewrite set_hw_twice, <- app_assoc.
    reflexivity.
  - unfold keyed_elements, evs, block.
    rewrite keyed_elements_blocks.
    rewrite <- (app_nil_r (repeat EvBeat dah)), keyed_elements_from_beats.
    simpl. reflexivity.
Qed.

Lemma yackerror_eight_dits_witness :
  let dit := (Z.to_nat (DITLEN yack_h mod 256)
              * Z.to_nat (wpmcnt started mod 256))%nat in
  let dah := (Z.to_nat (DAHLEN yack_h mod 256)
              * Z.to_nat (wpmcnt started mod 256))%nat in
  let evs := List.concat
               (repeat ([EvKeyDown] ++ repeat EvBeat dit ++ [EvKeyUp]
                        ++ repeat EvBeat dit) 8)
             ++ repeat EvBeat dah in
  (UP yack_h <> DOWN yack_h /\ DIT yack_h <> DAH yack_h)
  /\ yackerror yack_h started = set_hw (hw started ++ evs) started
  /\ keyed_elements evs = repeat dit 8.
Proof.
  intros dit dah evs.
  assert (H1 : UP yack_h <> DOWN yack_h) by (simpl; lia).
  assert (H2 : DIT yack_h <> DAH yack_h) by (simpl; lia).
  split; [split; assumption |].
  exact (yackerror_eight_dits yack_h started H1 H2).
Defined.

(** ** Characters outside the code table *)

(** A byte with no entry in the table has the empty code. *)
Lemma yackchar_code_unknown (c : Z) :
  0 <= c < 256 -> in_codebook c = false -> yackchar_code c = 0x80.
Proof.
  intros Hc Hin.
  pose (f := fun c => in_codebook c || (yackchar_code c =? 0x80)).
  assert (Hf : f c = true).
  { apply (forallb_range f 0 256).
    - vm_compute. reflexivity.
    - lia. }
  unfold f in Hf. rewrite Hin in Hf. simpl in Hf.
  apply Z.eqb_eq. exact Hf.
Qed.

(** X13. A character with no entry in the code table: [yackchar] keys
    nothing and does not ask for the command key.  For a space it waits
    the rest of the gap between words, [IWGLEN - ICGLEN] dots; for any
    other such character it waits what follows a character, the rest of
    the gap between characters and the Farnsworth pause. *)
Theorem yackchar_unknown_keys_nothing :
  forall (h : header) (c : Z) (polls : list button) (s : yack),
    0 <= c < 256 -> in_codebook c = false ->
    let pause := if c =? chr " "
                 then delay_events (IWGLEN h - ICGLEN h) (wpmcnt s)
                 else delay_events (ICGLEN h - IEGLEN h) (wpmcnt s)
                      ++ farns_events (farnsworth s) (wpmcnt s) in
    yackchar h c polls s = Some (polls, set_hw (hw s ++ pause) s)
    /\ Forall (fun e => e = EvBeat) pause.
Proof.
  intros h c polls s Hc Hin pause. subst pause.
  assert (Hbeats : forall n cnt, Forall (fun e => e = EvBeat)
                                   (delay_events n cnt)).
  { intros n cnt. unfold delay_events. apply Forall_forall.
    intros e He. apply repeat_spec in He. exact He. }
  unfold yackchar. rewrite (yackchar_code_unknown c Hc Hin).
  destruct (c =? chr " ").
  - rewrite yackdelay_log. split; [reflexivity | apply Hbeats].
  - rewrite yackchar_loop_stop. simpl bind.
    rewrite yackfarns_log, yackdelay_log.
    cbn [hw wpmcnt farnsworth set_hw]. rewrite set_hw_twice, <- app_assoc.
    split; [reflexivity |].
    apply Forall_app. split; [apply Hbeats |].
    unfold farns_events. apply Forall_concat.
    apply Forall_forall. intros l Hl. apply repeat_spec in Hl. subst l.
    apply Hbeats.
Qed.

Lemma yackchar_unknown_keys_nothing_witness :
  let pause := if chr "[" =? chr " "
               then delay_events (IWGLEN yack_h - ICGLEN yack_h)
                      (wpmcnt started)
               else delay_events (ICGLEN yack_h - IEGLEN yack_h)
                      (wpmcnt started)
                    ++ farns_events (farnsworth started) (wpmcnt started) in
  (0 <= chr "[" < 256 /\ in_codebook (chr "[") = false)
  /\ yackchar yack_h (chr "[") [Pressed []] started
     = Some ([Pressed []], set_hw (hw started ++ pause) started)
  /\ Forall (fun e => e = EvBeat) pause.
Proof.
  intros pause.
  assert (H1 : 0 <= chr "[" < 256) by (vm_compute; split; [discriminate | reflexivity]).
  assert (H2 : in_codebook (chr "[") = false) by reflexivity.
  split; [split; assumption |].
  exact (yackchar_unknown_keys_nothing yack_h (chr "[") [Pressed []] started
           H1 H2).
Defined.

(** X14. [yackchar] does not tell a lower case letter from the upper case
    one: the call with the letter in upper case does exactly what the call
    with the letter as given does, for every argument. *)
Theorem yackchar_ignores_case :
  forall (h : header) (c : Z) (polls : list button) (s : yack),
    yackchar h (normalize c) polls s = yackchar h c polls s.
Proof.
  intros h c polls s. unfold normalize.
  destruct ((chr "a" <=? c) && (c <=? chr "z")) eqn:Hlow; [| reflexivity].
  apply andb_true_iff in Hlow. destruct Hlow as [Ha Hz].
  apply Z.leb_le in Ha. apply Z.leb_le in Hz.
  change (chr "a") with 97 in *. change (chr "z") with 122 in Hz.
  change (chr "A") with 65.
  pose (f := fun c => (yackchar_code (c - 97 + 65) =? yackchar_code c)
                      && negb (c - 97 + 65 =? chr " ")
                      && negb (c =? chr " ")).
  assert (Hf : f c = true).
  { apply (forallb_range f 97 26).
    - vm_compute. reflexivity.
    - lia. }
  unfold f in Hf.
  apply andb_true_iff in Hf. destruct Hf as [Hf H2].
  apply andb_true_iff in Hf. destruct Hf as [H0 H1].
  apply Z.eqb_eq in H0. apply negb_true_iff in H1. apply negb_true_iff in H2.
  unfold yackchar. rewrite H0, H1, H2. reflexivity.
Qed.

(** X15. [morsechar] is the inverse of the code table: for a byte that is
    an entry of the table it returns a character of the codebook whose
    code is that byte; for every other byte it returns 0. *)
Theorem morsechar_inverts_table :
  forall b, 0 <= b < 256 ->
            if existsb (Z.eqb b) morse
            then in_codebook (morsechar b) = true
                 /\ yackchar_code (morsechar b) = b
            else morsechar b = 0.
Proof.
  intros b Hb.
  pose (f := fun b => if existsb (Z.eqb b) morse
                      then in_codebook (morsechar b)
                           && (yackchar_code (morsechar b) =? b)
                      else morsechar b =? 0).
  assert (Hf : f b = true).
  { apply (forallb_range f 0 256).
    - vm_compute. reflexivity.
    - lia. }
  unfold f in Hf.
  destruct (existsb (Z.eqb b) morse).
  - apply andb_true_iff in Hf. destruct Hf as [H1 H2].
    apply Z.eqb_eq in H2. split; assumption.
  - apply Z.eqb_eq. exact Hf.
Qed.

Lemma morsechar_inverts_table_witness :
  0 <= 0x60 < 256
  /\ if existsb (Z.eqb 0x60) morse
     then in_codebook (morsechar 0x60) = true
          /\ yackchar_code (morsechar 0x60) = 0x60
     else morsechar 0x60 = 0.
Proof.
  assert (H : 0 <= 0x60 < 256) by lia.
  split; [exact H |].
  exact (morsechar_inverts_table 0x60 H).
Defined.

(** ** The command key *)

Lemma clear_set_bits (v m : Z) : clear_bits (set_bits v m) m = clear_bits v m.
Proof.
  apply Z.bits_inj'. intros n Hn.
  rewrite !clear_bits_testbit, set_bits_testbit by exact Hn.
  destruct (n <? 8), (Z.testbit v n), (Z.testbit m n); reflexivity.
Qed.

Lemma clear_clear_bits (v m : Z) :
  clear_bits (clear_bits v m) m = clear_bits v m.
Proof.
  apply Z.bits_inj'. intros n Hn.
  rewrite !clear_bits_testbit by exact Hn.
  destruct (n <? 8), (Z.testbit v n), (Z.testbit m n); reflexivity.
Qed.

(** The busy wait of [yackctrlkey] changes nothing in its copy of
    [volflags] but the request latch. *)
Lemma ctrl_wait_volbfr (h : header) (paddles : list (bool * bool)) :
  forall (volbfr : Z) (s : yack) (v' : Z) (s' : yack),
    ctrl_wait h paddles volbfr s = Some (v', s') ->
    clear_bits v' (CKLATCH h) = clear_bits volbfr (CKLATCH h).
Proof.
  induction paddles as [| [dit dah] rest IH]; intros volbfr s v' s' E.
  - simpl in E. injection E as <- _. reflexivity.
  - simpl in E.
    destruct dit.
    + destruct (yackspeed h (DOWN h) (WPMSPEED h) s) as [s1 |];
        [| discriminate].
      simpl in E.
      destruct dah.
      * destruct (yackspeed h (UP h) (WPMSPEED h) s1) as [s2 |];
          [| discriminate].
        simpl in E. apply IH in E. rewrite E, !clear_clear_bits.
        reflexivity.
      * simpl in E. apply IH in E. rewrite E, clear_clear_bits.
        reflexivity.
    + simpl in E.
      destruct dah.
      * destruct (yackspeed h (UP h) (WPMSPEED h) s) as [s2 |];
          [| discriminate].
        simpl in E. apply IH in E. rewrite E, clear_clear_bits.
        reflexivity.
      * simpl in E. apply IH in E. exact E.
Qed.

(** X16. Whatever the command button and the paddles do during a call of
    [yackctrlkey], when the call returns [volflags] is what it was on
    entry but for the request latch [CKLATCH]: the inhibition of the
    transmitter and the forced sidetone that [yackinhibit(ON)] sets up for
    the time the button is held are undone, and so is any change of the
    dirty flag. *)
Theorem yackctrlkey_restores_volflags :
  forall (h : header) (mode : Z) (btn : button) (s s' : yack) (r : bool),
    yackctrlkey h mode btn s = Some (r, s') ->
    clear_bits (volflags s') (CKLATCH h) = clear_bits (volflags s) (CKLATCH h).
Proof.
  intros h mode btn s s' r. unfold yackctrlkey.
  destruct btn as [| paddles].
  - simpl bind. intros E. injection E as _ <-.
    destruct (mode =? TRUE h); cbn [volflags set_volflags];
      rewrite ?clear_clear_bits; reflexivity.
  - destruct (ctrl_wait h paddles _ _) as [[v1 s1] |] eqn:E1;
      [| discriminate].
    simpl bind. intros E. injection E as _ <-.
    apply ctrl_wait_volbfr in E1. rewrite clear_set_bits in E1.
    destruct (mode =? TRUE h); cbn [volflags set_volflags];
      rewrite ?clear_clear_bits; exact E1.
Qed.

Lemma yackctrlkey_restores_volflags_witness :
  exists s',
    yackctrlkey yack_h (FALSE yack_h) (Pressed [(true, false)]) started
    = Some (false, s')
    /\ clear_bits (volflags s') (CKLATCH yack_h)
       = clear_bits (volflags started) (CKLATCH yack_h).
Proof.
  assert (E : exists s',
             yackctrlkey yack_h (FALSE yack_h) (Pressed [(true, false)])
               started = Some (false, s'))
    by (eexists; vm_compute; reflexivity).
  destruct E as [s' E]. exists s'. split; [exact E |].
  exact (yackctrlkey_restores_volflags yack_h (FALSE yack_h)
           (Pressed [(true, false)]) started s' false E).
Defined.



(** What [yackspeed] does to the flags. *)
Lemma yackspeed_flags (h : header) (dir mode : Z) (s s' : yack) :
  yackspeed h dir mode s = Some s' ->
  volflags s' = set_bits (volflags s) (DIRTYFLAG h)
  /\ yackflags s' = yackflags s /\ ctcvalue s' = ctcvalue s.
Proof.
  unfold yackspeed, cdiv.
  destruct (mode =? FARNSWORTH h).
  - simpl bind. intros E. injection E as <-.
    rewrite yackfarns_log, yackdelay_log, yackplay_log, yackdelay_log,
      yackplay_log.
    destruct ((dir =? UP h) && (farnsworth s >? 0));
      cbn [farnsworth set_farnsworth];
      destruct ((dir =? DOWN h) && (_ <? MAXFARN h));
      repeat split; reflexivity.
  - match goal with
    | |- context [if ?b =? 0 then None else _] => destruct (b =? 0)
    end; [discriminate |].
    simpl bind. intros E. injection E as <-.
    rewrite yackfarns_log, yackdelay_log, yackplay_log, yackdelay_log,
      yackplay_log.
    destruct ((dir =? UP h) && (wpm s <? MAXWPM h)); cbn [wpm set_wpm];
      destruct ((dir =? DOWN h) && (_ >? MINWPM h));
      repeat split; reflexivity.
Qed.

(** X18. A paddle closed while the command button is held changes the
    speed instead of raising a request: with the DIT paddle the speed goes
    down by one word per minute, with the DAH paddle up by one, the call
    reports no request, and the new speed is in EEPROM when the call
    returns.  (The speed is taken strictly within its bounds here.) *)
Theorem command_key_with_paddle_changes_speed :
  forall (h : header) (mode : Z) (s : yack),
    0 < DIRTYFLAG h < 256 -> UP h <> DOWN h -> WPMSPEED h <> FARNSWORTH h ->
    0 < MINWPM h -> MAXWPM h <= 255 ->
    MINWPM h < wpm s < MAXWPM h ->
    (exists s',
       yackctrlkey h mode (Pressed [(true, false)]) s = Some (false, s')
       /\ wpm s' = wpm s - 1
       /\ wpmcnt s' = u16 (Z.quot (Z.quot 1200 (YACKBEAT h)) (wpm s - 1))
       /\ wpmstor (ee s') = wpm s - 1 /\ magic (ee s') = MAGPAT h)
    /\ (exists s',
          yackctrlkey h mode (Pressed [(false, true)]) s = Some (false, s')
          /\ wpm s' = wpm s + 1
          /\ wpmcnt s' = u16 (Z.quot (Z.quot 1200 (YACKBEAT h)) (wpm s + 1))
          /\ wpmstor (ee s') = wpm s + 1 /\ magic (ee s') = MAGPAT h).
Proof.
  intros h mode s Hdirty Hud Hmode Hmin Hmax Hw.
  assert (Edu : (DOWN h =? UP h) = false)
    by (apply Z.eqb_neq; intros E; apply Hud; symmetry; exact E).
  assert (Eud : (UP h =? DOWN h) = false) by (apply Z.eqb_neq; exact Hud).
  assert (Hsaved : forall t,
             has (volflags t) (DIRTYFLAG h) = true ->
             wpm (yacksave h t) = wpm t /\ wpmcnt (yacksave h t) = wpmcnt t
             /\ wpmstor (ee (yacksave h t)) = wpm t
             /\ magic (ee (yacksave h t)) = MAGPAT h).
  { intros t Ht. unfold yacksave. rewrite Ht. repeat split; reflexivity. }
  set (s0 := emit (EvDelayMs 50) (yackinhibit h (ON h) s)).
  assert (Hw0 : wpm s0 = wpm s).
  { unfold s0, emit. cbn [wpm set_hw].
    apply (yackinhibit_speed h (ON h) s). }
  split.
  - destruct (yackspeed_wpm h (DOWN h) (WPMSPEED h) s0 Hmode)
      as [s1 [E1 [W1 [C1 _]]]].
    { rewrite Edu, Z.eqb_refl, Hw0. simpl andb. cbv iota.
      destruct (Z.gtb_spec (wpm s) (MINWPM h)); [| lia].
      simpl andb. cbv iota. rewrite u8_small by lia. lia. }
    revert W1 C1. rewrite Edu, Z.eqb_refl, Hw0. simpl andb. cbv iota.
    destruct (Z.gtb_spec (wpm s) (MINWPM h)); [| lia].
    simpl andb. cbv iota. rewrite u8_small by lia. intros W1 C1.
    destruct (yackspeed_flags h _ _ _ _ E1) as [V1 _].
    unfold yackctrlkey. cbn [ctrl_wait]. fold s0. rewrite E1. simpl bind.
    destruct (Hsaved (emit (EvDelayMs 50) s1)) as [A [B [C D]]].
    { unfold emit. cbn [volflags set_hw]. rewrite V1.
      apply has_set_bits. exact Hdirty. }
    rewrite has_clear_bits.
    eexists. split; [reflexivity |].
    destruct (mode =? TRUE h); cbn [wpm wpmcnt ee set_volflags];
      rewrite A, B, C, D; unfold emit; cbn [wpm wpmcnt set_hw];
      rewrite W1, C1; repeat split; reflexivity.
  - destruct (yackspeed_wpm h (UP h) (WPMSPEED h) s0 Hmode)
      as [s1 [E1 [W1 [C1 _]]]].
    { rewrite Eud, Z.eqb_refl, Hw0. simpl andb. cbv iota.
      destruct (Z.ltb_spec (wpm s) (MAXWPM h)); [| lia].
      simpl andb. cbv iota. rewrite u8_small by lia. lia. }
    revert W1 C1. rewrite Eud, Z.eqb_refl, Hw0. simpl andb. cbv iota.
    destruct (Z.ltb_spec (wpm s) (MAXWPM h)); [| lia].
    simpl andb. cbv iota. rewrite u8_small by lia. intros W1 C1.
    destruct (yackspeed_flags h _ _ _ _ E1) as [V1 _].
    unfold yackctrlkey. cbn [ctrl_wait]. fold s0. simpl bind.
    rewrite E1. simpl bind.
    destruct (Hsaved (emit (EvDelayMs 50) s1)) as [A [B [C D]]].
    { unfold emit. cbn [volflags set_hw]. rewrite V1.
      apply has_set_bits. exact Hdirty. }
    rewrite has_clear_bits.
    eexists. split; [reflexivity |].
    destruct (mode =? TRUE h); cbn [wpm wpmcnt ee set_volflags];
      rewrite A, B, C, D; unfold emit; cbn [wpm wpmcnt set_hw];
      rewrite W1, C1; repeat split; reflexivity.
Qed.

Lemma command_key_with_paddle_changes_speed_witness :
  (0 < DIRTYFLAG yack_h < 256 /\ UP yack_h <> DOWN yack_h
   /\ WPMSPEED yack_h <> FARNSWORTH yack_h
   /\ 0 < MINWPM yack_h /\ MAXWPM yack_h <= 255
   /\ MINWPM yack_h < wpm started < MAXWPM yack_h)
  /\ (exists s',
        yackctrlkey yack_h (TRUE yack_h) (Pressed [(true, false)]) started
        = Some (false, s')
        /\ wpm s' = wpm started - 1
        /\ wpmcnt s'
           = u16 (Z.quot (Z.quot 1200 (YACKBEAT yack_h)) (wpm started - 1))
        /\ wpmstor (ee s') = wpm started - 1
        /\ magic (ee s') = MAGPAT yack_h)
  /\ (exists s',
        yackctrlkey yack_h (TRUE yack_h) (Pressed [(false, true)]) started
        = Some (false, s')
        /\ wpm s' = wpm started + 1
        /\ wpmcnt s'
           = u16 (Z.quot (Z.quot 1200 (YACKBEAT yack_h)) (wpm started + 1))
        /\ wpmstor (ee s') = wpm started + 1
        /\ magic (ee s') = MAGPAT yack_h).
Proof.
  assert (H1 : 0 < DIRTYFLAG yack_h < 256) by (simpl; lia).
  assert (H2 : UP yack_h <> DOWN yack_h) by (simpl; lia).
  assert (H3 : WPMSPEED yack_h <> FARNSWORTH yack_h) by (simpl; lia).
  assert (H4 : 0 < MINWPM yack_h) by (simpl; lia).
  assert (H5 : MAXWPM yack_h <= 255) by (simpl; lia).
  assert (H6 : MINWPM yack_h < wpm started < MAXWPM yack_h)
    by (vm_compute; split; reflexivity).
  split; [repeat split; assumption || (simpl; lia) || apply H6 |].
  exact (command_key_with_paddle_changes_speed yack_h (TRUE yack_h) started
           H1 H2 H3 H4 H5 H6).
Defined.

(** ** Power saving *)

Lemma power_calls_counting (h : header) (PSTIME n : Z) (k : nat) :
  n <> 0 ->
  forall t, 0 <= t -> t + Z.of_nat k <= YACKSECS h PSTIME ->
            YACKSECS h PSTIME < 4294967296 ->
            power_calls h PSTIME (repeat n k) t
            = (repeat false k, t + Z.of_nat k).
Proof.
  intros Hn. apply Z.eqb_neq in Hn.
  induction k as [| k IH]; intros t Ht Hk HT.
  - simpl. f_equal. lia.
  - simpl repeat. cbn [power_calls]. unfold yackpower at 1.
    rewrite Hn. simpl negb. cbv iota.
    destruct (Z.eqb_spec t (YACKSECS h PSTIME)) as [E | _]; [lia |].
    assert (Hu : u32 (t + 1) = t + 1) by (unfold u32; apply Z.mod_small; lia).
    rewrite Hu, IH by lia. f_equal. lia.
Qed.

(** X19. [yackpower] puts the chip to sleep at the call that finds the
    counter at [YACKSECS(PSTIME)]: from a counter at zero, that many calls
    with a true argument pass without sleep, the next one sleeps and leaves
    the counter at zero again.  A call with the argument 0 never sleeps and
    puts the counter back to zero, wherever it was. *)
Theorem yackpower_sleeps_after_timeout :
  forall (h : header) (PSTIME n : Z),
    n <> 0 -> 0 <= YACKSECS h PSTIME < 4294967296 ->
    let T := Z.to_nat (YACKSECS h PSTIME) in
    power_calls h PSTIME (repeat n (T + 1)) 0 = (repeat false T ++ [true], 0)
    /\ forall t, yackpower h PSTIME 0 t = (false, 0).
Proof.
  intros h PSTIME n Hn HT T.
  split; [| intros t; reflexivity].
  assert (Hcount : power_calls h PSTIME (repeat n T) 0
                   = (repeat false T, YACKSECS h PSTIME)).
  { rewrite (power_calls_counting h PSTIME n T Hn 0) by (unfold T; lia).
    f_equal. unfold T. lia. }
  assert (Happ : forall a b t out1 t1,
             power_calls h PSTIME a t = (out1, t1) ->
             power_calls h PSTIME (a ++ b) t
             = (out1 ++ fst (power_calls h PSTIME b t1),
                snd (power_calls h PSTIME b t1))).
  { induction a as [| x a IH]; intros b t out1 t1 E.
    - simpl in E. injection E as <- <-. simpl.
      destruct (power_calls h PSTIME b t); reflexivity.
    - cbn [power_calls] in E.
      destruct (yackpower h PSTIME x t) as [sl t2] eqn:E2.
      destruct (power_calls h PSTIME a t2) as [o2 t3] eqn:E3.
      injection E as <- <-.
      rewrite <- app_comm_cons. cbn [power_calls]. rewrite E2.
      rewrite (IH b t2 o2 t3 E3). reflexivity. }
  rewrite repeat_app, (Happ _ _ _ _ _ Hcount).
  cbn [repeat power_calls]. unfold yackpower.
  apply Z.eqb_neq in Hn. rewrite Hn, Z.eqb_refl. reflexivity.
Qed.

Lemma yackpower_sleeps_after_timeout_witness :
  let T := Z.to_nat (YACKSECS yack_h 30) in
  (1 <> 0 /\ 0 <= YACKSECS yack_h 30 < 4294967296)
  /\ power_calls yack_h 30 (repeat 1 (T + 1)) 0 = (repeat false T ++ [true], 0)
  /\ forall t, yackpower yack_h 30 0 t = (false, 0).
Proof.
  intros T.
  assert (H1 : 1 <> 0) by lia.
  assert (H2 : 0 <= YACKSECS yack_h 30 < 4294967296) by (simpl; lia).
  split; [split; assumption |].
  exact (yackpower_sleeps_after_timeout yack_h 30 1 H1 H2).
Defined.

(** ** Tuning *)

Lemma tune_loop_S (h : header) (k : nat) (timer : Z) (pins : list tune_pins)
    (s : yack) :
  timer <> 0 ->
  tune_loop h (S k) timer pins s
  = (let '(dit, dah, btn) := hd (false, false, Released) pins in
     if dit : bool then Some s
     else if dah : bool then Some s
     else
       '(stop, s) <- yackctrlkey h (TRUE h) btn s ;;
       if stop : bool then Some s
       else tune_loop h k (u16 (timer - 1)) (tl pins) (yackbeat s)).
Proof.
  intros Ht. apply Z.eqb_neq in Ht.
  change (tune_loop h (S k) timer pins s)
    with (if timer =? 0 then Some s
          else
            let '(dit, dah, btn) := hd (false, false, Released) pins in
            if dit : bool then Some s
            else if dah : bool then Some s
            else
              '(stop, s) <- yackctrlkey h (TRUE h) btn s ;;
              if stop : bool then Some s
              else tune_loop h k (u16 (timer - 1)) (tl pins) (yackbeat s)).
  rewrite Ht. reflexivity.
Qed.

Lemma tune_loop_0 (h : header) (fuel : nat) (pins : list tune_pins) (s : yack) :
  tune_loop h fuel 0 pins s = Some s.
Proof. destruct fuel; reflexivity. Qed.

(** The loop of [yacktune] while nothing is touched. *)
Lemma tune_loop_untouched (h : header) (n : nat) :
  forall (fuel : nat) (timer : Z) (rest : list tune_pins) (s : yack),
    has (volflags s) (CKLATCH h) = false ->
    Z.of_nat n <= timer < 65536 ->
    (Z.to_nat timer <= fuel)%nat ->
    exists s1,
      tune_loop h fuel timer (repeat untouched n ++ rest) s
      = tune_loop h (fuel - n) (timer - Z.of_nat n) rest s1
      /\ sends s s1 (repeat EvBeat n)
      /\ has (volflags s1) (CKLATCH h) = false.
Proof.
  induction n as [| n IH]; intros fuel timer rest s Hclear Ht Hfuel.
  - exists s. rewrite Nat.sub_0_r. replace (timer - Z.of_nat 0) with timer by lia.
    split; [reflexivity |]. split; [apply sends_refl | exact Hclear].
  - destruct fuel as [| fuel]; [lia |].
    simpl repeat. rewrite <- app_comm_cons.
    rewrite tune_loop_S by lia.
    unfold untouched at 1. cbn [hd tl].
    destruct (ctrl_open h (TRUE h) s Hclear) as [s1 [E1 [S1 L1]]].
    rewrite E1. simpl bind.
    assert (S2 : sends s1 (yackbeat s1) [EvBeat])
      by (unfold sends, yackbeat, emit; repeat split; reflexivity).
    destruct (IH fuel (u16 (timer - 1)) rest (yackbeat s1))
      as [s2 [E2 [S3 L2]]].
    + exact L1.
    + rewrite u16_small by lia. lia.
    + rewrite u16_small by lia. lia.
    + exists s2. rewrite E2. rewrite u16_small by lia.
      split; [f_equal; lia |]. split; [| exact L2].
      pose proof (sends_trans _ _ _ _ _ S1
                    (sends_trans _ _ _ _ _ S2 S3)) as S.
      exact S.
Qed.

(** X20. [yacktune] holds the key down for [YACKSECS(TUNEDURATION)]
    heartbeats when neither a paddle nor the command button is touched, and
    only until the first test of the loop that finds a paddle closed
    otherwise; in both cases the key is up again when it returns. *)
Theorem yacktune_duration :
  forall (h : header) (TUNEDURATION : Z) (k : nat) (rest : list tune_pins)
         (s : yack),
    UP h <> DOWN h ->
    has (volflags s) (CKLATCH h) = false ->
    let T := Z.to_nat (u16 (YACKSECS h TUNEDURATION)) in
    (T <= k)%nat
    \/ (exists dit dah btn rest',
          rest = (dit, dah, btn) :: rest' /\ (dit = true \/ dah = true)) ->
    exists s',
      yacktune h TUNEDURATION (repeat untouched k ++ rest) s = Some s'
      /\ hw s' = hw s ++ [EvKeyDown] ++ repeat EvBeat (Nat.min k T)
                 ++ [EvKeyUp].
Proof.
  intros h TUNEDURATION k rest s Hud Hclear T Hcase.
  assert (Edu : (DOWN h =? UP h) = false)
    by (apply Z.eqb_neq; intros E; apply Hud; symmetry; exact E).
  assert (Eud : (UP h =? DOWN h) = false) by (apply Z.eqb_neq; exact Hud).
  assert (Hdown : key_events h (DOWN h) = [EvKeyDown])
    by (unfold key_events; rewrite Z.eqb_refl, Edu; reflexivity).
  assert (Hup : key_events h (UP h) = [EvKeyUp])
    by (unfold key_events; rewrite Z.eqb_refl, Eud; reflexivity).
  pose proof (u16_range (YACKSECS h TUNEDURATION)) as Hrange.
  set (timer := u16 (YACKSECS h TUNEDURATION)) in *.
  unfold yacktune. fold timer. cbv zeta. rewrite key_log, Hdown.
  set (s0 := set_hw (hw s ++ [EvKeyDown]) s).
  assert (Hclear0 : has (volflags s0) (CKLATCH h) = false) by exact Hclear.
  assert (Hfinish : forall n s1,
             sends s0 s1 (repeat EvBeat n) ->
             hw (key h (UP h) s1)
             = hw s ++ [EvKeyDown] ++ repeat EvBeat n ++ [EvKeyUp]).
  { intros n s1 [Hhw _]. rewrite key_log, Hup. cbn [hw set_hw].
    rewrite Hhw. unfold s0. cbn [hw set_hw].
    rewrite <- !app_assoc. reflexivity. }
  destruct (Nat.ltb_spec k T) as [Hlt | Hge].
  - destruct Hcase as [Hc | [dit [dah [btn [rest' [-> Hclosed]]]]]]; [lia |].
    destruct (tune_loop_untouched h k (Z.to_nat timer) timer
                ((dit, dah, btn) :: rest') s0 Hclear0)
      as [s1 [E1 [S1 _]]]; [unfold T in Hlt; lia | lia |].
    rewrite E1.
    destruct (Z.to_nat timer - k)%nat as [| fuel] eqn:Ef;
      [unfold T in Hlt; lia |].
    rewrite tune_loop_S by (unfold T in Hlt; lia).
    cbn [hd].
    destruct Hclosed as [-> | ->]; [| destruct dit];
      cbv beta iota; simpl bind;
      (eexists; split; [reflexivity |]);
      rewrite Nat.min_l by lia; apply Hfinish; exact S1.
  - replace (repeat untouched k ++ rest)
      with (repeat untouched T ++ (repeat untouched (k - T) ++ rest)).
    2: { rewrite app_assoc, <- repeat_app. do 2 f_equal. lia. }
    destruct (tune_loop_untouched h T (Z.to_nat timer) timer
                (repeat untouched (k - T) ++ rest) s0 Hclear0)
      as [s1 [E1 [S1 _]]]; [unfold T; lia | lia |].
    rewrite E1.
    replace (timer - Z.of_nat T) with 0 by (unfold T; lia).
    rewrite tune_loop_0. simpl bind.
    eexists. split; [reflexivity |].
    rewrite Nat.min_r by lia. apply Hfinish. exact S1.
Qed.

Lemma yacktune_duration_witness :
  let T := Z.to_nat (u16 (YACKSECS yack_h 20)) in
  (UP yack_h <> DOWN yack_h
   /\ has (volflags started) (CKLATCH yack_h) = false
   /\ ((T <= 7)%nat
       \/ (exists dit dah btn rest',
             [(true, false, Released)] = (dit, dah, btn) :: rest'
             /\ (dit = true \/ dah = true))))
  /\ exists s',
       yacktune yack_h 20 (repeat untouched 7 ++ [(true, false, Released)])
         started = Some s'
       /\ hw s' = hw started ++ [EvKeyDown] ++ repeat EvBeat (Nat.min 7 T)
                  ++ [EvKeyUp].
Proof.
  intros T.
  assert (H1 : UP yack_h <> DOWN yack_h) by (simpl; lia).
  assert (H2 : has (volflags started) (CKLATCH yack_h) = false)
    by reflexivity.
  assert (H3 : (T <= 7)%nat
               \/ (exists dit dah btn rest',
                     [(true, false, Released)] = (dit, dah, btn) :: rest'
                     /\ (dit = true \/ dah = true))).
  { right. exists true, false, Released, []. split; [reflexivity |].
    left. reflexivity. }
  split; [repeat split; assumption |].
  exact (yacktune_duration yack_h 20 7 [(true, false, Released)] started
           H1 H2 H3).
Defined.

(** ** Sending with the command key open *)

Section Undisturbed.

Variable h : header.

Lemma yackchar_loop_open (fuel : nat) :
  forall (code : Z) (l : list bool) (s : yack),
    code_elements fuel code = Some l ->
    has (volflags s) (CKLATCH h) = false ->
    exists s',
      yackchar_loop h fuel code [] s = Some (false, [], s')
      /\ sends s s' (List.concat (map (element_events h (wpmcnt s)) l))
      /\ has (volflags s') (CKLATCH h) = false.
Proof.
  induction fuel as [| k IH]; intros code l s Hl Hclear.
  - destruct (Z.eq_dec code 0x80) as [-> | Hne].
    + rewrite code_elements_stop in Hl. injection Hl as <-.
      rewrite yackchar_loop_stop. exists s.
      split; [reflexivity |]. split; [apply sends_refl | exact Hclear].
    + rewrite code_elements_0 in Hl by exact Hne. discriminate.
  - destruct (Z.eq_dec code 0x80) as [-> | Hne].
    + rewrite code_elements_stop in Hl. injection Hl as <-.
      rewrite yackchar_loop_stop. exists s.
      split; [reflexivity |]. split; [apply sends_refl | exact Hclear].
    + rewrite code_elements_S in Hl by exact Hne.
      rewrite yackchar_loop_S by exact Hne.
      destruct (code_elements k (u8 (Z.shiftl code 1))) as [l' |] eqn:El';
        [| discriminate].
      injection Hl as <-.
      change (next_poll []) with Released. change (tl (@nil button)) with (@nil button).
      destruct (ctrl_open h (FALSE h) s Hclear) as [s1 [E1 [S1 L1]]].
      rewrite E1. simpl bind. cbv zeta.
      destruct (element_sent h code s1) as [S2 V2]. cbv zeta in S2, V2.
      set (s2 := yackdelay (IEGLEN h) _) in *.
      destruct (IH _ _ s2 El') as [s' [E3 [S3 L3]]].
      { rewrite V2. exact L1. }
      exists s'. split; [exact E3 |]. split; [| exact L3].
      assert (Hc1 : wpmcnt s1 = wpmcnt s) by apply S1.
      assert (Hc2 : wpmcnt s2 = wpmcnt s).
      { destruct S2 as [_ [-> _]]. exact Hc1. }
      rewrite Hc2 in S3. rewrite Hc1 in S2.
      pose proof (sends_trans _ _ _ _ _ S1
                    (sends_trans _ _ _ _ _ S2 S3)) as S.
      exact S.
Qed.

(** [yackchar] with the command key open and no request pending. *)
Lemma yackchar_open (c : Z) (s : yack) :
  0 <= c < 256 ->
  has (volflags s) (CKLATCH h) = false ->
  exists s',
    yackchar h c [] s = Some ([], s')
    /\ sends s s' (List.concat (char_script h (wpmcnt s) (farnsworth s) c))
    /\ has (volflags s') (CKLATCH h) = false.
Proof.
  intros Hc Hclear. unfold yackchar, char_script.
  destruct (c =? chr " ").
  - eexists. split; [reflexivity |].
    rewrite yackdelay_log. split; [| exact Hclear].
    unfold sends. cbn. rewrite app_nil_r. repeat split; reflexivity.
  - destruct (code_elements_total c Hc) as [l El]. rewrite El.
    destruct (yackchar_loop_open 8 _ _ s El Hclear) as [s1 [E1 [S1 L1]]].
    rewrite E1. simpl bind.
    eexists. split; [reflexivity |].
    assert (Htail : sends s1 (yackfarns (yackdelay (ICGLEN h - IEGLEN h) s1))
                      (char_tail h (wpmcnt s1) (farnsworth s1))).
    { rewrite yackfarns_log, yackdelay_log. unfold sends, char_tail.
      cbn. rewrite <- app_assoc. repeat split; reflexivity. }
    split.
    + destruct S1 as [H1 [H2 H3]]. rewrite H2, H3 in Htail.
      assert (S1' : sends s s1 (List.concat (map (element_events h (wpmcnt s)) l)))
        by (repeat split; assumption).
      pose proof (sends_trans _ _ _ _ _ S1' Htail) as S.
      destruct l as [| e rest].
      * simpl in S |- *. rewrite app_nil_r. exact S.
      * rewrite concat_cons, app_nil_l.
        rewrite elements_script_concat by discriminate. exact S.
    + rewrite yackfarns_log, yackdelay_log. exact L1.
Qed.

Lemma string_script_app (cnt farns : Z) (a b : list Z) :
  Forall (fun c => c <> 0) a ->
  string_script h cnt farns (a ++ b)
  = List.concat (map (char_script h cnt farns) a) ++ string_script h cnt farns b.
Proof.
  induction a as [| c a IH]; intros Ha.
  - reflexivity.
  - inversion Ha as [| ? ? Hc Ha']; subst.
    apply Z.eqb_neq in Hc.
    simpl. rewrite Hc, IH by exact Ha'. rewrite <- app_assoc. reflexivity.
Qed.

End Undisturbed.

(** ** Numbers *)

Lemma list_set_length (l : list Z) (i : nat) (v : Z) :
  List.length (list_set l i v) = List.length l.
Proof.
  revert i. induction l as [| x l IH]; intros [| i]; simpl;
    try reflexivity. rewrite IH. reflexivity.
Qed.

Lemma nth_error_list_set_same (l : list Z) (i : nat) (v : Z) :
  (i < List.length l)%nat -> nth_error (list_set l i v) i = Some v.
Proof.
  revert i. induction l as [| x l IH]; intros [| i] Hi; simpl in *;
    try lia; try reflexivity. apply IH. lia.
Qed.

Lemma nth_error_list_set_other (l : list Z) (i j : nat) (v : Z) :
  i <> j -> nth_error (list_set l i v) j = nth_error l j.
Proof.
  revert i j. induction l as [| x l IH]; intros [| i] [| j] Hij; simpl;
    try reflexivity; try lia. apply IH. lia.
Qed.

Lemma number_digits_S (k : nat) (n : Z) (buffer : list Z) (i : Z) :
  n <> 0 ->
  number_digits (S k) n buffer i
  = number_digits k (n / 10)
      (list_set buffer (Z.to_nat i) (u8 (n mod 10 + chr "0"))) (u8 (i + 1)).
Proof.
  intros Hn. apply Z.eqb_neq in Hn.
  change (number_digits (S k) n buffer i)
    with (if n =? 0 then Some (buffer, i)
          else number_digits k (n / 10)
                 (list_set buffer (Z.to_nat i) (u8 (n mod 10 + chr "0")))
                 (u8 (i + 1))).
  rewrite Hn. reflexivity.
Qed.

Lemma number_digits_0 (k : nat) (buffer : list Z) (i : Z) :
  number_digits k 0 buffer i = Some (buffer, i).
Proof. destruct k; reflexivity. Qed.

(** The first loop of [yacknumber] writes the decimal digits of [n], the
    last one first, from index [k] on. *)
Lemma number_digits_spec (fuel : nat) :
  forall (n : Z) (buffer : list Z) (k : nat),
    0 <= n < 10 ^ Z.of_nat fuel ->
    (k + fuel <= List.length buffer)%nat ->
    (k + fuel <= 255)%nat ->
    exists ds buffer',
      number_digits fuel n buffer (Z.of_nat k)
      = Some (buffer', Z.of_nat (k + List.length ds))
      /\ (List.length ds <= fuel)%nat
      /\ (forall j, (j < k)%nat -> nth_error buffer' j = nth_error buffer j)
      /\ (forall j, (j < List.length ds)%nat ->
                    nth_error buffer' (k + j) = nth_error ds j)
      /\ Forall (fun d => chr "0" <= d <= chr "9") ds
      /\ fold_right (fun d acc => (d - chr "0") + 10 * acc) 0 ds = n
      /\ last ds (chr "1") <> chr "0"
      /\ (n = 0 -> ds = []).
Proof.
  induction fuel as [| f IH]; intros n buffer k Hn Hlen Hk.
  - assert (n = 0) as -> by (simpl in Hn; lia).
    exists [], buffer. rewrite number_digits_0, Nat.add_0_r.
    split; [reflexivity |]. split; [simpl; lia |].
    split; [reflexivity |]. split; [intros j Hj; simpl in Hj; lia |].
    split; [constructor |]. split; [reflexivity |].
    split; [discriminate | reflexivity].
  - destruct (Z.eq_dec n 0) as [-> | Hnz].
    + exists [], buffer. rewrite number_digits_0, Nat.add_0_r.
      split; [reflexivity |]. split; [simpl; lia |].
      split; [reflexivity |]. split; [intros j Hj; simpl in Hj; lia |].
      split; [constructor |]. split; [reflexivity |].
      split; [discriminate | reflexivity].
    + rewrite number_digits_S by exact Hnz.
      rewrite Nat2Z.id.
      assert (Hmod : 0 <= n mod 10 < 10) by (apply Z.mod_pos_bound; lia).
      change (chr "0") with 48 in *. change (chr "9") with 57.
      change (chr "1") with 49 in *.
      rewrite (u8_small (n mod 10 + 48)) by lia.
      rewrite (u8_small (Z.of_nat k + 1)) by lia.
      replace (Z.of_nat k + 1) with (Z.of_nat (k + 1)) by lia.
      assert (Hdiv : 0 <= n / 10 < 10 ^ Z.of_nat f).
      { split; [apply Z.div_pos; lia |].
        apply Z.div_lt_upper_bound; [lia |].
        replace (Z.of_nat (S f)) with (Z.of_nat f + 1) in Hn by lia.
        rewrite Z.pow_add_r in Hn by lia. lia. }
      destruct (IH (n / 10) (list_set buffer k (n mod 10 + 48)) (k + 1)%nat
                  Hdiv)
        as [ds' [buffer' [E [Hl [Hpre [Hnth [Hdig [Hval [Hlast _]]]]]]]]].
      { rewrite list_set_length. lia. }
      { lia. }
      exists ((n mod 10 + 48) :: ds'), buffer'.
      split; [rewrite E; do 2 f_equal; simpl; lia |].
      split; [simpl; lia |].
      split.
      { intros j Hj. rewrite Hpre by lia.
        apply nth_error_list_set_other. lia. }
      split.
      { intros [| j] Hj.
        - rewrite Nat.add_0_r, Hpre by lia.
          apply nth_error_list_set_same. lia.
        - replace (k + S j)%nat with (k + 1 + j)%nat by lia.
          simpl in Hj. rewrite Hnth by lia. reflexivity. }
      split; [constructor; [lia | exact Hdig] |].
      split.
      { cbn [fold_right]. rewrite Hval.
        pose proof (Z.div_mod n 10). lia. }
      split; [| intros E0; contradiction].
      destruct ds' as [| d ds''].
      * cbn [fold_right last] in Hval |- *.
        pose proof (Z.div_mod n 10). lia.
      * exact Hlast.
Qed.

Lemma number_send_S (h : header) (k : nat) (buffer : list Z) (i : Z)
    (polls : list button) (s : yack) :
  i <> 0 ->
  number_send h (S k) buffer i polls s
  = ('(stop, s) <- yackctrlkey h (TRUE h) (next_poll polls) s ;;
     if stop : bool then Some (tl polls, s)
     else
       let i := u8 (i - 1) in
       c <- nth_error buffer (Z.to_nat i) ;;
       '(polls, s) <- yackchar h c (tl polls) s ;;
       number_send h k buffer i polls s).
Proof.
  intros Hi. apply Z.eqb_neq in Hi.
  change (number_send h (S k) buffer i polls s)
    with (if i =? 0 then Some (polls, s)
          else
            '(stop, s) <- yackctrlkey h (TRUE h) (next_poll polls) s ;;
            if stop : bool then Some (tl polls, s)
            else
              let i := u8 (i - 1) in
              c <- nth_error buffer (Z.to_nat i) ;;
              '(polls, s) <- yackchar h c (tl polls) s ;;
              number_send h k buffer i polls s).
  rewrite Hi. reflexivity.
Qed.

(** The second loop of [yacknumber] with the command key open: the
    characters are sent from the top of the buffer down. *)
Lemma number_send_open (h : header) (ds : list Z) :
  forall (buffer : list Z) (s : yack),
    (forall j, (j < List.length ds)%nat ->
               nth_error buffer j = nth_error ds j) ->
    Forall (fun d => 0 <= d < 256) ds ->
    (List.length ds <= 255)%nat ->
    has (volflags s) (CKLATCH h) = false ->
    exists s',
      number_send h (List.length ds) buffer (Z.of_nat (List.length ds)) [] s
      = Some ([], s')
      /\ sends s s'
           (List.concat
              (List.concat
                 (map (char_script h (wpmcnt s) (farnsworth s)) (rev ds))))
      /\ has (volflags s') (CKLATCH h) = false.
Proof.
  induction ds as [| c ds0 IH] using rev_ind;
    intros buffer s Hnth Hbytes Hlen Hclear.
  - exists s. split; [reflexivity |].
    split; [apply sends_refl | exact Hclear].
  - rewrite length_app in *. simpl List.length in *.
    replace (List.length ds0 + 1)%nat with (S (List.length ds0)) in * by lia.
    rewrite number_send_S by lia.
    change (next_poll []) with Released.
    change (tl (@nil button)) with (@nil button).
    destruct (ctrl_open h (TRUE h) s Hclear) as [s1 [E1 [S1 L1]]].
    rewrite E1. cbn [bind]. cbv zeta.
    rewrite u8_small by lia.
    replace (Z.of_nat (S (List.length ds0)) - 1)
      with (Z.of_nat (List.length ds0)) by lia.
    rewrite Nat2Z.id.
    rewrite Hnth by lia.
    rewrite nth_error_app2, Nat.sub_diag by lia. cbn [nth_error bind].
    apply Forall_app in Hbytes. destruct Hbytes as [Hb0 Hbc].
    inversion Hbc as [| ? ? Hc _]; subst.
    destruct (yackchar_open h c s1 Hc L1) as [s2 [E2 [S2 L2]]].
    rewrite E2. cbn [bind].
    destruct (IH buffer s2) as [s' [E3 [S3 L3]]].
    + intros j Hj. rewrite Hnth by lia.
      apply nth_error_app1. exact Hj.
    + exact Hb0.
    + lia.
    + exact L2.
    + exists s'. split; [exact E3 |]. split; [| exact L3].
      assert (Hc1 : wpmcnt s1 = wpmcnt s /\ farnsworth s1 = farnsworth s)
        by (split; apply S1).
      destruct Hc1 as [Hw1 Hf1]. rewrite Hw1, Hf1 in S2.
      assert (Hc2 : wpmcnt s2 = wpmcnt s /\ farnsworth s2 = farnsworth s).
      { destruct S2 as [_ [-> ->]]. split; assumption. }
      destruct Hc2 as [Hw2 Hf2]. rewrite Hw2, Hf2 in S3.
      rewrite rev_app_distr. simpl rev. simpl app.
      rewrite map_cons, concat_cons, concat_app.
      pose proof (sends_trans _ _ _ _ _ S1
                    (sends_trans _ _ _ _ _ S2 S3)) as S.
      exact S.
Qed.

Lemma digits_value_rev (ds : list Z) :
  digits_value (rev ds)
  = fold_right (fun d acc => (d - chr "0") + 10 * acc) 0 ds.
Proof.
  unfold digits_value.
  rewrite <- fold_left_rev_right, rev_involutive.
  induction ds as [| d ds IH]; [reflexivity |].
  cbn [fold_right]. lia.
Qed.

Lemma hd_rev_last (ds : list Z) (x : Z) : hd x (rev ds) = last ds x.
Proof.
  induction ds as [| d ds IH] using rev_ind.
  - reflexivity.
  - rewrite rev_app_distr, last_last. reflexivity.
Qed.

(** X21. [yacknumber] with the command key open sends the decimal digits
    of the number, the most significant first and with no leading zero,
    and then the gap between words.  For the number 0 no digit at all is
    sent, only the gap. *)
Theorem yacknumber_sends_decimal :
  forall (h : header) (n : Z) (buffer : list Z) (s : yack),
    0 <= n < 65536 ->
    List.length buffer = 5%nat ->
    has (volflags s) (CKLATCH h) = false ->
    exists cs s',
      yacknumber h n buffer [] s = Some ([], s')
      /\ Forall (fun c => chr "0" <= c <= chr "9") cs
      /\ digits_value cs = n
      /\ hd (chr "1") cs <> chr "0"
      /\ (n = 0 -> cs = [])
      /\ hw s' = hw s
                 ++ List.concat
                      (string_script h (wpmcnt s) (farnsworth s)
                         (cs ++ [chr " "])).
Proof.
  intros h n buffer s Hn Hlen Hclear.
  destruct (number_digits_spec 5 n buffer 0)
    as [ds [buffer' [E [Hl [_ [Hnth [Hdig [Hval [Hlast Hzero]]]]]]]]];
    [simpl; lia | lia | lia |].
  simpl Nat.add in *. change (Z.of_nat 0) with 0 in E.
  assert (Hbytes : Forall (fun d => 0 <= d < 256) ds).
  { revert Hdig. apply Forall_impl.
    intros d Hd. change (chr "0") with 48 in Hd.
    change (chr "9") with 57 in Hd. lia. }
  destruct (number_send_open h ds buffer' s Hnth Hbytes) as [s1 [E1 [S1 L1]]];
    [lia | exact Hclear |].
  assert (Hsp : 0 <= chr " " < 256) by (vm_compute; split; [discriminate | reflexivity]).
  destruct (yackchar_open h (chr " ") s1 Hsp L1) as [s2 [E2 [S2 _]]].
  exists (rev ds), s2.
  split.
  { unfold yacknumber. rewrite u16_small by lia. rewrite E. simpl bind.
    rewrite Nat2Z.id, E1. simpl bind. exact E2. }
  split.
  { apply Forall_rev. exact Hdig. }
  split; [rewrite digits_value_rev; exact Hval |].
  split; [rewrite hd_rev_last; exact Hlast |].
  split.
  { intros E0. rewrite (Hzero E0). reflexivity. }
  destruct S1 as [Hhw1 [Hw1 Hf1]]. destruct S2 as [Hhw2 _].
  rewrite Hhw2, Hhw1, Hw1, Hf1, <- app_assoc. f_equal.
  rewrite string_script_app.
  - change (string_script h (wpmcnt s) (farnsworth s) [chr " "])
      with (char_script h (wpmcnt s) (farnsworth s) (chr " ") ++ []).
    rewrite app_nil_r, concat_app. reflexivity.
  - apply Forall_rev. revert Hdig. apply Forall_impl.
    intros d Hd. change (chr "0") with 48 in Hd. lia.
Qed.

Lemma yacknumber_sends_decimal_witness :
  (0 <= 73 < 65536 /\ List.length (repeat 0 5) = 5%nat
   /\ has (volflags started) (CKLATCH yack_h) = false)
  /\ exists cs s',
       yacknumber yack_h 73 (repeat 0 5) [] started = Some ([], s')
       /\ Forall (fun c => chr "0" <= c <= chr "9") cs
       /\ digits_value cs = 73
       /\ hd (chr "1") cs <> chr "0"
       /\ (73 = 0 -> cs = [])
       /\ hw s' = hw started
                  ++ List.concat
                       (string_script yack_h (wpmcnt started)
                          (farnsworth started) (cs ++ [chr " "])).
Proof.
  assert (H1 : 0 <= 73 < 65536) by lia.
  assert (H2 : List.length (repeat 0 5) = 5%nat) by reflexivity.
  assert (H3 : has (volflags started) (CKLATCH yack_h) = false)
    by reflexivity.
  split; [repeat split; assumption || lia |].
  exact (yacknumber_sends_decimal yack_h 73 (repeat 0 5) started H1 H2 H3).
Defined.

(** ** Messages *)

Lemma play_loop_S (h : header) (k : nat) (n : Z) (rambuffer : list Z)
    (polls : list button) (s : yack) (c : Z) :
  nth_error rambuffer (Z.to_nat n) = Some c ->
  play_loop h (S k) n rambuffer polls s
  = (if c =? 0 then Some (polls, s)
     else
       '(stop, s) <- yackctrlkey h (FALSE h) (next_poll polls) s ;;
       if stop : bool then Some (tl polls, s)
       else
         '(polls, s) <- yackchar h c (tl polls) s ;;
         play_loop h k (u8 (n + 1)) rambuffer polls s).
Proof.
  intros E.
  change (play_loop h (S k) n rambuffer polls s)
    with (match nth_error rambuffer (Z.to_nat n) with
          | None => None
          | Some c =>
              if c =? 0 then Some (polls, s)
              else
                '(stop, s) <- yackctrlkey h (FALSE h) (next_poll polls) s ;;
                if stop : bool then Some (tl polls, s)
                else
                  '(polls, s) <- yackchar h c (tl polls) s ;;
                  play_loop h k (u8 (n + 1)) rambuffer polls s
          end).
  rewrite E. reflexivity.
Qed.

(** The replay loop with the command key open. *)
Lemma play_loop_open (h : header) (msg : list Z) :
  forall (pre rest : list Z) (fuel : nat) (s : yack),
    Forall (fun c => 0 < c < 256) msg ->
    (List.length pre + List.length msg < 255)%nat ->
    (List.length msg < fuel)%nat ->
    has (volflags s) (CKLATCH h) = false ->
    exists s',
      play_loop h fuel (Z.of_nat (List.length pre))
        (pre ++ msg ++ 0 :: rest) [] s = Some ([], s')
      /\ sends s s'
           (List.concat (string_script h (wpmcnt s) (farnsworth s) msg)).
Proof.
  induction msg as [| c msg IH]; intros pre rest fuel s Hmsg Hlen Hfuel Hclear.
  - destruct fuel as [| fuel]; [simpl in Hfuel; lia |].
    rewrite (play_loop_S h fuel _ _ _ _ 0).
    + exists s. split; [reflexivity | apply sends_refl].
    + rewrite Nat2Z.id, nth_error_app2, Nat.sub_diag by lia. reflexivity.
  - destruct fuel as [| fuel]; [simpl in Hfuel; lia |].
    inversion Hmsg as [| ? ? Hc Hmsg']; subst.
    rewrite (play_loop_S h fuel _ _ _ _ c).
    2: { rewrite Nat2Z.id, nth_error_app2, Nat.sub_diag by lia. reflexivity. }
    assert (Hcz : (c =? 0) = false) by (apply Z.eqb_neq; lia).
    rewrite Hcz.
    change (next_poll []) with Released.
    change (tl (@nil button)) with (@nil button).
    destruct (ctrl_open h (FALSE h) s Hclear) as [s1 [E1 [S1 L1]]].
    rewrite E1. cbn [bind].
    destruct (yackchar_open h c s1) as [s2 [E2 [S2 L2]]]; [lia | exact L1 |].
    rewrite E2. cbn [bind].
    simpl List.length in Hlen, Hfuel.
    rewrite u8_small by lia.
    replace (Z.of_nat (List.length pre) + 1)
      with (Z.of_nat (List.length (pre ++ [c])))
      by (rewrite length_app; simpl; lia).
    replace (pre ++ (c :: msg) ++ 0 :: rest)
      with ((pre ++ [c]) ++ msg ++ 0 :: rest)
      by (rewrite <- app_assoc; reflexivity).
    destruct (IH (pre ++ [c]) rest fuel s2 Hmsg') as [s' [E3 S3]].
    + rewrite length_app. simpl. lia.
    + lia.
    + exact L2.
    + exists s'. split; [exact E3 |].
      assert (Hc1 : wpmcnt s1 = wpmcnt s /\ farnsworth s1 = farnsworth s)
        by (split; apply S1).
      destruct Hc1 as [Hw1 Hf1]. rewrite Hw1, Hf1 in S2.
      assert (Hc2 : wpmcnt s2 = wpmcnt s /\ farnsworth s2 = farnsworth s).
      { destruct S2 as [_ [-> ->]]. split; assumption. }
      destruct Hc2 as [Hw2 Hf2]. rewrite Hw2, Hf2 in S3.
      cbn [string_script]. rewrite Hcz, concat_app.
      pose proof (sends_trans _ _ _ _ _ S1
                    (sends_trans _ _ _ _ _ S2 S3)) as S.
      exact S.
Qed.

(** With the command key open and no request pending, sending touches
    neither the settings nor the EEPROM. *)
Lemma ctrl_released_keeps (h : header) (mode : Z) (s s' : yack) (b : bool) :
  yackctrlkey h mode Released s = Some (b, s') -> keeps_settings s s'.
Proof.
  unfold yackctrlkey. cbn [bind]. intros E. injection E as _ <-.
  destruct (mode =? TRUE h); repeat split; reflexivity.
Qed.

Lemma element_keeps (h : header) (code : Z) (s : yack) :
  keeps_settings s
    (yackdelay (IEGLEN h)
       (if has code 0x80 then yackplay h (DAH h) s else yackplay h (DIT h) s)).
Proof.
  rewrite yackdelay_log.
  destruct (has code 0x80); rewrite yackplay_log; repeat split; reflexivity.
Qed.

Lemma yackchar_loop_keeps (h : header) (fuel : nat) :
  forall (code : Z) (s s' : yack) (r : bool) (q : list button),
    yackchar_loop h fuel code [] s = Some (r, q, s') ->
    keeps_settings s s' /\ q = [].
Proof.
  induction fuel as [| k IH]; intros code s s' r q E.
  - cbn [yackchar_loop] in E.
    destruct (code =? 0x80); [| discriminate].
    injection E as _ <- <-. split; [apply keeps_refl | reflexivity].
  - cbn [yackchar_loop] in E.
    destruct (code =? 0x80).
    + injection E as _ <- <-. split; [apply keeps_refl | reflexivity].
    + change (next_poll []) with Released in E.
      destruct (yackctrlkey h (FALSE h) Released s) as [[stop s1] |] eqn:E1;
        [| discriminate].
      cbn [bind] in E. apply ctrl_released_keeps in E1.
      destruct stop.
      * injection E as _ <- <-. split; [exact E1 | reflexivity].
      * cbn [tl] in E. apply IH in E. destruct E as [E ->].
        split; [| reflexivity].
        eapply keeps_trans; [exact E1 |].
        eapply keeps_trans; [apply element_keeps | exact E].
Qed.

Lemma yackchar_keeps (h : header) (c : Z) (s s' : yack) (q : list button) :
  yackchar h c [] s = Some (q, s') -> keeps_settings s s' /\ q = [].
Proof.
  unfold yackchar. destruct (c =? chr " ").
  - intros E. injection E as <- <-. split; [| reflexivity].
    rewrite yackdelay_log. repeat split; reflexivity.
  - destruct (yackchar_loop h 8 (yackchar_code c) [] s)
      as [[[r q1] s1] |] eqn:E1; [| discriminate].
    cbn [bind]. apply yackchar_loop_keeps in E1. destruct E1 as [E1 ->].
    destruct r; intros E; injection E as <- <-;
      (split; [| reflexivity]); [exact E1 |].
    eapply keeps_trans; [exact E1 |].
    rewrite yackfarns_log, yackdelay_log. repeat split; reflexivity.
Qed.

Lemma play_loop_keeps (h : header) (fuel : nat) :
  forall (n : Z) (rambuffer : list Z) (s s' : yack) (q : list button),
    play_loop h fuel n rambuffer [] s = Some (q, s') -> keeps_settings s s'.
Proof.
  induction fuel as [| k IH]; intros n rambuffer s s' q E; [discriminate |].
  cbn [play_loop] in E.
  destruct (nth_error rambuffer (Z.to_nat n)) as [c |]; [| discriminate].
  destruct (c =? 0).
  - injection E as _ <-. apply keeps_refl.
  - change (next_poll []) with Released in E.
    destruct (yackctrlkey h (FALSE h) Released s) as [[stop s1] |] eqn:E1;
      [| discriminate].
    cbn [bind] in E. apply ctrl_released_keeps in E1.
    destruct stop.
    + injection E as _ <-. exact E1.
    + cbn [tl] in E.
      destruct (yackchar h c [] s1) as [[q1 s2] |] eqn:E2; [| discriminate].
      cbn [bind] in E. apply yackchar_keeps in E2. destruct E2 as [E2 ->].
      apply IH in E.
      eapply keeps_trans; [exact E1 |].
      eapply keeps_trans; [exact E2 | exact E].
Qed.

(** X22. [yackmessage] in PLAY mode, with the command key open: the
    message of the chosen memory is sent as far as its first zero byte,
    character by character as a string is sent, and nothing is recorded:
    the EEPROM, with both message memories, and the settings are what they
    were. *)
Theorem play_sends_stored_message :
  forall (h : header) (msgnr : Z) (rambuffer : list Z)
         (pins : list (button * (bool * bool)))
         (msg rest : list Z) (s : yack),
    PLAY h <> RECORD h ->
    (msgnr = 1
     /\ firstn (Z.to_nat (RBSIZE h)) (eebuffer1 (ee s)) = msg ++ 0 :: rest)
    \/ (msgnr = 2
        /\ firstn (Z.to_nat (RBSIZE h)) (eebuffer2 (ee s)) = msg ++ 0 :: rest) ->
    Forall (fun c => 0 < c < 256) msg ->
    (List.length msg < 255)%nat ->
    has (volflags s) (CKLATCH h) = false ->
    exists s',
      yackmessage h (PLAY h) msgnr rambuffer pins [] s = Some (false, s')
      /\ hw s' = hw s
                 ++ List.concat
                      (string_script h (wpmcnt s) (farnsworth s) msg)
      /\ ee s' = ee s
      /\ keeps_settings s s'.
Proof.
  intros h msgnr rambuffer pins msg rest s Hpr Hslot Hmsg Hlen Hclear.
  unfold yackmessage.
  apply Z.eqb_neq in Hpr. rewrite Hpr, Z.eqb_refl. cbn [bind].
  set (rb := if msgnr =? 2
             then firstn (Z.to_nat (RBSIZE h)) (eebuffer2 (ee s))
             else if msgnr =? 1
                  then firstn (Z.to_nat (RBSIZE h)) (eebuffer1 (ee s))
                  else rambuffer).
  assert (Hrb : rb = msg ++ 0 :: rest
                /\ (List.length msg < Z.to_nat (RBSIZE h) + 1)%nat).
  { unfold rb.
    destruct Hslot as [[-> E] | [-> E]]; simpl Z.eqb; cbv iota;
      (split; [exact E |]);
      assert (Hl : (List.length (msg ++ 0%Z :: rest) <= Z.to_nat (RBSIZE h))%nat)
        by (rewrite <- E; apply firstn_le_length);
      rewrite length_app in Hl; simpl in Hl; lia. }
  destruct Hrb as [Erb Hfuel].
  destruct (play_loop_open h msg [] rest (Z.to_nat (RBSIZE h) + 1) s
              Hmsg) as [s' [E S]]; [simpl; lia | exact Hfuel | exact Hclear |].
  simpl app in E. change (Z.of_nat (List.length (@nil Z))) with 0 in E.
  rewrite <- Erb in E.
  pose proof (play_loop_keeps h _ _ _ _ _ _ E) as Hkeep.
  exists s'. split; [| split; [apply S | split; [apply Hkeep | exact Hkeep]]].
  cbv zeta.
  replace (if msgnr =? 2
           then firstn (Z.to_nat (RBSIZE h)) (eebuffer2 (ee s))
           else if msgnr =? 1
                then firstn (Z.to_nat (RBSIZE h)) (eebuffer1 (ee s))
                else rambuffer) with rb by reflexivity.
  rewrite E. reflexivity.
Qed.

Lemma play_sends_stored_message_witness :
  let msg := map chr (list_ascii_of_string "message 1") in
  (PLAY yack_h <> RECORD yack_h
   /\ ((1 = 1
        /\ firstn (Z.to_nat (RBSIZE yack_h)) (eebuffer1 (ee started))
           = msg ++ 0 :: repeat 0 90)
       \/ (1 = 2
           /\ firstn (Z.to_nat (RBSIZE yack_h)) (eebuffer2 (ee started))
              = msg ++ 0 :: repeat 0 90))
   /\ Forall (fun c => 0 < c < 256) msg
   /\ (List.length msg < 255)%nat
   /\ has (volflags started) (CKLATCH yack_h) = false)
  /\ exists s',
       yackmessage yack_h (PLAY yack_h) 1 [] [] [] started = Some (false, s')
       /\ hw s' = hw started
                  ++ List.concat
                       (string_script yack_h (wpmcnt started)
                          (farnsworth started) msg)
       /\ ee s' = ee started
       /\ keeps_settings started s'.
Proof.
  intros msg.
  assert (H1 : PLAY yack_h <> RECORD yack_h) by (simpl; lia).
  assert (H2 : (1 = 1
                /\ firstn (Z.to_nat (RBSIZE yack_h)) (eebuffer1 (ee started))
                   = msg ++ 0 :: repeat 0 90)
               \/ (1 = 2
                   /\ firstn (Z.to_nat (RBSIZE yack_h))
                        (eebuffer2 (ee started))
                      = msg ++ 0 :: repeat 0 90))
    by (left; split; reflexivity).
  assert (H3 : Forall (fun c => 0 < c < 256) msg)
    by (unfold msg; simpl; repeat constructor; vm_compute; reflexivity).
  assert (H4 : (List.length msg < 255)%nat) by (simpl; lia).
  assert (H5 : has (volflags started) (CKLATCH yack_h) = false)
    by reflexivity.
  split; [repeat split; assumption |].
  exact (play_sends_stored_message yack_h 1 [] [] msg (repeat 0 90) started
           H1 H2 H3 H4 H5).
Defined.

(** *** Recording while nothing is keyed *)

Lemma clear_bits_keeps_zero (v k m : Z) :
  Z.land v m = 0 -> Z.land (clear_bits v k) m = 0.
Proof.
  intros Hz. apply Z.bits_inj'. intros n Hn.
  rewrite Z.land_spec, clear_bits_testbit, Z.bits_0 by exact Hn.
  assert (Hb : Z.testbit v n && Z.testbit m n = false)
    by (rewrite <- Z.land_spec, Hz; apply Z.bits_0).
  destruct (n <? 8), (Z.testbit v n), (Z.testbit k n), (Z.testbit m n);
    simpl in *; congruence.
Qed.

Section Silence.

Variable h : header.
Hypothesis Hlatch : latches_ok h.

Lemma has_false_land (v m : Z) : has v m = false <-> Z.land v m = 0.
Proof.
  unfold has. rewrite negb_false_iff, Z.eqb_eq. reflexivity.
Qed.

(** A heartbeat of the idle keyer with the paddles open. *)
Lemma quiet_idle_tick (ctrl : Z) (T b n : Z)
    (s0 : yack) (evs : list event) (s : yack) :
  quiet h STATE_IDLE T b n s0 evs s ->
  exists s',
    yackiambic h ctrl false false s = Some (0, s')
    /\ quiet h STATE_IDLE (dec T) b n s0 evs s'
    /\ (has (volflags s) (CKLATCH h) = false ->
        has (volflags s') (CKLATCH h) = false).
Proof.
  intros Hq. apply (quiet_sample h Hlatch) in Hq.
  exists (iambic_sample h false false s).
  split; [| split; [exact Hq |]].
  - destruct Hq as [Hst [_ [_ [Hkey _]]]].
    unfold yackiambic, iambic_loop, iambic_body. rewrite Hst.
    unfold iambic_waiting.
    rewrite waiting_keys_open by exact Hkey.
    rewrite waiting_timeout_idle by exact Hst. reflexivity.
  - intros Hclear. apply has_false_land in Hclear. apply has_false_land.
    unfold iambic_sample, keylatch. cbv zeta.
    destruct (debounceTimer _ =? 0); [| exact Hclear].
    destruct (negb _); cbn [volflags set_volflags upd_fsm set_fsm];
      apply clear_bits_keeps_zero; exact Hclear.
Qed.

(** What [yackctrlkey] and [yackbeat] leave of [quiet]. *)
Lemma quiet_ctrl_open (st : iambicState_t) (T b n : Z)
    (s0 : yack) (evs : list event) (s : yack) :
  quiet h st T b n s0 evs s ->
  has (volflags s) (CKLATCH h) = false ->
  exists s',
    yackctrlkey h (TRUE h) Released s = Some (false, s')
    /\ quiet h st T b n s0 evs s'
    /\ has (volflags s') (CKLATCH h) = false.
Proof.
  intros Hq Hclear. unfold yackctrlkey. cbn [bind]. rewrite Hclear, Z.eqb_refl.
  eexists. split; [reflexivity |].
  split; [| cbn [volflags set_volflags]; apply has_clear_bits].
  destruct Hq as [Hst [HT [Hnext [Hkey [Hb [Hn [Hcl [Hhw Hkeep]]]]]]]].
  unfold quiet, latches_clear. cbn [fsm hw volflags set_volflags].
  repeat (split; [assumption |]).
  split; [apply clear_bits_keeps_zero; exact Hcl |].
  split; [exact Hhw | exact Hkeep].
Qed.

Lemma quiet_beat (st : iambicState_t) (T b n : Z)
    (s0 : yack) (evs : list event) (s : yack) :
  quiet h st T b n s0 evs s ->
  quiet h st T b n s0 (evs ++ [EvBeat]) (yackbeat s).
Proof.
  intros [Hst [HT [Hnext [Hkey [Hb [Hn [Hcl [Hhw Hkeep]]]]]]]].
  unfold quiet, yackbeat, emit, latches_clear.
  cbn [fsm hw volflags set_hw]. rewrite Hhw, <- app_assoc.
  repeat (split; [assumption || reflexivity |]). exact Hkeep.
Qed.

(** The recording loop while nothing is touched and the keyer is idle. *)
Lemma record_loop_silence (k : nat) :
  forall (rest : list (button * (bool * bool))) (extimer T b n : Z)
         (rambuffer : list Z) (s0 : yack) (evs : list event) (s : yack),
    quiet h STATE_IDLE T b n s0 evs s ->
    has (volflags s) (CKLATCH h) = false ->
    0 < RBSIZE h ->
    Z.of_nat k <= extimer < 65536 ->
    exists T' s',
      record_loop h (repeat (Released, (false, false)) k ++ rest)
        extimer 0 rambuffer s
      = record_loop h rest (extimer - Z.of_nat k) 0 rambuffer s'
      /\ quiet h STATE_IDLE T' b n s0 (evs ++ repeat EvBeat k) s'
      /\ has (volflags s') (CKLATCH h) = false.
Proof.
  induction k as [| k IH];
    intros rest extimer T b n rambuffer s0 evs s Hq Hclear Hrb He.
  - exists T, s. replace (extimer - Z.of_nat 0) with extimer by lia.
    rewrite app_nil_r. split; [reflexivity |]. split; assumption.
  - simpl repeat. rewrite <- app_comm_cons.
    rewrite record_loop_cons by lia. cbv zeta.
    destruct (quiet_ctrl_open _ _ _ _ _ _ _ Hq Hclear) as [s1 [E1 [Hq1 L1]]].
    rewrite E1. cbn [bind].
    destruct (quiet_idle_tick (ON h) _ _ _ _ _ _ Hq1) as [s2 [E2 [Hq2 L2']]].
    rewrite E2. cbn [bind].
    change (u8 0 =? 0) with true. cbn [negb].
    destruct (Z.geb_spec 0 (RBSIZE h)) as [Hge | _]; [lia |].
    assert (L2 : has (volflags (yackbeat s2)) (CKLATCH h) = false)
      by (unfold yackbeat, emit; cbn [volflags set_hw]; exact (L2' L1)).
    destruct (IH rest (u16 (extimer - 1)) _ b n rambuffer s0 _ _
                (quiet_beat _ _ _ _ _ _ _ Hq2) L2 Hrb)
      as [T' [s' [E3 [Hq3 L3]]]].
    { rewrite u16_small by lia. lia. }
    exists T', s'. rewrite E3, u16_small by lia.
    split; [f_equal; lia |]. split; [| exact L3].
    rewrite <- app_assoc in Hq3. exact Hq3.
Qed.

End Silence.

(** X23. Recording with nothing keyed: when [yackmessage] in RECORD mode
    finds the keyer idle and neither the command button nor a paddle is
    touched until the time-out of [YACKSECS(DEFTIMEOUT)] heartbeats has run
    down, it sounds the error prosign and returns; the EEPROM, and with it
    the message that was stored before, is unchanged. *)
Theorem record_nothing_keyed :
  forall (h : header) (msgnr : Z) (rambuffer : list Z)
         (rest : list (button * (bool * bool))) (polls : list button)
         (s : yack),
    latches_ok h -> RECORD h <> PLAY h -> 0 < RBSIZE h ->
    iambicState (fsm s) = STATE_IDLE ->
    nextSymbol (fsm s) = SYMBOL_NONE ->
    keystate (fsm s) = 0 ->
    latches_clear h s ->
    has (volflags s) (CKLATCH h) = false ->
    let T := Z.to_nat (u16 (YACKSECS h (DEFTIMEOUT h))) in
    exists s1,
      yackmessage h (RECORD h) msgnr rambuffer
        (repeat (Released, (false, false)) T ++ rest) polls s
      = Some (false, yackerror h s1)
      /\ hw s1 = hw s ++ repeat EvBeat T
      /\ ee (yackerror h s1) = ee s.
Proof.
  intros h msgnr rambuffer rest polls s Hlatch Hrp Hrb Hst Hnext Hkey Hcl
    Hclear T.
  assert (Hq : quiet h STATE_IDLE (timer (fsm s)) (buffer (fsm s))
                 (bufctr (fsm s)) s [] s).
  { unfold quiet. rewrite app_nil_r.
    repeat (split; [assumption || reflexivity |]). apply keeps_refl. }
  pose proof (u16_range (YACKSECS h (DEFTIMEOUT h))) as Hrange.
  destruct (record_loop_silence h Hlatch T rest
              (u16 (YACKSECS h (DEFTIMEOUT h))) _ _ _ rambuffer _ _ _
              Hq Hclear Hrb) as [T' [s1 [E [Hq1 _]]]]; [unfold T; lia |].
  replace (u16 (YACKSECS h (DEFTIMEOUT h)) - Z.of_nat T) with 0 in E
    by (unfold T; lia).
  rewrite record_loop_timeout in E.
  exists s1.
  destruct Hq1 as [_ [_ [_ [_ [_ [_ [_ [Hhw Hkeep]]]]]]]].
  split; [| split].
  - unfold yackmessage. rewrite Z.eqb_refl, E. cbn [bind].
    change (negb (0 =? 0)) with false. cbv iota. cbn [bind].
    apply Z.eqb_neq in Hrp. rewrite Hrp. reflexivity.
  - exact Hhw.
  - destruct (yackerror_log h s1) as [evs ->]. cbn [ee set_hw].
    apply Hkeep.
Qed.

Lemma record_nothing_keyed_witness :
  let T := Z.to_nat (u16 (YACKSECS yack_h (DEFTIMEOUT yack_h))) in
  (latches_ok yack_h /\ RECORD yack_h <> PLAY yack_h /\ 0 < RBSIZE yack_h
   /\ iambicState (fsm started) = STATE_IDLE
   /\ nextSymbol (fsm started) = SYMBOL_NONE
   /\ keystate (fsm started) = 0
   /\ latches_clear yack_h started
   /\ has (volflags started) (CKLATCH yack_h) = false)
  /\ exists s1,
       yackmessage yack_h (RECORD yack_h) 1 (repeat 0 100)
         (repeat (Released, (false, false)) T ++ []) [] started
       = Some (false, yackerror yack_h s1)
       /\ hw s1 = hw started ++ repeat EvBeat T
       /\ ee (yackerror yack_h s1) = ee started.
Proof.
  intros T.
  assert (H1 : latches_ok yack_h)
    by (unfold latches_ok; simpl; repeat split; reflexivity || lia).
  assert (H2 : RECORD yack_h <> PLAY yack_h) by (simpl; lia).
  assert (H3 : 0 < RBSIZE yack_h) by (simpl; lia).
  assert (H4 : iambicState (fsm started) = STATE_IDLE) by reflexivity.
  assert (H5 : nextSymbol (fsm started) = SYMBOL_NONE) by reflexivity.
  assert (H6 : keystate (fsm started) = 0) by reflexivity.
  assert (H7 : latches_clear yack_h started) by reflexivity.
  assert (H8 : has (volflags started) (CKLATCH yack_h) = false)
    by reflexivity.
  split; [repeat split; assumption || apply H1 |].
  exact (record_nothing_keyed yack_h 1 (repeat 0 100) [] [] started
           H1 H2 H3 H4 H5 H6 H7 H8).
Defined.

(** ** The keyer: the gap between words *)

Section WordGap.

Variable h : header.
Hypothesis Hlatch : latches_ok h.

(** The gap between words is over: the space is returned when [ctrl] is
    [ON], and the keyer is idle. *)
Lemma quiet_word_end (ctrl : Z) (T b n : Z)
    (s0 : yack) (evs : list event) (s : yack) :
  quiet h STATE_IWG T b n s0 evs s ->
  dec T = 0 ->
  exists s',
    yackiambic h ctrl false false s
    = Some (if ctrl =? ON h then chr " " else 0, s')
    /\ quiet h STATE_IDLE 0 b n s0 evs s'.
Proof.
  intros Hq Hdec.
  apply (quiet_sample h Hlatch) in Hq. rewrite Hdec in Hq.
  set (t := iambic_sample h false false s) in *.
  destruct Hq as [Hst [HT [Hnext [Hkey [Hb [Hn [Hclear [Hhw Hkeep]]]]]]]].
  unfold yackiambic, iambic_loop, iambic_body. fold t. rewrite Hst.
  unfold iambic_waiting.
  rewrite (waiting_keys_open h) by exact Hkey.
  unfold waiting_timeout. rewrite Hst, HT. fsm_simpl. simpl Z.eqb. cbv iota.
  cbn [bind].
  eexists. split; [reflexivity |].
  unfold quiet; fsm_simpl.
  repeat (split; [assumption || reflexivity |]). exact Hkeep.
Qed.

(** The idle keyer stays idle while the paddles are open. *)
Lemma quiet_idle_run (ctrl : Z) (b n : Z) (s0 : yack) (evs : list event)
    (k : nat) :
  forall (T : Z) (s : yack),
    quiet h STATE_IDLE T b n s0 evs s ->
    exists T' s',
      run h ctrl (repeat (false, false) k) s
      = Some (repeat (0, key_level (hw s0 ++ evs)) k, s')
      /\ quiet h STATE_IDLE T' b n s0 evs s'.
Proof.
  induction k as [| k IH]; intros T s Hq.
  - exists T, s. split; [reflexivity | exact Hq].
  - destruct (quiet_idle_tick h Hlatch ctrl _ _ _ _ _ _ Hq)
      as [s1 [E1 [Hq1 _]]].
    destruct (IH _ _ Hq1) as [T' [s' [E' Hq']]].
    exists T', s'. split; [| exact Hq'].
    simpl repeat. rewrite (run_cons h ctrl _ _ _ _ _ _ E1), E'.
    destruct Hq1 as [_ [_ [_ [_ [_ [_ [_ [-> _]]]]]]]]. reflexivity.
Qed.

End WordGap.

(** X24. The gap between words: from the heartbeat that decodes a
    character, with the paddles left open, the keyer waits
    [(IWGLEN - ICGLEN) * wpmcnt] heartbeats and then returns a space, once,
    if it was called with [ctrl = ON], and nothing if not; from then on it
    is idle and returns nothing for as long as the paddles stay open.  The
    key is not touched. *)
Theorem word_space_follows_character :
  forall (h : header) (ctrl : Z) (s : yack),
    latches_ok h ->
    iambicState (fsm s) = STATE_ICG ->
    timer (fsm s) = 1 ->
    nextSymbol (fsm s) = SYMBOL_NONE ->
    keystate (fsm s) = 0 ->
    latches_clear h s ->
    bufctr (fsm s) <= 7 ->
    let T := Z.to_nat (u16 ((IWGLEN h - ICGLEN h) * wpmcnt s)) in
    let lvl := key_level (hw s) in
    (0 < T)%nat ->
    exists s1 s2,
      yackiambic h ctrl false false s
      = Some (morsechar (closed_pattern (buffer (fsm s)) (bufctr (fsm s))), s1)
      /\ run h ctrl (repeat (false, false) T) s1
         = Some (repeat (0, lvl) (T - 1)
                 ++ [(if ctrl =? ON h then chr " " else 0, lvl)], s2)
      /\ iambicState (fsm s2) = STATE_IDLE
      /\ hw s2 = hw s
      /\ forall k, exists s3,
           run h ctrl (repeat (false, false) k) s2
           = Some (repeat (0, lvl) k, s3)
           /\ iambicState (fsm s3) = STATE_IDLE.
Proof.
  intros h ctrl s Hlatch Hst HT Hnext Hkey Hclear Hn T lvl HT0.
  assert (Hq : quiet h STATE_ICG 1 (buffer (fsm s)) (bufctr (fsm s)) s [] s).
  { unfold quiet. rewrite app_nil_r.
    repeat (split; [assumption || reflexivity |]). apply keeps_refl. }
  assert (Hlvl : key_level (hw s ++ []) = lvl)
    by (rewrite app_nil_r; reflexivity).
  destruct (quiet_character_end h Hlatch ctrl _ _ _ _ _ _ Hq eq_refl Hn)
    as [s1 [E1 Hq1]].
  destruct (quiet_run h Hlatch ctrl STATE_IWG _ _ _ _ (T - 1)
              ltac:(discriminate) _ _ Hq1) as [s1' [E1' Hq1']];
    [unfold T in *; lia |].
  replace (u16 ((IWGLEN h - ICGLEN h) * wpmcnt s) - Z.of_nat (T - 1))
    with 1 in Hq1' by (unfold T in *; lia).
  destruct (quiet_word_end h Hlatch ctrl _ _ _ _ _ _ Hq1' eq_refl)
    as [s2 [E2 Hq2]].
  rewrite Hlvl in E1'.
  exists s1, s2.
  split; [exact E1 |].
  split.
  { replace T with ((T - 1) + 1)%nat at 1 by lia.
    rewrite repeat_app.
    rewrite (run_app h ctrl _ _ _ _ _ E1').
    simpl repeat. rewrite (run_cons h ctrl _ _ _ _ _ _ E2).
    simpl run.
    destruct Hq2 as [_ [_ [_ [_ [_ [_ [_ [-> _]]]]]]]].
    rewrite Hlvl. reflexivity. }
  split; [apply Hq2 |].
  split.
  { destruct Hq2 as [_ [_ [_ [_ [_ [_ [_ [-> _]]]]]]]]. apply app_nil_r. }
  intros k.
  destruct (quiet_idle_run h Hlatch ctrl _ _ _ _ k _ _ Hq2)
    as [T' [s3 [E3 Hq3]]].
  rewrite Hlvl in E3.
  exists s3. split; [exact E3 | apply Hq3].
Qed.

Lemma word_space_follows_character_witness :
  let s := after ((true, false) :: repeat (false, false) 47) in
  let T := Z.to_nat (u16 ((IWGLEN yack_h - ICGLEN yack_h) * wpmcnt s)) in
  let lvl := key_level (hw s) in
  (latches_ok yack_h
   /\ iambicState (fsm s) = STATE_ICG /\ timer (fsm s) = 1
   /\ nextSymbol (fsm s) = SYMBOL_NONE /\ keystate (fsm s) = 0
   /\ latches_clear yack_h s /\ bufctr (fsm s) <= 7 /\ (0 < T)%nat)
  /\ exists s1 s2,
       yackiambic yack_h (ON yack_h) false false s
       = Some (morsechar (closed_pattern (buffer (fsm s)) (bufctr (fsm s))),
               s1)
       /\ run yack_h (ON yack_h) (repeat (false, false) T) s1
          = Some (repeat (0, lvl) (T - 1)
                  ++ [(if ON yack_h =? ON yack_h then chr " " else 0, lvl)],
                  s2)
       /\ iambicState (fsm s2) = STATE_IDLE
       /\ hw s2 = hw s
       /\ forall k, exists s3,
            run yack_h (ON yack_h) (repeat (false, false) k) s2
            = Some (repeat (0, lvl) k, s3)
            /\ iambicState (fsm s3) = STATE_IDLE.
Proof.
  intros s T lvl.
  assert (H1 : latches_ok yack_h)
    by (unfold latches_ok; simpl; repeat split; reflexivity || lia).
  assert (H3 : iambicState (fsm s) = STATE_ICG) by (vm_compute; reflexivity).
  assert (H4 : timer (fsm s) = 1) by (vm_compute; reflexivity).
  assert (H5 : nextSymbol (fsm s) = SYMBOL_NONE) by (vm_compute; reflexivity).
  assert (H6 : keystate (fsm s) = 0) by (vm_compute; reflexivity).
  assert (H7 : latches_clear yack_h s) by (vm_compute; reflexivity).
  assert (H8 : bufctr (fsm s) <= 7) by (vm_compute; discriminate).
  assert (H9 : (0 < T)%nat) by (vm_compute; lia).
  split.
  - repeat (split; [assumption |]). assumption.
  - exact (word_space_follows_character yack_h (ON yack_h) s
             H1 H3 H4 H5 H6 H7 H8 H9).
Defined.

(** ** The keyer: one paddle held *)

Section Held.

Variable h : header.
Hypothesis Hlatch : latches_ok h.
Hypothesis Hud : UP h <> DOWN h.

Variable k : Z.
Variable c : symbol_t.
Hypothesis Hkc : latch_symbol h k c.

Lemma latch_not_0 : (k =? 0) = false.
Proof.
  destruct Hkc as [[-> _] | [-> _]];
    [apply (ditlatch_not_0 h Hlatch) | apply (dahlatch_not_0 h Hlatch)].
Qed.

Lemma latch_not_squeezed : (k =? SQUEEZED h) = false.
Proof.
  destruct Hkc as [[-> _] | [-> _]];
    [apply (ditlatch_not_squeezed h Hlatch)
    | apply (dahlatch_not_squeezed h Hlatch)].
Qed.

Lemma held_sample (dit dah : bool) (st : iambicState_t) (T : Z)
    (s0 : yack) (evs : list event) (s : yack) :
  paddle_state h (swapped h s0) dit dah = k ->
  held h k st c T s0 evs s ->
  held h k st c (dec T) s0 evs (iambic_sample h dit dah s).
Proof.
  intros Hpad [Hst [Hc [HT [Hnx [Hpk [Hkey [Hclear [Hhw Hkeep]]]]]]]].
  destruct (iambic_sample_debounce h Hlatch dit dah s Hclear)
    as [Hf [Hclear' [Hhw' Hkeep']]].
  rewrite (swapped_keeps h _ _ Hkeep), Hpad, (debounce_same h) in Hf
    by exact Hkey.
  pose proof (keeps_trans _ _ _ Hkeep Hkeep') as Hkeep''.
  unfold held. rewrite Hf. fsm_simpl. rewrite HT, Hhw'.
  repeat (split; [assumption || reflexivity |]). exact Hkeep''.
Qed.

Lemma held_wpmcnt (st : iambicState_t) (T : Z)
    (s0 : yack) (evs : list event) (s : yack) :
  held h k st c T s0 evs s -> wpmcnt s = wpmcnt s0.
Proof. intros [_ [_ [_ [_ [_ [_ [_ [_ Hkeep]]]]]]]]. apply Hkeep. Qed.

(** One key is down as it was at the start of the element: nothing to
    note. *)
Lemma track_pressed_one (t : yack) :
  keystate (fsm t) = k ->
  pressedKeys (fsm t) = PRESSED_ONE ->
  track_pressed h t = t.
Proof.
  intros Hk Hpk. unfold track_pressed.
  rewrite Hpk, Hk, latch_not_squeezed, latch_not_0. reflexivity.
Qed.

(** A heartbeat of the element or of the gap, not the last one. *)
Lemma held_tick (ctrl : Z) (dit dah : bool) (st : iambicState_t) (T : Z)
    (s0 : yack) (evs : list event) (s : yack) :
  paddle_state h (swapped h s0) dit dah = k ->
  held h k st c T s0 evs s ->
  st = STATE_DAHDIT \/ st = STATE_IEG ->
  dec T <> 0 ->
  exists s',
    yackiambic h ctrl dit dah s = Some (0, s')
    /\ held h k st c (dec T) s0 evs s'.
Proof.
  intros Hpad Hq Hst Hdec.
  apply (held_sample dit dah _ _ _ _ _ Hpad) in Hq.
  exists (iambic_sample h dit dah s). split; [| exact Hq].
  destruct Hq as [Est [_ [ET [_ [Epk [Ekey _]]]]]].
  unfold yackiambic, iambic_loop, iambic_body.
  assert (Helem : iambic_element h 0 (iambic_sample h dit dah s)
                  = (iambic_sample h dit dah s, 0, false)).
  { unfold iambic_element. cbv zeta.
    rewrite track_pressed_one by assumption.
    rewrite ET. apply Z.eqb_neq in Hdec. rewrite Hdec. reflexivity. }
  rewrite Est. destruct Hst as [-> | ->]; rewrite Helem; reflexivity.
Qed.

(** The element ends: the key goes up and the gap starts. *)
Lemma held_element_end (ctrl : Z) (dit dah : bool) (T : Z)
    (s0 : yack) (evs : list event) (s : yack) :
  paddle_state h (swapped h s0) dit dah = k ->
  held h k STATE_DAHDIT c T s0 evs s ->
  dec T = 0 ->
  exists s',
    yackiambic h ctrl dit dah s = Some (0, s')
    /\ held h k STATE_IEG c (gap_ticks h (wpmcnt s0)) s0
         (evs ++ [EvKeyUp]) s'.
Proof.
  intros Hpad Hq Hdec.
  apply (held_sample dit dah _ _ _ _ _ Hpad) in Hq. rewrite Hdec in Hq.
  set (t := iambic_sample h dit dah s) in *.
  pose proof (held_wpmcnt _ _ _ _ _ Hq) as Hw.
  destruct Hq as [Est [Ec [ET [Enx [Epk [Ekey [Hclear [Hhw Hkeep]]]]]]]].
  unfold yackiambic, iambic_loop, iambic_body. fold t. clearbody t.
  rewrite Est.
  unfold iambic_element. cbv zeta.
  rewrite track_pressed_one by assumption.
  rewrite ET, Est. simpl Z.eqb. cbv iota.
  unfold element_expired. cbv zeta. rewrite Epk. fsm_simpl.
  rewrite key_log, (key_up_events h Hud).
  eexists. split; [reflexivity |].
  unfold held, gap_ticks. fsm_simpl. rewrite Hw, Hhw, <- app_assoc.
  repeat (split; [assumption || reflexivity |]). exact Hkeep.
Qed.

(** The blocks of the end of the gap and of [STATE_DAHDIT_INIT] with one
    paddle down. *)
Lemma resolve_next_one (t : yack) :
  keystate (fsm t) = k ->
  pressedKeys (fsm t) = PRESSED_ONE ->
  resolve_next h t = upd_fsm (set_nextSymbol c) t.
Proof.
  intros Hk Hpk. unfold resolve_next. cbv zeta. rewrite Hpk, Hk.
  destruct Hkc as [[-> ->] | [-> ->]].
  - rewrite Z.eqb_refl. reflexivity.
  - rewrite (dahlatch_not_ditlatch h Hlatch), Z.eqb_refl. reflexivity.
Qed.

Lemma init_pressed_one (t : yack) :
  keystate (fsm t) = k ->
  currentSymbol (fsm t) = c ->
  init_pressed h t = upd_fsm (set_pressedKeys PRESSED_ONE) t.
Proof.
  intros Hk Hc. unfold init_pressed. rewrite Hk, latch_not_squeezed.
  destruct Hkc as [[-> ->] | [-> ->]].
  - rewrite Z.eqb_refl. cbv zeta. fsm_simpl. rewrite Hc. reflexivity.
  - rewrite (dahlatch_not_ditlatch h Hlatch), Z.eqb_refl.
    cbv zeta. fsm_simpl. rewrite Hc. reflexivity.
Qed.

Lemma init_timer_symbol (t : yack) :
  currentSymbol (fsm t) = c ->
  exists t',
    init_timer h t = Some t'
    /\ timer (fsm t') = element_ticks h c (wpmcnt t)
    /\ currentSymbol (fsm t') = c
    /\ nextSymbol (fsm t') = nextSymbol (fsm t)
    /\ keystate (fsm t') = keystate (fsm t)
    /\ volflags t' = volflags t /\ hw t' = hw t
    /\ keeps_settings t t'.
Proof.
  intros Hc.
  destruct Hkc as [[_ Ec] | [_ Ec]]; rewrite Ec in Hc |- *.
  - rewrite (init_timer_dit h t Hc). eexists. split; [reflexivity |].
    unfold element_ticks, keeps_settings. fsm_simpl.
    repeat split; assumption || reflexivity.
  - rewrite (init_timer_dah h t Hc). eexists. split; [reflexivity |].
    unfold element_ticks, keeps_settings. fsm_simpl.
    repeat split; assumption || reflexivity.
Qed.

(** An element that starts with one paddle down. *)
Lemma held_init (retchar : Z) (s0 : yack) (evs : list event) (t : yack) :
  nextSymbol (fsm t) = c ->
  keystate (fsm t) = k ->
  latches_clear h t ->
  hw t = hw s0 ++ evs ->
  keeps_settings s0 t ->
  exists s',
    iambic_init h retchar t = (s', retchar, false)
    /\ held h k STATE_DAHDIT c (element_ticks h c (wpmcnt s0)) s0
         (evs ++ [EvKeyDown]) s'.
Proof.
  intros Enx Ekey Hclear Hhw Hkeep.
  assert (Hw : wpmcnt t = wpmcnt s0) by apply Hkeep.
  unfold iambic_init. cbv zeta.
  assert (Ec1 : currentSymbol (fsm (init_symbol t)) = c) by exact Enx.
  assert (En1 : nextSymbol (fsm (init_symbol t)) = SYMBOL_NONE)
    by reflexivity.
  assert (Ek1 : keystate (fsm (init_symbol t)) = k) by exact Ekey.
  assert (Hv1 : volflags (init_symbol t) = volflags t) by reflexivity.
  assert (Hh1 : hw (init_symbol t) = hw t) by reflexivity.
  assert (Hw1 : wpmcnt (init_symbol t) = wpmcnt t) by reflexivity.
  assert (Hk1 : keeps_settings t (init_symbol t))
    by (repeat split; reflexivity).
  pose proof (keeps_trans _ _ _ Hkeep Hk1) as Hkeep1.
  generalize dependent (init_symbol t).
  intros t1 Ec1 En1 Ek1 Hv1 Hh1 Hw1 _ Hkeep1.
  destruct (init_timer_symbol t1 Ec1)
    as [t2 [E2 [ET2 [Ec2 [En2 [Ek2 [Hv2 [Hh2 Hk2]]]]]]]].
  rewrite E2.
  rewrite Ek1 in Ek2. rewrite En1 in En2.
  pose proof (keeps_trans _ _ _ Hkeep1 Hk2) as Hkeep2.
  rewrite (init_pressed_one t2 Ek2 Ec2).
  rewrite key_log, (key_down_events h Hud).
  eexists. split; [reflexivity |].
  unfold held, latches_clear in *. fsm_simpl.
  rewrite ET2, Hw1, Hw, Hv2, Hv1, Hh2, Hh1, Hhw, <- app_assoc.
  repeat (split; [assumption || reflexivity |]). exact Hkeep2.
Qed.

(** The gap ends with the paddle still down: the same element starts
    again in the same heartbeat. *)
Lemma held_gap_end (ctrl : Z) (dit dah : bool) (T : Z)
    (s0 : yack) (evs : list event) (s : yack) :
  paddle_state h (swapped h s0) dit dah = k ->
  held h k STATE_IEG c T s0 evs s ->
  dec T = 0 ->
  exists s',
    yackiambic h ctrl dit dah s = Some (0, s')
    /\ held h k STATE_DAHDIT c (element_ticks h c (wpmcnt s0)) s0
         (evs ++ [EvKeyDown]) s'.
Proof.
  intros Hpad Hq Hdec.
  apply (held_sample dit dah _ _ _ _ _ Hpad) in Hq. rewrite Hdec in Hq.
  set (t := iambic_sample h dit dah s) in *.
  assert (Hgap : exists t1,
             iambic_body h ctrl 0 t = Some (t1, 0, true)
             /\ iambicState (fsm t1) = STATE_DAHDIT_INIT
             /\ nextSymbol (fsm t1) = c /\ keystate (fsm t1) = k
             /\ latches_clear h t1 /\ hw t1 = hw s0 ++ evs
             /\ keeps_settings s0 t1).
  { clearbody t.
    destruct Hq as [Est [Ec [ET [Enx [Epk [Ekey [Hclear [Hhw Hkeep]]]]]]]].
    unfold iambic_body. rewrite Est.
    unfold iambic_element. cbv zeta.
    rewrite track_pressed_one by assumption.
    rewrite ET, Est. simpl Z.eqb. cbv iota.
    unfold gap_expired. cbv zeta.
    rewrite resolve_next_one by assumption. fsm_simpl.
    destruct Hkc as [[_ Esym] | [_ Esym]]; rewrite Esym; fsm_simpl;
      (eexists; split; [reflexivity |]); fsm_simpl;
      repeat (split; [assumption || reflexivity |]); exact Hkeep. }
  destruct Hgap as [t1 [E1 [Est1 [Enx1 [Ek1 [Hc1 [Hh1 Hkeep1]]]]]]].
  destruct (held_init 0 _ _ _ Enx1 Ek1 Hc1 Hh1 Hkeep1) as [s' [E' Hq']].
  exists s'. split; [| exact Hq'].
  unfold yackiambic. fold t.
  change (iambic_loop h 2 ctrl 0 t)
    with ('(s, retchar, repeatCycle) <- iambic_body h ctrl 0 t ;;
          if repeatCycle : bool then iambic_loop h 1 ctrl retchar s
          else Some (retchar, s)).
  rewrite E1. simpl bind. cbv iota.
  unfold iambic_loop, iambic_body. rewrite Est1, E'. reflexivity.
Qed.

(** The paddle closes while the keyer is idle: the element starts in the
    same heartbeat. *)
Lemma held_start (ctrl : Z) (dit dah : bool) (s : yack) :
  paddle_state h (swapped h s) dit dah = k ->
  iambicState (fsm s) = STATE_IDLE ->
  keystate (fsm s) = 0 ->
  dec (debounceTimer (fsm s)) = 0 ->
  latches_clear h s ->
  exists s',
    yackiambic h ctrl dit dah s = Some (0, s')
    /\ held h k STATE_DAHDIT c (element_ticks h c (wpmcnt s)) s
         [EvKeyDown] s'.
Proof.
  intros Hpad Hst Hkey Hdeb Hclear.
  destruct (iambic_sample_debounce h Hlatch dit dah s Hclear)
    as [Hf [Hclear' [Hhw' Hkeep']]].
  rewrite Hpad in Hf.
  destruct (debounce_sampling h k (fsm s) Hdeb) as [Ek _].
  destruct (debounce_fields h k (fsm s)) as [Dst _].
  rewrite <- Hf in Ek, Dst. rewrite Hst in Dst.
  unfold yackiambic.
  set (t := iambic_sample h dit dah s) in *. clearbody t.
  assert (Hwait : exists t1,
             iambic_body h ctrl 0 t = Some (t1, 0, true)
             /\ iambicState (fsm t1) = STATE_DAHDIT_INIT
             /\ nextSymbol (fsm t1) = c /\ keystate (fsm t1) = k
             /\ latches_clear h t1 /\ hw t1 = hw s ++ []
             /\ keeps_settings s t1).
  { unfold iambic_body. rewrite Dst.
    unfold iambic_waiting, waiting_keys. rewrite Ek, latch_not_0.
    simpl negb. cbv iota.
    rewrite waiting_timeout_init
      by (destruct Hkc as [[-> _] | [-> _]];
          rewrite ?Z.eqb_refl, ?(dahlatch_not_ditlatch h Hlatch);
          reflexivity).
    cbn [bind].
    destruct Hkc as [[Ek' Esym] | [Ek' Esym]]; rewrite Ek', Esym;
      rewrite ?Z.eqb_refl, ?(dahlatch_not_ditlatch h Hlatch);
      (eexists; split; [reflexivity |]); fsm_simpl;
      rewrite ?app_nil_r, <- ?Ek';
      repeat (split; [assumption || reflexivity |]); exact Hkeep'. }
  destruct Hwait as [t1 [E1 [Est1 [Enx1 [Ek1 [Hc1 [Hh1 Hkeep1]]]]]]].
  destruct (held_init 0 _ _ _ Enx1 Ek1 Hc1 Hh1 Hkeep1) as [s' [E' Hq']].
  exists s'. split; [| exact Hq'].
  change (iambic_loop h 2 ctrl 0 t)
    with ('(s, retchar, repeatCycle) <- iambic_body h ctrl 0 t ;;
          if repeatCycle : bool then iambic_loop h 1 ctrl retchar s
          else Some (retchar, s)).
  rewrite E1. simpl bind. cbv iota.
  unfold iambic_loop, iambic_body. rewrite Est1, E'. reflexivity.
Qed.

(** The timer runs down while the paddle stays down. *)
Lemma held_run (ctrl : Z) (dit dah : bool) (st : iambicState_t)
    (s0 : yack) (evs : list event) (n : nat) :
  paddle_state h (swapped h s0) dit dah = k ->
  st = STATE_DAHDIT \/ st = STATE_IEG ->
  forall (T : Z) (s : yack),
    held h k st c T s0 evs s ->
    Z.of_nat n < T ->
    exists s',
      run h ctrl (repeat (dit, dah) n) s
      = Some (repeat (0, key_level (hw s0 ++ evs)) n, s')
      /\ held h k st c (T - Z.of_nat n) s0 evs s'.
Proof.
  intros Hpad Hst. induction n as [| n IH]; intros T s Hq HT.
  - exists s. split; [reflexivity |].
    replace (T - Z.of_nat 0) with T by lia. exact Hq.
  - assert (Hdec : dec T = T - 1) by (apply dec_pos; lia).
    destruct (held_tick ctrl dit dah _ _ _ _ _ Hpad Hq Hst)
      as [s1 [E1 Hq1]]; [lia |].
    rewrite Hdec in Hq1.
    destruct (IH _ _ Hq1) as [s' [E' Hq']]; [lia |].
    exists s'. split.
    + simpl repeat. rewrite (run_cons h ctrl _ _ _ _ _ _ E1), E'.
      destruct Hq1 as [_ [_ [_ [_ [_ [_ [_ [-> _]]]]]]]]. reflexivity.
    + replace (T - Z.of_nat (S n)) with (T - 1 - Z.of_nat n) by lia.
      exact Hq'.
Qed.

(** One element with the paddle held, its gap, and the heartbeat that
    starts the same element again. *)
Lemma held_element (ctrl : Z) (dit dah : bool)
    (s0 : yack) (evs : list event) (s : yack) :
  paddle_state h (swapped h s0) dit dah = k ->
  held h k STATE_DAHDIT c (element_ticks h c (wpmcnt s0)) s0 evs s ->
  key_level (hw s0 ++ evs) = true ->
  0 < element_ticks h c (wpmcnt s0) ->
  0 < gap_ticks h (wpmcnt s0) ->
  exists s',
    run h ctrl
      (repeat (dit, dah) (List.length (repetition h (wpmcnt s0) c 1))) s
    = Some (repetition h (wpmcnt s0) c 1, s')
    /\ held h k STATE_DAHDIT c (element_ticks h c (wpmcnt s0)) s0
         (evs ++ [EvKeyUp; EvKeyDown]) s'.
Proof.
  intros Hpad Hq Hlvl HT HG.
  set (T := element_ticks h c (wpmcnt s0)) in *.
  set (G := gap_ticks h (wpmcnt s0)) in *.
  set (k1 := (Z.to_nat T - 1)%nat).
  set (k2 := (Z.to_nat G - 1)%nat).
  assert (EG : Z.to_nat G = S k2) by (unfold k2; lia).
  destruct (held_run ctrl dit dah STATE_DAHDIT s0 evs k1 Hpad
              (or_introl eq_refl) T s Hq)
    as [s1 [E1 Hq1]]; [unfold k1; lia |].
  replace (T - Z.of_nat k1) with 1 in Hq1 by (unfold k1; lia).
  destruct (held_element_end ctrl dit dah _ _ _ _ Hpad Hq1 eq_refl)
    as [s2 [E2 Hq2]].
  fold G in Hq2.
  destruct (held_run ctrl dit dah STATE_IEG s0 (evs ++ [EvKeyUp]) k2 Hpad
              (or_intror eq_refl) G s2 Hq2)
    as [s3 [E3 Hq3]]; [unfold k2; lia |].
  replace (G - Z.of_nat k2) with 1 in Hq3 by (unfold k2; lia).
  destruct (held_gap_end ctrl dit dah _ _ _ _ Hpad Hq3 eq_refl)
    as [s4 [E4 Hq4]].
  rewrite <- app_assoc in Hq4.
  exists s4. split; [| exact Hq4].
  assert (Eh2 : key_level (hw s2) = false).
  { destruct Hq2 as [_ [_ [_ [_ [_ [_ [_ [-> _]]]]]]]].
    rewrite app_assoc. apply key_level_up. }
  assert (Eh4 : key_level (hw s4) = true).
  { destruct Hq4 as [_ [_ [_ [_ [_ [_ [_ [-> _]]]]]]]].
    change [EvKeyUp; EvKeyDown] with ([EvKeyUp] ++ [EvKeyDown]).
    rewrite !app_assoc. apply key_level_down. }
  cbn [repetition]. fold T G k1. rewrite app_nil_r, EG.
  rewrite !length_app, !repeat_length. cbn [List.length].
  replace (k1 + (S k2 + 1))%nat with (k1 + (1 + (k2 + 1)))%nat by lia.
  rewrite !repeat_app.
  rewrite (run_app h ctrl _ _ _ _ _ E1).
  change (repeat (dit, dah) 1 ++ repeat (dit, dah) k2
          ++ repeat (dit, dah) 1)
    with ((dit, dah) :: repeat (dit, dah) k2 ++ [(dit, dah)]).
  rewrite (run_cons h ctrl _ _ _ _ _ _ E2).
  rewrite (run_app h ctrl _ _ _ _ _ E3).
  rewrite (run_cons h ctrl _ _ _ _ _ _ E4).
  simpl run. rewrite Hlvl, Eh2, Eh4.
  rewrite (app_assoc (hw s0)), key_level_up.
  change (repeat (0, false) (S k2)) with ((0, false) :: repeat (0, false) k2).
  reflexivity.
Qed.

Lemma repetition_S (w : Z) (n : nat) :
  repetition h w c (S n) = repetition h w c 1 ++ repetition h w c n.
Proof. cbn [repetition]. rewrite app_nil_r, <- !app_assoc. reflexivity. Qed.

Lemma held_elements (ctrl : Z) (dit dah : bool) (s0 : yack) (n : nat) :
  paddle_state h (swapped h s0) dit dah = k ->
  0 < element_ticks h c (wpmcnt s0) ->
  0 < gap_ticks h (wpmcnt s0) ->
  forall (evs : list event) (s : yack),
    held h k STATE_DAHDIT c (element_ticks h c (wpmcnt s0)) s0 evs s ->
    key_level (hw s0 ++ evs) = true ->
    exists s',
      run h ctrl
        (repeat (dit, dah) (List.length (repetition h (wpmcnt s0) c n))) s
      = Some (repetition h (wpmcnt s0) c n, s')
      /\ hw s' = hw s0 ++ evs
                 ++ List.concat (repeat [EvKeyUp; EvKeyDown] n).
Proof.
  intros Hpad HT HG.
  induction n as [| n IH]; intros evs s Hq Hlvl.
  - exists s. split; [reflexivity |].
    simpl. rewrite app_nil_r. apply Hq.
  - destruct (held_element ctrl dit dah _ _ _ Hpad Hq Hlvl HT HG)
      as [s1 [E1 Hq1]].
    assert (Hlvl1 : key_level (hw s0 ++ evs ++ [EvKeyUp; EvKeyDown]) = true).
    { change [EvKeyUp; EvKeyDown] with ([EvKeyUp] ++ [EvKeyDown]).
      rewrite !app_assoc. apply key_level_down. }
    destruct (IH _ _ Hq1 Hlvl1) as [s' [E' Hhw']].
    exists s'. split.
    + rewrite (repetition_S (wpmcnt s0) n).
      rewrite length_app, repeat_app.
      rewrite (run_app h ctrl _ _ _ _ _ E1), E'. reflexivity.
    + rewrite Hhw'. simpl repeat. rewrite concat_cons, <- !app_assoc.
      reflexivity.
Qed.

End Held.

(** X25.  A single paddle that closes while the keyer is idle and stays
    closed: the first heartbeat starts the element of that paddle (a dit for
    the one key state, a dah for the other, whichever contact the swap flag
    assigns to it), and from there the keyer sends that element over and
    over, each at its full length and followed by a gap of [IEGLEN] dot
    lengths, for as long as the paddle is held.  No call returns a
    character, and the key goes down and up once per element. *)
Theorem held_paddle_repeats :
  forall (h : header) (ctrl : Z) (dit dah : bool) (k : Z) (c : symbol_t)
         (s : yack) (n : nat),
    latches_ok h ->
    UP h <> DOWN h ->
    latch_symbol h k c ->
    paddle_state h (swapped h s) dit dah = k ->
    iambicState (fsm s) = STATE_IDLE ->
    keystate (fsm s) = 0 ->
    dec (debounceTimer (fsm s)) = 0 ->
    latches_clear h s ->
    0 < element_ticks h c (wpmcnt s) ->
    0 < gap_ticks h (wpmcnt s) ->
    exists s',
      run h ctrl
        (repeat (dit, dah) (1 + List.length (repetition h (wpmcnt s) c n))) s
      = Some ((0, true) :: repetition h (wpmcnt s) c n, s')
      /\ hw s' = hw s ++ EvKeyDown
                 :: List.concat (repeat [EvKeyUp; EvKeyDown] n).
Proof.
  intros h ctrl dit dah k c s n Hlatch Hud Hkc Hpad Hst Hkey Hdeb Hclear
    HT HG.
  destruct (held_start h Hlatch Hud k c Hkc ctrl dit dah s
              Hpad Hst Hkey Hdeb Hclear) as [s1 [E1 Hq1]].
  assert (Hlvl : key_level (hw s ++ [EvKeyDown]) = true)
    by apply key_level_down.
  destruct (held_elements h Hlatch Hud k c Hkc ctrl dit dah s n Hpad HT HG
              _ _ Hq1 Hlvl) as [s' [E' Hhw']].
  exists s'. split.
  - change (repeat (dit, dah) (1 + ?m)) with ((dit, dah) :: repeat (dit, dah) m).
    rewrite (run_cons h ctrl _ _ _ _ _ _ E1), E'.
    destruct Hq1 as [_ [_ [_ [_ [_ [_ [_ [-> _]]]]]]]].
    rewrite Hlvl. reflexivity.
  - rewrite Hhw'. reflexivity.
Qed.

Lemma held_paddle_repeats_witness :
  let h := yack_h in
  let s := started in
  (latches_ok h /\ UP h <> DOWN h
   /\ latch_symbol h (DAHLATCH h) SYMBOL_DAH
   /\ paddle_state h (swapped h s) false true = DAHLATCH h
   /\ iambicState (fsm s) = STATE_IDLE /\ keystate (fsm s) = 0
   /\ dec (debounceTimer (fsm s)) = 0 /\ latches_clear h s
   /\ 0 < element_ticks h SYMBOL_DAH (wpmcnt s)
   /\ 0 < gap_ticks h (wpmcnt s))
  /\ exists s',
       run h (ON h)
         (repeat (false, true)
            (1 + List.length (repetition h (wpmcnt s) SYMBOL_DAH 3))) s
       = Some ((0, true) :: repetition h (wpmcnt s) SYMBOL_DAH 3, s')
       /\ hw s' = hw s ++ EvKeyDown
                  :: List.concat (repeat [EvKeyUp; EvKeyDown] 3).
Proof.
  intros h s.
  assert (H1 : latches_ok h)
    by (unfold latches_ok; simpl; repeat split; reflexivity || lia).
  assert (H2 : UP h <> DOWN h) by discriminate.
  assert (H3 : latch_symbol h (DAHLATCH h) SYMBOL_DAH)
    by (right; split; reflexivity).
  assert (H4 : paddle_state h (swapped h s) false true = DAHLATCH h)
    by (vm_compute; reflexivity).
  assert (H5 : iambicState (fsm s) = STATE_IDLE) by (vm_compute; reflexivity).
  assert (H6 : keystate (fsm s) = 0) by (vm_compute; reflexivity).
  assert (H7 : dec (debounceTimer (fsm s)) = 0) by (vm_compute; reflexivity).
  assert (H8 : latches_clear h s) by (vm_compute; reflexivity).
  assert (H9 : 0 < element_ticks h SYMBOL_DAH (wpmcnt s))
    by (vm_compute; reflexivity).
  assert (H10 : 0 < gap_ticks h (wpmcnt s)) by (vm_compute; reflexivity).
  split.
  - repeat (split; [assumption |]). assumption.
  - exact (held_paddle_repeats h (ON h) false true (DAHLATCH h) SYMBOL_DAH
             s 3 H1 H2 H3 H4 H5 H6 H7 H8 H9 H10).
Defined.

(** ** The keyer: the paddle swap flag *)

Section Swap.

Variable h : header.

(** What a block does to a state whose flags byte is replaced. *)
Ltac flags_simpl :=
  cbv zeta; fsm_simpl;
  cbn [fsm set_fsm upd_fsm hw set_hw emit volflags set_volflags yackflags
       set_yackflags wpmcnt ctcvalue wpm farnsworth ee].

Ltac flags_cases :=
  flags_simpl;
  repeat first
    [ reflexivity
    | match goal with
      | |- context [if ?b then _ else _] => destruct b
      | |- context [match ?x with _ => _ end] => destruct x
      end; flags_simpl ].

Lemma set_bits_comm (v a b : Z) :
  set_bits (set_bits v a) b = set_bits (set_bits v b) a.
Proof.
  apply Z.bits_inj'. intros n Hn.
  rewrite !set_bits_testbit by exact Hn.
  destruct (n <? 8), (Z.testbit v n), (Z.testbit a n), (Z.testbit b n);
    reflexivity.
Qed.

Lemma keylatch_swapped (F : Z) (dit dah : bool) (s : yack) :
  (Z.land F (PDLSWAP h) =? 0)
  = negb (Z.land (yackflags s) (PDLSWAP h) =? 0) ->
  keylatch h dah dit (set_yackflags F s)
  = set_yackflags F (keylatch h dit dah s).
Proof.
  intros HF. unfold keylatch. cbv zeta.
  cbn [yackflags set_yackflags volflags set_volflags]. rewrite HF.
  destruct (Z.land (yackflags s) (PDLSWAP h) =? 0), dit, dah;
    cbn [negb yackflags set_yackflags volflags set_volflags];
    try reflexivity;
    unfold set_yackflags, set_volflags;
    cbn [yackflags volflags ctcvalue wpmcnt wpm farnsworth ee fsm hw];
    rewrite set_bits_comm; reflexivity.
Qed.

Lemma iambic_sample_swapped (F : Z) (dit dah : bool) (s : yack) :
  (Z.land F (PDLSWAP h) =? 0)
  = negb (Z.land (yackflags s) (PDLSWAP h) =? 0) ->
  iambic_sample h dah dit (set_yackflags F s)
  = set_yackflags F (iambic_sample h dit dah s).
Proof.
  intros HF. unfold iambic_sample. cbv zeta.
  change (upd_fsm ?g (upd_fsm ?g' (set_yackflags F s)))
    with (set_yackflags F (upd_fsm g (upd_fsm g' s))).
  set (t := upd_fsm _ (upd_fsm _ s)).
  assert (Ht : yackflags t = yackflags s) by reflexivity.
  clearbody t.
  change (debounceTimer (fsm (set_yackflags F t)))
    with (debounceTimer (fsm t)).
  destruct (debounceTimer (fsm t) =? 0); [| reflexivity].
  rewrite keylatch_swapped by (rewrite Ht; exact HF).
  set (t1 := keylatch h dit dah t). clearbody t1.
  cbn [fsm set_yackflags volflags].
  destruct (negb (keystate (fsm t1) =? Z.land (volflags t1) (SQUEEZED h)));
    reflexivity.
Qed.

Lemma waiting_keys_flags (F : Z) (s : yack) :
  waiting_keys h (set_yackflags F s)
  = (set_yackflags F (fst (waiting_keys h s)), snd (waiting_keys h s)).
Proof. unfold waiting_keys. flags_cases. Qed.

Lemma character_done_flags (F : Z) (s : yack) :
  character_done h (set_yackflags F s)
  = match character_done h s with
    | Some (t, c) => Some (set_yackflags F t, c)
    | None => None
    end.
Proof. unfold character_done. flags_cases. Qed.

Lemma waiting_timeout_flags (F ctrl retchar : Z) (s : yack) :
  waiting_timeout h ctrl retchar (set_yackflags F s)
  = match waiting_timeout h ctrl retchar s with
    | Some (t, c) => Some (set_yackflags F t, c)
    | None => None
    end.
Proof.
  unfold waiting_timeout. cbn [fsm set_yackflags].
  destruct (_ && _); [| reflexivity].
  destruct (iambicState (fsm s)); try reflexivity.
  apply character_done_flags.
Qed.

Lemma iambic_waiting_flags (F ctrl retchar : Z) (s : yack) :
  iambic_waiting h ctrl retchar (set_yackflags F s)
  = match iambic_waiting h ctrl retchar s with
    | Some (t, c, b) => Some (set_yackflags F t, c, b)
    | None => None
    end.
Proof.
  unfold iambic_waiting. rewrite waiting_keys_flags.
  destruct (waiting_keys h s) as [t b]. cbn [fst snd].
  rewrite waiting_timeout_flags.
  destruct (waiting_timeout h ctrl retchar t) as [[t1 c1] |]; reflexivity.
Qed.

Lemma init_symbol_flags (F : Z) (s : yack) :
  init_symbol (set_yackflags F s) = set_yackflags F (init_symbol s).
Proof. reflexivity. Qed.

Lemma init_timer_flags (F : Z) (s : yack) :
  init_timer h (set_yackflags F s)
  = match init_timer h s with
    | Some t => Some (set_yackflags F t)
    | None => None
    end.
Proof. unfold init_timer. flags_cases. Qed.

Lemma init_pressed_flags (F : Z) (s : yack) :
  Z.land F (MODE h) = Z.land (yackflags s) (MODE h) ->
  init_pressed h (set_yackflags F s) = set_yackflags F (init_pressed h s).
Proof.
  intros HF. unfold init_pressed. cbv zeta.
  cbn [fsm set_fsm upd_fsm yackflags set_yackflags]. rewrite HF.
  frame_cases; reflexivity.
Qed.

Lemma key_flags (F mode : Z) (s : yack) :
  key h mode (set_yackflags F s) = set_yackflags F (key h mode s).
Proof. unfold key. flags_cases. Qed.

Lemma iambic_init_flags (F retchar : Z) (s : yack) :
  Z.land F (MODE h) = Z.land (yackflags s) (MODE h) ->
  iambic_init h retchar (set_yackflags F s)
  = (set_yackflags F (fst (fst (iambic_init h retchar s))),
     snd (fst (iambic_init h retchar s)), snd (iambic_init h retchar s)).
Proof.
  intros HF. unfold iambic_init. cbv zeta.
  rewrite init_symbol_flags, init_timer_flags.
  assert (Hk : forall t, init_timer h (init_symbol s) = Some t ->
                         yackflags t = yackflags s).
  { unfold init_timer.
    destruct (currentSymbol (fsm (init_symbol s))); intros t E;
      try discriminate; injection E as <-; reflexivity. }
  destruct (init_timer h (init_symbol s)) as [t |]; [| reflexivity].
  rewrite init_pressed_flags, key_flags; [reflexivity |].
  rewrite (Hk t eq_refl). exact HF.
Qed.

Lemma track_pressed_flags (F : Z) (s : yack) :
  track_pressed h (set_yackflags F s) = set_yackflags F (track_pressed h s).
Proof. unfold track_pressed. flags_cases. Qed.

Lemma element_expired_flags (F : Z) (s : yack) :
  element_expired h (set_yackflags F s)
  = set_yackflags F (element_expired h s).
Proof.
  unfold element_expired. cbv zeta.
  cbn [fsm set_yackflags].
  destruct (pressedKeys (fsm s));
    change (upd_fsm ?g (upd_fsm ?g' (set_yackflags F s)))
      with (set_yackflags F (upd_fsm g (upd_fsm g' s)));
    rewrite key_flags; reflexivity.
Qed.

Lemma resolve_next_flags (F : Z) (s : yack) :
  resolve_next h (set_yackflags F s) = set_yackflags F (resolve_next h s).
Proof.
  unfold resolve_next. cbv zeta. cbn [fsm set_yackflags].
  destruct (pressedKeys (fsm s));
    try (destruct (keystate (fsm s) =? DITLATCH h);
         [| destruct (keystate (fsm s) =? DAHLATCH h)]);
    fsm_simpl; cbn [fsm set_yackflags]; try reflexivity;
    destruct (nextSymbol (fsm s)); try reflexivity;
    destruct (currentSymbol (fsm s)); reflexivity.
Qed.

Lemma gap_expired_flags (F : Z) (s : yack) :
  gap_expired h (set_yackflags F s)
  = (set_yackflags F (fst (gap_expired h s)), snd (gap_expired h s)).
Proof.
  unfold gap_expired. cbv zeta. rewrite resolve_next_flags.
  set (t := resolve_next h s). clearbody t.
  cbn [fsm set_yackflags]. destruct (nextSymbol (fsm t)); reflexivity.
Qed.

Lemma iambic_element_flags (F retchar : Z) (s : yack) :
  iambic_element h retchar (set_yackflags F s)
  = (set_yackflags F (fst (fst (iambic_element h retchar s))),
     snd (fst (iambic_element h retchar s)),
     snd (iambic_element h retchar s)).
Proof.
  unfold iambic_element. cbv zeta. rewrite track_pressed_flags.
  set (t := track_pressed h s). clearbody t.
  cbn [fsm set_yackflags].
  destruct (timer (fsm t) =? 0); [| reflexivity].
  destruct (iambicState (fsm t));
    rewrite ?element_expired_flags, ?gap_expired_flags;
    try reflexivity;
    destruct (gap_expired h t); reflexivity.
Qed.

Lemma iambic_body_flags (F ctrl retchar : Z) (s : yack) :
  Z.land F (MODE h) = Z.land (yackflags s) (MODE h) ->
  iambic_body h ctrl retchar (set_yackflags F s)
  = match iambic_body h ctrl retchar s with
    | Some (t, c, b) => Some (set_yackflags F t, c, b)
    | None => None
    end.
Proof.
  intros HF. unfold iambic_body. cbn [fsm set_yackflags].
  destruct (iambicState (fsm s));
    rewrite ?iambic_waiting_flags, ?iambic_element_flags,
      ?(iambic_init_flags F retchar s HF);
    try reflexivity.
  - destruct (iambic_init h retchar s) as [[t c] b]. reflexivity.
  - destruct (iambic_element h retchar s) as [[t c] b]. reflexivity.
  - destruct (iambic_element h retchar s) as [[t c] b]. reflexivity.
Qed.

Lemma iambic_loop_flags (F ctrl : Z) (fuel : nat) :
  forall (retchar : Z) (s : yack),
    Z.land F (MODE h) = Z.land (yackflags s) (MODE h) ->
    iambic_loop h fuel ctrl retchar (set_yackflags F s)
    = match iambic_loop h fuel ctrl retchar s with
      | Some (c, t) => Some (c, set_yackflags F t)
      | None => None
      end.
Proof.
  induction fuel as [| k IH]; intros retchar s HF; [reflexivity |].
  cbn [iambic_loop]. rewrite (iambic_body_flags F ctrl retchar s HF).
  destruct (iambic_body h ctrl retchar s) as [[[t c] b] |] eqn:E;
    [| reflexivity].
  cbn [bind]. destruct b; [| reflexivity].
  apply IH. apply iambic_body_keeps in E. destruct E as [-> _]. exact HF.
Qed.

Lemma yackiambic_swapped (F ctrl : Z) (dit dah : bool) (s : yack) :
  Z.land F (MODE h) = Z.land (yackflags s) (MODE h) ->
  (Z.land F (PDLSWAP h) =? 0)
  = negb (Z.land (yackflags s) (PDLSWAP h) =? 0) ->
  yackiambic h ctrl dah dit (set_yackflags F s)
  = match yackiambic h ctrl dit dah s with
    | Some (c, t) => Some (c, set_yackflags F t)
    | None => None
    end.
Proof.
  intros HM HS. unfold yackiambic.
  rewrite (iambic_sample_swapped F dit dah s HS).
  apply iambic_loop_flags.
  destruct (iambic_sample_keeps h dit dah s) as [-> _]. exact HM.
Qed.

End Swap.

(** X26.  The paddle swap flag exchanges the two paddles and does nothing
    else: with the [PDLSWAP] bit of the flags inverted (and the keyer mode
    bits as they were) the keyer does with the DIT contact what it did with
    the DAH contact and the other way round.  Call for call it returns the
    same characters and keys the same elements, and it fails to return
    where it failed before. *)
Theorem swap_flag_exchanges_paddles :
  forall (h : header) (ctrl F : Z) (paddles : list (bool * bool)) (s : yack),
    Z.land F (MODE h) = Z.land (yackflags s) (MODE h) ->
    swapped h (set_yackflags F s) = negb (swapped h s) ->
    run h ctrl (map (fun p => (snd p, fst p)) paddles) (set_yackflags F s)
    = match run h ctrl paddles s with
      | Some (out, t) => Some (out, set_yackflags F t)
      | None => None
      end.
Proof.
  intros h ctrl F paddles.
  induction paddles as [| [dit dah] rest IH]; intros s HM HS;
    [reflexivity |].
  assert (HS' : (Z.land F (PDLSWAP h) =? 0)
                = negb (Z.land (yackflags s) (PDLSWAP h) =? 0)).
  { unfold swapped in HS. cbn [yackflags set_yackflags] in HS.
    destruct (Z.land F (PDLSWAP h) =? 0),
      (Z.land (yackflags s) (PDLSWAP h) =? 0); simpl in HS |- *;
      congruence. }
  cbn [map fst snd run].
  rewrite (yackiambic_swapped h F ctrl dit dah s HM HS').
  destruct (yackiambic h ctrl dit dah s) as [[c t] |] eqn:E; [| reflexivity].
  cbn [bind].
  apply yackiambic_keeps in E. destruct E as [Ef _].
  rewrite IH.
  - destruct (run h ctrl rest t) as [[out t'] |]; reflexivity.
  - rewrite Ef. exact HM.
  - unfold swapped in *. cbn [yackflags set_yackflags] in *.
    rewrite Ef. exact HS.
Qed.

Lemma swap_flag_exchanges_paddles_witness :
  let h := yack_h in
  let F := Z.lxor (FLAGDEFAULT h) (PDLSWAP h) in
  let paddles := (true, false) :: repeat (true, true) 40
                 ++ repeat (false, true) 70 ++ repeat (false, false) 200 in
  (Z.land F (MODE h) = Z.land (yackflags started) (MODE h)
   /\ swapped h (set_yackflags F started) = negb (swapped h started))
  /\ run h (ON h) (map (fun p => (snd p, fst p)) paddles)
       (set_yackflags F started)
     = match run h (ON h) paddles started with
       | Some (out, t) => Some (out, set_yackflags F t)
       | None => None
       end.
Proof.
  intros h F paddles.
  assert (H1 : Z.land F (MODE h) = Z.land (yackflags started) (MODE h))
    by (vm_compute; reflexivity).
  assert (H2 : swapped h (set_yackflags F started)
               = negb (swapped h started))
    by (vm_compute; reflexivity).
  split; [split; assumption |].
  exact (swap_flag_exchanges_paddles h (ON h) F paddles started H1 H2).
Defined.

(** ** The keyer: the key and the state machine *)

Lemma level_after_app (lvl : bool) (a b : list event) :
  level_after lvl (a ++ b) = level_after (level_after lvl a) b.
Proof. unfold level_after. apply fold_left_app. Qed.

Lemma key_alternates_app (a b : list event) :
  forall lvl,
    key_alternates lvl (a ++ b)
    = key_alternates lvl a && key_alternates (level_after lvl a) b.
Proof.
  induction a as [| e a IH]; intros lvl; [reflexivity |].
  destruct e; cbn [app key_alternates]; rewrite IH;
    rewrite ?andb_assoc; reflexivity.
Qed.

Section KeyLine.

Variable h : header.
Hypothesis Hud : UP h <> DOWN h.

Lemma keyed_refl (s t : yack) : hw t = hw s -> keyed s t.
Proof. intros E. exists []. rewrite app_nil_r. split; [exact E | reflexivity]. Qed.

Lemma keyed_trans (s t u : yack) : keyed s t -> keyed t u -> keyed s u.
Proof.
  intros [a [Ea Ha]] [b [Eb Hb]]. exists (a ++ b). split.
  - rewrite Eb, Ea, app_assoc. reflexivity.
  - rewrite key_alternates_app, Ha. cbn [andb].
    rewrite Ea in Hb. unfold key_level in Hb.
    change (fold_left ?f (hw s ++ a) false)
      with (level_after false (hw s ++ a)) in Hb.
    rewrite level_after_app in Hb. exact Hb.
Qed.

Lemma follows_up (s t : yack) :
  key_follows s ->
  hw t = hw s ->
  iambicState (fsm s) <> STATE_DAHDIT ->
  iambicState (fsm t) <> STATE_DAHDIT ->
  key_follows t.
Proof.
  unfold key_follows. intros Hs E Hn Hn'. rewrite E, Hs.
  destruct (iambicState (fsm s)), (iambicState (fsm t));
    reflexivity || contradiction.
Qed.

Lemma iambic_sample_key (dit dah : bool) (s : yack) :
  hw (iambic_sample h dit dah s) = hw s
  /\ iambicState (fsm (iambic_sample h dit dah s)) = iambicState (fsm s).
Proof.
  unfold iambic_sample, keylatch. cbv zeta. unfold upd_fsm.
  frame_cases; split; reflexivity.
Qed.

Lemma waiting_keys_key (s : yack) :
  hw (fst (waiting_keys h s)) = hw s
  /\ (iambicState (fsm s) <> STATE_DAHDIT ->
      iambicState (fsm (fst (waiting_keys h s))) <> STATE_DAHDIT).
Proof.
  unfold waiting_keys. unfold upd_fsm.
  frame_cases; split; try reflexivity; cbn; intros; discriminate || auto.
Qed.

Lemma waiting_timeout_key (ctrl retchar : Z) (s t : yack) (c : Z) :
  waiting_timeout h ctrl retchar s = Some (t, c) ->
  hw t = hw s
  /\ (iambicState (fsm s) <> STATE_DAHDIT ->
      iambicState (fsm t) <> STATE_DAHDIT).
Proof.
  unfold waiting_timeout.
  destruct (_ && _).
  - destruct (iambicState (fsm s)) eqn:Est;
      try (intros E; injection E as <- _; rewrite Est; split; auto;
           discriminate).
    + unfold character_done. cbv zeta. destruct (7 - _ <? 0); [discriminate |].
      intros E. injection E as <- _. split; [reflexivity | discriminate].
    + intros E. injection E as <- _. split; [reflexivity | discriminate].
  - intros E; injection E as <- _. auto.
Qed.

Lemma iambic_waiting_key (ctrl retchar : Z) (s t : yack) (c : Z) (b : bool) :
  iambic_waiting h ctrl retchar s = Some (t, c, b) ->
  hw t = hw s
  /\ (iambicState (fsm s) <> STATE_DAHDIT ->
      iambicState (fsm t) <> STATE_DAHDIT).
Proof.
  unfold iambic_waiting.
  destruct (waiting_keys_key s) as [H1 H1'].
  destruct (waiting_keys h s) as [s1 rep]. cbn [fst] in H1, H1'.
  destruct (waiting_timeout h ctrl retchar s1) as [[s2 c2] |] eqn:E2;
    [| discriminate].
  cbn [bind]. intros E. injection E as <- _ _.
  destruct (waiting_timeout_key _ _ _ _ _ E2) as [H2 H2'].
  split; [rewrite H2; exact H1 | auto].
Qed.

Lemma iambic_init_key (retchar : Z) (s : yack) :
  (hw (fst (fst (iambic_init h retchar s))) = hw s ++ [EvKeyDown]
   /\ iambicState (fsm (fst (fst (iambic_init h retchar s)))) = STATE_DAHDIT)
  \/ (hw (fst (fst (iambic_init h retchar s))) = hw s
      /\ iambicState (fsm (fst (fst (iambic_init h retchar s))))
         = STATE_IDLE).
Proof.
  unfold iambic_init. cbv zeta.
  assert (H1 : hw (init_symbol s) = hw s) by reflexivity.
  revert H1. generalize (init_symbol s). intros s1 H1.
  destruct (init_timer h s1) as [s2 |] eqn:E2.
  - left. cbn [fst].
    assert (H2 : hw s2 = hw s1).
    { revert E2. unfold init_timer.
      destruct (currentSymbol (fsm s1)); try discriminate;
        intros E; injection E as <-; reflexivity. }
    assert (H3 : hw (init_pressed h s2) = hw s2).
    { unfold init_pressed. unfold upd_fsm. frame_cases; reflexivity. }
    rewrite key_log, (key_down_events h Hud).
    cbn [fsm hw set_hw upd_fsm set_fsm iambicState set_iambicState].
    rewrite H3, H2, H1. split; reflexivity.
  - right. cbn [fst]. split; [exact H1 | reflexivity].
Qed.

Lemma track_pressed_key (s : yack) :
  hw (track_pressed h s) = hw s
  /\ iambicState (fsm (track_pressed h s)) = iambicState (fsm s).
Proof.
  unfold track_pressed. unfold upd_fsm. frame_cases; split; reflexivity.
Qed.

Lemma element_expired_key (s : yack) :
  hw (element_expired h s) = hw s ++ [EvKeyUp]
  /\ iambicState (fsm (element_expired h s)) = STATE_IEG.
Proof.
  unfold element_expired. cbv zeta.
  rewrite key_log, (key_up_events h Hud).
  destruct (pressedKeys (fsm s)); split; reflexivity.
Qed.

Lemma gap_expired_key (s : yack) :
  hw (fst (gap_expired h s)) = hw s
  /\ iambicState (fsm (fst (gap_expired h s))) <> STATE_DAHDIT.
Proof.
  unfold gap_expired. cbv zeta.
  assert (H1 : hw (resolve_next h s) = hw s).
  { unfold resolve_next. cbv zeta. unfold upd_fsm.
    frame_cases; reflexivity. }
  revert H1. generalize (resolve_next h s). intros t H1.
  destruct (nextSymbol (fsm t)); cbn [fst]; (split; [exact H1 | discriminate]).
Qed.

(** One cycle of the loop keeps the key in step with the state. *)
Lemma iambic_body_key (ctrl retchar : Z) (s t : yack) (c : Z) (b : bool) :
  key_follows s ->
  iambic_body h ctrl retchar s = Some (t, c, b) ->
  key_follows t /\ keyed s t.
Proof.
  intros Hs. unfold iambic_body.
  assert (Hwait : iambicState (fsm s) <> STATE_DAHDIT ->
                  iambic_waiting h ctrl retchar s = Some (t, c, b) ->
                  key_follows t /\ keyed s t).
  { intros Hn E. destruct (iambic_waiting_key _ _ _ _ _ _ E) as [H1 H2].
    split; [| apply keyed_refl; exact H1].
    apply (follows_up s t Hs H1 Hn (H2 Hn)). }
  assert (Hinit : iambicState (fsm s) = STATE_DAHDIT_INIT ->
                  Some (iambic_init h retchar s) = Some (t, c, b) ->
                  key_follows t /\ keyed s t).
  { intros Est E.
    assert (Et : t = fst (fst (iambic_init h retchar s)))
      by (injection E as E; rewrite E; reflexivity).
    assert (Hup : key_level (hw s) = false)
      by (unfold key_follows in Hs; rewrite Hs, Est; reflexivity).
    destruct (iambic_init_key retchar s) as [[H1 H2] | [H1 H2]];
      rewrite <- Et in H1, H2.
    - split.
      + unfold key_follows. rewrite H1, H2, key_level_down. reflexivity.
      + exists [EvKeyDown]. split; [exact H1 |]. rewrite Hup. reflexivity.
    - split; [| apply keyed_refl; exact H1].
      apply (follows_up s t Hs H1); [rewrite Est | rewrite H2]; discriminate. }
  assert (Helem : iambicState (fsm s) = STATE_DAHDIT
                  \/ iambicState (fsm s) = STATE_IEG ->
                  Some (iambic_element h retchar s) = Some (t, c, b) ->
                  key_follows t /\ keyed s t).
  { intros Est. unfold iambic_element. cbv zeta.
    destruct (track_pressed_key s) as [H1 H1'].
    revert H1 H1'. generalize (track_pressed h s). intros s1 H1 H1'.
    destruct (timer (fsm s1) =? 0).
    - destruct Est as [Est | Est]; rewrite Est in H1'; rewrite H1'.
      + intros E. injection E as <- _ _.
        destruct (element_expired_key s1) as [H2 H2'].
        assert (Hdown : key_level (hw s) = true)
          by (unfold key_follows in Hs; rewrite Hs, Est; reflexivity).
        split.
        * unfold key_follows. rewrite H2, H2', key_level_up. reflexivity.
        * exists [EvKeyUp]. split; [rewrite H2, H1; reflexivity |].
          rewrite Hdown. reflexivity.
      + destruct (gap_expired_key s1) as [H2 H2'].
        destruct (gap_expired h s1) as [s2 rep]. cbn [fst] in H2, H2'.
        intros E. injection E as <- _ _.
        assert (H3 : hw s2 = hw s) by (rewrite H2; exact H1).
        split; [| apply keyed_refl; exact H3].
        apply (follows_up s s2 Hs H3); [rewrite Est; discriminate | exact H2'].
    - intros E. injection E as <- _ _.
      split; [| apply keyed_refl; exact H1].
      unfold key_follows in *. rewrite H1, H1'. exact Hs. }
  destruct (iambicState (fsm s)) eqn:Est; intros E;
    first [ apply Hwait; [discriminate | exact E]
          | apply Hinit; [reflexivity | exact E]
          | apply Helem; [auto | exact E] ].
Qed.

Lemma iambic_loop_key (ctrl : Z) (fuel : nat) :
  forall (retchar : Z) (s t : yack) (c : Z),
    key_follows s ->
    iambic_loop h fuel ctrl retchar s = Some (c, t) ->
    key_follows t /\ keyed s t.
Proof.
  induction fuel as [| k IH]; intros retchar s t c Hs E; [discriminate |].
  cbn [iambic_loop] in E.
  destruct (iambic_body h ctrl retchar s) as [[[s1 c1] b1] |] eqn:E1;
    [| discriminate].
  cbn [bind] in E.
  destruct (iambic_body_key _ _ _ _ _ _ Hs E1) as [Hs1 Hk1].
  destruct b1.
  - destruct (IH _ _ _ _ Hs1 E) as [Ht Hk]. split; [exact Ht |].
    apply (keyed_trans _ _ _ Hk1 Hk).
  - injection E as _ <-. split; assumption.
Qed.

Lemma yackiambic_key (ctrl : Z) (dit dah : bool) (s t : yack) (c : Z) :
  key_follows s ->
  yackiambic h ctrl dit dah s = Some (c, t) ->
  key_follows t /\ keyed s t.
Proof.
  intros Hs E. unfold yackiambic in E.
  destruct (iambic_sample_key dit dah s) as [H1 H2].
  assert (Hs1 : key_follows (iambic_sample h dit dah s))
    by (unfold key_follows in *; rewrite H1, H2; exact Hs).
  destruct (iambic_loop_key _ _ _ _ _ _ Hs1 E) as [Ht Hk].
  split; [exact Ht |].
  apply (keyed_trans s _ t (keyed_refl _ _ H1) Hk).
Qed.

End KeyLine.

(** X27.  The key and the state machine stay in step.  If the key is down
    exactly when the keyer is in [STATE_DAHDIT] (as after [yackinit]), then
    whatever the paddles do this is so again after every call of
    [yackiambic]; and the keyer never keys down a key that is down or
    releases one that is up: the [key(DOWN)] and [key(UP)] calls of any run
    alternate. *)
Theorem key_follows_state :
  forall (h : header) (ctrl : Z) (paddles : list (bool * bool))
         (s s' : yack) (out : list (Z * bool)),
    UP h <> DOWN h ->
    key_follows s ->
    run h ctrl paddles s = Some (out, s') ->
    key_follows s'
    /\ exists evs,
         hw s' = hw s ++ evs
         /\ key_alternates (key_level (hw s)) evs = true.
Proof.
  intros h ctrl paddles s s' out Hud Hs E.
  change (key_follows s' /\ keyed s s').
  revert s out Hs E.
  induction paddles as [| [dit dah] rest IH]; intros s out Hs E.
  - injection E as _ <-. split; [exact Hs | apply keyed_refl; reflexivity].
  - cbn [run] in E.
    destruct (yackiambic h ctrl dit dah s) as [[c s1] |] eqn:E1;
      [| discriminate].
    cbn [bind] in E.
    destruct (run h ctrl rest s1) as [[out1 s2] |] eqn:E2; [| discriminate].
    cbn [bind] in E. injection E as _ <-.
    destruct (yackiambic_key h Hud _ _ _ _ _ _ Hs E1) as [Hs1 Hk1].
    destruct (IH _ _ Hs1 E2) as [Hs2 Hk2].
    split; [exact Hs2 | apply (keyed_trans _ _ _ Hk1 Hk2)].
Qed.

Lemma key_follows_state_witness :
  let h := yack_h in
  let paddles := repeat (true, false) 17 in
  let out := repeat (0, true) 16 ++ [(0, false)] in
  (UP h <> DOWN h /\ key_follows started
   /\ run h (ON h) paddles started = Some (out, after paddles))
  /\ key_follows (after paddles)
  /\ exists evs,
       hw (after paddles) = hw started ++ evs
       /\ key_alternates (key_level (hw started)) evs = true.
Proof.
  intros h paddles out.
  assert (H1 : UP h <> DOWN h) by discriminate.
  assert (H2 : key_follows started) by (vm_compute; reflexivity).
  assert (H3 : run h (ON h) paddles started = Some (out, after paddles))
    by (vm_compute; reflexivity).
  split; [split; [exact H1 | split; [exact H2 | exact H3]] |].
  exact (key_follows_state h (ON h) paddles started (after paddles) out
           H1 H2 H3).
Defined.

(** ** The keyer: from the end of an element to the decoded character *)

Section Gap.

Variable h : header.
Hypothesis Hlatch : latches_ok h.
Hypothesis Hud : UP h <> DOWN h.

Lemma same_clock_timing (st : iambicState_t) (T b n : Z)
    (s0 : yack) (evs : list event) (t t' : yack) :
  same_clock t t' ->
  timing h st T b n s0 evs t -> timing h st T b n s0 evs t'.
Proof.
  intros [C1 [C2 [C3 [C4 [_ [_ [_ [C5 [C6 C7]]]]]]]]]
         [Hst [HT [Hb [Hn [Hclear [Hhw Hkeep]]]]]].
  unfold timing, latches_clear in *.
  rewrite C1, C2, C3, C4, C5, C6.
  repeat (split; [assumption |]). eapply keeps_trans; eassumption.
Qed.

Lemma track_pressed_clock (t : yack) : same_clock t (track_pressed h t).
Proof.
  unfold same_clock, track_pressed, upd_fsm, keeps_settings.
  frame_cases; repeat split; reflexivity.
Qed.

Lemma resolve_next_clock (t : yack) : same_clock t (resolve_next h t).
Proof.
  unfold resolve_next. cbv zeta.
  match goal with
  | |- same_clock t (match nextSymbol (fsm ?u) with _ => _ end) =>
      assert (Hu : same_clock t u)
        by (unfold same_clock, upd_fsm, keeps_settings;
            frame_cases; repeat split; reflexivity);
      revert Hu; generalize u
  end.
  intros u Hu.
  pose proof Hu as [C1 [C2 [C3 [C4 [C5 [C6 [C7 [C8 [C9 C10]]]]]]]]].
  assert (Hset : forall nx, same_clock t (upd_fsm (set_nextSymbol nx) u)).
  { intros nx. unfold same_clock, upd_fsm. fsm_simpl.
    cbn [fsm set_fsm iambicState timer buffer bufctr keystate debounceTimer
         currentSymbol set_nextSymbol volflags hw].
    repeat (split; [assumption |]).
    eapply keeps_trans; [exact C10 |]. repeat split; reflexivity. }
  destruct (nextSymbol (fsm u)); try exact Hu.
  destruct (currentSymbol (fsm u)); apply Hset.
Qed.

(** The head of [yackiambic], whatever the paddles are. *)
Lemma timing_sample (dit dah : bool) (st : iambicState_t) (T b n : Z)
    (s0 : yack) (evs : list event) (s : yack) :
  timing h st T b n s0 evs s ->
  timing h st (dec T) b n s0 evs (iambic_sample h dit dah s).
Proof.
  intros [Hst [HT [Hb [Hn [Hclear [Hhw Hkeep]]]]]].
  destruct (iambic_sample_debounce h Hlatch dit dah s Hclear)
    as [Hf [Hclear' [Hhw' Hkeep']]].
  destruct (debounce_fields h (paddle_state h (swapped h s) dit dah) (fsm s))
    as [D1 [_ [_ [_ [D2 [D3 [D4 _]]]]]]].
  rewrite <- Hf in D1, D2, D3, D4.
  unfold timing. rewrite D1, D2, D3, D4, Hst, HT, Hb, Hn, Hhw'.
  repeat (split; [assumption || reflexivity |]).
  eapply keeps_trans; eassumption.
Qed.

(** A heartbeat of an element or of the gap behind it, not the last one:
    nothing is returned and the key is not touched, whatever the paddles
    are. *)
Lemma timing_tick (ctrl : Z) (dit dah : bool) (st : iambicState_t)
    (T b n : Z) (s0 : yack) (evs : list event) (s s' : yack) (c : Z) :
  timing h st T b n s0 evs s ->
  st = STATE_DAHDIT \/ st = STATE_IEG ->
  dec T <> 0 ->
  yackiambic h ctrl dit dah s = Some (c, s') ->
  c = 0 /\ timing h st (dec T) b n s0 evs s'.
Proof.
  intros Hq Hst Hdec E.
  apply (timing_sample dit dah) in Hq.
  unfold yackiambic in E. revert Hq E.
  generalize (iambic_sample h dit dah s). intros t Hq E.
  apply (same_clock_timing _ _ _ _ _ _ _ _ (track_pressed_clock t)) in Hq.
  assert (Helem : iambic_element h 0 t = (track_pressed h t, 0, false)).
  { unfold iambic_element. cbv zeta.
    destruct Hq as [_ [-> _]]. apply Z.eqb_neq in Hdec. rewrite Hdec.
    reflexivity. }
  assert (Est : iambicState (fsm t) = st).
  { destruct (track_pressed_clock t) as [<- _]. apply Hq. }
  cbn [iambic_loop] in E. unfold iambic_body in E. rewrite Est in E.
  destruct Hst as [-> | ->]; rewrite Helem in E; cbn [bind] in E;
    injection E as <- <-; split; [reflexivity | exact Hq | reflexivity
                                 | exact Hq].
Qed.

(** The element ends: the key goes up and the gap starts, whatever the
    paddles are. *)
Lemma timing_element_end (ctrl : Z) (dit dah : bool) (T b n : Z)
    (s0 : yack) (evs : list event) (s s' : yack) (c : Z) :
  timing h STATE_DAHDIT T b n s0 evs s ->
  dec T = 0 ->
  yackiambic h ctrl dit dah s = Some (c, s') ->
  c = 0
  /\ timing h STATE_IEG (u16 (IEGLEN h * wpmcnt s0)) b n s0
       (evs ++ [EvKeyUp]) s'.
Proof.
  intros Hq Hdec E.
  apply (timing_sample dit dah) in Hq. rewrite Hdec in Hq.
  unfold yackiambic in E. revert Hq E.
  generalize (iambic_sample h dit dah s). intros t Hq E.
  apply (same_clock_timing _ _ _ _ _ _ _ _ (track_pressed_clock t)) in Hq.
  assert (Est : iambicState (fsm t) = STATE_DAHDIT).
  { destruct (track_pressed_clock t) as [<- _]. apply Hq. }
  cbn [iambic_loop] in E. unfold iambic_body in E. rewrite Est in E.
  unfold iambic_element in E. cbv zeta in E.
  revert Hq E. generalize (track_pressed h t).
  intros t1 [Hst [HT [Hb [Hn [Hclear [Hhw Hkeep]]]]]] E.
  rewrite HT, Hst in E. simpl Z.eqb in E. cbv iota in E. cbn [bind] in E.
  injection E as <- <-. split; [reflexivity |].
  assert (Hw : wpmcnt t1 = wpmcnt s0) by apply Hkeep.
  unfold element_expired. cbv zeta.
  rewrite key_log, (key_up_events h Hud).
  unfold timing, latches_clear in *.
  destruct (pressedKeys (fsm t1)); fsm_simpl;
    rewrite Hw, Hhw, <- app_assoc;
    repeat (split; [assumption || reflexivity |]);
    (eapply keeps_trans; [exact Hkeep | repeat split; reflexivity]).
Qed.

(** The gap ends with no next symbol chosen: the gap between characters
    starts with one dot less than the rest of the standard gap. *)
Lemma timing_gap_end (ctrl : Z) (dit dah : bool) (T b n : Z)
    (s0 : yack) (evs : list event) (s s' : yack) (c : Z) :
  timing h STATE_IEG T b n s0 evs s ->
  dec T = 0 ->
  yackiambic h ctrl dit dah s = Some (c, s') ->
  iambicState (fsm s') = STATE_ICG ->
  c = 0
  /\ nextSymbol (fsm s') = SYMBOL_NONE
  /\ timing h STATE_ICG (u16 ((ICGLEN h - IEGLEN h - 1) * wpmcnt s0)) b n
       s0 evs s'.
Proof.
  intros Hq Hdec E Hicg.
  apply (timing_sample dit dah) in Hq. rewrite Hdec in Hq.
  unfold yackiambic in E. revert Hq E.
  generalize (iambic_sample h dit dah s). intros t Hq E.
  apply (same_clock_timing _ _ _ _ _ _ _ _ (track_pressed_clock t)) in Hq.
  assert (Est : iambicState (fsm t) = STATE_IEG).
  { destruct (track_pressed_clock t) as [<- _]. apply Hq. }
  change (iambic_loop h 2 ctrl 0 t)
    with ('(s, retchar, repeatCycle) <- iambic_body h ctrl 0 t ;;
          if repeatCycle : bool then iambic_loop h 1 ctrl retchar s
          else Some (retchar, s)) in E.
  unfold iambic_body in E at 1. rewrite Est in E.
  unfold iambic_element in E. cbv zeta in E.
  revert Hq E. generalize (track_pressed h t). intros t1 Hq E.
  pose proof Hq as [Hst [HT _]].
  rewrite HT, Hst in E. simpl Z.eqb in E. cbv iota in E.
  unfold gap_expired in E. cbv zeta in E.
  apply (same_clock_timing _ _ _ _ _ _ _ _ (resolve_next_clock t1)) in Hq.
  revert Hq E. generalize (resolve_next h t1).
  intros t2 [Hst2 [HT2 [Hb [Hn [Hclear [Hhw Hkeep]]]]]] E.
  assert (Hw : wpmcnt t2 = wpmcnt s0) by apply Hkeep.
  destruct (nextSymbol (fsm t2)) eqn:Enx; cbn [bind] in E.
  1: { injection E as <- <-. split; [reflexivity |].
       split; [exact Enx |].
       unfold timing, latches_clear in *. fsm_simpl. rewrite Hw.
       repeat (split; [assumption || reflexivity |]).
       eapply keeps_trans; [exact Hkeep | repeat split; reflexivity]. }
  all: exfalso; cbn [iambic_loop] in E; unfold iambic_body in E;
    fsm_simpl; cbn [bind] in E;
    match type of E with
    | context [iambic_init h ?r ?u] =>
        destruct (iambic_init_key h Hud r u) as [[_ Hi] | [_ Hi]];
        destruct (iambic_init h r u) as [[u1 c1] b1]
    end;
    cbn [fst] in Hi; cbn [bind] in E;
    destruct b1; cbn [iambic_loop] in E; try discriminate;
    injection E as _ <-; rewrite Hi in Hicg; discriminate.
Qed.

(** The gap runs down, whatever the paddles are. *)
Lemma timing_run (ctrl : Z) (b n : Z) (s0 : yack) (evs : list event)
    (gap : list (bool * bool)) :
  forall (T : Z) (s s' : yack) (out : list (Z * bool)),
    timing h STATE_IEG T b n s0 evs s ->
    Z.of_nat (List.length gap) < T ->
    run h ctrl gap s = Some (out, s') ->
    out = repeat (0, key_level (hw s0 ++ evs)) (List.length gap)
    /\ timing h STATE_IEG (T - Z.of_nat (List.length gap)) b n s0 evs s'.
Proof.
  induction gap as [| [dit dah] gap IH]; intros T s s' out Hq HT E.
  - injection E as <- <-. split; [reflexivity |].
    replace (T - Z.of_nat (List.length (@nil (bool * bool)))) with T
      by (simpl; lia).
    exact Hq.
  - cbn [List.length] in HT |- *.
    cbn [run] in E.
    destruct (yackiambic h ctrl dit dah s) as [[c s1] |] eqn:E1;
      [| discriminate].
    cbn [bind] in E.
    destruct (run h ctrl gap s1) as [[out1 s2] |] eqn:E2; [| discriminate].
    cbn [bind] in E. injection E as <- <-.
    assert (Hdec : dec T = T - 1) by (apply dec_pos; lia).
    destruct (timing_tick ctrl dit dah _ _ _ _ _ _ _ _ _ Hq
                (or_intror eq_refl) ltac:(lia) E1) as [-> Hq1].
    rewrite Hdec in Hq1.
    destruct (IH _ _ _ _ Hq1 ltac:(lia) E2) as [-> Hq2].
    split.
    + destruct Hq1 as [_ [_ [_ [_ [_ [-> _]]]]]]. reflexivity.
    + replace (T - Z.of_nat (S (List.length gap)))
        with (T - 1 - Z.of_nat (List.length gap)) by lia.
      exact Hq2.
Qed.

(** A heartbeat of an element or of a gap between elements always
    returns. *)
Lemma timing_total (ctrl : Z) (dit dah : bool) (st : iambicState_t)
    (T b n : Z) (s0 : yack) (evs : list event) (s : yack) :
  timing h st T b n s0 evs s ->
  st = STATE_DAHDIT \/ st = STATE_IEG ->
  exists c s', yackiambic h ctrl dit dah s = Some (c, s').
Proof.
  intros Hq Hst.
  apply (timing_sample dit dah) in Hq. destruct Hq as [Est _].
  unfold yackiambic. revert Est.
  generalize (iambic_sample h dit dah s). intros t Est.
  change (iambic_loop h 2 ctrl 0 t)
    with ('(s, retchar, repeatCycle) <- iambic_body h ctrl 0 t ;;
          if repeatCycle : bool then iambic_loop h 1 ctrl retchar s
          else Some (retchar, s)).
  assert (Hbody : iambic_body h ctrl 0 t = Some (iambic_element h 0 t)).
  { unfold iambic_body. rewrite Est. destruct Hst as [-> | ->]; reflexivity. }
  destruct (iambic_element h 0 t) as [[t1 c1] b1] eqn:Eel.
  rewrite Hbody. cbn [bind].
  destruct b1; [| eexists; eexists; reflexivity].
  apply (repeat_enters_init h) in Hbody.
  cbn [iambic_loop]. unfold iambic_body. rewrite Hbody.
  destruct (iambic_init h c1 t1) as [[t2 c2] b2] eqn:Ein.
  assert (Hb2 : b2 = false).
  { revert Ein. unfold iambic_init. cbv zeta.
    destruct (init_timer h (init_symbol t1)); intros E;
      injection E as _ _ <-; reflexivity. }
  subst b2. cbn [bind]. eexists; eexists; reflexivity.
Qed.

Lemma timing_run_total (ctrl : Z) (b n : Z) (s0 : yack) (evs : list event)
    (gap : list (bool * bool)) :
  forall (T : Z) (s : yack),
    timing h STATE_IEG T b n s0 evs s ->
    Z.of_nat (List.length gap) < T ->
    exists out s', run h ctrl gap s = Some (out, s').
Proof.
  induction gap as [| [dit dah] gap IH]; intros T s Hq HT.
  - exists [], s. reflexivity.
  - cbn [List.length] in HT.
    destruct (timing_total ctrl dit dah _ _ _ _ _ _ _ Hq (or_intror eq_refl))
      as [c [s1 E1]].
    destruct (timing_tick ctrl dit dah _ _ _ _ _ _ _ _ _ Hq
                (or_intror eq_refl) ltac:(rewrite dec_pos; lia) E1)
      as [-> Hq1].
    destruct (IH _ _ Hq1 ltac:(rewrite dec_pos; lia)) as [out [s' E']].
    rewrite (run_cons h ctrl _ _ _ _ _ _ E1), E'.
    eexists; eexists; reflexivity.
Qed.

End Gap.

(** The character gap with the paddles open from the heartbeat at which
    the key goes up, as the keyer runs through it. *)
Lemma open_paddles_boundary :
  forall (h : header) (ctrl : Z) (s : yack),
    latches_ok h -> UP h <> DOWN h ->
    iambicState (fsm s) = STATE_DAHDIT ->
    timer (fsm s) = 1 ->
    nextSymbol (fsm s) = SYMBOL_NONE ->
    keystate (fsm s) = 0 ->
    latches_clear h s ->
    bufctr (fsm s) <= 7 ->
    let T1 := u16 (IEGLEN h * wpmcnt s) in
    let T2 := u16 ((ICGLEN h - IEGLEN h - 1) * wpmcnt s) in
    0 < T1 -> 0 < T2 ->
    exists s1 s2 s',
      (* the key goes up *)
      yackiambic h ctrl false false s = Some (0, s1)
      /\ hw s1 = hw s ++ [EvKeyUp]
      /\ iambicState (fsm s1) = STATE_IEG /\ timer (fsm s1) = T1
      (* the gap after the element *)
      /\ run h ctrl (repeat (false, false) (Z.to_nat T1)) s1
         = Some (repeat (0, false) (Z.to_nat T1), s2)
      /\ iambicState (fsm s2) = STATE_ICG /\ timer (fsm s2) = T2
      (* the gap between characters, as far as the keyer waits for it *)
      /\ run h ctrl (repeat (false, false) (Z.to_nat T2)) s2
         = Some (repeat (0, false) (Z.to_nat T2 - 1)
                 ++ [(morsechar (closed_pattern (buffer (fsm s))
                                   (bufctr (fsm s))), false)], s')
      /\ iambicState (fsm s') = STATE_IWG
      /\ hw s' = hw s ++ [EvKeyUp].
Proof.
  intros h ctrl s Hlatch Hud Hst HT Hnext Hkey Hclear Hn T1 T2 HT1 HT2.
  assert (Hq : quiet h STATE_DAHDIT 1 (buffer (fsm s)) (bufctr (fsm s))
                 s [] s).
  { unfold quiet. rewrite app_nil_r.
    repeat (split; [assumption || reflexivity |]). apply keeps_refl. }
  assert (Hlvl : key_level (hw s ++ [] ++ key_events h (UP h)) = false).
  { rewrite (key_up_events h Hud). unfold key_level.
    rewrite fold_left_app. reflexivity. }
  (* the key goes up *)
  destruct (quiet_element_end h Hlatch ctrl _ _ _ _ _ _ Hq eq_refl)
    as [s1 [E1 Hq1]].
  fold T1 in Hq1.
  (* the gap after the element runs down to its last heartbeat *)
  destruct (quiet_run h Hlatch ctrl STATE_IEG _ _ _ _ (Z.to_nat T1 - 1)
              ltac:(discriminate) _ _ Hq1) as [s1' [E1' Hq1']]; [lia |].
  replace (T1 - Z.of_nat (Z.to_nat T1 - 1)) with 1 in Hq1' by lia.
  destruct (quiet_gap_end h Hlatch ctrl _ _ _ _ _ _ Hq1' eq_refl)
    as [s2 [E2 Hq2]].
  fold T2 in Hq2.
  (* the gap between characters *)
  destruct (quiet_run h Hlatch ctrl STATE_ICG _ _ _ _ (Z.to_nat T2 - 1)
              ltac:(discriminate) _ _ Hq2) as [s2' [E2' Hq2']]; [lia |].
  replace (T2 - Z.of_nat (Z.to_nat T2 - 1)) with 1 in Hq2' by lia.
  destruct (quiet_character_end h Hlatch ctrl _ _ _ _ _ _ Hq2' eq_refl Hn)
    as [s' [E3 Hq3]].
  rewrite Hlvl in E1', E2'.
  exists s1, s2, s'.
  split; [exact E1 |].
  split; [destruct Hq1 as [_ [_ [_ [_ [_ [_ [_ [-> _]]]]]]]];
          rewrite (key_up_events h Hud); reflexivity |].
  split; [apply Hq1 |]. split; [apply Hq1 |].
  split.
  { replace (Z.to_nat T1) with ((Z.to_nat T1 - 1) + 1)%nat at 1 2 by lia.
    rewrite !repeat_app.
    rewrite (run_app h ctrl _ _ _ _ _ E1').
    simpl repeat. rewrite (run_cons h ctrl _ _ _ _ _ _ E2).
    simpl run.
    destruct Hq2 as [_ [_ [_ [_ [_ [_ [_ [-> _]]]]]]]].
    rewrite Hlvl. reflexivity. }
  split; [apply Hq2 |]. split; [apply Hq2 |].
  split.
  { replace (Z.to_nat T2) with ((Z.to_nat T2 - 1) + 1)%nat at 1 by lia.
    rewrite repeat_app.
    rewrite (run_app h ctrl _ _ _ _ _ E2').
    simpl repeat. rewrite (run_cons h ctrl _ _ _ _ _ _ E3).
    simpl run.
    destruct Hq3 as [_ [_ [_ [_ [_ [_ [_ [-> _]]]]]]]].
    rewrite Hlvl. reflexivity. }
  split; [apply Hq3 |].
  destruct Hq3 as [_ [_ [_ [_ [_ [_ [_ [-> _]]]]]]]].
  rewrite (key_up_events h Hud). reflexivity.
Qed.



(** ** The keyer: a character keyed one paddle at a time *)

Section Keying.

Variable h : header.
Hypothesis Hlatch : latches_ok h.
Hypothesis Hud : UP h <> DOWN h.

Lemma latch_of_symbol (e : bool) :
  latch_symbol h (latch_of h e) (keyed_symbol e).
Proof. destruct e; [right | left]; split; reflexivity. Qed.

Lemma paddle_of_state (swap e : bool) :
  paddle_state h swap (fst (paddle_of swap e)) (snd (paddle_of swap e))
  = latch_of h e.
Proof.
  unfold paddle_state, paddle_of, latch_of.
  destruct swap, e; cbn [xorb fst snd];
    rewrite ?Z.lor_0_r, ?Z.lor_0_l; reflexivity.
Qed.

Lemma holdoff_range : 0 <= holdoff h.
Proof. unfold holdoff. apply u16_range. Qed.

Lemma element_ticks_range (c : symbol_t) (w : Z) : 0 <= element_ticks h c w.
Proof. unfold element_ticks. destruct c; apply u16_range. Qed.

Lemma init_pressed_clock (t : yack) : same_clock t (init_pressed h t).
Proof.
  unfold same_clock, init_pressed, upd_fsm, keeps_settings.
  frame_cases; repeat split; reflexivity.
Qed.

(** The start of an element shifts the buffer and counts, with no test. *)
Lemma init_shifts (r : Z) (e : bool) (t : yack) :
  nextSymbol (fsm t) = keyed_symbol e ->
  buffer (fsm (fst (fst (iambic_init h r t)))) = shifted (buffer (fsm t)) e
  /\ bufctr (fsm (fst (fst (iambic_init h r t)))) = u8 (bufctr (fsm t) + 1)
  /\ debounceTimer (fsm (fst (fst (iambic_init h r t))))
     = debounceTimer (fsm t).
Proof.
  intros Hnx. unfold iambic_init. cbv zeta.
  assert (H1 : currentSymbol (fsm (init_symbol t)) = keyed_symbol e)
    by exact Hnx.
  assert (H2 : buffer (fsm (init_symbol t)) = u8 (Z.shiftl (buffer (fsm t)) 1))
    by reflexivity.
  assert (H3 : bufctr (fsm (init_symbol t)) = u8 (bufctr (fsm t) + 1))
    by reflexivity.
  assert (H4 : debounceTimer (fsm (init_symbol t)) = debounceTimer (fsm t))
    by reflexivity.
  revert H1 H2 H3 H4. generalize (init_symbol t). intros t1 H1 H2 H3 H4.
  assert (Hp : forall u,
             buffer (fsm (upd_fsm (set_iambicState STATE_DAHDIT)
                            (key h (DOWN h) (init_pressed h u))))
             = buffer (fsm u)
             /\ bufctr (fsm (upd_fsm (set_iambicState STATE_DAHDIT)
                               (key h (DOWN h) (init_pressed h u))))
                = bufctr (fsm u)
             /\ debounceTimer (fsm (upd_fsm (set_iambicState STATE_DAHDIT)
                                      (key h (DOWN h) (init_pressed h u))))
                = debounceTimer (fsm u)).
  { intros u. rewrite key_log.
    destruct (init_pressed_clock u) as [_ [_ [C3 [C4 [_ [C6 _]]]]]].
    fsm_simpl. cbn [set_hw fsm bufctr debounceTimer buffer].
    rewrite C3, C4, C6. repeat split; reflexivity. }
  destruct e; cbn [keyed_symbol] in H1.
  - rewrite (init_timer_dah h t1 H1). cbn [fst].
    destruct (Hp (upd_fsm (fun f => set_buffer (u8 (Z.lor (buffer f) 1)) f)
                    (upd_fsm (set_timer (u16 (DAHLEN h * wpmcnt t1))) t1)))
      as [-> [-> ->]].
    fsm_simpl. cbn [debounceTimer set_buffer set_timer bufctr].
    rewrite H2, H3, H4. repeat split; reflexivity.
  - rewrite (init_timer_dit h t1 H1). cbn [fst].
    destruct (Hp (upd_fsm (set_timer (u16 (DITLEN h * wpmcnt t1))) t1))
      as [-> [-> ->]].
    fsm_simpl. cbn [debounceTimer set_buffer set_timer bufctr].
    rewrite H2, H3, H4. repeat split; reflexivity.
Qed.

(** The head of [yackiambic] when the hold-off is over: the key state
    follows the paddles. *)
Lemma sample_fields (dit dah : bool) (s : yack) :
  latches_clear h s ->
  dec (debounceTimer (fsm s)) = 0 ->
  exists t,
    iambic_sample h dit dah s = t
    /\ keystate (fsm t) = paddle_state h (swapped h s) dit dah
    /\ debounceTimer (fsm t)
       = (if keystate (fsm s) =? paddle_state h (swapped h s) dit dah
          then 0 else holdoff h)
    /\ iambicState (fsm t) = iambicState (fsm s)
    /\ currentSymbol (fsm t) = currentSymbol (fsm s)
    /\ nextSymbol (fsm t) = nextSymbol (fsm s)
    /\ pressedKeys (fsm t) = pressedKeys (fsm s)
    /\ buffer (fsm t) = buffer (fsm s)
    /\ bufctr (fsm t) = bufctr (fsm s)
    /\ timer (fsm t) = dec (timer (fsm s))
    /\ latches_clear h t
    /\ hw t = hw s
    /\ keeps_settings s t.
Proof.
  intros Hclear Hdeb.
  destruct (iambic_sample_debounce h Hlatch dit dah s Hclear)
    as [Hf [Hclear' [Hhw' Hkeep']]].
  destruct (debounce_sampling h (paddle_state h (swapped h s) dit dah)
              (fsm s) Hdeb) as [Ek Ed].
  destruct (debounce_fields h (paddle_state h (swapped h s) dit dah) (fsm s))
    as [D1 [D2 [D3 [D4 [D5 [D6 [D7 _]]]]]]].
  rewrite <- Hf in Ek, Ed, D1, D2, D3, D4, D5, D6, D7.
  exists (iambic_sample h dit dah s).
  repeat (split; [assumption || reflexivity |]). assumption.
Qed.

Variable ctrl : Z.
Variable s0 : yack.
Hypothesis Hhold : holdoff h <= gap_ticks h (wpmcnt s0).
Hypothesis Hgap : 0 < gap_ticks h (wpmcnt s0).

Lemma sending_settings (e : bool) (st : iambicState_t) (T b n : Z)
    (evs : list event) (s : yack) :
  sending h e st T b n s0 evs s ->
  swapped h s = swapped h s0 /\ wpmcnt s = wpmcnt s0 /\ latches_clear h s
  /\ keystate (fsm s) = latch_of h e
  /\ hw s = hw s0 ++ evs.
Proof.
  intros [[_ [_ [_ [_ [_ [Hk [Hc [Hhw Hkeep]]]]]]]] _].
  split; [apply (swapped_keeps h _ _ Hkeep) |].
  split; [apply Hkeep |]. repeat split; assumption.
Qed.

(** A heartbeat of the element or of its gap, not the last one, with the
    paddle of the element down. *)
Lemma sending_tick (e : bool) (st : iambicState_t) (T b n : Z)
    (evs : list event) (s : yack) :
  sending h e st T b n s0 evs s ->
  st = STATE_DAHDIT \/ st = STATE_IEG ->
  1 < T ->
  exists s',
    yackiambic h ctrl (fst (paddle_of (swapped h s0) e))
      (snd (paddle_of (swapped h s0) e)) s = Some (0, s')
    /\ sending h e st (T - 1) b n s0 evs s'.
Proof.
  intros Hq Hst HT.
  destruct (sending_settings _ _ _ _ _ _ _ Hq) as [Hsw [_ [Hclear [Hkey _]]]].
  destruct Hq as [Hheld [Hb [Hn [Hd0 Hd]]]].
  assert (Hdec : dec T = T - 1) by (apply dec_pos; lia).
  destruct (held_tick h Hlatch _ _ (latch_of_symbol e) ctrl _ _ _ _ _ _ _
              (paddle_of_state _ e) Hheld Hst ltac:(lia)) as [s' [E Hheld']].
  rewrite Hdec in Hheld'.
  assert (Hq : timing h st T b n s0 evs s).
  { destruct Hheld as [H1 [_ [H3 [_ [_ [_ [H7 [H8 H9]]]]]]]].
    repeat (split; [assumption |]). assumption. }
  destruct (timing_tick h Hlatch ctrl _ _ _ _ _ _ _ _ _ _ _ Hq Hst
              ltac:(lia) E) as [_ [_ [_ [Hb' [Hn' _]]]]].
  destruct (yackiambic_debounce h Hlatch ctrl _ _ _ _ _ Hclear E)
    as [_ [Hd' _]].
  rewrite Hsw, paddle_of_state, (debounce_same h) in Hd' by exact Hkey.
  cbn [debounceTimer set_debounceTimer set_timer] in Hd'.
  exists s'. split; [exact E |].
  split; [exact Hheld' |]. split; [exact Hb' |]. split; [exact Hn' |].
  rewrite Hd'. unfold dec.
  destruct (Z.eqb_spec (debounceTimer (fsm s)) 0) as [Hz | Hne].
  - split; [lia |]. destruct Hst as [-> | ->]; lia.
  - split; [lia |]. destruct Hst as [-> | ->]; lia.
Qed.

(** The element ends with its paddle still down. *)
Lemma sending_element_end (e : bool) (b n : Z)
    (evs : list event) (s : yack) :
  sending h e STATE_DAHDIT 1 b n s0 evs s ->
  exists s',
    yackiambic h ctrl (fst (paddle_of (swapped h s0) e))
      (snd (paddle_of (swapped h s0) e)) s = Some (0, s')
    /\ sending h e STATE_IEG (gap_ticks h (wpmcnt s0)) b n s0
         (evs ++ [EvKeyUp]) s'.
Proof.
  intros Hq.
  destruct (sending_settings _ _ _ _ _ _ _ Hq) as [Hsw [_ [Hclear [Hkey _]]]].
  destruct Hq as [Hheld [Hb [Hn [Hd0 Hd]]]].
  destruct (held_element_end h Hlatch Hud _ _ (latch_of_symbol e) ctrl _ _ _
              _ _ _ (paddle_of_state _ e) Hheld eq_refl) as [s' [E Hheld']].
  assert (Hq : timing h STATE_DAHDIT 1 b n s0 evs s).
  { destruct Hheld as [H1 [_ [H3 [_ [_ [_ [H7 [H8 H9]]]]]]]].
    repeat (split; [assumption |]). assumption. }
  destruct (timing_element_end h Hlatch Hud ctrl _ _ _ _ _ _ _ _ _ _ Hq
              eq_refl E) as [_ [_ [_ [Hb' [Hn' _]]]]].
  destruct (yackiambic_debounce h Hlatch ctrl _ _ _ _ _ Hclear E)
    as [_ [Hd' _]].
  rewrite Hsw, paddle_of_state, (debounce_same h) in Hd' by exact Hkey.
  cbn [debounceTimer set_debounceTimer set_timer] in Hd'.
  exists s'. split; [exact E |].
  split; [exact Hheld' |]. split; [exact Hb' |]. split; [exact Hn' |].
  rewrite Hd'. unfold dec.
  destruct (Z.eqb_spec (debounceTimer (fsm s)) 0) as [Hz | Hne]; lia.
Qed.

(** The timer runs down with the paddle of the element down. *)
Lemma sending_run (e : bool) (st : iambicState_t) (b n : Z)
    (evs : list event) (k : nat) :
  st = STATE_DAHDIT \/ st = STATE_IEG ->
  forall (T : Z) (s : yack),
    sending h e st T b n s0 evs s ->
    Z.of_nat k < T ->
    exists s',
      run h ctrl (repeat (paddle_of (swapped h s0) e) k) s
      = Some (repeat (0, key_level (hw s0 ++ evs)) k, s')
      /\ sending h e st (T - Z.of_nat k) b n s0 evs s'.
Proof.
  intros Hst. induction k as [| k IH]; intros T s Hq HT.
  - exists s. split; [reflexivity |].
    replace (T - Z.of_nat 0) with T by lia. exact Hq.
  - destruct (sending_tick _ _ _ _ _ _ _ Hq Hst) as [s1 [E1 Hq1]]; [lia |].
    destruct (IH _ _ Hq1) as [s' [E' Hq']]; [lia |].
    exists s'. split.
    + cbn [repeat].
      rewrite (surjective_pairing (paddle_of (swapped h s0) e)) at 1.
      rewrite (run_cons h ctrl _ _ _ _ _ _ E1), E'.
      destruct (sending_settings _ _ _ _ _ _ _ Hq1) as [_ [_ [_ [_ ->]]]].
      reflexivity.
    + replace (T - Z.of_nat (S k)) with (T - 1 - Z.of_nat k) by lia.
      exact Hq'.
Qed.

(** The last heartbeat of the gap with the paddle of the next element
    down: that element starts, and the buffer is shifted for it. *)
Lemma sending_switch (e e' : bool) (b n : Z) (evs : list event) (s : yack) :
  sending h e STATE_IEG 1 b n s0 evs s ->
  exists s',
    yackiambic h ctrl (fst (paddle_of (swapped h s0) e'))
      (snd (paddle_of (swapped h s0) e')) s = Some (0, s')
    /\ sending h e' STATE_DAHDIT
         (element_ticks h (keyed_symbol e') (wpmcnt s0))
         (shifted b e') (u8 (n + 1)) s0 (evs ++ [EvKeyDown]) s'.
Proof.
  intros Hq.
  destruct (sending_settings _ _ _ _ _ _ _ Hq) as [Hsw [_ [Hclear [Hkey Hhw]]]].
  destruct Hq as [Hheld [Hb [Hn [Hd0 Hd]]]].
  destruct Hheld as [Est [Ec [ET [Enx [Epk [_ [_ [_ Hkeep]]]]]]]].
  assert (Hdeb : dec (debounceTimer (fsm s)) = 0).
  { unfold dec. destruct (Z.eqb_spec (debounceTimer (fsm s)) 0); lia. }
  destruct (sample_fields (fst (paddle_of (swapped h s0) e'))
              (snd (paddle_of (swapped h s0) e')) s Hclear Hdeb)
    as [t [Et [Tk [Td [Tst [Tc [Tnx [Tpk [Tb [Tn [TT [Tclear
       [Thw Tkeep]]]]]]]]]]]]].
  rewrite Hsw, paddle_of_state in Tk, Td.
  rewrite Est in Tst. rewrite Epk in Tpk. rewrite ET in TT.
  change (dec 1) with 0 in TT.
  pose proof (keeps_trans _ _ _ Hkeep Tkeep) as Hkeep'.
  unfold yackiambic. rewrite Et. clear Et.
  assert (Hgap1 : exists t1,
             iambic_body h ctrl 0 t = Some (t1, 0, true)
             /\ iambicState (fsm t1) = STATE_DAHDIT_INIT
             /\ nextSymbol (fsm t1) = keyed_symbol e'
             /\ keystate (fsm t1) = latch_of h e'
             /\ latches_clear h t1 /\ hw t1 = hw s0 ++ evs
             /\ keeps_settings s0 t1
             /\ buffer (fsm t1) = b /\ bufctr (fsm t1) = n
             /\ debounceTimer (fsm t1) = debounceTimer (fsm t)).
  { unfold iambic_body. rewrite Tst.
    unfold iambic_element. cbv zeta.
    rewrite (track_pressed_one h Hlatch _ _ (latch_of_symbol e'))
      by assumption.
    rewrite TT, Tst. simpl Z.eqb. cbv iota.
    unfold gap_expired. cbv zeta.
    rewrite (resolve_next_one h Hlatch _ _ (latch_of_symbol e'))
      by assumption.
    fsm_simpl.
    destruct e'; cbn [keyed_symbol]; fsm_simpl;
      (eexists; split; [reflexivity |]); fsm_simpl;
      cbn [debounceTimer set_nextSymbol set_iambicState];
      rewrite ?Thw, ?Tb, ?Tn;
      repeat (split; [assumption || reflexivity |]);
      assumption || reflexivity. }
  destruct Hgap1 as [t1 [E1 [Est1 [Enx1 [Ek1 [Hc1 [Hh1 [Hkeep1
                    [Hb1 [Hn1 Hd1]]]]]]]]]].
  destruct (held_init h Hlatch Hud _ _ (latch_of_symbol e') 0 _ _ _
              Enx1 Ek1 Hc1 Hh1 Hkeep1) as [s' [E' Hq']].
  destruct (init_shifts 0 e' t1 Enx1) as [I1 [I2 I3]].
  rewrite E' in I1, I2, I3. cbn [fst] in I1, I2, I3.
  exists s'. split.
  - change (iambic_loop h 2 ctrl 0 t)
      with ('(s, retchar, repeatCycle) <- iambic_body h ctrl 0 t ;;
            if repeatCycle : bool then iambic_loop h 1 ctrl retchar s
            else Some (retchar, s)).
    rewrite E1. simpl bind. cbv iota.
    unfold iambic_loop, iambic_body. rewrite Est1, E'. reflexivity.
  - split; [exact Hq' |].
    rewrite I1, I2, I3, Hb1, Hn1, Hd1, Td.
    split; [reflexivity |]. split; [reflexivity |].
    pose proof holdoff_range.
    pose proof (element_ticks_range (keyed_symbol e') (wpmcnt s0)).
    destruct (keystate (fsm s) =? latch_of h e'); split; lia.
Qed.

(** The last heartbeat of the gap with the paddles open: the character
    is over and the gap between characters starts. *)
Lemma sending_release (e : bool) (b n : Z) (evs : list event) (s : yack) :
  sending h e STATE_IEG 1 b n s0 evs s ->
  exists s',
    yackiambic h ctrl false false s = Some (0, s')
    /\ quiet h STATE_ICG (u16 ((ICGLEN h - IEGLEN h - 1) * wpmcnt s0)) b n
         s0 evs s'.
Proof.
  intros Hq.
  destruct (sending_settings _ _ _ _ _ _ _ Hq) as [Hsw [_ [Hclear [Hkey Hhw]]]].
  destruct Hq as [Hheld [Hb [Hn [Hd0 Hd]]]].
  destruct Hheld as [Est [Ec [ET [Enx [Epk [_ [_ [_ Hkeep]]]]]]]].
  assert (Hdeb : dec (debounceTimer (fsm s)) = 0).
  { unfold dec. destruct (Z.eqb_spec (debounceTimer (fsm s)) 0); lia. }
  destruct (sample_fields false false s Hclear Hdeb)
    as [t [Et [Tk [Td [Tst [Tc [Tnx [Tpk [Tb [Tn [TT [Tclear
       [Thw Tkeep]]]]]]]]]]]]].
  rewrite (paddle_state_none h) in Tk.
  rewrite Est in Tst. rewrite Enx in Tnx. rewrite ET in TT.
  change (dec 1) with 0 in TT.
  pose proof (keeps_trans _ _ _ Hkeep Tkeep) as Hkeep'.
  assert (Hw : wpmcnt t = wpmcnt s0) by apply Hkeep'.
  unfold yackiambic. rewrite Et. clear Et.
  unfold iambic_loop, iambic_body. rewrite Tst.
  unfold iambic_element. cbv zeta.
  rewrite (track_pressed_open h Hlatch) by exact Tk. fsm_simpl.
  rewrite TT, Tst. simpl Z.eqb. cbv iota.
  unfold gap_expired. cbv zeta.
  rewrite (resolve_next_open h Hlatch) by (fsm_simpl; assumption).
  fsm_simpl. rewrite Tnx. fsm_simpl.
  eexists. split; [reflexivity |].
  unfold quiet; fsm_simpl; rewrite Hw, Thw, Tb, Tn.
  repeat (split; [assumption || reflexivity |]); exact Hkeep'.
Qed.

(** The paddle of the first element closes while the keyer is idle. *)
Lemma sending_start (e : bool) :
  iambicState (fsm s0) = STATE_IDLE ->
  keystate (fsm s0) = 0 ->
  dec (debounceTimer (fsm s0)) = 0 ->
  latches_clear h s0 ->
  exists s',
    yackiambic h ctrl (fst (paddle_of (swapped h s0) e))
      (snd (paddle_of (swapped h s0) e)) s0 = Some (0, s')
    /\ sending h e STATE_DAHDIT
         (element_ticks h (keyed_symbol e) (wpmcnt s0))
         (shifted (buffer (fsm s0)) e) (u8 (bufctr (fsm s0) + 1)) s0
         [EvKeyDown] s'.
Proof.
  intros Hst Hkey Hdeb Hclear.
  destruct (sample_fields (fst (paddle_of (swapped h s0) e))
              (snd (paddle_of (swapped h s0) e)) s0 Hclear Hdeb)
    as [t [Et [Tk [Td [Tst [Tc [Tnx [Tpk [Tb [Tn [TT [Tclear
       [Thw Tkeep]]]]]]]]]]]]].
  rewrite paddle_of_state in Tk, Td. rewrite Hst in Tst.
  unfold yackiambic. rewrite Et. clear Et.
  pose proof (latch_not_0 h Hlatch _ _ (latch_of_symbol e)) as Hk0.
  assert (Hwait : exists t1,
             iambic_body h ctrl 0 t = Some (t1, 0, true)
             /\ iambicState (fsm t1) = STATE_DAHDIT_INIT
             /\ nextSymbol (fsm t1) = keyed_symbol e
             /\ keystate (fsm t1) = latch_of h e
             /\ latches_clear h t1 /\ hw t1 = hw s0 ++ []
             /\ keeps_settings s0 t1
             /\ buffer (fsm t1) = buffer (fsm s0)
             /\ bufctr (fsm t1) = bufctr (fsm s0)
             /\ debounceTimer (fsm t1) = debounceTimer (fsm t)).
  { unfold iambic_body. rewrite Tst.
    unfold iambic_waiting, waiting_keys. rewrite Tk, Hk0.
    simpl negb. cbv iota.
    rewrite waiting_timeout_init
      by (destruct e; cbn [latch_of];
          rewrite ?Z.eqb_refl, ?(dahlatch_not_ditlatch h Hlatch);
          reflexivity).
    cbn [bind].
    destruct e; cbn [latch_of keyed_symbol] in *;
      rewrite ?Z.eqb_refl, ?(dahlatch_not_ditlatch h Hlatch);
      (eexists; split; [reflexivity |]); fsm_simpl;
      cbn [debounceTimer set_nextSymbol set_iambicState];
      rewrite ?app_nil_r, ?Thw, ?Tb, ?Tn;
      repeat (split; [assumption || reflexivity |]);
      assumption || reflexivity. }
  destruct Hwait as [t1 [E1 [Est1 [Enx1 [Ek1 [Hc1 [Hh1 [Hkeep1
                    [Hb1 [Hn1 Hd1]]]]]]]]]].
  destruct (held_init h Hlatch Hud _ _ (latch_of_symbol e) 0 _ _ _
              Enx1 Ek1 Hc1 Hh1 Hkeep1) as [s' [E' Hq']].
  destruct (init_shifts 0 e t1 Enx1) as [I1 [I2 I3]].
  rewrite E' in I1, I2, I3. cbn [fst] in I1, I2, I3.
  exists s'. split.
  - change (iambic_loop h 2 ctrl 0 t)
      with ('(s, retchar, repeatCycle) <- iambic_body h ctrl 0 t ;;
            if repeatCycle : bool then iambic_loop h 1 ctrl retchar s
            else Some (retchar, s)).
    rewrite E1. simpl bind. cbv iota.
    unfold iambic_loop, iambic_body. rewrite Est1, E'. reflexivity.
  - split; [exact Hq' |].
    rewrite I1, I2, I3, Hb1, Hn1, Hd1, Td.
    split; [reflexivity |]. split; [reflexivity |].
    pose proof holdoff_range.
    pose proof (element_ticks_range (keyed_symbol e) (wpmcnt s0)).
    destruct (keystate (fsm s0) =? latch_of h e); split; lia.
Qed.

Hypothesis Hticks : forall c, 0 < element_ticks h c (wpmcnt s0).

(** One element with its paddle down, and its gap but for the last
    heartbeat. *)
Lemma sending_element (e : bool) (b n : Z) (evs : list event) (s : yack) :
  sending h e STATE_DAHDIT (element_ticks h (keyed_symbol e) (wpmcnt s0))
    b n s0 evs s ->
  key_level (hw s0 ++ evs) = true ->
  exists s',
    run h ctrl
      (repeat (paddle_of (swapped h s0) e)
         (Z.to_nat (element_ticks h (keyed_symbol e) (wpmcnt s0)) - 1
          + Z.to_nat (gap_ticks h (wpmcnt s0)))) s
    = Some (repeat (0, true)
              (Z.to_nat (element_ticks h (keyed_symbol e) (wpmcnt s0)) - 1)
            ++ repeat (0, false) (Z.to_nat (gap_ticks h (wpmcnt s0))), s')
    /\ sending h e STATE_IEG 1 b n s0 (evs ++ [EvKeyUp]) s'.
Proof.
  intros Hq Hlvl.
  pose proof (Hticks (keyed_symbol e)) as HT.
  set (T := element_ticks h (keyed_symbol e) (wpmcnt s0)) in *.
  set (G := gap_ticks h (wpmcnt s0)) in *.
  set (k1 := (Z.to_nat T - 1)%nat).
  set (k2 := (Z.to_nat G - 1)%nat).
  assert (EG : Z.to_nat G = S k2) by (unfold k2; lia).
  destruct (sending_run e STATE_DAHDIT b n evs k1 (or_introl eq_refl) T s Hq)
    as [s1 [E1 Hq1]]; [unfold k1; lia |].
  replace (T - Z.of_nat k1) with 1 in Hq1 by (unfold k1; lia).
  destruct (sending_element_end _ _ _ _ _ Hq1) as [s2 [E2 Hq2]].
  fold G in Hq2.
  destruct (sending_run e STATE_IEG b n (evs ++ [EvKeyUp]) k2
              (or_intror eq_refl) G s2 Hq2) as [s3 [E3 Hq3]];
    [unfold k2; lia |].
  replace (G - Z.of_nat k2) with 1 in Hq3 by (unfold k2; lia).
  exists s3. split; [| exact Hq3].
  assert (Eh2 : key_level (hw s2) = false).
  { destruct (sending_settings _ _ _ _ _ _ _ Hq2) as [_ [_ [_ [_ ->]]]].
    rewrite app_assoc. apply key_level_up. }
  rewrite EG.
  replace (k1 + S k2)%nat with (k1 + (1 + k2))%nat by lia.
  rewrite !repeat_app.
  rewrite (run_app h ctrl _ _ _ _ _ E1).
  cbn [repeat app].
  rewrite (surjective_pairing (paddle_of (swapped h s0) e)) at 1.
  rewrite (run_cons h ctrl _ _ _ _ _ _ E2), E3.
  rewrite Hlvl, Eh2, (app_assoc (hw s0)), key_level_up. reflexivity.
Qed.

(** The elements behind the first, and the end of the character. *)
Lemma sending_rest (rest : list bool) :
  forall (e : bool) (b n : Z) (evs : list event) (s : yack),
    sending h e STATE_DAHDIT (element_ticks h (keyed_symbol e) (wpmcnt s0))
      b n s0 evs s ->
    key_level (hw s0 ++ evs) = true ->
    exists s1,
      run h ctrl (keying_rest h (swapped h s0) (wpmcnt s0) e rest) s
      = Some (keyed_rest_out h (wpmcnt s0) e rest, s1)
      /\ quiet h STATE_ICG (u16 ((ICGLEN h - IEGLEN h - 1) * wpmcnt s0))
           (buffer_after rest b) (bufctr_after (List.length rest) n)
           s0 (evs ++ key_cycles rest ++ [EvKeyUp]) s1.
Proof.
  induction rest as [| e' rest IH]; intros e b n evs s Hq Hlvl.
  - destruct (sending_element _ _ _ _ _ Hq Hlvl) as [s1 [E1 Hq1]].
    destruct (sending_release _ _ _ _ _ Hq1) as [s2 [E2 Hq2]].
    exists s2. split; [| exact Hq2].
    cbn [keying_rest keyed_rest_out].
    rewrite (run_app h ctrl _ _ _ _ _ E1).
    rewrite (run_cons h ctrl _ _ _ _ _ _ E2). cbn [run].
    destruct Hq2 as [_ [_ [_ [_ [_ [_ [_ [-> _]]]]]]]].
    rewrite (app_assoc (hw s0)), key_level_up, <- app_assoc. reflexivity.
  - destruct (sending_element _ _ _ _ _ Hq Hlvl) as [s1 [E1 Hq1]].
    destruct (sending_switch _ e' _ _ _ _ Hq1) as [s2 [E2 Hq2]].
    assert (Hlvl2 : key_level (hw s0 ++ (evs ++ [EvKeyUp]) ++ [EvKeyDown])
                    = true)
      by (rewrite !app_assoc; apply key_level_down).
    destruct (IH _ _ _ _ _ Hq2 Hlvl2) as [s3 [E3 Hq3]].
    exists s3. split.
    + cbn [keying_rest keyed_rest_out].
      rewrite (run_app h ctrl _ _ _ _ _ E1).
      rewrite (surjective_pairing (paddle_of (swapped h s0) e')) at 1.
      rewrite (run_cons h ctrl _ _ _ _ _ _ E2), E3.
      destruct (sending_settings _ _ _ _ _ _ _ Hq2) as [_ [_ [_ [_ ->]]]].
      rewrite Hlvl2, <- app_assoc. reflexivity.
    + unfold key_cycles in *. cbn [map List.concat buffer_after bufctr_after
                                   List.length].
      rewrite <- !app_assoc in Hq3. cbn [app] in Hq3 |- *.
      exact Hq3.
Qed.

End Keying.



(** The theorem is about keying one paddle at a time.  A squeeze out of
    the idle keyer keys nothing, but every heartbeat of it enters
    [STATE_DAHDIT_INIT] and so shifts the buffer and counts: two such
    heartbeats before a single dit make the counter 3, and the dit is
    decoded as S. *)
Lemma squeeze_shifts_buffer :
  exists out s',
    run yack_h (ON yack_h)
      ([(true, true); (true, true); (true, false)]
       ++ repeat (false, false) 48) started
    = Some (out, s')
    /\ map snd out = false :: false :: repeat true 16 ++ repeat false 33
    /\ filter (fun x => negb (fst x =? 0)) out = [(chr "S", false)].
Proof.
  do 2 eexists.
  split; [vm_compute; reflexivity |].
  split; vm_compute; reflexivity.
Qed.
